(** * vmware2scw: the migration pipeline and the offline Windows VirtIO patcher

    A shallow embedding of

      - [vmware2scw/pipeline/migration.py]  (class [MigrationPipeline]) and
      - [vmware2scw/converter/windows_virtio.py]

    Python values are modelled as follows.  A [str] that only ever holds
    ASCII text (stage names, paths, registry text) is a [string]; a [str]
    holding arbitrary text is a list of code points.  A [dict] is a [gmap].
    Statements run in a small state-and-exception monad: a computation maps
    a state to a result ([Ok] value or [Raise]d exception) and a new state. *)

From Stdlib Require Import ZArith Ascii String Lia.
From stdpp Require Import gmap strings list pretty sorting.

Local Open Scope Z_scope.


(** ** Python statements: state, exceptions, loops *)

Module Py.

(** The exceptions the two modules raise themselves, and [Foreign] for
    whatever a collaborator (an imported class or function that is not
    part of the two files) raises. *)
Inductive PyExn :=
| RuntimeError (msg : string)
| ValueError (msg : string)
| KeyError (key : string)
| NotImplementedError (msg : string)
| Foreign (msg : string).

(** [str(e)] *)
Definition str_exn (e : PyExn) : string :=
  match e with
  | RuntimeError m | ValueError m | NotImplementedError m | Foreign m => m
  | KeyError k => "'" +:+ k +:+ "'"
  end.

Inductive Res (A : Type) :=
| Ok (a : A)
| Raise (e : PyExn).
Global Arguments Ok {A} a.
Global Arguments Raise {A} e.

Definition M (S A : Type) : Type := S -> Res A * S.

Global Instance M_ret {S} : MRet (M S) := fun A a s => (Ok a, s).

Global Instance M_bind {S} : MBind (M S) := fun A B f m s =>
  match m s with
  | (Ok a, s') => f a s'
  | (Raise e, s') => (Raise e, s')
  end.

Definition get_st {S} : M S S := fun s => (Ok s, s).
Definition modify {S} (f : S -> S) : M S unit := fun s => (Ok tt, f s).
Definition raise {S A} (e : PyExn) : M S A := fun s => (Raise e, s).

(** [try: m  except Exception as e: h e] *)
Definition try_except {S A} (m : M S A) (h : PyExn -> M S A) : M S A :=
  fun s =>
    match m s with
    | (Ok a, s') => (Ok a, s')
    | (Raise e, s') => h e s'
    end.

(** [try: m  finally: f] *)
Definition try_finally {S A} (m : M S A) (f : M S unit) : M S A :=
  fun s =>
    match m s with
    | (r, s') =>
        match f s' with
        | (Ok _, s'') => (r, s'')
        | (Raise e, s'') => (Raise e, s'')
        end
    end.

(** [for x in l: body x] (a body that ends early is a [continue]) *)
Fixpoint for_each {S A} (l : list A) (body : A -> M S unit) : M S unit :=
  match l with
  | [] => mret tt
  | x :: rest => body x;; for_each rest body
  end.

Inductive Level := DEBUG | INFO | WARNING | ERROR.

Definition LogLine : Type := Level * string.

End Py.

(** ** [vmware2scw/pipeline/migration.py] *)

Module Pipeline.
Import Py.

(** [MigrationPipeline.STAGES] *)
Definition STAGES : list string :=
  [ "validate";
    "snapshot";
    "export";
    "convert";
    "clean_tools";
    "inject_virtio";
    "fix_bootloader";
    "ensure_uefi";
    "fix_network";
    "upload_s3";
    "import_scw";
    "verify";
    "cleanup" ].

(** [list.index]: position of the first occurrence. *)
Fixpoint index (x : string) (l : list string) : option nat :=
  match l with
  | [] => None
  | y :: rest => if decide (y = x) then Some 0%nat else S <$> index x rest
  end.

(** Values stored in [state.artifacts]: an identifier or a name, a list of
    paths or keys, or the [model_dump()] of the VM description restricted
    to its text fields ([guest_os], [firmware], ...). *)
Inductive Artifact :=
| AStr (s : string)
| AList (l : list string)
| ADict (d : gmap string string).

(** [vmware2scw.config.VMMigrationPlan] *)
Record VMMigrationPlan := mkPlan {
  plan_vm_name : string;
  plan_target_type : string;
  plan_zone : string;
  plan_skip_validation : bool
}.

(** [vmware2scw.pipeline.state.MigrationState] *)
Record MigrationState := mkState {
  migration_id : string;
  vm_name : string;
  target_type : string;
  zone : string;
  current_stage : string;
  completed_stages : list string;
  artifacts : gmap string Artifact;
  started_at : Z;
  error : option string
}.

Definition set_current_stage (s : string) (st : MigrationState) :=
  mkState (migration_id st) (vm_name st) (target_type st) (zone st)
          s (completed_stages st) (artifacts st) (started_at st) (error st).
Definition set_completed_stages (c : list string) (st : MigrationState) :=
  mkState (migration_id st) (vm_name st) (target_type st) (zone st)
          (current_stage st) c (artifacts st) (started_at st) (error st).
Definition set_artifacts (a : gmap string Artifact) (st : MigrationState) :=
  mkState (migration_id st) (vm_name st) (target_type st) (zone st)
          (current_stage st) (completed_stages st) a (started_at st) (error st).
Definition set_error (e : option string) (st : MigrationState) :=
  mkState (migration_id st) (vm_name st) (target_type st) (zone st)
          (current_stage st) (completed_stages st) (artifacts st) (started_at st) e.

(** [MigrationResult] *)
Record MigrationResult := mkResult {
  success : bool;
  result_migration_id : string;
  result_vm_name : string;
  instance_id : option Artifact;
  image_id : option Artifact;
  duration : string;
  failed_stage : option string;
  result_error : option string;
  result_completed_stages : list string
}.

(** The conversion host's local disk, as [pathlib] sees it, next to
    everything that lives elsewhere (vCenter, object storage, the cloud
    API, the clock). *)
Inductive DiskNode :=
| File (size : Z)
| Dir.

Record Site (R : Type) := mkSite {
  disk : gmap string DiskNode;
  remote : R
}.
Global Arguments mkSite {R} _ _.
Global Arguments disk {R} _.
Global Arguments remote {R} _.

(** The collaborators of the pipeline: imported classes and functions whose
    code is not part of [migration.py], the standard library calls whose
    result is not determined by the program, and the configuration.  A
    collaborator call maps the site to a result and a new site. *)
Class Collaborators := {
  Remote : Type;
  (** [str(uuid.uuid4())[:8]], [time.time()], [datetime.now()] *)
  uuid8 : Remote -> string * Remote;
  time_time : Remote -> Z * Remote;
  datetime_now : Remote -> Z * Remote;
  (** [f"{elapsed:.0f}s"] for [elapsed = now - start_time] *)
  fmt_elapsed : Z -> Z -> string;
  (** [f"{st_size / (1024**2):.0f}"] *)
  fmt_mb : Z -> string;
  (** [Path(p).name], [str(Path(p).with_suffix(s))] ([None]: ValueError) *)
  path_name : string -> string;
  path_with_suffix : string -> string -> option string;
  (** [self.config.conversion.compress_qcow2], and the value of
      [skip_validation] in a plan built without it *)
  compress_qcow2 : bool;
  default_skip_validation : bool;
  (** [ResourceMapper().get_os_family] *)
  get_os_family : string -> string * string;
  (** [VMwareToolsCleaner().clean(disk, os_family=...)] *)
  cleaner_clean : string -> string -> Site Remote -> Res unit * Site Remote;
  (** [DiskConverter().check], [DiskConverter().convert] *)
  converter_check : string -> Site Remote -> Res bool * Site Remote;
  converter_convert :
    string -> string -> bool -> Site Remote -> Res unit * Site Remote;
  (** [run_command(cmd, env={"LIBGUESTFS_BACKEND": "direct"}, check=False)] *)
  run_command_direct_nocheck :
    list string -> Site Remote -> Res unit * Site Remote;
  (** [detect_boot_type], [convert_bios_to_uefi] *)
  detect_boot_type : string -> Site Remote -> Res string * Site Remote;
  convert_bios_to_uefi :
    string -> string -> Site Remote -> Res bool * Site Remote;
  (** [ScalewayInstanceAPI]: each call returns the ["id"] it reads *)
  create_snapshot_from_s3 :
    string -> string -> string -> string ->
    Site Remote -> Res string * Site Remote;
  wait_for_snapshot : string -> string -> Site Remote -> Res unit * Site Remote;
  create_image :
    string -> string -> string -> Site Remote -> Res string * Site Remote;
  (** The part of [_stage_inject_virtio] after its guard: virt-v2v and its
      fallback, which never touch [state.artifacts]. *)
  inject_virtio_body : string -> string -> Site Remote -> Res unit * Site Remote;
  (** Handlers made of collaborator calls only: the exception raised, if
      any, the artifacts and the site they leave. *)
  validate_body :
    VMMigrationPlan -> MigrationState -> Site Remote ->
    Res unit * gmap string Artifact * Site Remote;
  snapshot_body :
    VMMigrationPlan -> MigrationState -> Site Remote ->
    Res unit * gmap string Artifact * Site Remote;
  export_body :
    VMMigrationPlan -> MigrationState -> Site Remote ->
    Res unit * gmap string Artifact * Site Remote;
  upload_s3_body :
    VMMigrationPlan -> MigrationState -> Site Remote ->
    Res unit * gmap string Artifact * Site Remote;
  cleanup_body :
    VMMigrationPlan -> MigrationState -> Site Remote ->
    Res unit * gmap string Artifact * Site Remote
}.

Section Handlers.
Context {C : Collaborators}.

(** What a handler runs on: the state object it is passed, the site and
    the log. *)
Record HState := mkH {
  h_state : MigrationState;
  h_site : Site Remote;
  h_log : list LogLine
}.

Definition H (A : Type) : Type := M HState A.

Definition logger (lvl : Level) (msg : string) : H unit :=
  modify (fun h => mkH (h_state h) (h_site h) (h_log h ++ [(lvl, msg)])).

Definition call {A} (c : Site Remote -> Res A * Site Remote) : H A :=
  fun h => let '(r, s) := c (h_site h) in (r, mkH (h_state h) s (h_log h)).

(** [state.artifacts.get(k)] *)
Definition artifacts_get (k : string) : H (option Artifact) :=
  fun h => (Ok (artifacts (h_state h) !! k), h).

(** [state.artifacts.get(k, [])] where the producers store a list; an
    entry of another shape is never written by the pipeline. *)
Definition artifacts_get_list (k : string) : H (list string) :=
  a ← artifacts_get k;
  mret (match a with Some (AList l) => l | _ => [] end).

(** [state.artifacts.get(k, {})] *)
Definition artifacts_get_dict (k : string) : H (gmap string string) :=
  a ← artifacts_get k;
  mret (match a with Some (ADict d) => d | _ => ∅ end).

(** [state.artifacts[k]] *)
Definition artifacts_getitem (k : string) : H Artifact :=
  a ← artifacts_get k;
  match a with
  | Some v => mret v
  | None => raise (KeyError k)
  end.

(** [state.artifacts[k] = v] *)
Definition artifacts_set (k : string) (v : Artifact) : H unit :=
  modify (fun h =>
    mkH (set_artifacts (<[k := v]> (artifacts (h_state h))) (h_state h))
        (h_site h) (h_log h)).

(** [Path(p).exists()] *)
Definition path_exists (p : string) : H bool :=
  fun h => (Ok (bool_decide (is_Some (disk (h_site h) !! p))), h).

(** [Path(p).stat().st_size] *)
Definition stat_size (p : string) : H Z :=
  fun h =>
    match disk (h_site h) !! p with
    | Some (File n) => (Ok n, h)
    | Some Dir => (Ok 4096, h)
    | None => (Raise (Foreign "FileNotFoundError"), h)
    end.

(** [Path(p).unlink()]: removes a file, raises on anything else. *)
Definition unlink (p : string) : H unit :=
  fun h =>
    match disk (h_site h) !! p with
    | Some (File _) =>
        (Ok tt, mkH (h_state h)
                    (mkSite (delete p (disk (h_site h))) (remote (h_site h)))
                    (h_log h))
    | Some Dir => (Raise (Foreign "IsADirectoryError"), h)
    | None => (Raise (Foreign "FileNotFoundError"), h)
    end.

(** A handler whose body is collaborator calls only. *)
Definition of_body
    (body : VMMigrationPlan -> MigrationState -> Site Remote ->
            Res unit * gmap string Artifact * Site Remote)
    (plan : VMMigrationPlan) : H unit :=
  fun h =>
    let '(r, a, s) := body plan (h_state h) (h_site h) in
    (r, mkH (set_artifacts a (h_state h)) s (h_log h)).

Definition _stage_validate := of_body validate_body.
Definition _stage_snapshot := of_body snapshot_body.
Definition _stage_export := of_body export_body.
Definition _stage_upload_s3 := of_body upload_s3_body.
Definition _stage_cleanup := of_body cleanup_body.

(** [_stage_clean_tools] *)
Definition _stage_clean_tools (plan : VMMigrationPlan) : H unit :=
  vm_info_dict ← artifacts_get_dict "vm_info";
  let guest_os := default "otherLinux64Guest" (vm_info_dict !! "guest_os") in
  let os_family := fst (get_os_family guest_os) in
  qcow2_paths ← artifacts_get_list "qcow2_paths";
  match qcow2_paths with
  | [] => logger WARNING "No qcow2 files found — skipping clean_tools"
  | boot_disk :: _ =>
      logger INFO ("Cleaning boot disk: " +:+ path_name boot_disk);;
      call (cleaner_clean boot_disk os_family);;
      if decide (1 < length qcow2_paths)%nat
      then logger INFO ("Skipping " +:+ pretty (length qcow2_paths - 1)%nat
                        +:+ " data disk(s) — no OS to clean")
      else mret tt
  end.

(** [_stage_inject_virtio]: the guard, then virt-v2v and its fallback. *)
Definition _stage_inject_virtio (plan : VMMigrationPlan) : H unit :=
  vm_info_dict ← artifacts_get_dict "vm_info";
  let guest_os := default "otherLinux64Guest" (vm_info_dict !! "guest_os") in
  let os_family := fst (get_os_family guest_os) in
  qcow2_paths ← artifacts_get_list "qcow2_paths";
  match qcow2_paths with
  | [] => logger WARNING "No qcow2 files found — skipping inject_virtio"
  | boot_disk :: _ => call (inject_virtio_body boot_disk os_family)
  end.

(** One iteration of the conversion loop of [_stage_convert]; returns
    the path appended to [qcow2_paths]. *)
Definition convert_one (vmdk : string) : H string :=
  match path_with_suffix vmdk ".qcow2" with
  | None => raise (ValueError "has an empty name")
  | Some qcow2_path =>
      present ← path_exists qcow2_path;
      valid ← (if present : bool
               then call (converter_check qcow2_path)
               else (mret false : H bool));
      if valid : bool
      then
        logger INFO ("Skipping conversion (already exists): "
                     +:+ path_name qcow2_path);;
        mret qcow2_path
      else
        call (converter_convert vmdk qcow2_path compress_qcow2);;
        mret qcow2_path
  end.

Fixpoint convert_all (vmdks : list string) (qcow2_paths : list string)
    : H (list string) :=
  match vmdks with
  | [] => mret qcow2_paths
  | vmdk :: rest =>
      q ← convert_one vmdk;
      convert_all rest (qcow2_paths ++ [q])
  end.

(** One iteration of the deletion loop of [_stage_convert]. *)
Definition delete_source (vmdk : string) : H unit :=
  present ← path_exists vmdk;
  if present : bool
  then
    size ← stat_size vmdk;
    unlink vmdk;;
    logger INFO ("Deleted source VMDK: " +:+ path_name vmdk +:+ " ("
                 +:+ fmt_mb size +:+ " MB freed)")
  else mret tt.

(** [_stage_convert] *)
Definition _stage_convert (plan : VMMigrationPlan) : H unit :=
  vmdk_paths ← artifacts_get_list "vmdk_paths";
  qcow2_paths ← convert_all vmdk_paths [];
  artifacts_set "qcow2_paths" (AList qcow2_paths);;
  vmdk_paths' ← artifacts_get_list "vmdk_paths";
  for_each vmdk_paths' delete_source.

(** The [virt-customize] arguments of [_stage_fix_bootloader]. *)
Definition bootloader_commands : list string :=
  [ "--run-command";
    "if [ -f /etc/fstab ]; then "
    +:+ "  cp /etc/fstab /etc/fstab.vmware2scw.bak; "
    +:+ "  sed -i 's|/dev/sda|/dev/vda|g; s|/dev/sdb|/dev/vdb|g; s|/dev/sdc|/dev/vdc|g' /etc/fstab; "
    +:+ "fi";
    "--run-command";
    "if [ -f /etc/default/grub ]; then "
    +:+ "  cp /etc/default/grub /etc/default/grub.vmware2scw.bak; "
    +:+ "  sed -i 's|/dev/sda|/dev/vda|g' /etc/default/grub; "
    +:+ "fi";
    "--run-command";
    "if [ -f /boot/grub/device.map ]; then "
    +:+ "  sed -i 's|/dev/sda|/dev/vda|g' /boot/grub/device.map; "
    +:+ "fi";
    "--run-command";
    "if command -v grub-mkconfig >/dev/null 2>&1; then "
    +:+ "  grub-mkconfig -o /boot/grub/grub.cfg 2>/dev/null || true; "
    +:+ "elif command -v grub2-mkconfig >/dev/null 2>&1; then "
    +:+ "  grub2-mkconfig -o /boot/grub2/grub.cfg 2>/dev/null || true; "
    +:+ "fi";
    "--run-command";
    "if [ -d /etc/initramfs-tools ]; then "
    +:+ "  for mod in virtio_blk virtio_scsi virtio_net virtio_pci; do "
    +:+ "    grep -q $mod /etc/initramfs-tools/modules 2>/dev/null || echo $mod >> /etc/initramfs-tools/modules; "
    +:+ "  done; "
    +:+ "  update-initramfs -u 2>/dev/null || true; "
    +:+ "elif command -v dracut >/dev/null 2>&1; then "
    +:+ "  dracut --force --add-drivers 'virtio_blk virtio_scsi virtio_net virtio_pci' 2>/dev/null || true; "
    +:+ "fi";
    "--run-command";
    "rm -f /etc/modprobe.d/*vmw* 2>/dev/null || true; "
    +:+ "rm -f /etc/modprobe.d/*vmware* 2>/dev/null || true";
    "--run-command";
    "rm -f /etc/udev/rules.d/70-persistent-net.rules 2>/dev/null || true; "
    +:+ "rm -f /etc/udev/rules.d/75-persistent-net-generator.rules 2>/dev/null || true";
    "--run-command";
    "if [ -d /etc/netplan ]; then "
    +:+ "  cat > /etc/netplan/50-cloud-init.yaml << 'NETPLAN'
"
    +:+ "network:
"
    +:+ "  version: 2
"
    +:+ "  ethernets:
"
    +:+ "    ens2:
"
    +:+ "      dhcp4: true
"
    +:+ "    eth0:
"
    +:+ "      dhcp4: true
"
    +:+ "NETPLAN
"
    +:+ "elif [ -d /etc/sysconfig/network-scripts ]; then "
    +:+ "  cat > /etc/sysconfig/network-scripts/ifcfg-eth0 << 'IFCFG'
"
    +:+ "DEVICE=eth0
"
    +:+ "ONBOOT=yes
"
    +:+ "BOOTPROTO=dhcp
"
    +:+ "IFCFG
"
    +:+ "fi" ].

(** [_stage_fix_bootloader] *)
Definition _stage_fix_bootloader (plan : VMMigrationPlan) : H unit :=
  vm_info_dict ← artifacts_get_dict "vm_info";
  let guest_os := default "" (vm_info_dict !! "guest_os") in
  let os_family := fst (get_os_family guest_os) in
  qcow2_paths ← artifacts_get_list "qcow2_paths";
  match qcow2_paths with
  | [] => mret tt
  | boot_disk :: _ =>
      if decide (os_family = "windows")
      then logger INFO "Windows VM — bootloader fix not applicable (BCD is handled by VirtIO injection)"
      else
        logger INFO "Fixing bootloader for KVM compatibility...";;
        call (run_command_direct_nocheck
                (["virt-customize"; "-a"; boot_disk] ++ bootloader_commands));;
        logger INFO "Bootloader and network configuration fixed for KVM"
  end.

(** [_stage_ensure_uefi] *)
Definition _stage_ensure_uefi (plan : VMMigrationPlan) : H unit :=
  vm_info_dict ← artifacts_get_dict "vm_info";
  let guest_os := default "" (vm_info_dict !! "guest_os") in
  let firmware := default "bios" (vm_info_dict !! "firmware") in
  let os_family := fst (get_os_family guest_os) in
  qcow2_paths ← artifacts_get_list "qcow2_paths";
  match qcow2_paths with
  | [] => mret tt
  | boot_disk :: _ =>
      boot_type ← call (detect_boot_type boot_disk);
      logger INFO ("Boot type detection: firmware=" +:+ firmware
                   +:+ ", disk=" +:+ boot_type);;
      if decide (boot_type = "uefi")
      then logger INFO "Disk already UEFI-bootable — skipping conversion"
      else if decide (os_family = "windows")
      then logger WARNING
             ("Windows BIOS→UEFI requires virt-v2v + virtio-win ISO. "
              +:+ "Manual conversion not supported. Consider using a RHEL/CentOS "
              +:+ "conversion host where virt-v2v works correctly.")
      else
        logger INFO "Disk is BIOS — converting to UEFI for Scaleway compatibility";;
        converted ← call (convert_bios_to_uefi boot_disk os_family);
        if converted : bool
        then logger INFO "BIOS → UEFI conversion successful"
        else logger WARNING "BIOS → UEFI conversion was not performed"
  end.

(** [_stage_fix_network] *)
Definition _stage_fix_network (plan : VMMigrationPlan) : H unit :=
  logger INFO "Network adaptation already handled in fix_bootloader stage".

(** [_stage_import_scw] *)
Definition _stage_import_scw (plan : VMMigrationPlan) : H unit :=
  h ← get_st;
  let state := h_state h in
  let zone := plan_zone plan in
  bucket ← artifacts_getitem "s3_bucket";
  s3_keys ← artifacts_get_list "s3_keys";
  match s3_keys with
  | [] => raise (RuntimeError "No S3 keys found — upload stage may have failed")
  | boot_key :: _ =>
      let bucket := match bucket with AStr b => b | _ => "" end in
      let snapshot_name :=
        "vmware2scw-" +:+ plan_vm_name plan +:+ "-" +:+ migration_id state in
      logger INFO ("Creating Scaleway snapshot from s3://" +:+ bucket
                   +:+ "/" +:+ boot_key);;
      snapshot_id ← call (create_snapshot_from_s3 zone snapshot_name bucket boot_key);
      artifacts_set "scaleway_snapshot_id" (AStr snapshot_id);;
      logger INFO ("Waiting for snapshot " +:+ snapshot_id +:+ "...");;
      call (wait_for_snapshot zone snapshot_id);;
      let image_name := "migrated-" +:+ plan_vm_name plan in
      logger INFO ("Creating Scaleway image '" +:+ image_name +:+ "'");;
      image ← call (create_image zone image_name snapshot_id);
      artifacts_set "scaleway_image_id" (AStr image);;
      logger INFO ("Image created: " +:+ image)
  end.

(** [_stage_verify]; [scaleway_image_id] only ever holds a string, and an
    empty string is falsy. *)
Definition _stage_verify (plan : VMMigrationPlan) : H unit :=
  image_id ← artifacts_get "scaleway_image_id";
  match image_id with
  | Some (AStr i) =>
      if decide (i = "")
      then logger WARNING "⚠️  No Scaleway image ID found — verify manually"
      else logger INFO ("✅ Scaleway image created: " +:+ i)
  | _ => logger WARNING "⚠️  No Scaleway image ID found — verify manually"
  end.

(** [getattr(self, f"_stage_{stage}", None)] *)
Definition handler_table : list (string * (VMMigrationPlan -> H unit)) :=
  [ ("validate", _stage_validate);
    ("snapshot", _stage_snapshot);
    ("export", _stage_export);
    ("clean_tools", _stage_clean_tools);
    ("inject_virtio", _stage_inject_virtio);
    ("convert", _stage_convert);
    ("fix_bootloader", _stage_fix_bootloader);
    ("ensure_uefi", _stage_ensure_uefi);
    ("fix_network", _stage_fix_network);
    ("upload_s3", _stage_upload_s3);
    ("import_scw", _stage_import_scw);
    ("verify", _stage_verify);
    ("cleanup", _stage_cleanup) ].

Fixpoint getattr_stage (stage : string)
    (tbl : list (string * (VMMigrationPlan -> H unit)))
    : option (VMMigrationPlan -> H unit) :=
  match tbl with
  | [] => None
  | (name, handler) :: rest =>
      if decide (name = stage) then Some handler else getattr_stage stage rest
  end.

End Handlers.

(** The artifact keys a handler can do without: those it reads with
    [state.artifacts.get] and whose absence it does not refuse.
    [_stage_import_scw] reads [s3_keys] that way too, but raises when the
    list is empty, and reads [s3_bucket] with [state.artifacts[...]]: it has
    no optional input. *)
Definition optional_inputs (stage : string) : list string :=
  if decide (stage ∈ ["clean_tools"; "inject_virtio"; "fix_bootloader"; "ensure_uefi"])
  then ["vm_info"; "qcow2_paths"]
  else if decide (stage = "convert") then ["vmdk_paths"]
  else if decide (stage = "upload_s3") then ["qcow2_paths"]
  else if decide (stage = "verify") then ["scaleway_image_id"]
  else if decide (stage = "cleanup")
  then ["snapshot_name"; "scaleway_image_id"; "s3_keys"; "s3_bucket"]
  else [].

Section Orchestrator.
Context {C : Collaborators}.

(** What [run] and [resume] act on: the state store, the site, the log,
    and, as a record of the execution, the stage names whose handler
    was called, in call order. *)
Record World := mkWorld {
  store : gmap string MigrationState;
  site : Site Remote;
  log : list LogLine;
  invoked : list string
}.

(** Modelled from the spec: [MigrationStateStore] (module
    [vmware2scw.pipeline.state]) is not among the sources.  Section 4.1:
    [save(state)] persists the full state keyed by [migration_id];
    [load(migration_id)] returns the persisted state or a not-found
    signal. *)
Definition state_store_save (state : MigrationState) (w : World) : World :=
  mkWorld (<[migration_id state := state]> (store w)) (site w) (log w) (invoked w).

Definition state_store_load (id : string) (w : World) : option MigrationState :=
  store w !! id.

Definition logger_info (msg : string) (w : World) : World :=
  mkWorld (store w) (site w) (log w ++ [(INFO, msg)]) (invoked w).

Definition logger_error (msg : string) (w : World) : World :=
  mkWorld (store w) (site w) (log w ++ [(ERROR, msg)]) (invoked w).

Definition on_remote {A} (f : Remote -> A * Remote) (w : World) : A * World :=
  let '(a, r) := f (remote (site w)) in
  (a, mkWorld (store w) (mkSite (disk (site w)) r) (log w) (invoked w)).

(** [_execute_stage]: the handler mutates [state] in place, so the state
    it leaves is returned whether it raised or not. *)
Definition _execute_stage (stage : string) (plan : VMMigrationPlan)
    (state : MigrationState) (w : World) : Res unit * MigrationState * World :=
  match getattr_stage stage handler_table with
  | None =>
      (Raise (NotImplementedError ("Stage '" +:+ stage +:+ "' not implemented yet")),
       state, w)
  | Some handler =>
      let '(r, h) := handler plan (mkH state (site w) (log w)) in
      (r, h_state h, mkWorld (store w) (h_site h) (h_log h) (invoked w ++ [stage]))
  end.

(** The [for stage_name in stages_to_run] loop of [run]; [Some result]
    is the [return] of its [except] branch. *)
Fixpoint run_stages (stages_to_run : list string) (plan : VMMigrationPlan)
    (start_time : Z) (state : MigrationState) (w : World)
    : option MigrationResult * MigrationState * World :=
  match stages_to_run with
  | [] => (None, state, w)
  | stage_name :: rest =>
      let state := set_current_stage stage_name state in
      let w := state_store_save state w in
      let w := logger_info ("[cyan]▶ Stage: " +:+ stage_name +:+ "[/cyan]") w in
      match _execute_stage stage_name plan state w with
      | (Ok _, state, w) =>
          let state :=
            set_completed_stages (completed_stages state ++ [stage_name]) state in
          let w := state_store_save state w in
          let w := logger_info ("[green]✓ Stage " +:+ stage_name
                                +:+ " complete[/green]") w in
          run_stages rest plan start_time state w
      | (Raise e, state, w) =>
          let '(now, w) := on_remote time_time w in
          let state := set_error (Some (str_exn e)) state in
          let w := state_store_save state w in
          let w := logger_error ("[red]✗ Stage " +:+ stage_name +:+ " failed: "
                                 +:+ str_exn e +:+ "[/red]") w in
          (Some (mkResult false (migration_id state) (plan_vm_name plan)
                          None None (fmt_elapsed start_time now)
                          (Some stage_name) (Some (str_exn e))
                          (completed_stages state)),
           state, w)
      end
  end.

(** [run] *)
Definition run (plan : VMMigrationPlan) (w : World) : MigrationResult * World :=
  let '(id, w) := on_remote uuid8 w in
  let '(start_time, w) := on_remote time_time w in
  let '(now, w) := on_remote datetime_now w in
  let state :=
    mkState id (plan_vm_name plan) (plan_target_type plan) (plan_zone plan)
            "" [] ∅ now None in
  let w := state_store_save state w in
  let w := logger_info ("[bold]Starting migration " +:+ id +:+ "[/bold]: "
                        +:+ plan_vm_name plan +:+ " → " +:+ plan_target_type plan
                        +:+ " (" +:+ plan_zone plan +:+ ")") w in
  let stages_to_run :=
    if plan_skip_validation plan
    then filter (fun s => s ≠ "validate") STAGES
    else STAGES in
  match run_stages stages_to_run plan start_time state w with
  | (Some failure, _, w) => (failure, w)
  | (None, state, w) =>
      let '(now, w) := on_remote time_time w in
      let w := logger_info ("[bold green]Migration " +:+ id +:+ " complete in "
                            +:+ fmt_elapsed start_time now +:+ "[/bold green]") w in
      (mkResult true id (plan_vm_name plan)
                (artifacts state !! "scaleway_instance_id")
                (artifacts state !! "scaleway_image_id")
                (fmt_elapsed start_time now) None None (completed_stages state),
       w)
  end.

(** The [for stage_name in remaining] loop of [resume]. *)
Fixpoint resume_stages (remaining : list string) (id : string)
    (plan : VMMigrationPlan)
    (start_time : Z) (state : MigrationState) (w : World)
    : option MigrationResult * MigrationState * World :=
  match remaining with
  | [] => (None, state, w)
  | stage_name :: rest =>
      let state := set_current_stage stage_name state in
      let w := state_store_save state w in
      let w := logger_info ("[cyan]▶ Stage: " +:+ stage_name
                            +:+ "[/cyan] (resumed)") w in
      match _execute_stage stage_name plan state w with
      | (Ok _, state, w) =>
          let state :=
            set_completed_stages (completed_stages state ++ [stage_name]) state in
          let w := state_store_save state w in
          let w := logger_info ("[green]✓ Stage " +:+ stage_name
                                +:+ " complete[/green]") w in
          resume_stages rest id plan start_time state w
      | (Raise e, state, w) =>
          let state := set_error (Some (str_exn e)) state in
          let w := state_store_save state w in
          let '(now, w) := on_remote time_time w in
          (Some (mkResult false id (vm_name state)
                          None None (fmt_elapsed start_time now)
                          (Some stage_name) (Some (str_exn e))
                          (completed_stages state)),
           state, w)
      end
  end.

(** [remaining = [s for s in self.STAGES if s not in state.completed_stages]] *)
Definition remaining_stages (state : MigrationState) : list string :=
  filter (fun s => s ∉ completed_stages state) STAGES.

(** [resume] *)
Definition resume (id : string) (w : World) : Res MigrationResult * World :=
  match state_store_load id w with
  | None => (Raise (ValueError ("Migration '" +:+ id +:+ "' not found")), w)
  | Some state =>
      let w := logger_info ("Resuming migration " +:+ id +:+ " for VM '"
                            +:+ vm_name state +:+ "'") w in
      let w := logger_info ("Completed stages: "
                            +:+ String.concat ", " (completed_stages state)) w in
      let plan :=
        mkPlan (vm_name state) (target_type state) (zone state)
               default_skip_validation in
      let remaining := remaining_stages state in
      match remaining with
      | [] =>
          (Ok (mkResult true id (vm_name state) None None "" None None
                        (completed_stages state)),
           w)
      | _ :: _ =>
          let '(start_time, w) := on_remote time_time w in
          let state := set_error None state in
          match resume_stages remaining id plan start_time state w with
          | (Some failure, _, w) => (Ok failure, w)
          | (None, state, w) =>
              let '(now, w) := on_remote time_time w in
              (Ok (mkResult true id (vm_name state)
                            (artifacts state !! "scaleway_instance_id")
                            (artifacts state !! "scaleway_image_id")
                            (fmt_elapsed start_time now) None None
                            (completed_stages state)),
               w)
          end
      end
  end.

(** The stage names whose handler a computation called: what it added
    to [invoked]. *)
Definition newly_invoked (before after : World) : list string :=
  drop (length (invoked before)) (invoked after).

End Orchestrator.
End Pipeline.

(** ** [vmware2scw/converter/windows_virtio.py] *)

Module WindowsVirtio.
Import Py.

(** *** Registry value encoding *)

(** A [str] holding arbitrary text is the list of its code points; the text
    of a [.reg] file is ASCII and is a [string]. *)

(** Code points U+D800..U+DFFF; the [utf-16-le] codec refuses them
    ("surrogates not allowed"). *)
Definition is_surrogate (c : Z) : bool := (0xD800 <=? c) && (c <=? 0xDFFF).

(** The UTF-16 code units of one code point. *)
Definition utf16_units (c : Z) : option (list Z) :=
  if is_surrogate c then None
  else if c <? 0x10000 then Some [c]
  else Some [0xD800 + Z.shiftr (c - 0x10000) 10;
             0xDC00 + Z.land (c - 0x10000) 0x3FF].

Fixpoint utf16_code_units (s : list Z) : option (list Z) :=
  match s with
  | [] => Some []
  | c :: rest =>
      us ← utf16_units c;
      more ← utf16_code_units rest;
      Some (us ++ more)
  end.

(** A code unit as two bytes, low byte first. *)
Definition le16 (u : Z) : list Z := [Z.land u 0xFF; Z.shiftr u 8].

(** [s.encode("utf-16-le")]; [None] is [UnicodeEncodeError]. *)
Definition encode_utf16_le (s : list Z) : option (list Z) :=
  us ← utf16_code_units s;
  Some (flat_map le16 us).

Definition hex_digit (n : Z) : ascii :=
  match n with
  | 0 => "0" | 1 => "1" | 2 => "2" | 3 => "3" | 4 => "4" | 5 => "5" | 6 => "6"
  | 7 => "7" | 8 => "8" | 9 => "9" | 10 => "a" | 11 => "b" | 12 => "c"
  | 13 => "d" | 14 => "e" | _ => "f"
  end%char.

(** [f"{b:02x}"] for a byte [b] *)
Definition fmt_02x (b : Z) : string :=
  String (hex_digit (b / 16)) (String (hex_digit (b mod 16)) EmptyString).

(** [",".join(f"{b:02x}" for b in raw)] *)
Definition hex_bytes (raw : list Z) : string :=
  String.concat "," (map fmt_02x raw).

(** [_str_to_reg_expand_sz] *)
Definition _str_to_reg_expand_sz (s : list Z) : option string :=
  encoded ← encode_utf16_le s;
  let raw := encoded ++ [0; 0] in
  Some ("hex(2):" +:+ hex_bytes raw).

Fixpoint multi_sz_raw (strings : list (list Z)) (raw : list Z) : option (list Z) :=
  match strings with
  | [] => Some raw
  | s :: rest =>
      encoded ← encode_utf16_le s;
      multi_sz_raw rest (raw ++ encoded ++ [0; 0])
  end.

(** [_str_to_reg_multi_sz] *)
Definition _str_to_reg_multi_sz (strings : list (list Z)) : option string :=
  raw ← multi_sz_raw strings [];
  let raw := raw ++ [0; 0] in
  Some ("hex(7):" +:+ hex_bytes raw).

(** The code points of an ASCII [string]. *)
Definition code_points (s : string) : list Z :=
  map (fun a => Z.of_N (N_of_ascii a)) (list_ascii_of_string s).

(** *** Reading an expandable-string value back

    The two files only write registry values.  The reader below follows the
    words of the round-trip property: take the bytes of the [hex(2):]
    sequence, strip the terminator, decode UTF-16-LE. *)

(** The position of a character among the lower-case hexadecimal digits. *)
Fixpoint digit_position (a : ascii) (digits : list ascii) : option Z :=
  match digits with
  | [] => None
  | d :: rest =>
      if decide (d = a) then Some 0 else Z.succ <$> digit_position a rest
  end.

Definition hex_value (a : ascii) : option Z :=
  digit_position a (list_ascii_of_string "0123456789abcdef").

Definition hex_byte (h l : ascii) : option Z :=
  hi ← hex_value h;
  lo ← hex_value l;
  Some (16 * hi + lo).

(** Zero or more [,xx] groups. *)
Fixpoint parse_hex_tail (s : string) : option (list Z) :=
  match s with
  | EmptyString => Some []
  | String c (String h (String l rest)) =>
      if decide (c = ","%char)
      then b ← hex_byte h l; bs ← parse_hex_tail rest; Some (b :: bs)
      else None
  | _ => None
  end.

(** A comma-separated sequence of two-digit hexadecimal bytes. *)
Definition parse_hex_bytes (s : string) : option (list Z) :=
  match s with
  | EmptyString => Some []
  | String h (String l rest) =>
      b ← hex_byte h l; bs ← parse_hex_tail rest; Some (b :: bs)
  | _ => None
  end.

Fixpoint strip_prefix (p s : string) : option string :=
  match p, s with
  | EmptyString, _ => Some s
  | String a p', String b s' => if decide (a = b) then strip_prefix p' s' else None
  | _, _ => None
  end.

(** Drops the final null code unit. *)
Definition strip_terminator (raw : list Z) : option (list Z) :=
  match rev raw with
  | 0 :: 0 :: body => Some (rev body)
  | _ => None
  end.

Fixpoint units_of_bytes (raw : list Z) : option (list Z) :=
  match raw with
  | [] => Some []
  | lo :: hi :: rest => us ← units_of_bytes rest; Some (lo + 256 * hi :: us)
  | _ => None
  end.

(** Strict UTF-16 decoding of code units: a high surrogate must be followed
    by a low one, and a low one never stands alone. *)
Fixpoint decode_units (us : list Z) : option (list Z) :=
  match us with
  | [] => Some []
  | u :: rest =>
      if (0xD800 <=? u) && (u <=? 0xDBFF)
      then match rest with
           | lo :: rest' =>
               if (0xDC00 <=? lo) && (lo <=? 0xDFFF)
               then cs ← decode_units rest';
                    Some (0x10000 + (u - 0xD800) * 1024 + (lo - 0xDC00) :: cs)
               else None
           | [] => None
           end
      else if (0xDC00 <=? u) && (u <=? 0xDFFF) then None
      else cs ← decode_units rest; Some (u :: cs)
  end.

(** Modelled from the spec: the reader of an expandable-string value is not
    in the sources (the files only write such values).  Section 8: "encoding
    a text value as an expandable-string registry value and decoding it back
    yields the original text"; section 4.5: the value is "the text encoded
    as null-terminated UTF-16 (little-endian) and represented as a tagged
    hex byte sequence". *)
Definition reg_expand_sz_to_str (value : string) : option (list Z) :=
  hex ← strip_prefix "hex(2):" value;
  raw ← parse_hex_bytes hex;
  body ← strip_terminator raw;
  us ← units_of_bytes body;
  decode_units us.

(** A Unicode scalar value: a code point that is not a surrogate. *)
Definition is_scalar_value (c : Z) : Prop :=
  0 <= c <= 0x10FFFF /\ is_surrogate c = false.

(** *** Text helpers: the [str] methods the module uses

    A [str] read from a process or a file is held as the bytes of its UTF-8
    encoding.  [strip] and slicing work on characters, so the bytes are
    first grouped: a character is a byte followed by its continuation bytes
    (those of the form [10xxxxxx]). *)

Definition nl : string := String "010" EmptyString.
Definition dq : string := String "034" EmptyString.

Definition is_continuation (c : ascii) : bool :=
  let n := N_of_ascii c in ((128 <=? n) && (n <? 192))%N.

Definition starts_with_continuation (ch : list ascii) : bool :=
  match ch with
  | d :: _ => is_continuation d
  | [] => false
  end.

(** The characters of a text, in order, each as its bytes. *)
Fixpoint characters (l : list ascii) : list (list ascii) :=
  match l with
  | [] => []
  | c :: rest =>
      match characters rest with
      | ch :: more =>
          if starts_with_continuation ch then (c :: ch) :: more
          else [c] :: ch :: more
      | [] => [[c]]
      end
  end.

(** [c.isspace()]: U+0009..U+000D, U+001C..U+0020, U+0085, U+00A0, U+1680,
    U+2000..U+200A, U+2028, U+2029, U+202F, U+205F and U+3000. *)
Definition is_space (ch : list ascii) : bool :=
  match map N_of_ascii ch with
  | [n] => ((9 <=? n) && (n <=? 13) || (28 <=? n) && (n <=? 32))%N
  | [b1; b2] => ((b1 =? 194) && ((b2 =? 133) || (b2 =? 160)))%N
  | [b1; b2; b3] =>
      ((b1 =? 225) && (b2 =? 154) && (b3 =? 128)
       || (b1 =? 226) && (b2 =? 128)
          && ((128 <=? b3) && (b3 <=? 138) || (b3 =? 168) || (b3 =? 169) || (b3 =? 175))
       || (b1 =? 226) && (b2 =? 129) && (b3 =? 159)
       || (b1 =? 227) && (b2 =? 128) && (b3 =? 128))%N
  | _ => false
  end.

Fixpoint drop_while {A} (f : A -> bool) (l : list A) : list A :=
  match l with
  | [] => []
  | c :: rest => if f c then drop_while f rest else l
  end.

(** [s.strip()] *)
Definition py_strip (s : string) : string :=
  let l := drop_while is_space (characters (list_ascii_of_string s)) in
  string_of_list_ascii (concat (rev (drop_while is_space (rev l)))).

(** [s[:n]] and [s[-n:]] for [n > 0] *)
Definition first_chars (n : nat) (s : string) : string :=
  string_of_list_ascii (concat (take n (characters (list_ascii_of_string s)))).
Definition last_chars (n : nat) (s : string) : string :=
  let l := characters (list_ascii_of_string s) in
  string_of_list_ascii (concat (drop (length l - n) l)).

(** [s.startswith(p)], [needle in s], [s.lower()] *)
Definition startswith (p s : string) : bool := String.prefix p s.

Fixpoint contains (needle s : string) : bool :=
  String.prefix needle s ||
  match s with
  | EmptyString => false
  | String _ rest => contains needle rest
  end.

Definition lower_char (c : ascii) : ascii :=
  let n := N_of_ascii c in
  if ((65 <=? n) && (n <=? 90))%N then ascii_of_N (n + 32) else c.

Definition lower (s : string) : string :=
  string_of_list_ascii (map lower_char (list_ascii_of_string s)).

(** [f"{i:03d}"] *)
Definition fmt_03d (i : nat) : string :=
  let d := pretty i in
  string_of_list_ascii (replicate (3 - String.length d) "0"%char) +:+ d.

(** [f"{n:08x}"] for [0 <= n < 16^8] *)
Definition fmt_08x (n : Z) : string :=
  string_of_list_ascii
    (map (fun k => hex_digit ((n / 16 ^ Z.of_nat k) mod 16)) [7; 6; 5; 4; 3; 2; 1; 0]%nat).

(** [a / b] for a relative [b], and [p.parent], [p.name],
    [p.relative_to(base)], on paths as [pathlib] prints them: absolute,
    without a trailing slash, a doubled slash or a dot segment *)
Definition path_join (a b : string) : string := a +:+ "/" +:+ b.

Fixpoint split_last_slash (cs : list ascii) : list ascii * list ascii :=
  match cs with
  | [] => ([], [])
  | c :: rest =>
      let '(parent, name) := split_last_slash rest in
      if contains "/" (string_of_list_ascii rest)
      then (c :: parent, name)
      else if decide (c = "/"%char) then ([], rest) else ([], c :: name)
  end.

Definition path_parent (p : string) : string :=
  string_of_list_ascii (split_last_slash (list_ascii_of_string p)).1.

Definition path_name (p : string) : string :=
  string_of_list_ascii (split_last_slash (list_ascii_of_string p)).2.

(** [str(p.relative_to(base))] for [p] at or below [base], as the module
    calls it (on the parent of a file found below [base]) *)
Definition relative_to (base p : string) : string :=
  if decide (p = base) then "." else default p (strip_prefix (base +:+ "/") p).

(** [re.split(r'\n(?=\[)', text)]: cut at each newline that is followed by
    an opening bracket; the newline goes, the bracket stays. *)
Fixpoint split_sections_from (cs cur : list ascii) : list string :=
  match cs with
  | [] => [string_of_list_ascii (rev cur)]
  | c :: rest =>
      match rest with
      | "["%char :: _ =>
          if decide (c = "010"%char)
          then string_of_list_ascii (rev cur) :: split_sections_from rest []
          else split_sections_from rest (c :: cur)
      | _ => split_sections_from rest (c :: cur)
      end
  end.

Definition split_sections (text : string) : list string :=
  split_sections_from (list_ascii_of_string text) [].

Definition is_guid_char (c : ascii) : bool :=
  let n := N_of_ascii c in
  ((48 <=? n) && (n <=? 57) || (65 <=? n) && (n <=? 70)
   || (97 <=? n) && (n <=? 102) || (n =? 45))%N.

(** [re.findall(r'\{[0-9a-fA-F-]+\}', text)]; [cur] holds the characters
    read since an opening brace, when one is pending. *)
Fixpoint findall_guids (cs : list ascii) (cur : option (list ascii)) : list string :=
  match cs with
  | [] => []
  | c :: rest =>
      match cur with
      | Some acc =>
          if is_guid_char c then findall_guids rest (Some (c :: acc))
          else if decide (c = "}"%char /\ acc <> [])
          then string_of_list_ascii ("{"%char :: rev acc ++ ["}"%char])
               :: findall_guids rest None
          else if decide (c = "{"%char) then findall_guids rest (Some [])
          else findall_guids rest None
      | None =>
          if decide (c = "{"%char) then findall_guids rest (Some [])
          else findall_guids rest None
      end
  end.

Definition str_le (a b : string) : Prop := String.leb a b = true.
Global Instance str_le_dec : RelDecision str_le.
Proof. intros a b. unfold str_le. apply _. Defined.

(** [sorted(s)] for a set of names *)
Definition sorted (names : gset string) : list string :=
  merge_sort str_le (elements names).

(** *** Driver definitions *)

Record DriverDef := mkDriver {
  drv_Group : string;
  drv_ImagePath : string;
  drv_Start : Z;
  drv_Type : Z;
  drv_ErrorControl : Z;
  drv_Tag : option Z;
  drv_iso_dir : string
}.

(** [DRIVER_DEFS], in insertion order *)
Definition DRIVER_DEFS : list (string * DriverDef) :=
  [ ("viostor", mkDriver "SCSI miniport" "system32\drivers\viostor.sys"
                         0 1 1 (Some 0x40) "viostor");
    ("vioscsi", mkDriver "SCSI miniport" "system32\drivers\vioscsi.sys"
                         0 1 1 (Some 0x41) "vioscsi");
    ("netkvm", mkDriver "NDIS" "system32\drivers\netkvm.sys"
                        0 1 1 None "NetKVM") ].

(** [d.get(k)] on a [dict] kept as its list of items *)
Fixpoint dict_get {A} (k : string) (d : list (string * A)) : option A :=
  match d with
  | [] => None
  | (k', v) :: rest => if decide (k' = k) then Some v else dict_get k rest
  end.

Definition driver_def (name : string) : option DriverDef :=
  dict_get name DRIVER_DEFS.

Definition OS_SUBDIRS : list string :=
  ["2k22/amd64"; "2k19/amd64"; "2k16/amd64"; "w11/amd64"; "w10/amd64"].

(** *** Registry patches *)

(** The lines [_build_driver_reg] adds for one driver; [None] is the
    exception of a failed lookup or encoding. *)
Definition driver_reg_lines (cs drv_name : string) : option (list string) :=
  drv ← driver_def drv_name;
  image_path ← _str_to_reg_expand_sz (code_points (drv_ImagePath drv));
  let base := "HKEY_LOCAL_MACHINE\SYSTEM\" +:+ cs +:+ "\Services\" +:+ drv_name in
  Some ([ "[" +:+ base +:+ "]";
          dq +:+ "Group" +:+ dq +:+ "=" +:+ dq +:+ drv_Group drv +:+ dq;
          dq +:+ "ImagePath" +:+ dq +:+ "=" +:+ image_path;
          dq +:+ "ErrorControl" +:+ dq +:+ "=dword:" +:+ fmt_08x (drv_ErrorControl drv);
          dq +:+ "Start" +:+ dq +:+ "=dword:" +:+ fmt_08x (drv_Start drv);
          dq +:+ "Type" +:+ dq +:+ "=dword:" +:+ fmt_08x (drv_Type drv) ]
        ++ match drv_Tag drv with
           | Some tag => [dq +:+ "Tag" +:+ dq +:+ "=dword:" +:+ fmt_08x tag]
           | None => []
           end
        ++ [ "";
             "[" +:+ base +:+ "\Parameters]";
             "";
             "[" +:+ base +:+ "\Parameters\PnpInterface]";
             dq +:+ "5" +:+ dq +:+ "=dword:00000001";
             "";
             "[" +:+ base +:+ "\Enum]";
             dq +:+ "Count" +:+ dq +:+ "=dword:00000000";
             dq +:+ "NextInstance" +:+ dq +:+ "=dword:00000000";
             "" ]).

Fixpoint driver_reg_loop (cs : string) (names : list string) (lines : list string)
    : option (list string) :=
  match names with
  | [] => Some lines
  | drv_name :: rest =>
      more ← driver_reg_lines cs drv_name;
      driver_reg_loop cs rest (lines ++ more)
  end.

(** [_build_driver_reg] *)
Definition _build_driver_reg (drivers_to_register : gset string) : option string :=
  lines ← driver_reg_loop "ControlSet001" (sorted drivers_to_register)
            ["Windows Registry Editor Version 5.00"; ""];
  Some (String.concat nl lines).

Definition dhcp_reg_lines (guid : string) : option (list string) :=
  let base := "HKEY_LOCAL_MACHINE\SYSTEM\ControlSet001\Services"
              +:+ "\Tcpip\Parameters\Interfaces\" +:+ guid in
  address ← _str_to_reg_multi_sz [code_points "0.0.0.0"];
  gateway ← _str_to_reg_multi_sz [];
  Some [ "[" +:+ base +:+ "]";
         dq +:+ "EnableDHCP" +:+ dq +:+ "=dword:00000001";
         dq +:+ "IPAddress" +:+ dq +:+ "=" +:+ address;
         dq +:+ "SubnetMask" +:+ dq +:+ "=" +:+ address;
         dq +:+ "DefaultGateway" +:+ dq +:+ "=" +:+ gateway;
         dq +:+ "NameServer" +:+ dq +:+ "=" +:+ dq +:+ dq;
         "" ].

Fixpoint dhcp_reg_loop (guids : list string) (lines : list string)
    : option (list string) :=
  match guids with
  | [] => Some lines
  | guid :: rest =>
      more ← dhcp_reg_lines guid;
      dhcp_reg_loop rest (lines ++ more)
  end.

(** [_build_dhcp_reg] *)
Definition _build_dhcp_reg (interface_guids : list string) : option string :=
  lines ← dhcp_reg_loop interface_guids ["Windows Registry Editor Version 5.00"; ""];
  Some (String.concat nl lines).

(** [PNPUTIL_FIRSTBOOT_SCRIPT] *)
Definition PNPUTIL_FIRSTBOOT_SCRIPT : string :=
  String.concat nl
    [ "@echo off";
      "echo [%date% %time%] === VirtIO driver installation via pnputil === >> C:\virtio-install.log";
      "";
      "REM Install ALL drivers from C:\Drivers staging directory";
      "for /d %%D in (C:\Drivers\*) do (";
      "    echo [%date% %time%] Installing drivers from %%D... >> C:\virtio-install.log";
      "    for %%F in (%%D\*.inf) do (";
      "        echo [%date% %time%]   pnputil /add-driver " +:+ dq +:+ "%%F" +:+ dq
        +:+ " /install >> C:\virtio-install.log";
      "        pnputil /add-driver " +:+ dq +:+ "%%F" +:+ dq
        +:+ " /install >> C:\virtio-install.log 2>&1";
      "        echo [%date% %time%]   Result: !ERRORLEVEL! >> C:\virtio-install.log";
      "    )";
      ")";
      "";
      "REM Force DHCP on all adapters";
      "echo [%date% %time%] Configuring DHCP... >> C:\virtio-install.log";
      "powershell -Command " +:+ dq
        +:+ "Get-NetAdapter | ForEach-Object { Set-NetIPInterface -InterfaceIndex $_.ifIndex -Dhcp Enabled -ErrorAction SilentlyContinue; Set-DnsClientServerAddress -InterfaceIndex $_.ifIndex -ResetServerAddresses -ErrorAction SilentlyContinue }"
        +:+ dq +:+ " >> C:\virtio-install.log 2>&1";
      "netsh interface ip set address name=" +:+ dq +:+ "Ethernet" +:+ dq
        +:+ " dhcp >> C:\virtio-install.log 2>&1";
      "netsh interface ip set address name=" +:+ dq +:+ "Ethernet Instance 0" +:+ dq
        +:+ " dhcp >> C:\virtio-install.log 2>&1";
      "netsh interface ip set address name=" +:+ dq +:+ "Ethernet 2" +:+ dq
        +:+ " dhcp >> C:\virtio-install.log 2>&1";
      "ipconfig /renew >> C:\virtio-install.log 2>&1";
      "";
      "echo [%date% %time%] VirtIO driver installation complete >> C:\virtio-install.log";
      "echo [%date% %time%] Rebooting in 15 seconds... >> C:\virtio-install.log";
      "shutdown /r /t 15 /c " +:+ dq
        +:+ "VirtIO driver installation complete - rebooting" +:+ dq;
      "" ].

(** The guest path a command line writes a host file to: the destination
    of a [guestfish ... upload]. *)
Definition uploads_to (cmd : list string) : option string :=
  match cmd with
  | [prog; a; _; _; _; sub; _; dst] =>
      if decide (prog = "guestfish" /\ a = "-a" /\ sub = "upload")
      then Some dst else None
  | _ => None
  end.

(** *** The conversion host *)

(** [subprocess.CompletedProcess] *)
Record CompletedProcess := mkCP {
  returncode : Z;
  stdout : string;
  stderr : string
}.

(** Everything the module reaches through [subprocess], [pathlib] and
    [tempfile]: the host tools with the disk images and ISO they work on, and
    the host's files.  Paths are absolute, written with [/].

    A host of this class starts every command and performs every write,
    removal and directory creation it is asked for: what is modelled of a
    process is its result (exit status and output), and of the files only
    reading can fail.  The exceptions Python raises when a program cannot
    be started ([FileNotFoundError], [PermissionError]) or when a file
    cannot be removed or written are added by [HostFailures] below, for
    [_run] and the registry merge; what is stated on a [Host] alone is
    about the runs in which none occurs. *)
Class Host := {
  HostState : Type;
  (** [subprocess.run(cmd, capture_output=True, text=True, input=...)], for
      a command that starts *)
  subprocess_run :
    list string -> option string -> HostState -> CompletedProcess * HostState;
  (** [p.write_text(text)], [p.read_text()] ([None]: it raises),
      [p.unlink(missing_ok=True)], [p.mkdir(parents=True, exist_ok=True)],
      [tempfile.mkdtemp(prefix=...)] *)
  write_text : string -> string -> HostState -> HostState;
  read_text : string -> HostState -> option string;
  unlink_missing_ok : string -> HostState -> HostState;
  mkdir_parents : string -> HostState -> HostState;
  mkdtemp : string -> HostState -> string * HostState;
  (** [p.exists()], [p.is_file()], [p.iterdir()], [p.rglob(pattern)] *)
  host_exists : string -> HostState -> bool;
  host_is_file : string -> HostState -> bool;
  iterdir : string -> HostState -> list string;
  rglob : string -> string -> HostState -> list string
}.

Section Engine.
Context {T : Host}.

(** What the module's functions run on: the host, the log, and, as a record
    of the execution, every process run with its result, in order. *)
Record Env := mkEnv {
  host : HostState;
  log : list LogLine;
  calls : list (list string * CompletedProcess)
}.

Definition E (A : Type) : Type := M Env A.

Definition logger (lvl : Level) (msg : string) : E unit :=
  modify (fun e => mkEnv (host e) (log e ++ [(lvl, msg)]) (calls e)).

Definition on_host (f : HostState -> HostState) : E unit :=
  modify (fun e => mkEnv (f (host e)) (log e) (calls e)).

Definition ask_host {A} (f : HostState -> A) : E A :=
  fun e => (Ok (f (host e)), e).

(** [subprocess.run(cmd, ...)] without [check], for a command that starts *)
Definition subprocess (cmd : list string) (input : option string)
    : E CompletedProcess :=
  fun e =>
    let '(r, h) := subprocess_run cmd input (host e) in
    (Ok r, mkEnv h (log e) (calls e ++ [(cmd, r)])).

(** [subprocess.run(cmd, check=True)]: [CalledProcessError] on failure *)
Definition subprocess_check (cmd : list string) : E CompletedProcess :=
  r ← subprocess cmd None;
  if decide (returncode r = 0) then mret r
  else raise (Foreign "CalledProcessError").

(** [_run], for a command that starts; the error output is UTF-8 text *)
Definition _run (cmd : list string) (check : bool) : E CompletedProcess :=
  logger DEBUG ("  $ " +:+ String.concat " " (take 8 cmd));;
  r ← subprocess cmd None;
  if check && bool_decide (returncode r <> 0)
  then raise (RuntimeError (last_chars 500 (py_strip (stderr r))))
  else mret r.

Fixpoint missing_packages (tools : list (string * string)) (missing : list string)
    : E (list string) :=
  match tools with
  | [] => mret missing
  | (tool, pkg) :: rest =>
      r ← subprocess ["which"; tool] None;
      if decide (returncode r <> 0)
      then missing_packages rest (missing ++ [pkg])
      else missing_packages rest missing
  end.

(** [ensure_prerequisites] *)
Definition ensure_prerequisites : E unit :=
  missing ← missing_packages [("hivexregedit", "libwin-hivex-perl");
                               ("guestfish", "libguestfs-tools")] [];
  match missing with
  | [] => mret tt
  | _ :: _ =>
      logger INFO ("Installing prerequisites: " +:+ String.concat ", " missing);;
      subprocess (["apt-get"; "install"; "-y"; "-qq"] ++ missing) None;;
      mret tt
  end.

Fixpoint find_in_subdirs (mount_dir drv_name iso_dir : string) (subdirs : list string)
    : E (option (string * string)) :=
  match subdirs with
  | [] => mret None
  | subdir :: rest =>
      let candidate := path_join (path_join mount_dir iso_dir) subdir in
      let sys_file := path_join candidate (drv_name +:+ ".sys") in
      present ← ask_host (host_exists sys_file);
      if present : bool then mret (Some (candidate, subdir))
      else find_in_subdirs mount_dir drv_name iso_dir rest
  end.

Fixpoint first_amd64 (mount_dir : string) (found : list string)
    : option (string * string) :=
  match found with
  | [] => None
  | f :: rest =>
      if contains "amd64" (lower f)
      then Some (path_parent f, relative_to mount_dir (path_parent f))
      else first_amd64 mount_dir rest
  end.

(** [_find_driver_dir]; [None] stands for [(None, None)]. *)
Definition _find_driver_dir (mount_dir drv_name iso_dir : string)
    : E (option (string * string)) :=
  hit ← find_in_subdirs mount_dir drv_name iso_dir OS_SUBDIRS;
  match hit with
  | Some _ => mret hit
  | None =>
      found ← ask_host (rglob mount_dir (drv_name +:+ ".sys"));
      mret (first_amd64 mount_dir found)
  end.

(** One driver of the extraction loop; the result is the entry added to
    [drivers], if any. *)
Definition extract_one (mount_dir work_dir drv_name : string) (drv_def : DriverDef)
    : E (option (string * (string * string))) :=
  let iso_dir := drv_iso_dir drv_def in
  hit ← _find_driver_dir mount_dir drv_name iso_dir;
  match hit with
  | None =>
      logger WARNING ("  " +:+ drv_name +:+ ".sys not found in ISO!");;
      mret None
  | Some (src_dir, subdir) =>
      let sys_src := path_join src_dir (drv_name +:+ ".sys") in
      let sys_dest := path_join work_dir (drv_name +:+ ".sys") in
      subprocess_check ["cp"; sys_src; sys_dest];;
      let dir_dest := path_join work_dir ("drv_" +:+ drv_name) in
      on_host (mkdir_parents dir_dest);;
      files ← ask_host (iterdir src_dir);
      subprocess_check (["cp"; "-r"] ++ files ++ [dir_dest]);;
      copied ← ask_host (iterdir dir_dest);
      logger INFO ("  Extracted " +:+ drv_name +:+ " from " +:+ iso_dir +:+ "/"
                   +:+ subdir +:+ " (" +:+ pretty (length copied) +:+ " files)");;
      mret (Some (drv_name, (sys_dest, dir_dest)))
  end.

Fixpoint extract_loop (mount_dir work_dir : string)
    (defs : list (string * DriverDef)) (drivers : list (string * (string * string)))
    : E (list (string * (string * string))) :=
  match defs with
  | [] => mret drivers
  | (drv_name, drv_def) :: rest =>
      entry ← extract_one mount_dir work_dir drv_name drv_def;
      extract_loop mount_dir work_dir rest
        (match entry with Some d => drivers ++ [d] | None => drivers end)
  end.

(** [_extract_drivers_from_iso]: the dict it returns maps a driver name to
    its [sys] file and its [dir]. *)
Definition _extract_drivers_from_iso (iso_path work_dir : string)
    : E (list (string * (string * string))) :=
  let mount_dir := path_join work_dir "virtio-iso" in
  on_host (mkdir_parents mount_dir);;
  try_except (_run ["mount"; "-o"; "loop,ro"; iso_path; mount_dir] true)
    (fun e =>
       match e with
       | RuntimeError msg =>
           raise (RuntimeError ("Cannot mount virtio-win ISO " +:+ iso_path
                                +:+ ": " +:+ msg))
       | _ => raise e
       end);;
  try_finally (extract_loop mount_dir work_dir DRIVER_DEFS [])
              (_run ["umount"; mount_dir] false;; mret tt).

Fixpoint check_existing_loop (qcow2_path : string) (names : list string)
    (present : gset string) : E (gset string) :=
  match names with
  | [] => mret present
  | drv_name :: rest =>
      r ← _run ["guestfish"; "--ro"; "-a"; qcow2_path; "-i"; "--"; "is-file";
                "/Windows/System32/drivers/" +:+ drv_name +:+ ".sys"] false;
      if bool_decide (returncode r = 0) && contains "true" (lower (stdout r))
      then check_existing_loop qcow2_path rest (present ∪ {[drv_name]})
      else check_existing_loop qcow2_path rest present
  end.

(** [_check_existing_drivers] *)
Definition _check_existing_drivers (qcow2_path : string) : E (gset string) :=
  check_existing_loop qcow2_path (DRIVER_DEFS.*1) ∅.

(** One unit of the section-by-section merge of [_merge_reg_file]. *)
Definition merge_section (hive_local work_dir : string) (i : nat) (section : string)
    : E unit :=
  let section := py_strip section in
  if bool_decide (section = "") || negb (startswith "[" section)
  then mret tt
  else
    let part_file := path_join work_dir ("reg_part_" +:+ fmt_03d i +:+ ".reg") in
    on_host (write_text part_file
               ("Windows Registry Editor Version 5.00" +:+ nl +:+ nl +:+ section +:+ nl));;
    r3 ← _run ["hivexregedit"; "--merge"; hive_local;
               "--prefix"; "HKEY_LOCAL_MACHINE\SYSTEM"; part_file] false;
    if decide (returncode r3 <> 0)
    then logger WARNING ("  Section " +:+ pretty i +:+ " failed: "
                         +:+ first_chars 100 (py_strip (stderr r3)))
    else mret tt.

(** [_merge_reg_file] *)
Definition _merge_reg_file (qcow2_path reg_file work_dir : string) : E unit :=
  r ← _run ["virt-win-reg"; "--merge"; qcow2_path; reg_file] false;
  if decide (returncode r = 0)
  then logger INFO "  Registry merged via virt-win-reg"
  else
    logger INFO "  virt-win-reg failed, falling back to hivexregedit...";;
    let hive_local := path_join work_dir "SYSTEM.hive" in
    on_host (unlink_missing_ok hive_local);;
    _run ["guestfish"; "-a"; qcow2_path; "-i"; "--";
          "download"; "/Windows/System32/config/SYSTEM"; hive_local] true;;
    r2 ← _run ["hivexregedit"; "--merge"; hive_local;
               "--prefix"; "HKEY_LOCAL_MACHINE\SYSTEM"; reg_file] false;
    (if decide (returncode r2 <> 0)
     then
       logger WARNING "  Bulk merge failed, trying section-by-section...";;
       text ← ask_host (read_text reg_file);
       match text with
       | None => raise (Foreign "FileNotFoundError")
       | Some reg_text =>
           let sections := split_sections reg_text in
           for_each (imap (fun i section => (i, section)) sections)
                    (fun '(i, section) => merge_section hive_local work_dir i section)
       end
     else mret tt);;
    _run ["guestfish"; "-a"; qcow2_path; "-i"; "--";
          "upload"; hive_local; "/Windows/System32/config/SYSTEM"] true;;
    logger INFO "  Registry merged via hivexregedit".

(** [list(set(re.findall(...)))]: the distinct matches.  Python leaves the
    order of the elements of a [set] open; the list here has them in the
    order [remove_dups] keeps, which is one of the orders Python may give. *)
Definition guids_in (text : string) : list string :=
  remove_dups (findall_guids (list_ascii_of_string text) None).

(** [_get_interface_guids] *)
Definition _get_interface_guids (qcow2_path : string) : E (list string) :=
  r ← _run ["virt-win-reg"; qcow2_path;
            "HKLM\SYSTEM\ControlSet001\Services\Tcpip\Parameters\Interfaces"] false;
  if decide (returncode r = 0)
  then mret (guids_in (stdout r))
  else
    logger INFO "  Trying hivexsh fallback for interface GUIDs...";;
    work_dir ← (fun e => let '(d, h) := mkdtemp "guids-" (host e) in
                         (Ok d, mkEnv h (log e) (calls e)));
    let hive_local := path_join work_dir "SYSTEM.hive" in
    try_except
      (_run ["guestfish"; "--ro"; "-a"; qcow2_path; "-i"; "--";
             "download"; "/Windows/System32/config/SYSTEM"; hive_local] true;;
       r2 ← subprocess ["hivexsh"; hive_local]
              (Some ("cd \ControlSet001\Services\Tcpip\Parameters\Interfaces"
                     +:+ nl +:+ "ls" +:+ nl));
       mret (guids_in (stdout r2)))
      (fun _ => mret []).

(** One file of the upload loop of [_stage_driver_dirs]. *)
Definition stage_file (qcow2_path guest_dir f : string) : E unit :=
  file ← ask_host (host_is_file f);
  if file : bool
  then _run ["guestfish"; "-a"; qcow2_path; "-i"; "--";
             "upload"; f; guest_dir +:+ "/" +:+ path_name f] true;;
       mret tt
  else mret tt.

(** [_stage_driver_dirs] *)
Definition _stage_driver_dirs (qcow2_path : string)
    (extracted_drivers : list (string * (string * string))) : E unit :=
  for_each extracted_drivers (fun '(drv_name, (_, drv_dir)) =>
    let guest_dir := "/Drivers/" +:+ drv_name in
    _run ["guestfish"; "-a"; qcow2_path; "-i"; "--"; "mkdir-p"; guest_dir] true;;
    files ← ask_host (iterdir drv_dir);
    for_each files (stage_file qcow2_path guest_dir);;
    logger INFO ("  Staged " +:+ drv_name +:+ " driver package → C:\Drivers\"
                 +:+ drv_name +:+ "\")).

(** The guest path of the firstboot script. *)
Definition FIRSTBOOT_SCRIPT_PATH : string :=
  "/Program Files/Guestfs/Firstboot/scripts/0000-install-virtio-drivers.bat".

(** [_inject_pnputil_firstboot] *)
Definition _inject_pnputil_firstboot (qcow2_path work_dir : string) : E unit :=
  let script_file := path_join work_dir "0000-install-virtio-drivers.bat" in
  on_host (write_text script_file PNPUTIL_FIRSTBOOT_SCRIPT);;
  _run ["guestfish"; "-a"; qcow2_path; "-i"; "--";
        "upload"; script_file; FIRSTBOOT_SCRIPT_PATH] true;;
  logger INFO "  Injected pnputil firstboot script (0000-install-virtio-drivers.bat)".

(** The upload loop of step 3; a Python [set] is iterated in an order of
    its own, here the order of [elements]. *)
Fixpoint upload_missing (qcow2_path : string) (missing : list string)
    (extracted : list (string * (string * string))) (existing : gset string)
    : E (gset string) :=
  match missing with
  | [] => mret existing
  | drv_name :: rest =>
      match dict_get drv_name extracted with
      | None => upload_missing qcow2_path rest extracted existing
      | Some (sys, _) =>
          _run ["guestfish"; "-a"; qcow2_path; "-i"; "--"; "upload"; sys;
                "/Windows/System32/drivers/" +:+ drv_name +:+ ".sys"] true;;
          logger INFO ("  Uploaded " +:+ drv_name +:+ ".sys");;
          upload_missing qcow2_path rest extracted (existing ∪ {[drv_name]})
      end
  end.

(** A patch builder raising while it encodes a value. *)
Definition built (reg : option string) : E string :=
  match reg with
  | Some text => mret text
  | None => raise (Foreign "UnicodeEncodeError")
  end.

(** [ensure_all_virtio_drivers] *)
Definition ensure_all_virtio_drivers (qcow2_path virtio_iso : string)
    (work_dir : option string) : E bool :=
  work_dir ← match work_dir with
             | None => fun e => let '(d, h) := mkdtemp "virtio-" (host e) in
                                (Ok d, mkEnv h (log e) (calls e))
             | Some d => mret d
             end;
  on_host (mkdir_parents work_dir);;
  ensure_prerequisites;;
  logger INFO "=== Ensuring all VirtIO drivers for Windows guest ===";;
  logger INFO "Step 1: Checking existing drivers in guest...";;
  existing ← _check_existing_drivers qcow2_path;
  let all_needed : gset string := list_to_set (DRIVER_DEFS.*1) in
  let missing := all_needed ∖ existing in
  (if decide (existing <> ∅)
   then logger INFO ("  Present: " +:+ String.concat ", " (sorted existing))
   else mret tt);;
  (if decide (missing <> ∅)
   then logger INFO ("  Missing: " +:+ String.concat ", " (sorted missing))
   else mret tt);;
  logger INFO "Step 2: Extracting drivers from virtio-win ISO...";;
  extracted ← _extract_drivers_from_iso virtio_iso work_dir;
  existing ← (if decide (missing <> ∅)
              then logger INFO "Step 3: Uploading missing .sys files...";;
                   upload_missing qcow2_path (elements missing) extracted existing
              else logger INFO "Step 3: All .sys files already present";;
                   mret existing);
  logger INFO "Step 4: Registering driver services in Windows registry...";;
  reg_content ← built (_build_driver_reg existing);
  let reg_file := path_join work_dir "virtio-drivers.reg" in
  on_host (write_text reg_file reg_content);;
  _merge_reg_file qcow2_path reg_file work_dir;;
  logger INFO ("  Registered services: " +:+ String.concat ", " (sorted existing));;
  logger INFO "Step 5: Staging driver packages in C:\Drivers\...";;
  _stage_driver_dirs qcow2_path extracted;;
  logger INFO "Step 6: Injecting pnputil firstboot script...";;
  _inject_pnputil_firstboot qcow2_path work_dir;;
  logger INFO "Step 7: Forcing DHCP on all network interfaces...";;
  guids ← _get_interface_guids qcow2_path;
  match guids with
  | _ :: _ =>
      logger INFO ("  Found " +:+ pretty (length guids) +:+ " interface(s)");;
      dhcp_content ← built (_build_dhcp_reg guids);
      let dhcp_file := path_join work_dir "dhcp-fix.reg" in
      on_host (write_text dhcp_file dhcp_content);;
      _merge_reg_file qcow2_path dhcp_file work_dir;;
      logger INFO "  DHCP forced on all interfaces"
  | [] =>
      logger WARNING "  No interfaces found (DHCP will rely on firstboot script)"
  end;;
  logger INFO "=== VirtIO driver setup complete ===";;
  logger INFO ("  Boot sequence: Windows loads viostor (boot) → rhsrvany runs "
               +:+ "pnputil script → netkvm installed → DHCP → network up → reboot");;
  mret true.

(** The processes a computation ran and the lines it logged: what it added
    to [calls] and to [log]. *)
Definition new_calls (before after : Env) : list (list string * CompletedProcess) :=
  drop (length (calls before)) (calls after).

Definition new_log (before after : Env) : list LogLine :=
  drop (length (log before)) (log after).

End Engine.

End WindowsVirtio.

(** ** The registry merge on a host that may refuse an operation

    What [Host] leaves out, for the functions of the merge: [subprocess.run]
    raising instead of returning (the program is not installed or may not
    be executed: [FileNotFoundError], [PermissionError]), and [pathlib]
    raising on a removal or a write.  [_merge_reg_file] catches none of
    these exceptions. *)

Module HostFailures.
Import Py WindowsVirtio.

(** The exception the host raises instead of doing what it is asked;
    [None] when it does it. *)
Class Refusals (T : Host) := {
  run_refused : list string -> @HostState T -> option PyExn;
  unlink_refused : string -> @HostState T -> option PyExn;
  write_refused : string -> @HostState T -> option PyExn
}.

Section Merge.
Context {T : Host} {R : Refusals T}.

(** An operation of the host, unless the host refuses it. *)
Definition unless_refused {A} (refused : HostState -> option PyExn) (m : E A) : E A :=
  fun e =>
    match refused (host e) with
    | Some x => (Raise x, e)
    | None => m e
    end.

(** [subprocess.run(cmd, ...)] without [check] *)
Definition subprocess (cmd : list string) (input : option string)
    : E CompletedProcess :=
  unless_refused (run_refused cmd) (WindowsVirtio.subprocess cmd input).

(** [_run] *)
Definition _run (cmd : list string) (check : bool) : E CompletedProcess :=
  logger DEBUG ("  $ " +:+ String.concat " " (take 8 cmd));;
  r ← subprocess cmd None;
  if check && bool_decide (returncode r <> 0)
  then raise (RuntimeError (last_chars 500 (py_strip (stderr r))))
  else mret r.

(** One unit of the section-by-section merge of [_merge_reg_file]. *)
Definition merge_section (hive_local work_dir : string) (i : nat) (section : string)
    : E unit :=
  let section := py_strip section in
  if bool_decide (section = "") || negb (startswith "[" section)
  then mret tt
  else
    let part_file := path_join work_dir ("reg_part_" +:+ fmt_03d i +:+ ".reg") in
    unless_refused (write_refused part_file)
      (on_host (write_text part_file
                  ("Windows Registry Editor Version 5.00" +:+ nl +:+ nl
                   +:+ section +:+ nl)));;
    r3 ← _run ["hivexregedit"; "--merge"; hive_local;
               "--prefix"; "HKEY_LOCAL_MACHINE\SYSTEM"; part_file] false;
    if decide (returncode r3 <> 0)
    then logger WARNING ("  Section " +:+ pretty i +:+ " failed: "
                         +:+ first_chars 100 (py_strip (stderr r3)))
    else mret tt.

(** [_merge_reg_file] *)
Definition _merge_reg_file (qcow2_path reg_file work_dir : string) : E unit :=
  r ← _run ["virt-win-reg"; "--merge"; qcow2_path; reg_file] false;
  if decide (returncode r = 0)
  then logger INFO "  Registry merged via virt-win-reg"
  else
    logger INFO "  virt-win-reg failed, falling back to hivexregedit...";;
    let hive_local := path_join work_dir "SYSTEM.hive" in
    unless_refused (unlink_refused hive_local) (on_host (unlink_missing_ok hive_local));;
    _run ["guestfish"; "-a"; qcow2_path; "-i"; "--";
          "download"; "/Windows/System32/config/SYSTEM"; hive_local] true;;
    r2 ← _run ["hivexregedit"; "--merge"; hive_local;
               "--prefix"; "HKEY_LOCAL_MACHINE\SYSTEM"; reg_file] false;
    (if decide (returncode r2 <> 0)
     then
       logger WARNING "  Bulk merge failed, trying section-by-section...";;
       text ← ask_host (read_text reg_file);
       match text with
       | None => raise (Foreign "FileNotFoundError")
       | Some reg_text =>
           let sections := split_sections reg_text in
           for_each (imap (fun i section => (i, section)) sections)
                    (fun '(i, section) => merge_section hive_local work_dir i section)
       end
     else mret tt);;
    _run ["guestfish"; "-a"; qcow2_path; "-i"; "--";
          "upload"; hive_local; "/Windows/System32/config/SYSTEM"] true;;
    logger INFO "  Registry merged via hivexregedit".

End Merge.

End HostFailures.

(** ** A conversion host with one Windows guest image

    The tools [windows_virtio.py] drives (guestfish, virt-win-reg,
    hivexregedit, mount, cp) are programs outside the repository.  This
    module gives them a meaning, so that what the module's functions leave
    in the guest image can be stated. *)

Module GuestModel.
Import Py WindowsVirtio.

(** A registry hive: its keys, each with its values, in the order they were
    created.  Nothing in the type keeps a key from occurring twice. *)
Abbreviation Hive := (list (string * list (string * string))).

(** Sets [k], keeping its place if it is there, adding it at the end if
    not. *)
Fixpoint upsert {A} (k : string) (v : A) (l : list (string * A)) : list (string * A) :=
  match l with
  | [] => [(k, v)]
  | (k', v') :: rest =>
      if decide (k' = k) then (k, v) :: rest else (k', v') :: upsert k v rest
  end.

Definition merge_values (new old : list (string * string)) : list (string * string) :=
  foldl (fun acc nv => upsert nv.1 nv.2 acc) old new.

Fixpoint merge_key (k : string) (vals : list (string * string)) (h : Hive) : Hive :=
  match h with
  | [] => [(k, merge_values vals [])]
  | (k', old) :: rest =>
      if decide (k' = k) then (k', merge_values vals old) :: rest
      else (k', old) :: merge_key k vals rest
  end.

(** Modelled from the spec: merging a patch into a hive.  Section 4.5:
    "registration by service/driver name is an overwrite, not an append": a
    key of the patch that the hive has keeps its place and takes the patch's
    values; a key it does not have is created. *)
Definition merge_patch (sections : Hive) (h : Hive) : Hive :=
  foldl (fun acc kv => merge_key kv.1 kv.2 acc) h sections.

Fixpoint split_lines_from (cs cur : list ascii) : list string :=
  match cs with
  | [] => [string_of_list_ascii (rev cur)]
  | c :: rest =>
      if decide (c = "010"%char)
      then string_of_list_ascii (rev cur) :: split_lines_from rest []
      else split_lines_from rest (c :: cur)
  end.

Fixpoint split_at_equals (cs name : list ascii) : option (string * string) :=
  match cs with
  | [] => None
  | c :: rest =>
      if decide (c = "="%char)
      then Some (string_of_list_ascii (rev name), string_of_list_ascii rest)
      else split_at_equals rest (c :: name)
  end.

(** The hive path a section header names: the text between the brackets,
    without the [HKEY_LOCAL_MACHINE\SYSTEM] prefix. *)
Definition header_key (line : string) : string :=
  let inner := string_of_list_ascii
                 (rev (drop 1 (rev (drop 1 (list_ascii_of_string line))))) in
  default inner (strip_prefix "HKEY_LOCAL_MACHINE\SYSTEM" inner).

Fixpoint parse_reg_lines (lines : list string)
    (cur : option (string * list (string * string))) : Hive :=
  match lines with
  | [] => match cur with Some kv => [kv] | None => [] end
  | line :: rest =>
      if startswith "[" line
      then match cur with Some kv => [kv] | None => [] end
           ++ parse_reg_lines rest (Some (header_key line, []))
      else
        match cur, split_at_equals (list_ascii_of_string line) [] with
        | Some (k, vals), Some nv => parse_reg_lines rest (Some (k, vals ++ [nv]))
        | _, _ => parse_reg_lines rest cur
        end
  end.

(** The sections of a [.reg] file. *)
Definition parse_reg (text : string) : Hive :=
  parse_reg_lines (split_lines_from (list_ascii_of_string text) []) None.

(** The guest image: its files (path and content, in directory order) and
    its SYSTEM hive. *)
Record Guest := mkGuest {
  g_files : list (string * string);
  g_hive : Hive
}.

Inductive HostFile :=
| Text (content : string)
| HiveCopy (h : Hive).

(** The host: the guest image, the host's own files, the files of the
    virtio-win ISO (path inside the ISO and content), the number of
    processes started so far, and which process starts fail. *)
Record Machine := mkMachine {
  guest : Guest;
  files : gmap string HostFile;
  iso : list (string * string);
  started : nat;
  fails : nat -> bool
}.

Definition SYSTEM_HIVE : string := "/Windows/System32/config/SYSTEM".

Inductive Tool :=
| Which
| AptGet
| IsFile (path : string)
| Mount (dir : string)
| Umount (dir : string)
| Cp (src dst : string)
| CpDir (srcs : list string) (dst : string)
| Upload (src dst : string)
| Download (dst : string)
| MkdirP (dir : string)
| RegMerge (patch : string)
| HiveMerge (hive patch : string)
| RegQuery (key : string)
| Hivexsh (hive : string)
| Unknown.

Definition decode_guestfish (args : list string) : Tool :=
  match args with
  | [a; _; _; _; sub; x] =>
      if decide (a = "-a" /\ sub = "mkdir-p") then MkdirP x else Unknown
  | [a; b; _; _; sub; x; y] =>
      if decide (a = "-a" /\ sub = "upload") then Upload x y
      else if decide (a = "-a" /\ sub = "download" /\ x = SYSTEM_HIVE) then Download y
      else if decide (a = "--ro" /\ b = "-a" /\ x = "is-file") then IsFile y
      else Unknown
  | [a; b; _; _; _; sub; x; y] =>
      if decide (a = "--ro" /\ b = "-a" /\ sub = "download" /\ x = SYSTEM_HIVE)
      then Download y else Unknown
  | _ => Unknown
  end.

(** What a command line asks for. *)
Definition decode (cmd : list string) : Tool :=
  match cmd with
  | prog :: args =>
      if decide (prog = "which") then Which
      else if decide (prog = "apt-get") then AptGet
      else if decide (prog = "guestfish") then decode_guestfish args
      else if decide (prog = "mount") then
        match args with [_; _; _; dir] => Mount dir | _ => Unknown end
      else if decide (prog = "umount") then
        match args with [dir] => Umount dir | _ => Unknown end
      else if decide (prog = "cp") then
        match args with
        | [src; dst] => Cp src dst
        | flag :: rest =>
            if decide (flag = "-r")
            then match reverse rest with
                 | dst :: srcs => CpDir (reverse srcs) dst
                 | [] => Unknown
                 end
            else Unknown
        | [] => Unknown
        end
      else if decide (prog = "virt-win-reg") then
        match args with
        | [flag; _; patch] => if decide (flag = "--merge") then RegMerge patch else Unknown
        | [_; key] => RegQuery key
        | _ => Unknown
        end
      else if decide (prog = "hivexregedit") then
        match args with
        | [flag; hive; _; _; patch] =>
            if decide (flag = "--merge") then HiveMerge hive patch else Unknown
        | _ => Unknown
        end
      else if decide (prog = "hivexsh") then
        match args with [hive] => Hivexsh hive | _ => Unknown end
      else Unknown
  | [] => Unknown
  end.

Definition with_guest (g : Guest) (m : Machine) : Machine :=
  mkMachine g (files m) (iso m) (started m) (fails m).

Definition with_files (f : gmap string HostFile) (m : Machine) : Machine :=
  mkMachine (guest m) f (iso m) (started m) (fails m).

Definition exit_ok (out : string) (m : Machine) : CompletedProcess * Machine :=
  (mkCP 0 out "", m).

Definition exit_failure (err : string) (m : Machine) : CompletedProcess * Machine :=
  (mkCP 1 "" err, m).

(** The interface GUID keys of a hive, one per line. *)
Definition interface_listing (h : Hive) : string :=
  String.concat nl
    (filter (fun k => startswith "\ControlSet001\Services\Tcpip\Parameters\Interfaces\" k = true)
            (h.*1)).

Definition has_prefix (dir p : string) : bool := startswith (dir +:+ "/") p.

(** Modelled from the spec: what each tool does when it succeeds.  Section
    4.5 ("Idempotency"): an upload to a guest path replaces the file there
    when there is one, and a merge overwrites by key.  A tool whose input is
    missing fails and changes nothing. *)
Definition perform (t : Tool) (m : Machine) : CompletedProcess * Machine :=
  match t with
  | Which | AptGet | MkdirP _ => exit_ok "" m
  | IsFile path =>
      exit_ok (if decide (path ∈ (g_files (guest m)).*1) then "true" else "false") m
  | Mount dir =>
      exit_ok ""
        (with_files (foldl (fun f e => <[path_join dir e.1 := Text e.2]> f)
                           (files m) (iso m)) m)
  | Umount dir =>
      exit_ok "" (with_files (filter (fun e => has_prefix dir e.1 = false) (files m)) m)
  | Cp src dst =>
      match files m !! src with
      | Some f => exit_ok "" (with_files (<[dst := f]> (files m)) m)
      | None => exit_failure "cp: cannot stat" m
      end
  | CpDir srcs dst =>
      exit_ok ""
        (with_files
           (foldl (fun f src =>
                     match files m !! src with
                     | Some c => <[path_join dst (path_name src) := c]> f
                     | None => f
                     end) (files m) srcs) m)
  | Upload src dst =>
      match files m !! src with
      | Some (Text content) =>
          if decide (dst = SYSTEM_HIVE) then exit_failure "not a hive" m
          else exit_ok ""
                 (with_guest (mkGuest (upsert dst content (g_files (guest m)))
                                      (g_hive (guest m))) m)
      | Some (HiveCopy h) =>
          if decide (dst = SYSTEM_HIVE)
          then exit_ok "" (with_guest (mkGuest (g_files (guest m)) h) m)
          else exit_failure "not a file" m
      | None => exit_failure "upload: no such file" m
      end
  | Download dst =>
      exit_ok "" (with_files (<[dst := HiveCopy (g_hive (guest m))]> (files m)) m)
  | RegMerge patch =>
      match files m !! patch with
      | Some (Text text) =>
          exit_ok ""
            (with_guest (mkGuest (g_files (guest m))
                                 (merge_patch (parse_reg text) (g_hive (guest m)))) m)
      | _ => exit_failure "virt-win-reg: cannot read the patch" m
      end
  | HiveMerge hive patch =>
      match files m !! hive, files m !! patch with
      | Some (HiveCopy h), Some (Text text) =>
          exit_ok ""
            (with_files (<[hive := HiveCopy (merge_patch (parse_reg text) h)]> (files m)) m)
      | _, _ => exit_failure "hivexregedit: cannot read the hive or the patch" m
      end
  | RegQuery _ => exit_ok (interface_listing (g_hive (guest m))) m
  | Hivexsh hive =>
      match files m !! hive with
      | Some (HiveCopy h) => exit_ok (interface_listing h) m
      | _ => exit_failure "hivexsh: cannot read the hive" m
      end
  | Unknown => (mkCP 127 "" "command not found", m)
  end.

(** Starting a process: it fails outright when the machine says so. *)
Definition run_process (cmd : list string) (input : option string) (m : Machine)
    : CompletedProcess * Machine :=
  let m' := mkMachine (guest m) (files m) (iso m) (S (started m)) (fails m) in
  if fails m (started m) then exit_failure "killed" m'
  else perform (decode cmd) m'.

Definition machine_host : Host := {|
  HostState := Machine;
  subprocess_run := run_process;
  write_text := fun p text m => with_files (<[p := Text text]> (files m)) m;
  read_text := fun p m =>
    match files m !! p with Some (Text text) => Some text | _ => None end;
  unlink_missing_ok := fun p m => with_files (delete p (files m)) m;
  mkdir_parents := fun _ m => m;
  mkdtemp := fun prefix m => ("/tmp/" +:+ prefix +:+ pretty (started m), m);
  host_exists := fun p m =>
    bool_decide (is_Some (files m !! p))
    || existsb (fun e => has_prefix p e.1) (map_to_list (files m));
  host_is_file := fun p m => bool_decide (is_Some (files m !! p));
  iterdir := fun d m =>
    filter (fun p => path_parent p = d) (map_to_list (files m)).*1;
  rglob := fun d name m =>
    filter (fun p => has_prefix d p = true /\ path_name p = name)
           (map_to_list (files m)).*1
|}.

(** The hive key of a driver's service entry, and how often a key or a path
    occurs. *)
Definition service_key (drv_name : string) : string :=
  "\ControlSet001\Services\" +:+ drv_name.

Definition occurrences {A} (k : string) (l : list (string * A)) : nat :=
  length (filter (fun kv => kv.1 = k) l).

(** Every hive copy among the host's files has each key once. *)
Definition hives_ok (f : gmap string HostFile) : Prop :=
  forall p h, f !! p = Some (HiveCopy h) -> NoDup h.*1.

(** Every hive of the machine, the guest's and the copies on the host, has
    each key once, and so has the guest's file table. *)
Definition well_formed (m : Machine) : Prop :=
  NoDup (g_files (guest m)).*1 /\
  NoDup (g_hive (guest m)).*1 /\
  hives_ok (files m).

(** No process start fails on the machine. *)
Definition never_fails (m : Machine) : Prop := forall n, fails m n = false.

(** The guest path of a driver's binary. *)
Definition driver_path (drv_name : string) : string :=
  "/Windows/System32/drivers/" +:+ drv_name +:+ ".sys".

(** The guest has a file at [p]. *)
Definition has_file (p : string) (m : Machine) : Prop :=
  p ∈ (g_files (guest m)).*1.

(** The firstboot script is in the guest, at its path. *)
Definition has_firstboot_script (m : Machine) : Prop :=
  (FIRSTBOOT_SCRIPT_PATH, PNPUTIL_FIRSTBOOT_SCRIPT) ∈ g_files (guest m).

(** The hive of the guest has the keys [K]. *)
Definition has_keys (K : string -> Prop) (m : Machine) : Prop :=
  forall k, K k -> k ∈ (g_hive (guest m)).*1.

End GuestModel.

(** ** Concrete collaborators, for running the pipeline on examples *)

Module Scenario.
Import Py Pipeline.

(** [with_suffix] on the file names used below: a final [.vmdk] is
    replaced, anything else gets the suffix appended. *)
Definition swap_suffix (p s : string) : option string :=
  match rev (list_ascii_of_string p) with
  | "k"%char :: "d"%char :: "m"%char :: "v"%char :: "."%char :: stem =>
      Some (string_of_list_ascii (rev stem) +:+ s)
  | _ => Some (p +:+ s)
  end.

(** The remote side is a journal of the collaborator calls made so far. *)
Definition note {A} (entry : string) (a : A) (s : Site (list string))
    : A * Site (list string) :=
  (a, mkSite (disk s) (remote s ++ [entry])).

Definition count_entries (entry : string) (journal : list string) : nat :=
  length (filter (fun e => e = entry) journal).

(** A site where every collaborator succeeds, except that disk export
    fails on its first [export_failures] attempts. *)
Definition flaky (export_failures : nat) : Collaborators := {|
  Remote := list string;
  uuid8 := fun r => ("a1b2c3d4", r);
  time_time := fun r => (0, r);
  datetime_now := fun r => (0, r);
  fmt_elapsed := fun _ _ => "0s";
  fmt_mb := fun _ => "0";
  path_name := fun p => p;
  path_with_suffix := swap_suffix;
  compress_qcow2 := true;
  default_skip_validation := false;
  get_os_family := fun g => ("linux", g);
  cleaner_clean := fun d _ => note ("clean " +:+ d) (Ok tt);
  converter_check := fun q => note ("check " +:+ q) (Ok true);
  converter_convert := fun src dst _ s =>
    (Ok tt, mkSite (<[dst := File 1]> (disk s)) (remote s ++ ["convert " +:+ src]));
  run_command_direct_nocheck := fun cmd => note "virt-customize" (Ok tt);
  detect_boot_type := fun d => note ("detect " +:+ d) (Ok "uefi");
  convert_bios_to_uefi := fun d _ => note ("bios2uefi " +:+ d) (Ok true);
  create_snapshot_from_s3 := fun _ _ _ k => note ("snapshot " +:+ k) (Ok "snap-1");
  wait_for_snapshot := fun _ i => note ("wait " +:+ i) (Ok tt);
  create_image := fun _ n _ => note ("image " +:+ n) (Ok "img-1");
  inject_virtio_body := fun d _ => note ("virt-v2v " +:+ d) (Ok tt);
  validate_body := fun _ st s =>
    (Ok tt, <["vm_info" := ADict {["guest_os" := "ubuntu64Guest"]}]> (artifacts st),
     mkSite (disk s) (remote s ++ ["validate"]));
  snapshot_body := fun _ st s =>
    (Ok tt, <["snapshot_name" := AStr ("vmware2scw-" +:+ migration_id st)]> (artifacts st),
     mkSite (disk s) (remote s ++ ["snapshot"]));
  export_body := fun _ st s =>
    if decide (count_entries "export" (remote s) < export_failures)%nat
    then (Raise (Foreign "export interrupted"), artifacts st,
          mkSite (disk s) (remote s ++ ["export"]))
    else (Ok tt, <["vmdk_paths" := AList ["/work/disk0.vmdk"]]> (artifacts st),
          mkSite (<["/work/disk0.vmdk" := File 1048576]> (disk s))
                 (remote s ++ ["export"]));
  upload_s3_body := fun _ st s =>
    (Ok tt,
     <["s3_bucket" := AStr "bucket"]>
       (<["s3_keys" := AList ["migrations/disk0.qcow2"]]> (artifacts st)),
     mkSite (disk s) (remote s ++ ["upload"]));
  cleanup_body := fun _ st s =>
    (Ok tt, artifacts st, mkSite (disk s) (remote s ++ ["cleanup"]))
|}.

Definition empty_site : Site (list string) := mkSite ∅ [].

Definition empty_world (C : Collaborators) (s : Site (@Remote C)) : @World C :=
  mkWorld ∅ s [] [].

(** A persisted migration that stopped with [done] completed. *)
Definition stopped (done : list string) : MigrationState :=
  mkState "a1b2c3d4" "web01" "PRO2-S" "fr-par-1" "export" done ∅ 0
          (Some "export interrupted").

Definition world_with (C : Collaborators) (s : Site (@Remote C))
    (st : MigrationState) : @World C :=
  mkWorld {[ migration_id st := st ]} s [] [].

(** A conversion host on which every process exits with status 1 and no
    file can be read. *)
Definition failing_host : WindowsVirtio.Host := {|
  WindowsVirtio.HostState := unit;
  WindowsVirtio.subprocess_run := fun _ _ h =>
    (WindowsVirtio.mkCP 1 "" "libguestfs: error: could not access the disk image", h);
  WindowsVirtio.write_text := fun _ _ h => h;
  WindowsVirtio.read_text := fun _ _ => None;
  WindowsVirtio.unlink_missing_ok := fun _ h => h;
  WindowsVirtio.mkdir_parents := fun _ h => h;
  WindowsVirtio.mkdtemp := fun prefix h => ("/tmp/" +:+ prefix +:+ "0", h);
  WindowsVirtio.host_exists := fun _ _ => false;
  WindowsVirtio.host_is_file := fun _ _ => false;
  WindowsVirtio.iterdir := fun _ _ => [];
  WindowsVirtio.rglob := fun _ _ _ => []
|}.

(** [l1] is a subsequence of [l2]: its elements occur in [l2] in the same
    order. *)
Fixpoint subseqb (l1 l2 : list string) : bool :=
  match l1, l2 with
  | [], _ => true
  | _ :: _, [] => false
  | x :: l1', y :: l2' =>
      if decide (x = y) then subseqb l1' l2' else subseqb l1 l2'
  end.

End Scenario.

(** ** A Windows guest and a virtio-win ISO, for running the engine *)

Module GuestScenario.
Import Py WindowsVirtio GuestModel.

(** The ISO has the three drivers, each under one Windows version. *)
Definition virtio_win_iso : list (string * string) :=
  [("viostor/2k22/amd64/viostor.sys", "viostor binary");
   ("viostor/2k22/amd64/viostor.inf", "viostor inf");
   ("vioscsi/2k19/amd64/vioscsi.sys", "vioscsi binary");
   ("vioscsi/2k19/amd64/vioscsi.inf", "vioscsi inf");
   ("NetKVM/w10/amd64/netkvm.sys", "netkvm binary");
   ("NetKVM/w10/amd64/netkvm.inf", "netkvm inf")].

(** The guest has an old [viostor.sys] and one network interface. *)
Definition windows_guest : Guest :=
  mkGuest [("/Windows/System32/drivers/viostor.sys", "old viostor binary")]
          [("\ControlSet001\Services\Tcpip\Parameters\Interfaces\{ab-12}", [])].

Definition conversion_host : Machine :=
  mkMachine windows_guest ∅ virtio_win_iso 0 (fun _ => false).

Definition before_first : @Env machine_host :=
  mkEnv (conversion_host : @HostState machine_host) [] [].

Definition after_first : @Env machine_host :=
  (ensure_all_virtio_drivers "/img/win.qcow2" "/iso/virtio-win.iso" (Some "/work")
     before_first).2.

Definition after_second : @Env machine_host :=
  (ensure_all_virtio_drivers "/img/win.qcow2" "/iso/virtio-win.iso" (Some "/work")
     after_first).2.

(** An older ISO, without the network driver, for the same guest. *)
Definition iso_without_netkvm : list (string * string) :=
  [("viostor/2k22/amd64/viostor.sys", "viostor binary");
   ("viostor/2k22/amd64/viostor.inf", "viostor inf");
   ("vioscsi/2k19/amd64/vioscsi.sys", "vioscsi binary");
   ("vioscsi/2k19/amd64/vioscsi.inf", "vioscsi inf")].

Definition host_with_old_iso : Machine :=
  mkMachine windows_guest ∅ iso_without_netkvm 0 (fun _ => false).

Definition old_iso_before_first : @Env machine_host :=
  mkEnv (host_with_old_iso : @HostState machine_host) [] [].

Definition old_iso_after_first : @Env machine_host :=
  (ensure_all_virtio_drivers "/img/win.qcow2" "/iso/virtio-win.iso" (Some "/work")
     old_iso_before_first).2.

Definition old_iso_after_second : @Env machine_host :=
  (ensure_all_virtio_drivers "/img/win.qcow2" "/iso/virtio-win.iso" (Some "/work")
     old_iso_after_first).2.

End GuestScenario.

(** ** [dry_run] *)

Module Simulation.
Import Py Pipeline.

Section DryRun.
Context {C : Collaborators}.

(** The loop of [dry_run]: [i] is the number [enumerate(self.STAGES, 1)]
    gives the stage. *)
Fixpoint dry_run_stages (plan : VMMigrationPlan) (i : nat) (stages : list string)
    (w : World) : World :=
  match stages with
  | [] => w
  | stage :: rest =>
      let w :=
        if plan_skip_validation plan && bool_decide (stage = "validate")
        then logger_info ("  " +:+ pretty i +:+ ". " +:+ stage
                          +:+ " [dim](skipped)[/dim]") w
        else logger_info ("  " +:+ pretty i +:+ ". " +:+ stage) w in
      dry_run_stages plan (S i) rest w
  end.

(** [dry_run] *)
Definition dry_run (plan : VMMigrationPlan) (w : World) : World :=
  let w := logger_info ("[yellow]DRY RUN for VM '" +:+ plan_vm_name plan
                        +:+ "'[/yellow]") w in
  let w := logger_info ("Target: " +:+ plan_target_type plan +:+ " in "
                        +:+ plan_zone plan) w in
  let w := logger_info "Stages that would execute:" w in
  dry_run_stages plan 1 STAGES w.

End DryRun.
End Simulation.

(** ** The handlers that only talk to services

    [_stage_validate], [_stage_snapshot], [_stage_export],
    [_stage_upload_s3] and [_stage_cleanup] are sequences of calls to
    vCenter, to object storage and to the local disk.  [Pipeline] takes
    each of them as one collaborator; here each is written out, call by
    call, over the services it uses. *)

Module StageServices.
Import Py Pipeline.

(** [report.checks] and [report.passed] of the validator's report *)
Record Check := mkCheck {
  check_name : string;
  check_message : string;
  check_passed : bool;
  check_blocking : bool
}.

Record Report := mkReport {
  report_passed : bool;
  report_checks : list Check
}.

(** A call to a service with its result, as recorded in the journal of
    an execution. *)
Inductive Event :=
| Connected (r : Res unit)
| Disconnected (r : Res unit)
| VmInfoRead (vm : string) (r : Res unit)
| Validated (target : string) (r : Res unit)
| SnapshotCreated (vm snap : string) (r : Res unit)
| SnapshotDeleted (vm snap : string) (r : Res unit)
| DirMade (p : string) (r : Res unit)
| DisksExported (vm dir : string) (r : Res unit)
| S3Opened (r : Res unit)
| BucketEnsured (bucket : string) (r : Res unit)
| ObjectChecked (bucket key : string) (r : Res bool)
| ObjectSized (bucket key : string) (r : Res Z)
| FileSized (p : string) (r : Res Z)
| ImageUploaded (p bucket key : string) (r : Res unit)
| DirChecked (p : string) (r : Res bool)
| TreeSized (p : string) (r : Res unit)
| TreeRemoved (p : string)
| S3ClientOpened (r : Res unit)
| ObjectDeleted (bucket key : string) (r : Res unit).

Definition outcome {A} (r : Res A) : Res unit :=
  match r with
  | Ok _ => Ok tt
  | Raise e => Raise e
  end.

(** The services and the configuration the five handlers use. *)
Class Services := {
  Ext : Type;
  VmInfo : Type;
  (** [vm_info.model_dump()], its text fields *)
  model_dump : VmInfo -> gmap string string;
  (** [self.config.conversion.work_dir / state.migration_id] as a string,
      [self.config.scaleway.s3_bucket], [f"{size / (1024**3):.1f}"],
      [Path(p).name] *)
  work_dir_for : string -> string;
  config_s3_bucket : string;
  fmt_gb : Z -> string;
  path_name : string -> string;
  (** [VSphereClient()] with [client.connect(...)], [client.disconnect()] *)
  vsphere_connect : Ext -> Res unit * Ext;
  vsphere_disconnect : Ext -> Res unit * Ext;
  (** [VMInventory(client).get_vm_info], [MigrationValidator().validate] *)
  get_vm_info : string -> Ext -> Res VmInfo * Ext;
  validator_validate : VmInfo -> string -> Ext -> Res Report * Ext;
  (** [SnapshotManager(client)] *)
  create_migration_snapshot : string -> string -> Ext -> Res unit * Ext;
  delete_migration_snapshot : string -> string -> Ext -> Res unit * Ext;
  (** [work_dir.mkdir(parents=True, exist_ok=True)],
      [VMExporter(client).export_vm_disks], with the paths as strings *)
  mkdir_parents : string -> Ext -> Res unit * Ext;
  export_vm_disks : string -> string -> Ext -> Res (list string) * Ext;
  (** [ScalewayS3(...)] and its methods; [Path(p).stat().st_size] *)
  s3_open : Ext -> Res unit * Ext;
  create_bucket_if_not_exists : string -> Ext -> Res unit * Ext;
  check_object_exists : string -> string -> Ext -> Res bool * Ext;
  get_object_size : string -> string -> Ext -> Res Z * Ext;
  stat_size : string -> Ext -> Res Z * Ext;
  upload_image : string -> string -> string -> Ext -> Res unit * Ext;
  (** [work_dir.exists()], the sum of the sizes of the files below it,
      [shutil.rmtree(work_dir, ignore_errors=True)] *)
  dir_exists : string -> Ext -> Res bool * Ext;
  tree_size : string -> Ext -> Res Z * Ext;
  rmtree_ignore_errors : string -> Ext -> Ext;
  (** [ScalewayS3Client(...)], [s3.client.delete_object] *)
  s3client_open : Ext -> Res unit * Ext;
  delete_object : string -> string -> Ext -> Res unit * Ext
}.

Section Handlers.
Context {V : Services}.

(** What a handler runs on: the state object, the services, the log and
    the journal of the calls made. *)
Record SState := mkS {
  s_state : MigrationState;
  s_ext : Ext;
  s_log : list LogLine;
  s_journal : list Event
}.

Definition S (A : Type) : Type := M SState A.

Definition logger (lvl : Level) (msg : string) : S unit :=
  modify (fun s => mkS (s_state s) (s_ext s) (s_log s ++ [(lvl, msg)]) (s_journal s)).

(** A call to a service, recorded with its result. *)
Definition ask {A} (event : Res A -> Event) (c : Ext -> Res A * Ext) : S A :=
  fun s => let '(r, x) := c (s_ext s) in
           (r, mkS (s_state s) x (s_log s) (s_journal s ++ [event r])).

Definition artifacts_get (k : string) : S (option Artifact) :=
  fun s => (Ok (artifacts (s_state s) !! k), s).

(** [state.artifacts.get(k, [])] where the producers store a list *)
Definition artifacts_get_list (k : string) : S (list string) :=
  a ← artifacts_get k;
  mret (match a with Some (AList l) => l | _ => [] end).

Definition artifacts_set (k : string) (v : Artifact) : S unit :=
  modify (fun s =>
    mkS (set_artifacts (<[k := v]> (artifacts (s_state s))) (s_state s))
        (s_ext s) (s_log s) (s_journal s)).

(** [_stage_validate] *)
Definition _stage_validate (plan : VMMigrationPlan) : S unit :=
  ask Connected vsphere_connect;;
  vm_info ← ask (fun r => VmInfoRead (plan_vm_name plan) (outcome r))
                (get_vm_info (plan_vm_name plan));
  artifacts_set "vm_info" (ADict (model_dump vm_info));;
  report ← ask (fun r => Validated (plan_target_type plan) (outcome r))
               (validator_validate vm_info (plan_target_type plan));
  ask Disconnected vsphere_disconnect;;
  if negb (report_passed report)
  then
    let failures :=
      filter (fun c => negb (check_passed c) && check_blocking c)
             (report_checks report) in
    let msg :=
      String.concat "; "
        (map (fun c => check_name c +:+ ": " +:+ check_message c) failures) in
    raise (RuntimeError ("Pre-validation failed: " +:+ msg))
  else mret tt.

(** [_stage_snapshot] *)
Definition _stage_snapshot (plan : VMMigrationPlan) : S unit :=
  ask Connected vsphere_connect;;
  s ← get_st;
  let snap_name := "vmware2scw-" +:+ migration_id (s_state s) in
  ask (SnapshotCreated (plan_vm_name plan) snap_name)
      (create_migration_snapshot (plan_vm_name plan) snap_name);;
  artifacts_set "snapshot_name" (AStr snap_name);;
  ask Disconnected vsphere_disconnect;;
  mret tt.

(** [_stage_export] *)
Definition _stage_export (plan : VMMigrationPlan) : S unit :=
  s ← get_st;
  let work_dir := work_dir_for (migration_id (s_state s)) in
  ask (DirMade work_dir) (mkdir_parents work_dir);;
  ask Connected vsphere_connect;;
  vmdk_paths ← ask (fun r => DisksExported (plan_vm_name plan) work_dir (outcome r))
                   (export_vm_disks (plan_vm_name plan) work_dir);
  artifacts_set "vmdk_paths" (AList vmdk_paths);;
  ask Disconnected vsphere_disconnect;;
  mret tt.

(** The key of a disk image in the bucket. *)
Definition object_key (id qcow2_path : string) : string :=
  "migrations/" +:+ id +:+ "/" +:+ path_name qcow2_path.

(** One iteration of the loop of [_stage_upload_s3]; returns the key
    appended to [s3_keys]. *)
Definition upload_one (bucket id qcow2_path : string) : S string :=
  let key := object_key id qcow2_path in
  present ← ask (ObjectChecked bucket key) (check_object_exists bucket key);
  skipped ← (if present : bool
             then
               remote_size ← ask (ObjectSized bucket key) (get_object_size bucket key);
               local_size ← ask (FileSized qcow2_path) (stat_size qcow2_path);
               if decide (remote_size = local_size)
               then logger INFO ("Skipping upload (already exists): " +:+ key);;
                    mret true
               else mret false
             else (mret false : S bool));
  if skipped : bool
  then mret key
  else
    ask (ImageUploaded qcow2_path bucket key) (upload_image qcow2_path bucket key);;
    mret key.

Fixpoint upload_all (bucket id : string) (qcow2_paths : list string)
    (s3_keys : list string) : S (list string) :=
  match qcow2_paths with
  | [] => mret s3_keys
  | qcow2_path :: rest =>
      key ← upload_one bucket id qcow2_path;
      upload_all bucket id rest (s3_keys ++ [key])
  end.

(** [_stage_upload_s3] *)
Definition _stage_upload_s3 (plan : VMMigrationPlan) : S unit :=
  ask S3Opened s3_open;;
  let bucket := config_s3_bucket in
  ask (BucketEnsured bucket) (create_bucket_if_not_exists bucket);;
  s ← get_st;
  qcow2_paths ← artifacts_get_list "qcow2_paths";
  s3_keys ← upload_all bucket (migration_id (s_state s)) qcow2_paths [];
  artifacts_set "s3_keys" (AList s3_keys);;
  artifacts_set "s3_bucket" (AStr bucket).

(** Python truth of an entry read with [state.artifacts.get(k)] *)
Definition truthy (a : option Artifact) : bool :=
  match a with
  | None => false
  | Some (AStr s) => negb (bool_decide (s = ""))
  | Some (AList l) => negb (bool_decide (l = []))
  | Some (ADict d) => negb (bool_decide (d = ∅))
  end.

(** The text of an entry the pipeline stores as a string. *)
Definition text_of (a : option Artifact) : string :=
  match a with
  | Some (AStr s) => s
  | _ => ""
  end.

(** One iteration of the deletion loop of [_stage_cleanup]. *)
Definition delete_transit (bucket key : string) : S unit :=
  try_except
    (ask (ObjectDeleted bucket key) (delete_object bucket key);;
     logger INFO ("Deleted S3 transit: s3://" +:+ bucket +:+ "/" +:+ key))
    (fun e2 => logger WARNING ("Failed to delete " +:+ key +:+ ": " +:+ str_exn e2)).

(** [_stage_cleanup] *)
Definition _stage_cleanup (plan : VMMigrationPlan) : S unit :=
  s ← get_st;
  let work_dir := work_dir_for (migration_id (s_state s)) in
  present ← ask (DirChecked work_dir) (dir_exists work_dir);
  (if present : bool
   then
     size ← ask (fun r => TreeSized work_dir (outcome r)) (tree_size work_dir);
     logger INFO ("Cleaning work directory: " +:+ work_dir +:+ " ("
                  +:+ fmt_gb size +:+ " GB)");;
     modify (fun s => mkS (s_state s) (rmtree_ignore_errors work_dir (s_ext s))
                          (s_log s) (s_journal s ++ [TreeRemoved work_dir]))
   else mret tt);;
  snap_name ← artifacts_get "snapshot_name";
  (if truthy snap_name
   then
     try_except
       (ask Connected vsphere_connect;;
        ask (SnapshotDeleted (plan_vm_name plan) (text_of snap_name))
            (delete_migration_snapshot (plan_vm_name plan) (text_of snap_name));;
        ask Disconnected vsphere_disconnect;;
        logger INFO ("Deleted VMware snapshot: " +:+ text_of snap_name))
       (fun e => logger WARNING ("Failed to clean VMware snapshot: " +:+ str_exn e))
   else mret tt);;
  image_id ← artifacts_get "scaleway_image_id";
  s3_keys ← artifacts_get_list "s3_keys";
  bucket ← artifacts_get "s3_bucket";
  (if truthy image_id && negb (bool_decide (s3_keys = [])) && truthy bucket
   then
     try_except
       (ask S3ClientOpened s3client_open;;
        for_each s3_keys (delete_transit (text_of bucket)))
       (fun e => logger WARNING ("S3 cleanup failed: " +:+ str_exn e))
   else logger INFO "S3 transit files retained (image not confirmed or no keys)");;
  logger INFO "Cleanup complete.".

(** The calls a computation made: what it added to the journal. *)
Definition new_events (before after : SState) : list Event :=
  drop (length (s_journal before)) (s_journal after).

End Handlers.
End StageServices.

(** ** A site for the service handlers *)

Module ServiceScenario.
Import Py Pipeline StageServices.

(** Object storage is the map from keys to object sizes; every local
    file has 4096 bytes; vCenter describes an Ubuntu guest, and the
    validator finds too many cores (blocking) and a long name (not
    blocking).  Every call succeeds. *)
Definition small_site : Services := {|
  Ext := gmap string Z;
  VmInfo := gmap string string;
  model_dump := fun info => info;
  work_dir_for := fun id => "/var/lib/vmware2scw/" +:+ id;
  config_s3_bucket := "transit";
  fmt_gb := fun _ => "0.0";
  StageServices.path_name := WindowsVirtio.path_name;
  vsphere_connect := fun x => (Ok tt, x);
  vsphere_disconnect := fun x => (Ok tt, x);
  get_vm_info := fun _ x => (Ok {[ "guest_os" := "ubuntu64Guest" ]}, x);
  validator_validate := fun _ _ x =>
    (Ok (mkReport false [ mkCheck "cpu" "too many cores" false true;
                          mkCheck "name" "longer than 63 characters" false false;
                          mkCheck "disk" "fits" true true ]), x);
  create_migration_snapshot := fun _ _ x => (Ok tt, x);
  delete_migration_snapshot := fun _ _ x => (Ok tt, x);
  mkdir_parents := fun _ x => (Ok tt, x);
  export_vm_disks := fun _ dir x => (Ok [dir +:+ "/disk0.vmdk"], x);
  s3_open := fun x => (Ok tt, x);
  create_bucket_if_not_exists := fun _ x => (Ok tt, x);
  check_object_exists := fun _ k x => (Ok (bool_decide (is_Some (x !! k))), x);
  get_object_size := fun _ k x =>
    (match x !! k with Some n => Ok n | None => Raise (Foreign "NoSuchKey") end, x);
  stat_size := fun _ x => (Ok 4096, x);
  upload_image := fun _ _ k x => (Ok tt, <[k := 4096]> x);
  dir_exists := fun _ x => (Ok true, x);
  tree_size := fun _ x => (Ok 8192, x);
  rmtree_ignore_errors := fun _ x => x;
  s3client_open := fun x => (Ok tt, x);
  delete_object := fun _ k x => (Ok tt, delete k x)
|}.

Definition web01 : VMMigrationPlan := mkPlan "web01" "PRO2-S" "fr-par-1" false.

(** A migration with one converted disk, before anything is in the
    bucket. *)
Definition converted : MigrationState :=
  mkState "a1b2c3d4" "web01" "PRO2-S" "fr-par-1" "upload_s3"
          ["validate"; "snapshot"; "export"; "convert"]
          {[ "qcow2_paths" := AList ["/work/disk0.qcow2"] ]} 0 None.

Definition before_upload : @SState small_site :=
  @mkS small_site converted (∅ : gmap string Z) [] [].

(** A migration that has just started. *)
Definition started : MigrationState :=
  mkState "a1b2c3d4" "web01" "PRO2-S" "fr-par-1" "validate" [] ∅ 0 None.

Definition at_start : @SState small_site :=
  @mkS small_site started (∅ : gmap string Z) [] [].

(** The same migration when [cleanup] starts. *)
Definition imported : MigrationState :=
  mkState "a1b2c3d4" "web01" "PRO2-S" "fr-par-1" "cleanup"
          ["validate"; "snapshot"; "export"; "convert"]
          {[ "snapshot_name" := AStr "vmware2scw-a1b2c3d4";
             "s3_keys" := AList ["migrations/a1b2c3d4/disk0.qcow2"];
             "s3_bucket" := AStr "transit";
             "scaleway_image_id" := AStr "img-1" ]} 0 None.

Definition before_cleanup : @SState small_site :=
  @mkS small_site imported
       ({[ "migrations/a1b2c3d4/disk0.qcow2" := 4096 ]} : gmap string Z) [] [].

End ServiceScenario.

(** * Properties *)

(** ** Running a sequence of statements *)

Module PyFacts.
Import Py.

Lemma bind_ok {S A B} (m : M S A) (f : A -> M S B) s a s1 :
  m s = (Ok a, s1) -> (m ≫= f) s = f a s1.
Proof. unfold mbind, M_bind. by intros ->. Qed.

Lemma bind_raise {S A B} (m : M S A) (f : A -> M S B) s e s1 :
  m s = (Raise e, s1) -> (m ≫= f) s = (Raise e, s1).
Proof. unfold mbind, M_bind. by intros ->. Qed.

Lemma bind_ok_inv {S A B} (m : M S A) (f : A -> M S B) s b s' :
  (m ≫= f) s = (Ok b, s') ->
  exists a s1, m s = (Ok a, s1) /\ f a s1 = (Ok b, s').
Proof.
  unfold mbind, M_bind. destruct (m s) as [[a|e] s1]; [|done].
  intros Hf. by exists a, s1.
Qed.

End PyFacts.

Module PipelineFacts.
Import Py Pipeline PyFacts.

(** ** The stage registry *)

Lemma STAGES_NoDup : NoDup STAGES.
Proof. by apply (bool_decide_unpack _). Qed.

Lemma index_lookup (x : string) (l : list string) (i : nat) :
  index x l = Some i -> l !! i = Some x.
Proof.
  revert i; induction l as [|y l IH]; intros i; simpl; [done|].
  case_decide as Hy.
  - intros [= <-]. by rewrite Hy.
  - destruct (index x l) as [j|] eqn:Hj; simpl; [|done].
    intros [= <-]. by apply IH.
Qed.

(** C3: in the declared stage sequence, [convert] stands strictly before
    [clean_tools] and [fix_bootloader] strictly before [ensure_uefi]: each
    of the four names occurs exactly once, and the positions are 3 < 4 and
    6 < 7. *)
Theorem convert_before_clean_tools_and_bootloader_before_uefi :
  (exists i j : nat,
      index "convert" STAGES = Some i /\ index "clean_tools" STAGES = Some j /\
      (i < j)%nat) /\
  (exists i j : nat,
      index "fix_bootloader" STAGES = Some i /\ index "ensure_uefi" STAGES = Some j /\
      (i < j)%nat) /\
  (exists before between after : list string,
      STAGES = before ++ "convert" :: between ++ "clean_tools" :: after) /\
  (exists before between after : list string,
      STAGES = before ++ "fix_bootloader" :: between ++ "ensure_uefi" :: after) /\
  NoDup STAGES.
Proof.
  split; [|split; [|split; [|split]]].
  - exists 3%nat, 4%nat. repeat split; lia.
  - exists 6%nat, 7%nat. repeat split; lia.
  - by exists ["validate"; "snapshot"; "export"], [],
      ["inject_virtio"; "fix_bootloader"; "ensure_uefi"; "fix_network";
       "upload_s3"; "import_scw"; "verify"; "cleanup"].
  - by exists ["validate"; "snapshot"; "export"; "convert"; "clean_tools";
               "inject_virtio"], [],
      ["fix_network"; "upload_s3"; "import_scw"; "verify"; "cleanup"].
  - exact STAGES_NoDup.
Qed.

(** ** Handlers write to [state.artifacts] only *)

Section Frame.
Context {C : Collaborators}.

Definition touches_only_artifacts {A} (m : H A) : Prop :=
  forall h r h', m h = (r, h') ->
    h_state h' = set_artifacts (artifacts (h_state h')) (h_state h).

Lemma set_artifacts_id (st : MigrationState) :
  st = set_artifacts (artifacts st) st.
Proof. by destruct st. Qed.

Lemma toa_ret {A} (a : A) : touches_only_artifacts (mret a).
Proof. intros h r h' [= <- <-]. apply set_artifacts_id. Qed.

Lemma toa_raise {A} (e : PyExn) : touches_only_artifacts (raise e : H A).
Proof. intros h r h' [= <- <-]. apply set_artifacts_id. Qed.

Lemma toa_bind {A B} (m : H A) (f : A -> H B) :
  touches_only_artifacts m ->
  (forall a, touches_only_artifacts (f a)) ->
  touches_only_artifacts (m ≫= f).
Proof.
  intros Hm Hf h r h'. unfold mbind, M_bind.
  destruct (m h) as [[a|e] h1] eqn:E1.
  - intros E2. rewrite (Hf _ _ _ _ E2), (Hm _ _ _ E1). done.
  - intros [= <- <-]. by apply (Hm _ _ _ E1).
Qed.

Lemma toa_get_st : touches_only_artifacts (get_st : H HState).
Proof. intros h r h' [= <- <-]. apply set_artifacts_id. Qed.

Lemma toa_logger lvl msg : touches_only_artifacts (logger lvl msg).
Proof. intros h r h' [= <- <-]. apply set_artifacts_id. Qed.

Lemma toa_call {A} (c : Site Remote -> Res A * Site Remote) :
  touches_only_artifacts (call c).
Proof.
  intros h r h'. unfold call. destruct (c (h_site h)).
  intros [= <- <-]. apply set_artifacts_id.
Qed.

Lemma toa_artifacts_get k : touches_only_artifacts (artifacts_get k).
Proof. intros h r h' [= <- <-]. apply set_artifacts_id. Qed.

Lemma toa_artifacts_set k v : touches_only_artifacts (artifacts_set k v).
Proof. intros h r h' [= <- <-]. done. Qed.

Lemma toa_path_exists p : touches_only_artifacts (path_exists p).
Proof. intros h r h' [= <- <-]. apply set_artifacts_id. Qed.

Lemma toa_stat_size p : touches_only_artifacts (stat_size p).
Proof.
  intros h r h'. unfold stat_size.
  repeat case_match; intros [= <- <-]; apply set_artifacts_id.
Qed.

Lemma toa_unlink p : touches_only_artifacts (unlink p).
Proof.
  intros h r h'. unfold unlink.
  repeat case_match; intros [= <- <-]; apply set_artifacts_id.
Qed.

Lemma toa_of_body body plan : touches_only_artifacts (of_body body plan).
Proof.
  intros h r h'. unfold of_body.
  destruct (body plan (h_state h) (h_site h)) as [[r1 a] s1].
  intros [= <- <-]. done.
Qed.

Lemma toa_for_each {A} (l : list A) (body : A -> H unit) :
  (forall a, touches_only_artifacts (body a)) ->
  touches_only_artifacts (for_each l body).
Proof.
  intros Hb. induction l as [|x l IH]; simpl.
  - apply toa_ret.
  - apply toa_bind; [apply Hb | intros _; apply IH].
Qed.

Ltac toa :=
  repeat first
    [ apply toa_ret | apply toa_raise | apply toa_logger | apply toa_call
    | apply toa_artifacts_get | apply toa_artifacts_set | apply toa_get_st
    | apply toa_path_exists | apply toa_stat_size | apply toa_unlink
    | apply toa_of_body
    | apply toa_for_each; intros
    | apply toa_bind; [|intros]
    | case_match | case_decide ].

Lemma toa_artifacts_get_list k : touches_only_artifacts (artifacts_get_list k).
Proof. unfold artifacts_get_list. toa. Qed.

Lemma toa_artifacts_get_dict k : touches_only_artifacts (artifacts_get_dict k).
Proof. unfold artifacts_get_dict. toa. Qed.

Lemma toa_artifacts_getitem k : touches_only_artifacts (artifacts_getitem k).
Proof. unfold artifacts_getitem. toa. Qed.

Lemma toa_convert_one vmdk : touches_only_artifacts (convert_one vmdk).
Proof. unfold convert_one. toa. Qed.

Lemma toa_convert_all vmdks acc : touches_only_artifacts (convert_all vmdks acc).
Proof.
  revert acc; induction vmdks as [|v l IH]; intros acc; simpl.
  - apply toa_ret.
  - apply toa_bind; [apply toa_convert_one | intros q; apply IH].
Qed.

Lemma toa_delete_source vmdk : touches_only_artifacts (delete_source vmdk).
Proof. unfold delete_source. toa. Qed.

Ltac toa' :=
  repeat first
    [ apply toa_artifacts_get_list | apply toa_artifacts_get_dict
    | apply toa_artifacts_getitem | apply toa_convert_all
    | apply toa_delete_source
    | apply toa_ret | apply toa_raise | apply toa_logger | apply toa_call
    | apply toa_artifacts_get | apply toa_artifacts_set | apply toa_get_st
    | apply toa_of_body
    | apply toa_for_each; intros
    | apply toa_bind; [|intros]
    | case_match | case_decide ].

(** Every handler of the dispatch table leaves all of the state but
    [artifacts] as it found it. *)
Lemma handlers_touch_only_artifacts stage handler plan :
  getattr_stage stage handler_table = Some handler ->
  touches_only_artifacts (handler plan).
Proof.
  unfold handler_table; simpl.
  repeat (case_decide; [intros [= <-];
    first [ apply toa_of_body
          | unfold _stage_clean_tools, _stage_inject_virtio, _stage_convert,
              _stage_fix_bootloader, _stage_ensure_uefi, _stage_fix_network,
              _stage_import_scw, _stage_verify; toa' ] |]).
  done.
Qed.

End Frame.

(** ** Stage handlers *)

Section Stages.
Context {C : Collaborators}.

Lemma handler_of_registered_stage (s : string) :
  s ∈ STAGES -> is_Some (getattr_stage s handler_table).
Proof.
  unfold STAGES. intros Hs.
  repeat (apply elem_of_cons in Hs as [->|Hs]; [by eexists|]).
  by apply elem_of_nil in Hs.
Qed.

Definition keeps_state {A} (m : H A) : Prop :=
  forall h r h', m h = (r, h') -> h_state h' = h_state h.

Lemma ks_ret {A} (a : A) : keeps_state (mret a).
Proof. by intros h r h' [= <- <-]. Qed.

Lemma ks_raise {A} (e : PyExn) : keeps_state (raise e : H A).
Proof. by intros h r h' [= <- <-]. Qed.

Lemma ks_bind {A B} (m : H A) (f : A -> H B) :
  keeps_state m -> (forall a, keeps_state (f a)) -> keeps_state (m ≫= f).
Proof.
  intros Hm Hf h r h'. unfold mbind, M_bind.
  destruct (m h) as [[a|e] h1] eqn:E1.
  - intros E2. by rewrite (Hf _ _ _ _ E2), (Hm _ _ _ E1).
  - intros [= <- <-]. by apply (Hm _ _ _ E1).
Qed.

Lemma ks_logger lvl msg : keeps_state (logger lvl msg).
Proof. by intros h r h' [= <- <-]. Qed.

Lemma ks_call {A} (c : Site Remote -> Res A * Site Remote) :
  keeps_state (call c).
Proof.
  intros h r h'. unfold call. destruct (c (h_site h)). by intros [= <- <-].
Qed.

Lemma ks_path_exists p : keeps_state (path_exists p).
Proof. by intros h r h' [= <- <-]. Qed.

Lemma ks_stat_size p : keeps_state (stat_size p).
Proof.
  intros h r h'. unfold stat_size. by repeat case_match; intros [= <- <-].
Qed.

Lemma ks_unlink p : keeps_state (unlink p).
Proof.
  intros h r h'. unfold unlink. by repeat case_match; intros [= <- <-].
Qed.

Ltac ks :=
  repeat first
    [ apply ks_ret | apply ks_raise | apply ks_logger | apply ks_call
    | apply ks_path_exists | apply ks_stat_size | apply ks_unlink
    | apply ks_bind; [|intros]
    | case_match | case_decide ].

Lemma ks_convert_one vmdk : keeps_state (convert_one vmdk).
Proof. unfold convert_one. ks. Qed.

Lemma ks_delete_source vmdk : keeps_state (delete_source vmdk).
Proof. unfold delete_source. ks. Qed.

(** The conversion loop returns one path per source disk and leaves the
    state object alone. *)
Lemma convert_all_spec vmdks acc h q h' :
  convert_all vmdks acc h = (Ok q, h') ->
  h_state h' = h_state h /\ length q = (length acc + length vmdks)%nat.
Proof.
  revert acc h. induction vmdks as [|v l IH]; intros acc h; simpl.
  - intros [= <- <-]. split; [done|lia].
  - intros Hb. apply bind_ok_inv in Hb as (q1 & h1 & E1 & E2).
    apply ks_convert_one in E1. apply IH in E2 as [E2 Hlen].
    split; [congruence|]. rewrite Hlen, length_app. simpl. lia.
Qed.

(** One deletion: afterwards the path is not on disk, and nothing
    appears on disk that was not there. *)
Lemma delete_source_spec vmdk h h' :
  delete_source vmdk h = (Ok tt, h') ->
  h_state h' = h_state h /\
  disk (h_site h') !! vmdk = None /\
  (forall p, disk (h_site h) !! p = None -> disk (h_site h') !! p = None).
Proof.
  intros Hd. split; [by apply ks_delete_source in Hd|].
  revert Hd. unfold delete_source, path_exists, stat_size, unlink.
  unfold mbind, M_bind, mret, M_ret, logger, modify. simpl.
  case_bool_decide as Hp.
  - destruct Hp as [n Hp]. rewrite Hp.
    destruct n as [size|]; simpl; rewrite Hp; simpl; [|done].
    intros [= <-]. simpl. split.
    + apply lookup_delete_eq.
    + intros p Hn. destruct (decide (vmdk = p)) as [->|Hne].
      * apply lookup_delete_eq.
      * by rewrite lookup_delete_ne.
  - intros [= <-]. split; [|done].
    by apply eq_None_not_Some.
Qed.

Lemma delete_loop_spec vmdks h h' :
  for_each vmdks delete_source h = (Ok tt, h') ->
  h_state h' = h_state h /\
  (forall p, p ∈ vmdks -> disk (h_site h') !! p = None) /\
  (forall p, disk (h_site h) !! p = None -> disk (h_site h') !! p = None).
Proof.
  revert h. induction vmdks as [|v l IH]; intros h; simpl.
  - intros [= <-]. split; [done|]. split; [|done].
    intros p Hp. by apply elem_of_nil in Hp.
  - intros Hb. apply bind_ok_inv in Hb as ([] & h1 & E1 & E2).
    apply delete_source_spec in E1 as (Hs1 & Hv & Hmono).
    apply IH in E2 as (Hs2 & Hall & Hmono2).
    split; [congruence|]. split.
    + intros p Hp. apply elem_of_cons in Hp as [->|Hp]; [|by apply Hall].
      by apply Hmono2.
    + intros p Hp. by apply Hmono2, Hmono.
Qed.

(** [state.artifacts.get("vmdk_paths", [])] *)
Definition listed_vmdks (state : MigrationState) : list string :=
  match artifacts state !! "vmdk_paths" with
  | Some (AList l) => l
  | _ => []
  end.

(** C9: when [_stage_convert] returns normally, no path listed under
    [vmdk_paths] is on disk any more, the [vmdk_paths] entry is what it
    was (so it still names the deleted files), and the bag differs from
    the one received only by the [qcow2_paths] entry, which lists one
    path per source disk. *)
Theorem convert_deletes_sources_but_keeps_vmdk_paths
    (plan : VMMigrationPlan) (h h' : HState) :
  _stage_convert plan h = (Ok tt, h') ->
  (forall p, p ∈ listed_vmdks (h_state h) -> disk (h_site h') !! p = None) /\
  artifacts (h_state h') !! "vmdk_paths" = artifacts (h_state h) !! "vmdk_paths" /\
  exists qcow2_paths : list string,
    length qcow2_paths = length (listed_vmdks (h_state h)) /\
    h_state h'
    = set_artifacts (<["qcow2_paths" := AList qcow2_paths]> (artifacts (h_state h)))
                    (h_state h).
Proof.
  unfold _stage_convert. intros Hc.
  apply bind_ok_inv in Hc as (vmdks & h1 & E1 & Hc).
  injection E1 as <- <-.
  apply bind_ok_inv in Hc as (q & h2 & E2 & Hc).
  apply convert_all_spec in E2 as [Hs2 Hlen].
  apply bind_ok_inv in Hc as ([] & h3 & E3 & Hc).
  injection E3 as <-.
  apply bind_ok_inv in Hc as (vmdks' & h4 & E4 & Hc).
  injection E4 as <- <-. simpl in Hc.
  rewrite lookup_insert_ne in Hc by done. rewrite Hs2 in Hc.
  apply delete_loop_spec in Hc as (Hs5 & Hgone & _). simpl in Hs5.
  split; [exact Hgone|]. rewrite Hs5. simpl. split.
  - by rewrite lookup_insert_ne.
  - exists q. split; [exact Hlen|done].
Qed.

(** C10: the handler of [fix_network] returns normally with the state
    object and the site exactly as it received them; all it does is
    write one line to the log.  The same holds through the dispatch of
    [_execute_stage], which also leaves the state store alone. *)
Theorem fix_network_changes_nothing
    (plan : VMMigrationPlan) (state : MigrationState) (h : HState) (w : World) :
  _stage_fix_network plan h
  = (Ok tt,
     mkH (h_state h) (h_site h)
         (h_log h ++ [(INFO, "Network adaptation already handled in fix_bootloader stage")])) /\
  (_execute_stage "fix_network" plan state w).1 = (Ok tt, state) /\
  site (_execute_stage "fix_network" plan state w).2 = site w /\
  store (_execute_stage "fix_network" plan state w).2 = store w /\
  invoked (_execute_stage "fix_network" plan state w).2
  = invoked w ++ ["fix_network"].
Proof. done. Qed.

(** [state.artifacts.get(k, [])] is empty: the key is absent, or holds
    an empty list. *)
Definition absent_or_empty (k : string) (state : MigrationState) : Prop :=
  artifacts state !! k = None \/ artifacts state !! k = Some (AList []).

Lemma absent_or_empty_get_list k h :
  absent_or_empty k (h_state h) -> artifacts_get_list k h = (Ok [], h).
Proof.
  unfold artifacts_get_list, artifacts_get, mbind, M_bind, mret, M_ret.
  by intros [-> | ->].
Qed.

Lemma artifacts_get_dict_eq k h :
  artifacts_get_dict k h
  = (Ok (match artifacts (h_state h) !! k with
         | Some (ADict d) => d
         | _ => ∅
         end), h).
Proof. done. Qed.

(** The four handlers that work on the converted disks return at their
    guard when there is no disk path. *)
Lemma guarded_handlers_return_at_guard stage handler plan h :
  stage ∈ ["clean_tools"; "inject_virtio"; "fix_bootloader"; "ensure_uefi"] ->
  getattr_stage stage handler_table = Some handler ->
  absent_or_empty "qcow2_paths" (h_state h) ->
  exists h', handler plan h = (Ok tt, h') /\
             h_state h' = h_state h /\ h_site h' = h_site h.
Proof.
  intros Hstage Hh Habs.
  pose proof (absent_or_empty_get_list "qcow2_paths" h Habs) as Hget.
  repeat (apply elem_of_cons in Hstage as [->|Hstage]);
    [| | | |by apply elem_of_nil in Hstage].
  all: injection Hh as <-.
  all: unfold _stage_clean_tools, _stage_inject_virtio, _stage_fix_bootloader,
      _stage_ensure_uefi.
  all: rewrite (bind_ok _ _ _ _ _ (artifacts_get_dict_eq "vm_info" h)).
  all: rewrite (bind_ok _ _ _ _ _ Hget); simpl.
  all: eexists; split; [reflexivity|done].
Qed.

(** [_stage_import_scw] without keys: it raises before it calls the
    cloud API. *)
Lemma import_scw_without_keys plan h :
  absent_or_empty "s3_keys" (h_state h) ->
  _stage_import_scw plan h
  = (Raise (match artifacts (h_state h) !! "s3_bucket" with
            | None => KeyError "s3_bucket"
            | Some _ => RuntimeError "No S3 keys found — upload stage may have failed"
            end), h).
Proof.
  intros Habs. pose proof (absent_or_empty_get_list "s3_keys" h Habs) as Hget.
  unfold _stage_import_scw.
  rewrite (bind_ok _ _ _ _ _ (eq_refl : get_st _ = (Ok _, _))).
  unfold artifacts_getitem.
  destruct (artifacts (h_state h) !! "s3_bucket") as [b|] eqn:Eb.
  - erewrite (bind_ok (_ ≫= _)); last first.
    { erewrite bind_ok; [|unfold artifacts_get; simpl; by rewrite Eb].
      reflexivity. }
    by rewrite (bind_ok _ _ _ _ _ Hget).
  - erewrite (bind_raise (_ ≫= _)); [done|].
    erewrite bind_ok; [|unfold artifacts_get; simpl; by rewrite Eb].
    reflexivity.
Qed.

(** [_stage_convert] without source disks: nothing is converted, nothing
    is deleted, and an empty list is recorded. *)
Lemma convert_without_sources plan h :
  absent_or_empty "vmdk_paths" (h_state h) ->
  _stage_convert plan h
  = (Ok tt,
     mkH (set_artifacts (<["qcow2_paths" := AList []]> (artifacts (h_state h)))
                        (h_state h))
         (h_site h) (h_log h)).
Proof.
  intros Habs. unfold _stage_convert.
  rewrite (bind_ok _ _ _ _ _ (absent_or_empty_get_list "vmdk_paths" h Habs)).
  simpl convert_all.
  rewrite (bind_ok (mret []) _ h [] h eq_refl).
  set (h1 := mkH (set_artifacts (<["qcow2_paths" := AList []]> (artifacts (h_state h)))
                                (h_state h)) (h_site h) (h_log h)).
  rewrite (bind_ok (artifacts_set "qcow2_paths" (AList [])) _ h tt h1 eq_refl).
  assert (absent_or_empty "vmdk_paths" (h_state h1)) as Habs1.
  { unfold absent_or_empty in *. simpl. by rewrite lookup_insert_ne. }
  by rewrite (bind_ok _ _ _ _ _ (absent_or_empty_get_list "vmdk_paths" h1 Habs1)).
Qed.

(** [state.artifacts.get(k)] is falsy: the key is absent, or holds an
    empty string. *)
Definition absent_or_blank (k : string) (state : MigrationState) : Prop :=
  artifacts state !! k = None \/ artifacts state !! k = Some (AStr "").

(** [_stage_verify] without an image identifier: a warning, nothing else. *)
Lemma verify_without_image plan h :
  absent_or_blank "scaleway_image_id" (h_state h) ->
  _stage_verify plan h
  = (Ok tt,
     mkH (h_state h) (h_site h)
         (h_log h ++ [(WARNING, "⚠️  No Scaleway image ID found — verify manually")])).
Proof.
  unfold _stage_verify, artifacts_get, mbind, M_bind. simpl. by intros [-> | ->].
Qed.

(** Two runs of a handler on the same site and log, whatever the state
    objects, and a computation that cannot tell them apart. *)
Definition alike (h h0 : HState) : Prop :=
  h_site h = h_site h0 /\ h_log h = h_log h0.

Definition blind {A} (m : H A) : Prop :=
  forall h h0, alike h h0 -> (m h).1 = (m h0).1 /\ alike (m h).2 (m h0).2.

Lemma blind_ret {A} (a : A) : blind (mret a).
Proof. by intros h h0 Hal. Qed.

Lemma blind_raise {A} (e : PyExn) : blind (raise e : H A).
Proof. by intros h h0 Hal. Qed.

Lemma blind_logger lvl msg : blind (logger lvl msg).
Proof. intros h h0 [Hs Hl]. split; [done|]. split; simpl; [done|]. by rewrite Hl. Qed.

Lemma blind_call {A} (c : Site Remote -> Res A * Site Remote) : blind (call c).
Proof.
  intros h h0 [Hs Hl]. unfold call. rewrite Hs.
  by destruct (c (h_site h0)) as [r s1].
Qed.

Lemma blind_bind {A B} (m : H A) (f : A -> H B) :
  blind m -> (forall a, blind (f a)) -> blind (m ≫= f).
Proof.
  intros Hm Hf h h0 Hal. unfold mbind, M_bind.
  destruct (Hm h h0 Hal) as [Hr Hal1].
  destruct (m h) as [[a|e] h1], (m h0) as [[a0|e0] h2]; simpl in *; try done.
  - injection Hr as <-. by apply Hf.
  - by injection Hr as <-.
Qed.

Ltac blindly :=
  repeat first
    [ apply blind_ret | apply blind_raise | apply blind_logger | apply blind_call
    | apply blind_bind; [|intros]
    | case_match | case_decide ].

Lemma artifacts_get_list_eq k h :
  artifacts_get_list k h
  = (Ok (match artifacts (h_state h) !! k with
         | Some (AList l) => l
         | _ => []
         end), h).
Proof. done. Qed.

(** The state object with an empty VM description recorded. *)
Definition with_empty_vm_info (state : MigrationState) : MigrationState :=
  set_artifacts (<["vm_info" := ADict ∅]> (artifacts state)) state.

(** The four handlers that work on the converted disks read an absent
    [vm_info] as an empty description. *)
Lemma guarded_handlers_default_vm_info stage handler plan h :
  stage ∈ ["clean_tools"; "inject_virtio"; "fix_bootloader"; "ensure_uefi"] ->
  getattr_stage stage handler_table = Some handler ->
  artifacts (h_state h) !! "vm_info" = None ->
  let h0 := mkH (with_empty_vm_info (h_state h)) (h_site h) (h_log h) in
  (handler plan h).1 = (handler plan h0).1 /\
  alike (handler plan h).2 (handler plan h0).2.
Proof.
  intros Hstage Hh Hnone h0.
  assert (artifacts_get_dict "vm_info" h = (Ok ∅, h)) as Hd.
  { rewrite artifacts_get_dict_eq. by rewrite Hnone. }
  assert (artifacts_get_dict "vm_info" h0 = (Ok ∅, h0)) as Hd0.
  { rewrite artifacts_get_dict_eq. subst h0. unfold with_empty_vm_info. simpl.
    by rewrite lookup_insert_eq. }
  assert (artifacts (h_state h0) !! "qcow2_paths"
          = artifacts (h_state h) !! "qcow2_paths") as Hq.
  { subst h0. unfold with_empty_vm_info. simpl. by rewrite lookup_insert_ne. }
  assert (alike h h0) as Hal by done.
  repeat (apply elem_of_cons in Hstage as [->|Hstage]);
    [| | | |by apply elem_of_nil in Hstage].
  all: injection Hh as <-.
  all: unfold _stage_clean_tools, _stage_inject_virtio, _stage_fix_bootloader,
      _stage_ensure_uefi.
  all: rewrite (bind_ok _ _ _ _ _ Hd), (bind_ok _ _ _ _ _ Hd0).
  all: rewrite (bind_ok _ _ _ _ _ (artifacts_get_list_eq "qcow2_paths" h)).
  all: rewrite (bind_ok _ _ _ _ _ (artifacts_get_list_eq "qcow2_paths" h0)).
  all: rewrite Hq.
  all: match goal with
       | |- (?m ?x).1 = (?m ?y).1 /\ _ => assert (blind m) as Hb by blindly
       end.
  all: by apply Hb.
Qed.

(** [_stage_clean_tools] with [vm_info] absent and a disk listed: the
    boot disk is cleaned, for the OS family of [otherLinux64Guest]. *)
Lemma clean_tools_without_vm_info plan h boot_disk data_disks :
  artifacts (h_state h) !! "vm_info" = None ->
  artifacts (h_state h) !! "qcow2_paths" = Some (AList (boot_disk :: data_disks)) ->
  let cleaned :=
    cleaner_clean boot_disk (get_os_family "otherLinux64Guest").1 (h_site h) in
  (_stage_clean_tools plan h).1 = cleaned.1 /\
  h_site (_stage_clean_tools plan h).2 = cleaned.2 /\
  h_state (_stage_clean_tools plan h).2 = h_state h.
Proof.
  intros Hnone Hq cleaned. subst cleaned. unfold _stage_clean_tools.
  assert (artifacts_get_dict "vm_info" h = (Ok ∅, h)) as Hd.
  { rewrite artifacts_get_dict_eq. by rewrite Hnone. }
  rewrite (bind_ok _ _ _ _ _ Hd).
  rewrite (bind_ok _ _ _ _ _ (artifacts_get_list_eq "qcow2_paths" h)), Hq.
  rewrite lookup_empty.
  unfold mbind, M_bind, logger, modify, call. simpl.
  destruct (cleaner_clean boot_disk _ (h_site h)) as [[[]|e] s1]; simpl; [|done].
  by case_decide.
Qed.

End Stages.

(** ** The orchestrator *)

Section Orchestration.
Context {C : Collaborators}.

Lemma on_remote_frame {A} (f : Remote -> A * Remote) (w : World) :
  store (on_remote f w).2 = store w /\
  disk (site (on_remote f w).2) = disk (site w) /\
  log (on_remote f w).2 = log w /\
  invoked (on_remote f w).2 = invoked w.
Proof. unfold on_remote. by destruct (f (remote (site w))). Qed.

(** One dispatch: the handler of a registered stage is called once, and
    the state keeps its [completed_stages]. *)
Lemma execute_stage_spec stage plan st w r st' w' :
  is_Some (getattr_stage stage handler_table) ->
  _execute_stage stage plan st w = (r, st', w') ->
  invoked w' = invoked w ++ [stage] /\
  store w' = store w /\
  st' = set_artifacts (artifacts st') st.
Proof.
  intros [handler Hh]. unfold _execute_stage. rewrite Hh.
  destruct (handler plan (mkH st (site w) (log w))) as [r1 h1] eqn:E.
  intros [= <- <- <-]. simpl. repeat split.
  apply (handlers_touch_only_artifacts _ _ _ Hh _ _ _ E).
Qed.

(** What a stage loop leaves: with no failure every stage of the list was
    dispatched, in order; with a failure at [f], the stages before [f]
    and then [f]. *)
Definition loop_outcome (l : list string) (st : MigrationState) (w : World)
    (r : option MigrationResult) (st' : MigrationState) (w' : World) : Prop :=
  match r with
  | None =>
      invoked w' = invoked w ++ l /\
      completed_stages st' = completed_stages st ++ l
  | Some res =>
      exists before f after,
        l = before ++ f :: after /\
        invoked w' = invoked w ++ before ++ [f] /\
        completed_stages st' = completed_stages st ++ before /\
        success res = false /\
        failed_stage res = Some f /\
        result_completed_stages res = completed_stages st ++ before
  end.

Lemma loop_outcome_step s l st w st1 w1 r st' w' :
  invoked w1 = invoked w ++ [s] ->
  completed_stages st1 = completed_stages st ++ [s] ->
  loop_outcome l st1 w1 r st' w' ->
  loop_outcome (s :: l) st w r st' w'.
Proof.
  intros Hi Hc. unfold loop_outcome. destruct r as [res|].
  - intros (before & f & after & -> & Hinv & Hcs & Hs & Hf & Hr).
    exists (s :: before), f, after. rewrite Hinv, Hcs, Hr, Hi, Hc.
    by rewrite <- !(assoc_L (++)).
  - intros [Hinv Hcs]. rewrite Hinv, Hcs, Hi, Hc.
    by rewrite <- !(assoc_L (++)).
Qed.

Lemma resume_stages_spec l id plan t st w r st' w' :
  (forall s, s ∈ l -> is_Some (getattr_stage s handler_table)) ->
  resume_stages l id plan t st w = (r, st', w') ->
  loop_outcome l st w r st' w'.
Proof.
  revert st w. induction l as [|s l IH]; intros st w Hl; simpl.
  - intros [= <- <- <-]. red. by rewrite !app_nil_r.
  - destruct (_execute_stage _ _ _ _) as [[[[]|e] st1] w1] eqn:E;
      apply execute_stage_spec in E as (Hi & Hs & Hst);
      try (apply Hl; left).
    + intros E2. apply IH in E2; [|intros; apply Hl; by right].
      eapply loop_outcome_step; [| |exact E2]; simpl.
      * by rewrite Hi.
      * by rewrite Hst.
    + destruct (on_remote time_time _) as [now w2] eqn:E3.
      intros [= <- <- <-].
      exists [], s, l. simpl. rewrite !app_nil_r.
      pose proof (on_remote_frame time_time
        (state_store_save (set_error (Some (str_exn e)) st1) w1)) as (_ & _ & _ & Hinv).
      rewrite E3 in Hinv. simpl in Hinv.
      rewrite Hinv, Hi, Hst. done.
Qed.

Lemma run_stages_spec l plan t st w r st' w' :
  (forall s, s ∈ l -> is_Some (getattr_stage s handler_table)) ->
  run_stages l plan t st w = (r, st', w') ->
  loop_outcome l st w r st' w'.
Proof.
  revert st w. induction l as [|s l IH]; intros st w Hl; simpl.
  - intros [= <- <- <-]. red. by rewrite !app_nil_r.
  - destruct (_execute_stage _ _ _ _) as [[[[]|e] st1] w1] eqn:E;
      apply execute_stage_spec in E as (Hi & Hs & Hst);
      try (apply Hl; left).
    + intros E2. apply IH in E2; [|intros; apply Hl; by right].
      eapply loop_outcome_step; [| |exact E2]; simpl.
      * by rewrite Hi.
      * by rewrite Hst.
    + destruct (on_remote time_time _) as [now w2] eqn:E3.
      intros [= <- <- <-].
      exists [], s, l. simpl. rewrite !app_nil_r.
      pose proof (on_remote_frame time_time w1) as (_ & _ & _ & Hinv).
      rewrite E3 in Hinv. simpl in Hinv.
      rewrite Hinv, Hi, Hst. done.
Qed.

Lemma newly_invoked_app (w w' : World) (l : list string) :
  invoked w' = invoked w ++ l -> newly_invoked w w' = l.
Proof. unfold newly_invoked. intros ->. by rewrite drop_app_length. Qed.

Lemma remaining_stages_spec (state : MigrationState) (s : string) :
  s ∈ remaining_stages state <-> s ∈ STAGES /\ s ∉ completed_stages state.
Proof. unfold remaining_stages. rewrite list_elem_of_filter. tauto. Qed.

Lemma remaining_have_handlers (state : MigrationState) (s : string) :
  s ∈ remaining_stages state -> is_Some (getattr_stage s handler_table).
Proof.
  intros Hs. apply remaining_stages_spec in Hs as [Hs _].
  by apply handler_of_registered_stage.
Qed.

(** C1, as amended: [resume] of a persisted migration with completed
    stages [C] dispatches the registry stages not in [C], in registry
    order, and stops after the first one whose handler raises.  The
    stages it executes are exactly the registry sequence minus [C] when
    it reports success; when it reports failure at [f] they are the
    part of that sequence up to and including [f].  It never calls the
    handler of a stage in [C]. *)
Theorem resume_executes_remaining_until_failure
    (id : string) (w : World) (state : MigrationState) :
  state_store_load id w = Some state ->
  exists res : MigrationResult,
    (resume id w).1 = Ok res /\
    invoked (resume id w).2 = invoked w ++ newly_invoked w (resume id w).2 /\
    (forall s, s ∈ newly_invoked w (resume id w).2 ->
               s ∈ STAGES /\ s ∉ completed_stages state) /\
    (success res = true ->
       newly_invoked w (resume id w).2 = remaining_stages state) /\
    (success res = false ->
       exists before f after,
         remaining_stages state = before ++ f :: after /\
         newly_invoked w (resume id w).2 = before ++ [f] /\
         failed_stage res = Some f).
Proof.
  intros Hload. unfold resume. rewrite Hload.
  pose proof (remaining_have_handlers state) as Hh.
  pose proof (remaining_stages_spec state) as Hrem.
  destruct (remaining_stages state) as [|s0 rem] eqn:Erem.
  - eexists. simpl. split; [done|]. unfold newly_invoked; simpl.
    rewrite drop_all, app_nil_r. split_and!; try done.
    intros s Hs. by apply elem_of_nil in Hs.
  - destruct (on_remote time_time _) as [t0 w1] eqn:E1.
    pose proof (on_remote_frame time_time
      (logger_info ("Completed stages: "
         +:+ String.concat ", " (completed_stages state))
         (logger_info ("Resuming migration " +:+ id +:+ " for VM '"
            +:+ vm_name state +:+ "'") w))) as (_ & _ & _ & Hinv1).
    rewrite E1 in Hinv1. simpl in Hinv1.
    destruct (resume_stages _ _ _ _ _ _) as [[r st'] w'] eqn:E2.
    apply resume_stages_spec in E2; [|done].
    destruct r as [res|]; simpl in E2.
    + destruct E2 as (before & f & after & Hl & Hinv & _ & Hs & Hf & _).
      rewrite Hinv1 in Hinv.
      exists res. simpl. rewrite (newly_invoked_app _ _ _ Hinv).
      split; [done|]. split; [done|]. split; [|split].
      * intros s Hs'. apply Hrem. rewrite Hl.
        apply elem_of_app in Hs' as [Hs'|Hs'].
        -- apply elem_of_app. by left.
        -- apply list_elem_of_singleton in Hs' as ->.
           apply elem_of_app. right. by left.
      * rewrite Hs. done.
      * intros _. by exists before, f, after.
    + destruct E2 as [Hinv _]. rewrite Hinv1 in Hinv.
      destruct (on_remote time_time w') as [t1 w2] eqn:E3.
      pose proof (on_remote_frame time_time w') as (_ & _ & _ & Hinv3).
      rewrite E3 in Hinv3. simpl in Hinv3. rewrite Hinv in Hinv3.
      eexists. simpl. rewrite (newly_invoked_app _ _ _ Hinv3).
      split; [done|]. split; [done|]. split; [|split]; [|done|done].
      intros s Hs. by apply Hrem.
Qed.

(** C8: when every registry stage is already in the persisted
    [completed_stages], [resume] returns a success result at once: no
    handler is called, nothing is saved, the site is untouched. *)
Theorem resume_of_completed_migration_is_immediate
    (id : string) (w : World) (state : MigrationState) :
  state_store_load id w = Some state ->
  (forall s, s ∈ STAGES -> s ∈ completed_stages state) ->
  exists res : MigrationResult,
    (resume id w).1 = Ok res /\
    success res = true /\
    failed_stage res = None /\
    result_error res = None /\
    result_completed_stages res = completed_stages state /\
    store (resume id w).2 = store w /\
    site (resume id w).2 = site w /\
    invoked (resume id w).2 = invoked w.
Proof.
  intros Hload Hall. unfold resume. rewrite Hload.
  assert (remaining_stages state = []) as ->.
  { apply elem_of_nil_inv. intros s Hs.
    apply remaining_stages_spec in Hs as [Hs Hn]. by apply Hn, Hall. }
  eexists. simpl. repeat split.
Qed.

End Orchestration.

(** ** The pipeline on concrete sites *)

Import Scenario.

Lemma subseqb_weaken_drop (l2 : list string) :
  forall l1,
    (forall x, subseqb (x :: l1) l2 = true -> subseqb l1 l2 = true) /\
    (forall y, subseqb l1 l2 = true -> subseqb l1 (y :: l2) = true).
Proof.
  induction l2 as [|z l2 IH].
  - intros l1. split; [done|]. intros y. by destruct l1.
  - assert (forall l1 x, subseqb (x :: l1) (z :: l2) = true ->
                         subseqb l1 (z :: l2) = true) as Hdrop.
    { intros l1 x. destruct (IH l1) as [IHd IHw]. simpl. case_decide.
      - apply IHw.
      - intros Hx. apply IHw, (IHd x), Hx. }
    intros l1. split; [apply Hdrop|].
    intros y. destruct l1 as [|x l1]; [done|].
    intros Hx. change (subseqb (x :: l1) (y :: z :: l2))
      with (if decide (x = y) then subseqb l1 (z :: l2)
            else subseqb (x :: l1) (z :: l2)).
    case_decide; [|done]. by apply (Hdrop l1 x).
Qed.

Lemma sublist_subseqb (l1 l2 : list string) :
  l1 `sublist_of` l2 -> subseqb l1 l2 = true.
Proof.
  induction 1 as [|x l1 l2 _ IH|x l1 l2 _ IH]; simpl.
  - done.
  - by rewrite decide_True.
  - by apply subseqb_weaken_drop.
Qed.

Definition skipping_plan : VMMigrationPlan :=
  mkPlan "web01" "PRO2-S" "fr-par-1" true.

Definition stopped_after_snapshot : MigrationState :=
  stopped ["validate"; "snapshot"].

Definition export_still_failing : @World (flaky 5) :=
  world_with (flaky 5) empty_site stopped_after_snapshot.

Definition export_repaired : @World (flaky 0) :=
  world_with (flaky 0) empty_site stopped_after_snapshot.

Lemma resume_executes_remaining_witness :
  state_store_load "a1b2c3d4" export_repaired = Some stopped_after_snapshot /\
  exists res : MigrationResult,
    (resume "a1b2c3d4" export_repaired).1 = Ok res /\
    invoked (resume "a1b2c3d4" export_repaired).2
      = invoked export_repaired
        ++ newly_invoked export_repaired (resume "a1b2c3d4" export_repaired).2 /\
    (forall s,
        s ∈ newly_invoked export_repaired (resume "a1b2c3d4" export_repaired).2 ->
        s ∈ STAGES /\ s ∉ completed_stages stopped_after_snapshot) /\
    (success res = true ->
       newly_invoked export_repaired (resume "a1b2c3d4" export_repaired).2
       = remaining_stages stopped_after_snapshot) /\
    (success res = false ->
       exists before f after,
         remaining_stages stopped_after_snapshot = before ++ f :: after /\
         newly_invoked export_repaired (resume "a1b2c3d4" export_repaired).2
         = before ++ [f] /\
         failed_stage res = Some f).
Proof.
  split; [reflexivity|].
  apply (@resume_executes_remaining_until_failure (flaky 0)
           "a1b2c3d4" export_repaired stopped_after_snapshot).
  reflexivity.
Defined.

(** C1 as stated fails when a handler raises during [resume]: with
    [validate] and [snapshot] completed and disk export still failing,
    [resume] calls the [export] handler only, not the eleven registry
    stages that are not completed. *)
Lemma resume_stops_at_the_failing_stage :
  state_store_load "a1b2c3d4" export_still_failing = Some stopped_after_snapshot /\
  newly_invoked export_still_failing (resume "a1b2c3d4" export_still_failing).2
    = ["export"] /\
  remaining_stages stopped_after_snapshot
    = ["export"; "convert"; "clean_tools"; "inject_virtio"; "fix_bootloader";
       "ensure_uefi"; "fix_network"; "upload_s3"; "import_scw"; "verify";
       "cleanup"] /\
  ~ (forall (C : Collaborators) (id : string) (w : World) (state : MigrationState),
        state_store_load id w = Some state ->
        newly_invoked w (resume id w).2 = remaining_stages state).
Proof.
  assert (newly_invoked export_still_failing
            (resume "a1b2c3d4" export_still_failing).2 = ["export"]) as Hrun
    by (vm_compute; reflexivity).
  assert (remaining_stages stopped_after_snapshot
          = ["export"; "convert"; "clean_tools"; "inject_virtio";
             "fix_bootloader"; "ensure_uefi"; "fix_network"; "upload_s3";
             "import_scw"; "verify"; "cleanup"]) as Hrem
    by (vm_compute; reflexivity).
  split_and!; [reflexivity|exact Hrun|exact Hrem|].
  intros Hclaim.
  specialize (Hclaim (flaky 5) "a1b2c3d4" export_still_failing
                stopped_after_snapshot eq_refl).
  rewrite Hrun, Hrem in Hclaim. discriminate Hclaim.
Qed.

Definition all_completed : @World (flaky 0) :=
  world_with (flaky 0) empty_site (stopped STAGES).

Lemma resume_of_completed_migration_witness :
  state_store_load "a1b2c3d4" all_completed = Some (stopped STAGES) /\
  (forall s, s ∈ STAGES -> s ∈ completed_stages (stopped STAGES)) /\
  exists res : MigrationResult,
    (resume "a1b2c3d4" all_completed).1 = Ok res /\
    success res = true /\
    failed_stage res = None /\
    result_error res = None /\
    result_completed_stages res = completed_stages (stopped STAGES) /\
    store (resume "a1b2c3d4" all_completed).2 = store all_completed /\
    site (resume "a1b2c3d4" all_completed).2 = site all_completed /\
    invoked (resume "a1b2c3d4" all_completed).2 = invoked all_completed.
Proof.
  split; [reflexivity|]. split; [intros s Hs; exact Hs|].
  apply (@resume_of_completed_migration_is_immediate (flaky 0)
           "a1b2c3d4" all_completed (stopped STAGES)).
  - reflexivity.
  - intros s Hs. exact Hs.
Defined.

Definition exported : MigrationState :=
  mkState "a1b2c3d4" "web01" "PRO2-S" "fr-par-1" "convert"
          ["snapshot"; "export"]
          {[ "vmdk_paths" := AList ["/work/disk0.vmdk"] ]} 0 None.

Definition before_convert : @HState (flaky 0) :=
  @mkH (flaky 0) exported
       (mkSite {[ "/work/disk0.vmdk" := File 1048576 ]} ([] : list string)) [].

Definition after_convert : @HState (flaky 0) :=
  (_stage_convert skipping_plan before_convert).2.

Lemma convert_deletes_sources_witness :
  _stage_convert skipping_plan before_convert = (Ok tt, after_convert) /\
  (forall p, p ∈ listed_vmdks (h_state before_convert) ->
             disk (h_site after_convert) !! p = None) /\
  artifacts (h_state after_convert) !! "vmdk_paths"
  = artifacts (h_state before_convert) !! "vmdk_paths" /\
  exists qcow2_paths : list string,
    length qcow2_paths = length (listed_vmdks (h_state before_convert)) /\
    h_state after_convert
    = set_artifacts
        (<["qcow2_paths" := AList qcow2_paths]> (artifacts (h_state before_convert)))
        (h_state before_convert).
Proof.
  assert ((_stage_convert skipping_plan before_convert).1 = Ok tt) as Hok
    by (vm_compute; reflexivity).
  assert (_stage_convert skipping_plan before_convert = (Ok tt, after_convert))
    as Hrun.
  { rewrite (surjective_pairing (_stage_convert skipping_plan before_convert)).
    by rewrite Hok. }
  split; [exact Hrun|].
  exact (@convert_deletes_sources_but_keeps_vmdk_paths (flaky 0)
           skipping_plan before_convert after_convert Hrun).
Defined.

(** The world a run leaves that skips validation and fails at [export]. *)
Definition after_failed_run : @World (flaky 1) :=
  (run skipping_plan (empty_world (flaky 1) empty_site)).2.

(** C2 on the code: a run that skips validation and fails at [export]
    persists [completed_stages = ["snapshot"]]; [resume] then runs
    [validate] first and appends it after [snapshot], so the persisted
    list is no longer a subsequence of the registry order. *)
Lemma resume_after_skipped_validation_breaks_registry_order :
  failed_stage (run skipping_plan (empty_world (flaky 1) empty_site)).1
    = Some "export" /\
  completed_stages <$> state_store_load "a1b2c3d4" after_failed_run
    = Some ["snapshot"] /\
  completed_stages <$>
    state_store_load "a1b2c3d4" (resume "a1b2c3d4" after_failed_run).2
    = Some ["snapshot"; "validate"; "export"; "convert"; "clean_tools";
            "inject_virtio"; "fix_bootloader"; "ensure_uefi"; "fix_network";
            "upload_s3"; "import_scw"; "verify"; "cleanup"] /\
  ~ (["snapshot"; "validate"; "export"; "convert"; "clean_tools";
      "inject_virtio"; "fix_bootloader"; "ensure_uefi"; "fix_network";
      "upload_s3"; "import_scw"; "verify"; "cleanup"] `sublist_of` STAGES).
Proof.
  split_and!; try (vm_compute; reflexivity).
  intros Hsub. apply sublist_subseqb in Hsub. vm_compute in Hsub.
  discriminate Hsub.
Qed.

End PipelineFacts.

Module WindowsVirtioFacts.
Import Py WindowsVirtio PyFacts.

(** ** Registry value encoding *)

Definition is_byte (b : Z) : Prop := 0 <= b < 256.
Definition is_unit (u : Z) : Prop := 0 <= u < 65536.

Lemma land_255 (u : Z) : Z.land u 0xFF = u mod 256.
Proof. change 0xFF with (Z.ones 8). by rewrite Z.land_ones. Qed.

Lemma shiftr_8 (u : Z) : Z.shiftr u 8 = u / 256.
Proof. by rewrite Z.shiftr_div_pow2. Qed.

Lemma land_1023 (u : Z) : Z.land u 0x3FF = u mod 1024.
Proof. change 0x3FF with (Z.ones 10). by rewrite Z.land_ones. Qed.

Lemma shiftr_10 (u : Z) : Z.shiftr u 10 = u / 1024.
Proof. by rewrite Z.shiftr_div_pow2. Qed.

Lemma hex_value_digit (n : Z) : 0 <= n < 16 -> hex_value (hex_digit n) = Some n.
Proof.
  intros Hn. rewrite <- (Z2Nat.id n) by lia.
  assert (Z.to_nat n < 16)%nat as Hk by lia.
  revert Hk. generalize (Z.to_nat n). intros k Hk.
  do 16 (destruct k as [|k]; [reflexivity|]). lia.
Qed.

Lemma hex_byte_fmt (b : Z) :
  is_byte b -> hex_byte (hex_digit (b / 16)) (hex_digit (b mod 16)) = Some b.
Proof.
  intros Hb. unfold hex_byte, is_byte in *.
  assert (0 <= b / 16 < 16) as Hhi
    by (split; [apply Z.div_pos; lia | apply Z.div_lt_upper_bound; lia]).
  assert (0 <= b mod 16 < 16) as Hlo by (apply Z.mod_pos_bound; lia).
  rewrite (hex_value_digit _ Hhi), (hex_value_digit _ Hlo).
  simpl. f_equal. pose proof (Z.div_mod b 16). lia.
Qed.

(** The text after the first byte: [,xx] for each further byte. *)
Fixpoint hex_tail (raw : list Z) : string :=
  match raw with
  | [] => ""
  | b :: rest => "," +:+ fmt_02x b +:+ hex_tail rest
  end.

Lemma hex_bytes_cons (b : Z) (raw : list Z) :
  hex_bytes (b :: raw) = fmt_02x b +:+ hex_tail raw.
Proof.
  unfold hex_bytes. revert b. induction raw as [|b' raw IH]; intros b.
  - done.
  - change (String.concat "," (map fmt_02x (b :: b' :: raw)))
      with (fmt_02x b +:+ "," +:+ String.concat "," (map fmt_02x (b' :: raw))).
    by rewrite IH.
Qed.

Lemma hex_tail_cons (b : Z) (raw : list Z) :
  hex_tail (b :: raw)
  = String "," (String (hex_digit (b / 16))
                  (String (hex_digit (b mod 16)) (hex_tail raw))).
Proof. reflexivity. Qed.

Lemma parse_hex_tail_step (h l : ascii) (rest : string) :
  parse_hex_tail (String "," (String h (String l rest)))
  = b ← hex_byte h l; bs ← parse_hex_tail rest; Some (b :: bs).
Proof. reflexivity. Qed.

Lemma parse_hex_tail_hex_tail (raw : list Z) :
  Forall is_byte raw -> parse_hex_tail (hex_tail raw) = Some raw.
Proof.
  induction 1 as [|b raw Hb _ IH]; [done|].
  rewrite hex_tail_cons, parse_hex_tail_step, (hex_byte_fmt b Hb), IH. done.
Qed.

Lemma parse_hex_bytes_hex_bytes (raw : list Z) :
  Forall is_byte raw -> parse_hex_bytes (hex_bytes raw) = Some raw.
Proof.
  destruct 1 as [|b raw Hb Hraw]; [done|].
  rewrite hex_bytes_cons.
  change (parse_hex_bytes (fmt_02x b +:+ hex_tail raw))
    with (x ← hex_byte (hex_digit (b / 16)) (hex_digit (b mod 16));
          bs ← parse_hex_tail (hex_tail raw); Some (x :: bs)).
  by rewrite (hex_byte_fmt b Hb), (parse_hex_tail_hex_tail raw Hraw).
Qed.

Lemma strip_terminator_app (body : list Z) :
  strip_terminator (body ++ [0; 0]) = Some body.
Proof. unfold strip_terminator. rewrite rev_app_distr. simpl. by rewrite rev_involutive. Qed.

Lemma le16_bytes (u : Z) : is_unit u -> Forall is_byte (le16 u).
Proof.
  unfold is_unit, is_byte, le16. intros Hu. rewrite land_255, shiftr_8.
  repeat constructor.
  - apply Z.mod_pos_bound; lia.
  - apply Z.mod_pos_bound; lia.
  - apply Z.div_pos; lia.
  - apply Z.div_lt_upper_bound; lia.
Qed.

Lemma flat_map_le16_bytes (us : list Z) :
  Forall is_unit us -> Forall is_byte (flat_map le16 us).
Proof.
  induction 1 as [|u us Hu _ IH]; [constructor|].
  change (flat_map le16 (u :: us)) with (le16 u ++ flat_map le16 us).
  apply Forall_app. split; [by apply le16_bytes|done].
Qed.

Lemma units_of_bytes_le16 (us : list Z) :
  Forall is_unit us -> units_of_bytes (flat_map le16 us) = Some us.
Proof.
  induction 1 as [|u us Hu _ IH]; [done|].
  simpl. rewrite IH. simpl. rewrite land_255, shiftr_8.
  do 2 f_equal. pose proof (Z.div_mod u 256). lia.
Qed.

(** The code units of a scalar value are in range and decode to it. *)
Lemma utf16_units_scalar (c : Z) :
  is_scalar_value c ->
  exists us, utf16_units c = Some us /\ Forall is_unit us /\
             forall rest, decode_units (us ++ rest)
                          = cs ← decode_units rest; Some (c :: cs).
Proof.
  intros [Hrange Hsur]. unfold utf16_units. rewrite Hsur.
  unfold is_surrogate in Hsur. apply andb_false_iff in Hsur.
  destruct (Z.ltb_spec c 0x10000) as [Hlt|Hge].
  - exists [c]. split; [done|]. split; [repeat constructor; unfold is_unit; lia|].
    intros rest. simpl.
    destruct Hsur as [Hsur|Hsur].
    + apply Z.leb_gt in Hsur.
      replace (55296 <=? c) with false by (symmetry; apply Z.leb_gt; lia).
      replace (56320 <=? c) with false by (symmetry; apply Z.leb_gt; lia).
      done.
    + apply Z.leb_gt in Hsur.
      replace (c <=? 56319) with false by (symmetry; apply Z.leb_gt; lia).
      replace (c <=? 57343) with false by (symmetry; apply Z.leb_gt; lia).
      by rewrite !andb_false_r.
  - rewrite shiftr_10, land_1023.
    pose proof (Z.div_mod (c - 0x10000) 1024) as Hdm.
    pose proof (Z.mod_pos_bound (c - 0x10000) 1024) as Hm.
    assert (0 <= (c - 0x10000) / 1024 < 1024) as Hd.
    { split; [apply Z.div_pos; lia | apply Z.div_lt_upper_bound; lia]. }
    eexists. split; [done|]. split.
    + repeat constructor; unfold is_unit; lia.
    + intros rest. simpl.
      replace (55296 <=? 55296 + (c - 65536) / 1024) with true
        by (symmetry; apply Z.leb_le; lia).
      replace (55296 + (c - 65536) / 1024 <=? 56319) with true
        by (symmetry; apply Z.leb_le; lia).
      replace (56320 <=? 56320 + (c - 65536) mod 1024) with true
        by (symmetry; apply Z.leb_le; lia).
      replace (56320 + (c - 65536) mod 1024 <=? 57343) with true
        by (symmetry; apply Z.leb_le; lia).
      simpl. destruct (decode_units rest); [|done]. simpl.
      do 2 f_equal. lia.
Qed.

Lemma utf16_code_units_scalar (s : list Z) :
  Forall is_scalar_value s ->
  exists us, utf16_code_units s = Some us /\ Forall is_unit us /\
             decode_units us = Some s.
Proof.
  induction 1 as [|c s Hc _ (us & Hus & Hrange & Hdec)].
  - by exists [].
  - destruct (utf16_units_scalar c Hc) as (uc & Huc & Hrc & Hdc).
    exists (uc ++ us). simpl. rewrite Huc, Hus. simpl.
    split; [done|]. split; [by apply Forall_app|].
    by rewrite Hdc, Hdec.
Qed.

(** C4: for every string of Unicode scalar values, the empty one included,
    [_str_to_reg_expand_sz] produces a value ([hex(2):] followed by the
    comma-separated bytes of the null-terminated UTF-16-LE text), and
    reading that value back (parse the bytes, strip the terminator, decode
    UTF-16-LE) gives the string again.  (A [str] with a lone surrogate code
    point is not Unicode text: [encode] raises on it.) *)
Theorem expand_sz_roundtrip (s : list Z) :
  Forall is_scalar_value s ->
  exists value : string,
    _str_to_reg_expand_sz s = Some value /\
    reg_expand_sz_to_str value = Some s.
Proof.
  intros Hs. destruct (utf16_code_units_scalar s Hs) as (us & Hus & Hrange & Hdec).
  unfold _str_to_reg_expand_sz, encode_utf16_le. rewrite Hus. simpl.
  eexists. split; [reflexivity|].
  unfold reg_expand_sz_to_str.
  change (strip_prefix "hex(2):" ("hex(2):" +:+ hex_bytes (flat_map le16 us ++ [0; 0])))
    with (Some (hex_bytes (flat_map le16 us ++ [0; 0]))).
  simpl. rewrite parse_hex_bytes_hex_bytes.
  - simpl. rewrite strip_terminator_app. simpl.
    rewrite (units_of_bytes_le16 us Hrange). simpl. exact Hdec.
  - apply Forall_app. split; [by apply flat_map_le16_bytes|].
    repeat constructor; unfold is_byte; lia.
Qed.

Lemma expand_sz_roundtrip_witness :
  Forall is_scalar_value [0x48; 0xE9; 0x20AC; 0x1F600; 0] /\
  Forall is_scalar_value [] /\
  (exists value : string,
      _str_to_reg_expand_sz [0x48; 0xE9; 0x20AC; 0x1F600; 0] = Some value /\
      reg_expand_sz_to_str value = Some [0x48; 0xE9; 0x20AC; 0x1F600; 0]) /\
  (exists value : string,
      _str_to_reg_expand_sz [] = Some value /\
      reg_expand_sz_to_str value = Some []).
Proof.
  assert (Forall is_scalar_value [0x48; 0xE9; 0x20AC; 0x1F600; 0]) as Htext.
  { repeat (apply Forall_cons; split; [split; [lia|reflexivity]|]).
    apply Forall_nil. constructor. }
  assert (Forall is_scalar_value []) as Hempty by apply Forall_nil_2.
  split; [exact Htext|]. split; [exact Hempty|]. split.
  - exact (expand_sz_roundtrip _ Htext).
  - exact (expand_sz_roundtrip _ Hempty).
Defined.

(** ** The registry merge chain *)

Section MergeChain.
Context {T : Host}.
Variables qcow2_path reg_file work_dir : string.

Definition hive_local : string := path_join work_dir "SYSTEM.hive".

Definition tool_cmd : list string :=
  ["virt-win-reg"; "--merge"; qcow2_path; reg_file].
Definition download_cmd : list string :=
  ["guestfish"; "-a"; qcow2_path; "-i"; "--";
   "download"; "/Windows/System32/config/SYSTEM"; hive_local].
Definition bulk_cmd : list string :=
  ["hivexregedit"; "--merge"; hive_local;
   "--prefix"; "HKEY_LOCAL_MACHINE\SYSTEM"; reg_file].
Definition unit_cmd (i : nat) : list string :=
  ["hivexregedit"; "--merge"; hive_local;
   "--prefix"; "HKEY_LOCAL_MACHINE\SYSTEM";
   path_join work_dir ("reg_part_" +:+ fmt_03d i +:+ ".reg")].
Definition upload_cmd : list string :=
  ["guestfish"; "-a"; qcow2_path; "-i"; "--";
   "upload"; hive_local; "/Windows/System32/config/SYSTEM"].

(** The key sections of a patch: the pieces of the split that, stripped,
    start with a bracket, each with its index in the split. *)
Definition is_key_section (section : string) : bool :=
  negb (bool_decide (py_strip section = "") || negb (startswith "[" (py_strip section))).

Definition key_sections_from (k : nat) (sections : list string) : list nat :=
  (filter (fun x => is_key_section x.2 = true)
          (imap (fun i section => ((k + i)%nat, section)) sections)).*1.

Definition key_sections (reg_text : string) : list nat :=
  key_sections_from 0 (split_sections reg_text).

Definition debug_line (cmd : list string) : LogLine :=
  (DEBUG, "  $ " +:+ String.concat " " (take 8 cmd)).

(** The exception of [_run(..., check=True)] on a failed process. *)
Definition check_failure (r : CompletedProcess) : PyExn :=
  RuntimeError (last_chars 500 (py_strip (stderr r))).

(** The calls and the log lines of the section-by-section merge, given the
    result of each unit. *)
Definition unit_calls (units : list nat) (results : list CompletedProcess)
    : list (list string * CompletedProcess) :=
  zip_with (fun i r => (unit_cmd i, r)) units results.

Definition unit_log (units : list nat) (results : list CompletedProcess)
    : list LogLine :=
  concat (zip_with (fun i r =>
           debug_line (unit_cmd i)
           :: if decide (returncode r <> 0)
              then [(WARNING, "  Section " +:+ pretty i +:+ " failed: "
                              +:+ first_chars 100 (py_strip (stderr r)))]
              else [])
         units results).

(** The five ways a run of [_merge_reg_file] can go: the processes it ran
    with their results, the lines it logged, and what it returned.  [text]
    is what reading the patch file gives when the bulk merge has failed. *)
Inductive merge_run (text : option string)
    : list (list string * CompletedProcess) -> list LogLine -> Res unit -> Prop :=
| merged_by_tool r1 :
    returncode r1 = 0 ->
    merge_run text
      [(tool_cmd, r1)]
      [debug_line tool_cmd; (INFO, "  Registry merged via virt-win-reg")]
      (Ok tt)
| download_failed r1 r2 :
    returncode r1 <> 0 -> returncode r2 <> 0 ->
    merge_run text
      [(tool_cmd, r1); (download_cmd, r2)]
      [debug_line tool_cmd;
       (INFO, "  virt-win-reg failed, falling back to hivexregedit...");
       debug_line download_cmd]
      (Raise (check_failure r2))
| merged_in_bulk r1 r2 r3 r4 :
    returncode r1 <> 0 -> returncode r2 = 0 -> returncode r3 = 0 ->
    merge_run text
      [(tool_cmd, r1); (download_cmd, r2); (bulk_cmd, r3); (upload_cmd, r4)]
      ([debug_line tool_cmd;
        (INFO, "  virt-win-reg failed, falling back to hivexregedit...");
        debug_line download_cmd; debug_line bulk_cmd; debug_line upload_cmd]
       ++ if decide (returncode r4 = 0)
          then [(INFO, "  Registry merged via hivexregedit")] else [])
      (if decide (returncode r4 = 0) then Ok tt else Raise (check_failure r4))
| patch_unreadable r1 r2 r3 :
    returncode r1 <> 0 -> returncode r2 = 0 -> returncode r3 <> 0 ->
    text = None ->
    merge_run text
      [(tool_cmd, r1); (download_cmd, r2); (bulk_cmd, r3)]
      [debug_line tool_cmd;
       (INFO, "  virt-win-reg failed, falling back to hivexregedit...");
       debug_line download_cmd; debug_line bulk_cmd;
       (WARNING, "  Bulk merge failed, trying section-by-section...")]
      (Raise (Foreign "FileNotFoundError"))
| merged_by_section r1 r2 r3 reg_text results r4 :
    returncode r1 <> 0 -> returncode r2 = 0 -> returncode r3 <> 0 ->
    text = Some reg_text ->
    length results = length (key_sections reg_text) ->
    merge_run text
      ([(tool_cmd, r1); (download_cmd, r2); (bulk_cmd, r3)]
       ++ unit_calls (key_sections reg_text) results
       ++ [(upload_cmd, r4)])
      ([debug_line tool_cmd;
        (INFO, "  virt-win-reg failed, falling back to hivexregedit...");
        debug_line download_cmd; debug_line bulk_cmd;
        (WARNING, "  Bulk merge failed, trying section-by-section...")]
       ++ unit_log (key_sections reg_text) results
       ++ [debug_line upload_cmd]
       ++ if decide (returncode r4 = 0)
          then [(INFO, "  Registry merged via hivexregedit")] else [])
      (if decide (returncode r4 = 0) then Ok tt else Raise (check_failure r4)).

(** The host when the patch file is read: after the hive-merge tool, the
    removal of a stale hive copy, the download and the bulk merge. *)
Definition host_after_bulk (h : HostState) : HostState :=
  let h1 := (subprocess_run tool_cmd None h).2 in
  let h2 := (subprocess_run download_cmd None (unlink_missing_ok hive_local h1)).2 in
  (subprocess_run bulk_cmd None h2).2.

(** The result of the process [_run] starts, and the environment it
    leaves. *)
Definition proc (cmd : list string) (e : Env) : CompletedProcess :=
  (subprocess_run cmd None (host e)).1.

Definition after (cmd : list string) (e : Env) : Env :=
  mkEnv (subprocess_run cmd None (host e)).2
        (log e ++ [debug_line cmd]) (calls e ++ [(cmd, proc cmd e)]).

Lemma run_unchecked (cmd : list string) (e : Env) :
  _run cmd false e = (Ok (proc cmd e), after cmd e).
Proof.
  unfold _run, after, proc, debug_line, logger, subprocess, modify, mbind, M_bind.
  simpl. by destruct (subprocess_run cmd None (host e)).
Qed.

Lemma run_checked (cmd : list string) (e : Env) :
  _run cmd true e
  = (if decide (returncode (proc cmd e) = 0) then Ok (proc cmd e)
     else Raise (check_failure (proc cmd e)),
     after cmd e).
Proof.
  unfold _run, after, proc, debug_line, logger, subprocess, modify, mbind, M_bind.
  simpl. destruct (subprocess_run cmd None (host e)) as [r h]. simpl.
  case_bool_decide; by case_decide.
Qed.

Lemma key_sections_from_cons (k : nat) (section : string) (sections : list string) :
  key_sections_from k (section :: sections)
  = (if is_key_section section then [k] else [])
    ++ key_sections_from (S k) sections.
Proof.
  unfold key_sections_from. rewrite imap_cons, filter_cons. simpl.
  rewrite Nat.add_0_r.
  assert (imap ((fun i s => ((k + i)%nat, s)) ∘ S) sections
          = imap (fun i s => ((S k + i)%nat, s)) sections) as ->.
  { apply imap_ext. intros i x _. simpl. f_equal. lia. }
  by destruct (is_key_section section).
Qed.

(** The environment one unit of the section-by-section merge leaves. *)
Definition after_section (i : nat) (section : string) (e : Env) : Env :=
  if is_key_section section
  then
    let part := path_join work_dir ("reg_part_" +:+ fmt_03d i +:+ ".reg") in
    let e1 := mkEnv (write_text part
                       ("Windows Registry Editor Version 5.00" +:+ nl +:+ nl
                        +:+ py_strip section +:+ nl) (host e))
                    (log e) (calls e) in
    let r3 := proc (unit_cmd i) e1 in
    let e2 := after (unit_cmd i) e1 in
    if decide (returncode r3 <> 0)
    then mkEnv (host e2)
               (log e2 ++ [(WARNING, "  Section " +:+ pretty i +:+ " failed: "
                            +:+ first_chars 100 (py_strip (stderr r3)))])
               (calls e2)
    else e2
  else e.

Lemma merge_section_runs (i : nat) (section : string) (e : Env) :
  merge_section hive_local work_dir i section e = (Ok tt, after_section i section e).
Proof.
  unfold merge_section, after_section, is_key_section.
  destruct (bool_decide (py_strip section = "")
            || negb (startswith "[" (py_strip section))); simpl negb; cbv iota.
  - done.
  - set (part := path_join work_dir ("reg_part_" +:+ fmt_03d i +:+ ".reg")).
    set (text := "Windows Registry Editor Version 5.00" +:+ nl +:+ nl
                 +:+ py_strip section +:+ nl).
    rewrite (bind_ok (on_host (write_text part text)) _ e tt
               (mkEnv (write_text part text (host e)) (log e) (calls e)) eq_refl).
    rewrite (bind_ok _ _ _ _ _ (run_unchecked _ _)).
    unfold unit_cmd. fold part.
    by destruct (decide _).
Qed.

Lemma after_section_grows (i : nat) (section : string) (e : Env) :
  exists results,
    length results = length (if is_key_section section then [i] else []) /\
    calls (after_section i section e)
    = calls e ++ unit_calls (if is_key_section section then [i] else []) results /\
    log (after_section i section e)
    = log e ++ unit_log (if is_key_section section then [i] else []) results.
Proof.
  unfold after_section. destruct (is_key_section section).
  - set (e1 := mkEnv _ (log e) (calls e)).
    exists [proc (unit_cmd i) e1]. unfold unit_log, unit_calls. simpl.
    case_decide; simpl; rewrite ?app_nil_r, <- ?(assoc_L (++)); done.
  - exists []. simpl. by rewrite !app_nil_r.
Qed.

Lemma unit_calls_app us1 rs1 us2 rs2 :
  length rs1 = length us1 ->
  unit_calls (us1 ++ us2) (rs1 ++ rs2) = unit_calls us1 rs1 ++ unit_calls us2 rs2.
Proof. intros Hlen. unfold unit_calls. by rewrite zip_with_app. Qed.

Lemma unit_log_app us1 rs1 us2 rs2 :
  length rs1 = length us1 ->
  unit_log (us1 ++ us2) (rs1 ++ rs2) = unit_log us1 rs1 ++ unit_log us2 rs2.
Proof.
  intros Hlen. unfold unit_log. rewrite zip_with_app by done.
  apply concat_app.
Qed.

(** The section-by-section loop never raises: it runs one [hivexregedit]
    process per key section, whatever the earlier ones returned, and logs a
    warning for each that failed. *)
Lemma section_loop (sections : list string) :
  forall (k : nat) (e : Env),
  exists (results : list CompletedProcess) (e' : Env),
    for_each (imap (fun i section => ((k + i)%nat, section)) sections)
             (fun '(i, section) => merge_section hive_local work_dir i section) e
    = (Ok tt, e') /\
    length results = length (key_sections_from k sections) /\
    calls e' = calls e ++ unit_calls (key_sections_from k sections) results /\
    log e' = log e ++ unit_log (key_sections_from k sections) results.
Proof.
  induction sections as [|section sections IH]; intros k e.
  - exists [], e. simpl. by rewrite !app_nil_r.
  - rewrite imap_cons, key_sections_from_cons. simpl for_each.
    assert (imap ((fun i s => ((k + i)%nat, s)) ∘ S) sections
            = imap (fun i s => ((S k + i)%nat, s)) sections) as ->.
    { apply imap_ext. intros i x _. simpl. f_equal. lia. }
    rewrite Nat.add_0_r.
    rewrite (bind_ok _ _ _ _ _ (merge_section_runs k section e)).
    destruct (after_section_grows k section e) as (rs1 & Hlen1 & Hcalls1 & Hlog1).
    destruct (IH (S k) (after_section k section e))
      as (rs2 & e' & Hrun & Hlen2 & Hcalls2 & Hlog2).
    exists (rs1 ++ rs2), e'. split; [exact Hrun|]. split; [|split].
    + rewrite !length_app. by rewrite Hlen1, Hlen2.
    + rewrite Hcalls2, Hcalls1, unit_calls_app by done. by rewrite (assoc_L (++)).
    + rewrite Hlog2, Hlog1, unit_log_app by done. by rewrite (assoc_L (++)).
Qed.

Lemma new_calls_app (e e' : Env) tr :
  calls e' = calls e ++ tr -> new_calls e e' = tr.
Proof. unfold new_calls. intros ->. by rewrite drop_app_length. Qed.

Lemma new_log_app (e e' : Env) lg :
  log e' = log e ++ lg -> new_log e e' = lg.
Proof. unfold new_log. intros ->. by rewrite drop_app_length. Qed.

Lemma logger_runs lvl msg (e : Env) :
  logger lvl msg e = (Ok tt, mkEnv (host e) (log e ++ [(lvl, msg)]) (calls e)).
Proof. done. Qed.

Lemma on_host_runs f (e : Env) :
  on_host f e = (Ok tt, mkEnv (f (host e)) (log e) (calls e)).
Proof. done. Qed.

Lemma ebind_ok {A B} (m : E A) (f : A -> E B) (e : Env) a e1 :
  m e = (Ok a, e1) -> (m ≫= f) e = f a e1.
Proof. apply bind_ok. Qed.

Lemma ebind_raise {A B} (m : E A) (f : A -> E B) (e : Env) x e1 :
  m e = (Raise x, e1) -> (m ≫= f) e = (Raise x, e1).
Proof. apply bind_raise. Qed.

(** [_merge_reg_file], step by step. *)
Lemma merge_reg_file_cases (e : Env) (r : Res unit) (e' : Env) :
  _merge_reg_file qcow2_path reg_file work_dir e = (r, e') ->
  exists tr lg,
    calls e' = calls e ++ tr /\ log e' = log e ++ lg /\
    merge_run (read_text reg_file (host_after_bulk (host e))) tr lg r.
Proof.
  unfold _merge_reg_file. fold hive_local.
  change ["virt-win-reg"; "--merge"; qcow2_path; reg_file] with tool_cmd.
  change ["guestfish"; "-a"; qcow2_path; "-i"; "--"; "download";
          "/Windows/System32/config/SYSTEM"; hive_local] with download_cmd.
  change ["hivexregedit"; "--merge"; hive_local; "--prefix";
          "HKEY_LOCAL_MACHINE\SYSTEM"; reg_file] with bulk_cmd.
  change ["guestfish"; "-a"; qcow2_path; "-i"; "--"; "upload"; hive_local;
          "/Windows/System32/config/SYSTEM"] with upload_cmd.
  rewrite (bind_ok _ _ _ _ _ (run_unchecked tool_cmd e)).
  set (r1 := proc tool_cmd e). set (e1 := after tool_cmd e).
  destruct (decide (returncode r1 = 0)) as [Hr1|Hr1].
  { rewrite logger_runs. intros [= <- <-]. simpl.
    exists [(tool_cmd, r1)],
           [debug_line tool_cmd; (INFO, "  Registry merged via virt-win-reg")].
    rewrite <- (assoc_L (++)). split_and!; [done|done|].
    by apply merged_by_tool. }
  rewrite (bind_ok _ _ _ _ _ (logger_runs _ _ _)).
  rewrite (bind_ok _ _ _ _ _ (on_host_runs _ _)).
  set (e1u := mkEnv _ _ _).
  set (r2 := proc download_cmd e1u). set (e2 := after download_cmd e1u).
  assert (host_after_bulk (host e)
          = (subprocess_run bulk_cmd None (host e2)).2) as Hhost by done.
  destruct (decide (returncode r2 = 0)) as [Hr2|Hr2]; last first.
  { erewrite ebind_raise; last first.
    { rewrite run_checked. fold r2 e2. by rewrite decide_False. }
    intros [= <- <-]. simpl.
    exists [(tool_cmd, r1); (download_cmd, r2)],
           [debug_line tool_cmd;
            (INFO, "  virt-win-reg failed, falling back to hivexregedit...");
            debug_line download_cmd].
    rewrite <- !(assoc_L (++)). split_and!; [done|done|].
    by apply download_failed. }
  erewrite ebind_ok; last first.
  { rewrite run_checked. fold r2 e2. by rewrite decide_True. }
  rewrite (bind_ok _ _ _ _ _ (run_unchecked bulk_cmd e2)).
  set (r3 := proc bulk_cmd e2). set (e3 := after bulk_cmd e2).
  rewrite Hhost. change (subprocess_run bulk_cmd None (host e2)).2 with (host e3).
  destruct (decide (returncode r3 <> 0)) as [Hr3|Hr3].
  - set (e3w := mkEnv (host e3)
                  (log e3 ++ [(WARNING, "  Bulk merge failed, trying section-by-section...")])
                  (calls e3)).
    destruct (read_text reg_file (host e3)) as [reg_text|] eqn:Htext.
    + destruct (section_loop (split_sections reg_text) 0 e3w)
        as (results & e4 & Hloop & Hlen & Hcalls & Hlog).
      erewrite ebind_ok; last first.
      { erewrite ebind_ok; [|apply logger_runs].
        erewrite ebind_ok; [|reflexivity]. cbn [host]. rewrite Htext. exact Hloop. }
      set (r4 := proc upload_cmd e4). set (e5 := after upload_cmd e4).
      destruct (decide (returncode r4 = 0)) as [Hr4|Hr4].
      * erewrite ebind_ok; last first.
        { rewrite run_checked. fold r4 e5. by rewrite decide_True. }
        rewrite logger_runs. intros [= <- <-].
        eexists _, _. split_and!; last first.
        { pose proof (merged_by_section (Some reg_text) r1 r2 r3 reg_text results r4
                        Hr1 Hr2 Hr3 eq_refl Hlen) as Hrun.
          rewrite !decide_True in Hrun by done. exact Hrun. }
        { simpl. rewrite Hlog. simpl. by rewrite <- !(assoc_L (++)). }
        { simpl. rewrite Hcalls. simpl. by rewrite <- !(assoc_L (++)). }
      * erewrite ebind_raise; last first.
        { rewrite run_checked. fold r4 e5. by rewrite decide_False. }
        intros [= <- <-].
        eexists _, _. split_and!; last first.
        { pose proof (merged_by_section (Some reg_text) r1 r2 r3 reg_text results r4
                        Hr1 Hr2 Hr3 eq_refl Hlen) as Hrun.
          rewrite !decide_False in Hrun by done. exact Hrun. }
        { simpl. rewrite Hlog. simpl. by rewrite <- !(assoc_L (++)), ?app_nil_r. }
        { simpl. rewrite Hcalls. simpl. by rewrite <- !(assoc_L (++)). }
    + erewrite ebind_raise; last first.
      { erewrite ebind_ok; [|apply logger_runs].
        erewrite ebind_ok; [|reflexivity]. cbn [host]. rewrite Htext. reflexivity. }
      intros [= <- <-].
      eexists _, _. split_and!; last first.
      { by apply (patch_unreadable None r1 r2 r3). }
      { simpl. by rewrite <- !(assoc_L (++)). }
      { simpl. by rewrite <- !(assoc_L (++)). }
  - assert (returncode r3 = 0) as Hr3' by (destruct (decide (returncode r3 = 0)); done).
    rewrite (bind_ok (mret tt) _ e3 tt e3 eq_refl).
    set (r4 := proc upload_cmd e3). set (e5 := after upload_cmd e3).
    pose proof (merged_in_bulk (read_text reg_file (host e3)) r1 r2 r3 r4
                  Hr1 Hr2 Hr3') as Hrun.
    destruct (decide (returncode r4 = 0)) as [Hr4|Hr4].
    + erewrite ebind_ok; last first.
      { rewrite run_checked. fold r4 e5. by rewrite decide_True. }
      rewrite logger_runs. intros [= <- <-].
      rewrite ?decide_True in Hrun by done.
      eexists _, _. split_and!; [| |exact Hrun]; simpl;
        by rewrite <- !(assoc_L (++)).
    + erewrite ebind_raise; last first.
      { rewrite run_checked. fold r4 e5. by rewrite decide_False. }
      intros [= <- <-].
      rewrite ?decide_False in Hrun by done.
      eexists _, _. split_and!; [| |exact Hrun]; simpl;
        by rewrite <- !(assoc_L (++)), ?app_nil_r.
Qed.

Context {R : HostFailures.Refusals T}.

(** An exception of the host itself: what it raises when it refuses to
    run a command, to remove a file or to write one. *)
Definition refusal (x : PyExn) : Prop :=
  (exists cmd h, HostFailures.run_refused cmd h = Some x) \/
  (exists p h, HostFailures.unlink_refused p h = Some x) \/
  (exists p h, HostFailures.write_refused p h = Some x).

(** [strict] gives what [m] gives, unless the host refuses an operation on
    the way; it then raises the exception of the host. *)
Definition follows {A} (strict m : E A) : Prop :=
  forall e, strict e = m e \/ exists x e', strict e = (Raise x, e') /\ refusal x.

Lemma follows_refl {A} (m : E A) : follows m m.
Proof. intros e. by left. Qed.

Lemma follows_bind {A B} (strict m : E A) (f' f : A -> E B) :
  follows strict m -> (forall a, follows (f' a) (f a)) ->
  follows (strict ≫= f') (m ≫= f).
Proof.
  intros Hm Hf e. unfold mbind, M_bind.
  destruct (Hm e) as [Heq|(x & e' & Hr & Hx)].
  - rewrite Heq. destruct (m e) as [[a|x] e1]; [apply Hf|by left].
  - rewrite Hr. right. by exists x, e'.
Qed.

Lemma follows_unless_refused {A} (refused : HostState -> option PyExn) (m : E A) :
  (forall h x, refused h = Some x -> refusal x) ->
  follows (HostFailures.unless_refused refused m) m.
Proof.
  intros Hx e. unfold HostFailures.unless_refused.
  destruct (refused (host e)) as [x|] eqn:Href; [|by left].
  right. exists x, e. split; [done|]. by apply (Hx (host e)).
Qed.

Lemma follows_for_each {A} (l : list A) (body' body : A -> E unit) :
  (forall a, follows (body' a) (body a)) ->
  follows (for_each l body') (for_each l body).
Proof.
  intros Hb. induction l as [|a l IH]; simpl; [apply follows_refl|].
  apply follows_bind; [apply Hb|]. intros _. apply IH.
Qed.

Lemma follows_run (cmd : list string) (check : bool) :
  follows (HostFailures._run cmd check) (_run cmd check).
Proof.
  unfold HostFailures._run, _run.
  apply follows_bind; [apply follows_refl|]. intros _.
  apply follows_bind; [|intros r; apply follows_refl].
  apply follows_unless_refused. intros h x Hx. left. by exists cmd, h.
Qed.

Lemma follows_merge_section (hive work : string) (i : nat) (section : string) :
  follows (HostFailures.merge_section hive work i section)
          (merge_section hive work i section).
Proof.
  unfold HostFailures.merge_section, merge_section.
  destruct (bool_decide (py_strip section = "")
            || negb (startswith "[" (py_strip section))); [apply follows_refl|].
  apply follows_bind.
  { apply follows_unless_refused. intros h x Hx. right. right. by eexists _, h. }
  intros _. apply follows_bind; [apply follows_run|]. intros r3. apply follows_refl.
Qed.

Lemma follows_merge_reg_file :
  follows (HostFailures._merge_reg_file qcow2_path reg_file work_dir)
          (_merge_reg_file qcow2_path reg_file work_dir).
Proof.
  unfold HostFailures._merge_reg_file, _merge_reg_file.
  apply follows_bind; [apply follows_run|]. intros r.
  case_decide; [apply follows_refl|].
  apply follows_bind; [apply follows_refl|]. intros _.
  apply follows_bind.
  { apply follows_unless_refused. intros h x Hx. right. left. by eexists _, h. }
  intros _. apply follows_bind; [apply follows_run|]. intros _.
  apply follows_bind; [apply follows_run|]. intros r2.
  apply follows_bind.
  - case_decide; [|apply follows_refl].
    apply follows_bind; [apply follows_refl|]. intros _.
    apply follows_bind; [apply follows_refl|]. intros [reg_text|]; [|apply follows_refl].
    apply follows_for_each. intros [i section]. apply follows_merge_section.
  - intros _. apply follows_bind; [apply follows_run|]. intros _. apply follows_refl.
Qed.

(** When the hive-merge tool cannot be started, the operation raises at
    once. *)
Lemma merge_reg_file_tool_refused (e : Env) (x : PyExn) :
  HostFailures.run_refused tool_cmd (host e) = Some x ->
  HostFailures._merge_reg_file qcow2_path reg_file work_dir e
  = (Raise x, mkEnv (host e) (log e ++ [debug_line tool_cmd]) (calls e)).
Proof.
  intros Hx.
  unfold HostFailures._merge_reg_file, HostFailures._run, HostFailures.subprocess,
    HostFailures.unless_refused, mbind, M_bind, logger, modify. simpl.
  fold tool_cmd. by rewrite Hx.
Qed.


End MergeChain.

(** ** Which drivers the engine registers *)

Section Registered.
Context {T : Host}.

Lemma check_existing_loop_result qcow2 names present (e : Env) found e' :
  check_existing_loop qcow2 names present e = (Ok found, e') ->
  present ⊆ found /\ found ⊆ present ∪ list_to_set names.
Proof.
  revert present e. induction names as [|n names IH]; intros present e; simpl.
  - intros [= <- <-]. split; [done|]. apply union_subseteq_l.
  - intros Hrun. apply bind_ok_inv in Hrun as (r & e1 & _ & Hrun).
    destruct (_ && _); apply IH in Hrun as [Hle Hge]; split; intros x Hx.
    + apply Hle, elem_of_union. by left.
    + apply Hge in Hx. revert Hx. rewrite !elem_of_union, elem_of_singleton. tauto.
    + by apply Hle.
    + apply Hge in Hx. revert Hx. rewrite !elem_of_union. tauto.
Qed.

Lemma upload_missing_result qcow2 missing extracted existing (e : Env) registered e' :
  upload_missing qcow2 missing extracted existing e = (Ok registered, e') ->
  existing ⊆ registered /\ registered ⊆ existing ∪ list_to_set missing.
Proof.
  revert existing e. induction missing as [|drv missing IH]; intros existing e; simpl.
  - intros [= <- <-]. split; [done|]. apply union_subseteq_l.
  - destruct (dict_get drv extracted) as [[sys dir]|].
    + intros Hrun. apply bind_ok_inv in Hrun as (r & e1 & _ & Hrun).
      apply bind_ok_inv in Hrun as ([] & e2 & _ & Hrun).
      apply IH in Hrun as [Hle Hge]. split; intros x Hx.
      * apply Hle, elem_of_union. by left.
      * apply Hge in Hx. revert Hx. rewrite !elem_of_union, elem_of_singleton. tauto.
    + intros Hrun. apply IH in Hrun as [Hle Hge]. split; [done|]. intros x Hx.
      apply Hge in Hx. revert Hx. rewrite !elem_of_union. tauto.
Qed.

End Registered.

(** ** What the commands of the module may change

    A property of the host that every host-file operation keeps, and that
    every process keeps as long as it does not upload to a guest path the
    property forbids, is kept by each function of the module that uploads to
    allowed paths only. *)

Section Keeps.
Context {T : Host}.
Variable Inv : HostState -> Prop.
Variable allowed : option string -> Prop.

Definition stable : Prop :=
  (forall cmd input h,
      allowed (uploads_to cmd) -> Inv h -> Inv (subprocess_run cmd input h).2) /\
  (forall p text h, Inv h -> Inv (write_text p text h)) /\
  (forall p h, Inv h -> Inv (unlink_missing_ok p h)) /\
  (forall p h, Inv h -> Inv (mkdir_parents p h)) /\
  (forall p h, Inv h -> Inv (mkdtemp p h).2).

Hypothesis Hstable : stable.

Definition keeps {A} (m : E A) : Prop :=
  forall e r e', m e = (r, e') -> Inv (host e) -> Inv (host e').

Lemma keeps_ret {A} (a : A) : keeps (mret a).
Proof. by intros e r e' [= <- <-]. Qed.

Lemma keeps_raise {A} (x : PyExn) : keeps (raise x : E A).
Proof. by intros e r e' [= <- <-]. Qed.

Lemma keeps_bind {A B} (m : E A) (f : A -> E B) :
  keeps m -> (forall a, keeps (f a)) -> keeps (m ≫= f).
Proof.
  intros Hm Hf e r e'. unfold mbind, M_bind.
  destruct (m e) as [[a|x] e1] eqn:E1.
  - intros E2 Hi. exact (Hf a _ _ _ E2 (Hm _ _ _ E1 Hi)).
  - intros [= <- <-] Hi. exact (Hm _ _ _ E1 Hi).
Qed.

Lemma keeps_logger lvl msg : keeps (logger lvl msg).
Proof. by intros e r e' [= <- <-]. Qed.

Lemma keeps_ask_host {A} (f : HostState -> A) : keeps (ask_host f).
Proof. by intros e r e' [= <- <-]. Qed.

Lemma keeps_write_text p text : keeps (on_host (write_text p text)).
Proof. intros e r e' [= <- <-]. apply Hstable. Qed.

Lemma keeps_unlink p : keeps (on_host (unlink_missing_ok p)).
Proof. intros e r e' [= <- <-]. apply Hstable. Qed.

Lemma keeps_mkdir p : keeps (on_host (mkdir_parents p)).
Proof. intros e r e' [= <- <-]. apply Hstable. Qed.

Lemma keeps_mkdtemp prefix :
  keeps (fun e => let '(d, h) := mkdtemp prefix (host e) in
                  (Ok d, mkEnv h (log e) (calls e))).
Proof.
  intros e r e'. destruct (mkdtemp prefix (host e)) as [d h] eqn:E.
  intros [= <- <-] Hi. simpl.
  destruct Hstable as (_ & _ & _ & _ & Hd). specialize (Hd prefix _ Hi).
  by rewrite E in Hd.
Qed.

Lemma keeps_subprocess cmd input :
  allowed (uploads_to cmd) -> keeps (subprocess cmd input).
Proof.
  intros Hc e r e'. unfold subprocess.
  destruct (subprocess_run cmd input (host e)) as [r0 h] eqn:E.
  intros [= <- <-] Hi. simpl.
  destruct Hstable as (Hrun & _). specialize (Hrun cmd input _ Hc Hi).
  by rewrite E in Hrun.
Qed.

Lemma keeps_try_except {A} (m : E A) (h : PyExn -> E A) :
  keeps m -> (forall x, keeps (h x)) -> keeps (try_except m h).
Proof.
  intros Hm Hh e r e'. unfold try_except.
  destruct (m e) as [[a|x] e1] eqn:E1.
  - intros [= <- <-] Hi. exact (Hm _ _ _ E1 Hi).
  - intros E2 Hi. exact (Hh x _ _ _ E2 (Hm _ _ _ E1 Hi)).
Qed.

Lemma keeps_try_finally {A} (m : E A) (f : E unit) :
  keeps m -> keeps f -> keeps (try_finally m f).
Proof.
  intros Hm Hf e r e'. unfold try_finally.
  destruct (m e) as [r1 e1] eqn:E1. destruct (f e1) as [[[]|x] e2] eqn:E2.
  - intros [= <- <-] Hi. exact (Hf _ _ _ E2 (Hm _ _ _ E1 Hi)).
  - intros [= <- <-] Hi. exact (Hf _ _ _ E2 (Hm _ _ _ E1 Hi)).
Qed.

Lemma keeps_for_each {A} (l : list A) (body : A -> E unit) :
  (forall a, keeps (body a)) -> keeps (for_each l body).
Proof.
  intros Hb. induction l as [|a l IH]; simpl.
  - apply keeps_ret.
  - apply keeps_bind; [apply Hb | intros _; apply IH].
Qed.

Lemma keeps_subprocess_check cmd :
  allowed (uploads_to cmd) -> keeps (subprocess_check cmd).
Proof.
  intros Hc. unfold subprocess_check.
  apply keeps_bind; [by apply keeps_subprocess|].
  intros r. case_decide; [apply keeps_ret|apply keeps_raise].
Qed.

Lemma keeps_run cmd check :
  allowed (uploads_to cmd) -> keeps (_run cmd check).
Proof.
  intros Hc. unfold _run.
  apply keeps_bind; [apply keeps_logger|]. intros _.
  apply keeps_bind; [by apply keeps_subprocess|].
  intros r. destruct (_ && _); [apply keeps_raise|apply keeps_ret].
Qed.

Lemma uploads_to_other (prog : string) (args : list string) :
  prog <> "guestfish" -> uploads_to (prog :: args) = None.
Proof.
  intros Hp. unfold uploads_to.
  repeat (destruct args as [|? args]; [done|]).
  destruct args; [|done]. destruct (decide _) as [[-> _]|]; done.
Qed.

Hypothesis Hnone : allowed None.

Lemma keeps_missing_packages tools missing :
  keeps (missing_packages tools missing).
Proof.
  revert missing. induction tools as [|[tool pkg] tools IH]; intros missing; simpl.
  - apply keeps_ret.
  - apply keeps_bind; [by apply keeps_subprocess|].
    intros r. case_decide; apply IH.
Qed.

Lemma keeps_ensure_prerequisites : keeps ensure_prerequisites.
Proof.
  unfold ensure_prerequisites.
  apply keeps_bind; [apply keeps_missing_packages|].
  intros [|pkg missing]; [apply keeps_ret|].
  apply keeps_bind; [apply keeps_logger|]. intros _.
  apply keeps_bind; [|intros _; apply keeps_ret].
  apply keeps_subprocess.
  replace (uploads_to _) with (@None string); [done|].
  symmetry. by apply (uploads_to_other "apt-get").
Qed.

Lemma keeps_check_existing_loop qcow2 names present :
  keeps (check_existing_loop qcow2 names present).
Proof.
  revert present. induction names as [|n names IH]; intros present; simpl.
  - apply keeps_ret.
  - apply keeps_bind; [by apply keeps_run|].
    intros r. destruct (_ && _); apply IH.
Qed.

Lemma keeps_find_in_subdirs mount_dir drv iso_dir subdirs :
  keeps (find_in_subdirs mount_dir drv iso_dir subdirs).
Proof.
  induction subdirs as [|d subdirs IH]; simpl.
  - apply keeps_ret.
  - apply keeps_bind; [apply keeps_ask_host|].
    intros []; [apply keeps_ret|apply IH].
Qed.

Lemma keeps_find_driver_dir mount_dir drv iso_dir :
  keeps (_find_driver_dir mount_dir drv iso_dir).
Proof.
  unfold _find_driver_dir.
  apply keeps_bind; [apply keeps_find_in_subdirs|].
  intros [hit|]; [apply keeps_ret|].
  apply keeps_bind; [apply keeps_ask_host|]. intros found. apply keeps_ret.
Qed.

Lemma keeps_extract_one mount_dir work_dir drv def :
  keeps (extract_one mount_dir work_dir drv def).
Proof.
  unfold extract_one.
  apply keeps_bind; [apply keeps_find_driver_dir|].
  intros [[src_dir subdir]|].
  - apply keeps_bind; [by apply keeps_subprocess_check|]. intros _.
    apply keeps_bind; [apply keeps_mkdir|]. intros _.
    apply keeps_bind; [apply keeps_ask_host|]. intros found.
    apply keeps_bind.
    { apply keeps_subprocess_check.
      replace (uploads_to _) with (@None string); [done|].
      symmetry. by apply (uploads_to_other "cp"). }
    intros _. apply keeps_bind; [apply keeps_ask_host|]. intros copied.
    apply keeps_bind; [apply keeps_logger|]. intros _. apply keeps_ret.
  - apply keeps_bind; [apply keeps_logger|]. intros _. apply keeps_ret.
Qed.

Lemma keeps_extract_loop mount_dir work_dir defs drivers :
  keeps (extract_loop mount_dir work_dir defs drivers).
Proof.
  revert drivers. induction defs as [|[drv def] defs IH]; intros drivers; simpl.
  - apply keeps_ret.
  - apply keeps_bind; [apply keeps_extract_one|]. intros entry. apply IH.
Qed.

Lemma keeps_extract_drivers_from_iso iso_path work_dir :
  keeps (_extract_drivers_from_iso iso_path work_dir).
Proof.
  unfold _extract_drivers_from_iso.
  apply keeps_bind; [apply keeps_mkdir|]. intros _.
  apply keeps_bind.
  { apply keeps_try_except; [by apply keeps_run|].
    intros []; apply keeps_raise. }
  intros _. apply keeps_try_finally; [apply keeps_extract_loop|].
  apply keeps_bind; [by apply keeps_run|]. intros _. apply keeps_ret.
Qed.

Lemma keeps_get_interface_guids qcow2 : keeps (_get_interface_guids qcow2).
Proof.
  unfold _get_interface_guids.
  apply keeps_bind; [by apply keeps_run|].
  intros r. case_decide; [apply keeps_ret|].
  apply keeps_bind; [apply keeps_logger|]. intros _.
  apply keeps_bind; [apply keeps_mkdtemp|]. intros dir.
  apply keeps_try_except; [|intros x; apply keeps_ret].
  apply keeps_bind; [by apply keeps_run|]. intros _.
  apply keeps_bind; [by apply keeps_subprocess|]. intros r2. apply keeps_ret.
Qed.

Lemma keeps_merge_section hive work_dir i section :
  keeps (merge_section hive work_dir i section).
Proof.
  unfold merge_section. destruct (_ || _); [apply keeps_ret|].
  apply keeps_bind; [apply keeps_write_text|]. intros _.
  apply keeps_bind; [by apply keeps_run|].
  intros r. case_decide; [apply keeps_logger|apply keeps_ret].
Qed.

Lemma keeps_merge_reg_file qcow2 reg_file work_dir :
  allowed (Some "/Windows/System32/config/SYSTEM") ->
  keeps (_merge_reg_file qcow2 reg_file work_dir).
Proof.
  intros Hsys. unfold _merge_reg_file.
  apply keeps_bind; [by apply keeps_run|].
  intros r. case_decide; [apply keeps_logger|].
  apply keeps_bind; [apply keeps_logger|]. intros _.
  apply keeps_bind; [apply keeps_unlink|]. intros _.
  apply keeps_bind; [by apply keeps_run|]. intros _.
  apply keeps_bind; [by apply keeps_run|]. intros r2.
  apply keeps_bind.
  { case_decide; [|apply keeps_ret].
    apply keeps_bind; [apply keeps_logger|]. intros _.
    apply keeps_bind; [apply keeps_ask_host|].
    intros [text|]; [|apply keeps_raise].
    apply keeps_for_each. intros [i section]. apply keeps_merge_section. }
  intros _. apply keeps_bind; [by apply keeps_run|]. intros _. apply keeps_logger.
Qed.

Lemma keeps_stage_file qcow2 guest_dir f :
  allowed (Some (guest_dir +:+ "/" +:+ path_name f)) ->
  keeps (stage_file qcow2 guest_dir f).
Proof.
  intros Hd. unfold stage_file.
  apply keeps_bind; [apply keeps_ask_host|].
  intros []; [|apply keeps_ret].
  apply keeps_bind; [by apply keeps_run|]. intros _. apply keeps_ret.
Qed.

Lemma keeps_stage_driver_dirs qcow2 extracted :
  (forall drv name, allowed (Some ("/Drivers/" +:+ drv +:+ "/" +:+ name))) ->
  keeps (_stage_driver_dirs qcow2 extracted).
Proof.
  intros Hd. unfold _stage_driver_dirs.
  apply keeps_for_each. intros [drv [sys dir]].
  apply keeps_bind; [by apply keeps_run|]. intros _.
  apply keeps_bind; [apply keeps_ask_host|]. intros found.
  apply keeps_bind; [|intros _; apply keeps_logger].
  apply keeps_for_each. intros f. apply keeps_stage_file, Hd.
Qed.

Lemma keeps_inject_pnputil_firstboot qcow2 work_dir :
  allowed (Some FIRSTBOOT_SCRIPT_PATH) ->
  keeps (_inject_pnputil_firstboot qcow2 work_dir).
Proof.
  intros Hf. unfold _inject_pnputil_firstboot.
  apply keeps_bind; [apply keeps_write_text|]. intros _.
  apply keeps_bind; [by apply keeps_run|]. intros _. apply keeps_logger.
Qed.

Lemma keeps_upload_missing qcow2 missing extracted existing :
  (forall drv, allowed (Some ("/Windows/System32/drivers/" +:+ drv +:+ ".sys"))) ->
  keeps (upload_missing qcow2 missing extracted existing).
Proof.
  intros Hs. revert existing.
  induction missing as [|drv missing IH]; intros existing; simpl.
  - apply keeps_ret.
  - destruct (dict_get drv extracted) as [[sys dir]|]; [|apply IH].
    apply keeps_bind; [apply keeps_run, Hs|]. intros _.
    apply keeps_bind; [apply keeps_logger|]. intros _. apply IH.
Qed.

Lemma keeps_built reg : keeps (built reg).
Proof. destruct reg; [apply keeps_ret|apply keeps_raise]. Qed.

Lemma keeps_ensure_all_virtio_drivers qcow2 virtio_iso work_dir :
  allowed (Some "/Windows/System32/config/SYSTEM") ->
  (forall drv name, allowed (Some ("/Drivers/" +:+ drv +:+ "/" +:+ name))) ->
  allowed (Some FIRSTBOOT_SCRIPT_PATH) ->
  (forall drv, allowed (Some ("/Windows/System32/drivers/" +:+ drv +:+ ".sys"))) ->
  keeps (ensure_all_virtio_drivers qcow2 virtio_iso work_dir).
Proof.
  intros Hsys Hdrv Hfirst Hdriver. unfold ensure_all_virtio_drivers.
  apply keeps_bind; [destruct work_dir; [apply keeps_ret|apply keeps_mkdtemp]|].
  intros wd. apply keeps_bind; [apply keeps_mkdir|]. intros _.
  apply keeps_bind; [apply keeps_ensure_prerequisites|]. intros _.
  do 2 (apply keeps_bind; [apply keeps_logger|]; intros _).
  apply keeps_bind; [apply keeps_check_existing_loop|]. intros existing.
  apply keeps_bind; [case_decide; [apply keeps_logger|apply keeps_ret]|]. intros _.
  apply keeps_bind; [case_decide; [apply keeps_logger|apply keeps_ret]|]. intros _.
  apply keeps_bind; [apply keeps_logger|]. intros _.
  apply keeps_bind; [apply keeps_extract_drivers_from_iso|]. intros extracted.
  apply keeps_bind.
  { case_decide; (apply keeps_bind; [apply keeps_logger|]; intros _);
      [by apply keeps_upload_missing|apply keeps_ret]. }
  intros registered. apply keeps_bind; [apply keeps_logger|]. intros _.
  apply keeps_bind; [apply keeps_built|]. intros reg_content.
  apply keeps_bind; [apply keeps_write_text|]. intros _.
  apply keeps_bind; [by apply keeps_merge_reg_file|]. intros _.
  do 2 (apply keeps_bind; [apply keeps_logger|]; intros _).
  apply keeps_bind; [by apply keeps_stage_driver_dirs|]. intros _.
  apply keeps_bind; [apply keeps_logger|]. intros _.
  apply keeps_bind; [by apply keeps_inject_pnputil_firstboot|]. intros _.
  apply keeps_bind; [apply keeps_logger|]. intros _.
  apply keeps_bind; [apply keeps_get_interface_guids|]. intros guids.
  apply keeps_bind.
  { destruct guids as [|guid guids]; [apply keeps_logger|].
    apply keeps_bind; [apply keeps_logger|]. intros _.
    apply keeps_bind; [apply keeps_built|]. intros dhcp_content.
    apply keeps_bind; [apply keeps_write_text|]. intros _.
    apply keeps_bind; [by apply keeps_merge_reg_file|]. intros _.
    apply keeps_logger. }
  intros _. do 2 (apply keeps_bind; [apply keeps_logger|]; intros _).
  apply keeps_ret.
Qed.

(** The steps of an invocation that returns: the drivers found, those
    registered, and the runs of the functions from step 4 on. *)
Lemma ensure_all_virtio_drivers_returns qcow2 virtio_iso work_dir (e : Env) b e' :
  (forall drv, allowed (Some ("/Windows/System32/drivers/" +:+ drv +:+ ".sys"))) ->
  Inv (host e) ->
  ensure_all_virtio_drivers qcow2 virtio_iso work_dir e = (Ok b, e') ->
  exists (dir : string) (extracted : list (string * (string * string)))
         (existing registered : gset string) (reg_content : string)
         (guids : list string) (eC eC' e3 eW e4 e4a e5 e5a e6 e6a e7 : Env),
    Inv (host eC) /\
    check_existing_loop qcow2 (DRIVER_DEFS.*1) ∅ eC = (Ok existing, eC') /\
    existing ⊆ registered /\
    registered ⊆ list_to_set (DRIVER_DEFS.*1) /\
    _build_driver_reg registered = Some reg_content /\
    Inv (host e3) /\
    host eW = write_text (path_join dir "virtio-drivers.reg") reg_content (host e3) /\
    _merge_reg_file qcow2 (path_join dir "virtio-drivers.reg") dir eW = (Ok tt, e4) /\
    host e4a = host e4 /\
    _stage_driver_dirs qcow2 extracted e4a = (Ok tt, e5) /\
    host e5a = host e5 /\
    _inject_pnputil_firstboot qcow2 dir e5a = (Ok tt, e6) /\
    host e6a = host e6 /\
    _get_interface_guids qcow2 e6a = (Ok guids, e7) /\
    match guids with
    | [] => host e' = host e7
    | _ :: _ =>
        exists (dhcp_content : string) (eD e8 : Env),
          _build_dhcp_reg guids = Some dhcp_content /\
          host eD = write_text (path_join dir "dhcp-fix.reg") dhcp_content (host e7) /\
          _merge_reg_file qcow2 (path_join dir "dhcp-fix.reg") dir eD = (Ok tt, e8) /\
          host e' = host e8
    end.
Proof.
  intros Hdriver Hinv H. unfold ensure_all_virtio_drivers in H.
  apply bind_ok_inv in H as (dir & e1 & H1 & H).
  assert (Inv (host e1)) as Hinv1.
  { destruct work_dir; [by injection H1 as <- <-|].
    exact (keeps_mkdtemp _ _ _ _ H1 Hinv). }
  clear H1 Hinv.
  apply bind_ok_inv in H as ([] & e2 & H2 & H).
  pose proof (keeps_mkdir _ _ _ _ H2 Hinv1) as Hinv2. clear H2 Hinv1.
  apply bind_ok_inv in H as ([] & e3 & H3 & H).
  pose proof (keeps_ensure_prerequisites _ _ _ H3 Hinv2) as Hinv3. clear H3 Hinv2.
  apply bind_ok_inv in H as ([] & e4 & H4 & H).
  pose proof (keeps_logger _ _ _ _ _ H4 Hinv3) as Hinv4. clear H4 Hinv3.
  apply bind_ok_inv in H as ([] & eC & H5 & H).
  pose proof (keeps_logger _ _ _ _ _ H5 Hinv4) as HC. clear H5 Hinv4.
  apply bind_ok_inv in H as (existing & eC' & Hcheck & H).
  unfold _check_existing_drivers in Hcheck.
  pose proof (keeps_check_existing_loop _ _ _ _ _ _ Hcheck HC) as Hinv5.
  pose proof (check_existing_loop_result _ _ _ _ _ _ Hcheck) as [_ Hfound].
  apply bind_ok_inv in H as ([] & e6 & H6 & H).
  assert (Inv (host e6)) as Hinv6.
  { revert H6. destruct (decide (existing <> ∅)); intros H6;
      [exact (keeps_logger _ _ _ _ _ H6 Hinv5)|by injection H6 as <-]. }
  clear Hinv5 H6.
  apply bind_ok_inv in H as ([] & e7 & H7 & H).
  assert (Inv (host e7)) as Hinv7.
  { revert H7. destruct (decide (_ ∖ existing <> ∅)); intros H7;
      [exact (keeps_logger _ _ _ _ _ H7 Hinv6)|by injection H7 as <-]. }
  clear Hinv6 H7.
  apply bind_ok_inv in H as ([] & e8 & H8 & H).
  pose proof (keeps_logger _ _ _ _ _ H8 Hinv7) as Hinv8. clear H8 Hinv7.
  apply bind_ok_inv in H as (extracted & e9 & H9 & H).
  pose proof (keeps_extract_drivers_from_iso _ _ _ _ _ H9 Hinv8) as Hinv9.
  clear H9 Hinv8.
  apply bind_ok_inv in H as (registered & e10 & H10 & H).
  assert (Inv (host e10) /\ existing ⊆ registered /\
          registered ⊆ list_to_set (DRIVER_DEFS.*1)) as (Hinv10 & Hsub & Hreg).
  { revert H10. destruct (decide (_ ∖ existing <> ∅)) as [Hmissing|Hmissing].
    - intros H10. apply bind_ok_inv in H10 as ([] & e9' & Hl & H10).
      pose proof (keeps_logger _ _ _ _ _ Hl Hinv9) as Hinv9'.
      split; [exact (keeps_upload_missing _ _ _ _ Hdriver _ _ _ H10 Hinv9')|].
      apply upload_missing_result in H10 as [Hle Hge].
      split; [done|]. intros x Hx. apply Hge in Hx.
      apply elem_of_union in Hx as [Hx|Hx].
      + apply Hfound in Hx. apply elem_of_union in Hx as [Hx|Hx]; [|done].
        by apply elem_of_empty in Hx.
      + apply elem_of_list_to_set, elem_of_elements in Hx.
        by apply elem_of_difference in Hx as [Hx _].
    - intros H10. apply bind_ok_inv in H10 as ([] & e9' & Hl & H10).
      pose proof (keeps_logger _ _ _ _ _ Hl Hinv9) as Hinv9'.
      injection H10 as <- <-.
      split; [done|]. split; [done|]. intros x Hx.
      apply Hfound in Hx. apply elem_of_union in Hx as [Hx|Hx]; [|done].
      by apply elem_of_empty in Hx. }
  clear Hinv9 H10.
  apply bind_ok_inv in H as ([] & e11 & H11 & H).
  pose proof (keeps_logger _ _ _ _ _ H11 Hinv10) as Hinv11. clear H11 Hinv10.
  apply bind_ok_inv in H as (reg_content & e12 & H12 & H).
  assert (_build_driver_reg registered = Some reg_content /\ e12 = e11)
    as [Hbuilt ->].
  { revert H12. destruct (_build_driver_reg registered); [|done].
    by intros [= <- <-]. }
  clear H12.
  apply bind_ok_inv in H as ([] & eW & HW & H).
  rewrite on_host_runs in HW. injection HW as <-.
  apply bind_ok_inv in H as ([] & e14 & Hmerge & H).
  apply bind_ok_inv in H as ([] & e15 & H15 & H).
  rewrite logger_runs in H15. injection H15 as <-.
  apply bind_ok_inv in H as ([] & e16 & H16 & H).
  rewrite logger_runs in H16. injection H16 as <-.
  apply bind_ok_inv in H as ([] & e17 & Hstage & H).
  apply bind_ok_inv in H as ([] & e18 & H18 & H).
  rewrite logger_runs in H18. injection H18 as <-.
  apply bind_ok_inv in H as ([] & e19 & Hinject & H).
  apply bind_ok_inv in H as ([] & e20 & H20 & H).
  rewrite logger_runs in H20. injection H20 as <-.
  apply bind_ok_inv in H as (guids & e21 & Hguids & H).
  apply bind_ok_inv in H as ([] & e22 & Hdhcp & H).
  apply bind_ok_inv in H as ([] & e23 & H23 & H).
  rewrite logger_runs in H23. injection H23 as <-.
  apply bind_ok_inv in H as ([] & e24 & H24 & H).
  rewrite logger_runs in H24. injection H24 as <-.
  injection H as _ <-. cbn [host].
  eexists dir, extracted, existing, registered, reg_content, guids.
  eexists eC, eC', e11, _, e14, _, e17, _, e19, _, e21.
  refine (conj HC (conj Hcheck (conj Hsub (conj Hreg (conj Hbuilt (conj Hinv11
            (conj _ (conj Hmerge (conj _ (conj Hstage (conj _ (conj Hinject
            (conj _ (conj Hguids _)))))))))))))); [done..|].
  destruct guids as [|guid guids].
  - rewrite logger_runs in Hdhcp. by injection Hdhcp as <-.
  - apply bind_ok_inv in Hdhcp as ([] & e25 & H25 & Hdhcp).
    rewrite logger_runs in H25. injection H25 as <-.
    apply bind_ok_inv in Hdhcp as (dhcp_content & e26 & H26 & Hdhcp).
    assert (_build_dhcp_reg (guid :: guids) = Some dhcp_content /\
            e26 = mkEnv (host e21)
                    (log e21 ++ [(INFO, "  Found " +:+ pretty (length (guid :: guids))
                                        +:+ " interface(s)")]) (calls e21))
      as [Hdbuilt ->].
    { revert H26. destruct (_build_dhcp_reg (guid :: guids)); [|done].
      by intros [= <- <-]. }
    apply bind_ok_inv in Hdhcp as ([] & eD & HD & Hdhcp).
    rewrite on_host_runs in HD. injection HD as <-.
    apply bind_ok_inv in Hdhcp as ([] & e8' & Hdmerge & Hdhcp).
    rewrite logger_runs in Hdhcp. injection Hdhcp as <-.
    eexists dhcp_content, _, e8'.
    refine (conj Hdbuilt (conj _ (conj Hdmerge _))); done.
Qed.

End Keeps.


End WindowsVirtioFacts.

(** * The guest after the engine has run *)

Module GuestModelFacts.
Import Py WindowsVirtio GuestModel PyFacts WindowsVirtioFacts.

(** ** Keys of a patched hive *)

Lemma added_key_cons (k k' : string) (l : list string) :
  k' <> k ->
  k' :: (if decide (k ∈ l) then l else l ++ [k])
  = if decide (k ∈ k' :: l) then k' :: l else (k' :: l) ++ [k].
Proof.
  intros Hne. destruct (decide (k ∈ l)) as [Hin|Hnin].
  - rewrite decide_True; [done|]. apply elem_of_cons. by right.
  - rewrite decide_False; [done|]. intros [?|?]%elem_of_cons; by simplify_eq.
Qed.

Lemma upsert_keys {A} (k : string) (v : A) (l : list (string * A)) :
  (upsert k v l).*1 = if decide (k ∈ l.*1) then l.*1 else l.*1 ++ [k].
Proof.
  induction l as [|[k' v'] l IH].
  - rewrite decide_False; [done|]. apply not_elem_of_nil.
  - change (upsert k v ((k', v') :: l))
      with (if decide (k' = k) then (k, v) :: l else (k', v') :: upsert k v l).
    destruct (decide (k' = k)) as [->|Hne]; rewrite !fmap_cons.
    + rewrite decide_True; [done|]. apply elem_of_cons. by left.
    + rewrite IH. by apply added_key_cons.
Qed.

Lemma merge_key_keys (k : string) vals (h : Hive) :
  (merge_key k vals h).*1 = if decide (k ∈ h.*1) then h.*1 else h.*1 ++ [k].
Proof.
  induction h as [|[k' old] h IH].
  - rewrite decide_False; [done|]. apply not_elem_of_nil.
  - change (merge_key k vals ((k', old) :: h))
      with (if decide (k' = k) then (k', merge_values vals old) :: h
            else (k', old) :: merge_key k vals h).
    destruct (decide (k' = k)) as [->|Hne]; rewrite !fmap_cons.
    + rewrite decide_True; [done|]. apply elem_of_cons. by left.
    + rewrite IH. by apply added_key_cons.
Qed.

Lemma added_key_NoDup (k : string) (l : list string) :
  NoDup l -> NoDup (if decide (k ∈ l) then l else l ++ [k]).
Proof.
  intros Hl. case_decide; [done|].
  apply NoDup_app. split_and!; [done| |apply NoDup_singleton].
  intros x Hx ->%list_elem_of_singleton. done.
Qed.

Lemma added_key_mono (k k' : string) (l : list string) :
  k' ∈ l -> k' ∈ (if decide (k ∈ l) then l else l ++ [k]).
Proof. intros Hl. case_decide; [done|]. apply elem_of_app. by left. Qed.

Lemma added_key_in (k : string) (l : list string) :
  k ∈ (if decide (k ∈ l) then l else l ++ [k]).
Proof. case_decide; [done|]. apply elem_of_app. right. by apply list_elem_of_singleton. Qed.

Lemma upsert_NoDup {A} k (v : A) l : NoDup l.*1 -> NoDup (upsert k v l).*1.
Proof. rewrite upsert_keys. apply added_key_NoDup. Qed.

Lemma upsert_elem_of {A} k (v : A) l : (k, v) ∈ upsert k v l.
Proof.
  induction l as [|[k' v'] l IH]; simpl.
  - by apply list_elem_of_singleton.
  - case_decide; [apply elem_of_cons; by left|apply elem_of_cons; by right].
Qed.

Lemma upsert_other {A} k (v : A) k' v' l :
  k' <> k -> (k', v') ∈ l -> (k', v') ∈ upsert k v l.
Proof.
  intros Hne. induction l as [|[k2 v2] l IH]; simpl; [by intros []%elem_of_nil|].
  intros [Heq|Hin]%elem_of_cons.
  - simplify_eq. rewrite decide_False; [|done]. apply elem_of_cons. by left.
  - case_decide; apply elem_of_cons; right; [done|by apply IH].
Qed.

Lemma merge_patch_NoDup sections (h : Hive) :
  NoDup h.*1 -> NoDup (merge_patch sections h).*1.
Proof.
  unfold merge_patch. revert h.
  induction sections as [|[k vals] sections IH]; intros h Hh; simpl; [done|].
  apply IH. rewrite merge_key_keys. by apply added_key_NoDup.
Qed.

Lemma merge_patch_mono sections (h : Hive) k :
  k ∈ h.*1 -> k ∈ (merge_patch sections h).*1.
Proof.
  unfold merge_patch. revert h.
  induction sections as [|[k' vals] sections IH]; intros h Hh; simpl; [done|].
  apply IH. rewrite merge_key_keys. by apply added_key_mono.
Qed.

Lemma merge_patch_adds sections (h : Hive) k :
  k ∈ sections.*1 -> k ∈ (merge_patch sections h).*1.
Proof.
  unfold merge_patch. revert h.
  induction sections as [|[k' vals] sections IH]; intros h; simpl.
  - intros []%elem_of_nil.
  - intros [->|Hin]%elem_of_cons; [|by apply IH].
    apply (merge_patch_mono sections). rewrite merge_key_keys. apply added_key_in.
Qed.

Lemma occurrences_cons {A} (k k' : string) (v : A) (l : list (string * A)) :
  occurrences k ((k', v) :: l)
  = ((if decide (k' = k) then 1 else 0) + occurrences k l)%nat.
Proof. unfold occurrences. rewrite filter_cons. simpl. by case_decide. Qed.

Lemma occurrences_absent {A} (k : string) (l : list (string * A)) :
  k ∉ l.*1 -> occurrences k l = 0%nat.
Proof.
  induction l as [|[k' v] l IH]; [done|].
  rewrite fmap_cons, occurrences_cons. intros Hnin.
  apply not_elem_of_cons in Hnin as [Hne Hnin].
  rewrite decide_False; [|done]. by rewrite IH.
Qed.

Lemma occurrences_NoDup {A} (k : string) (l : list (string * A)) :
  NoDup l.*1 -> (occurrences k l <= 1)%nat.
Proof.
  induction l as [|[k' v] l IH]; [unfold occurrences; simpl; lia|].
  rewrite fmap_cons, occurrences_cons. intros [Hnin Hl]%NoDup_cons.
  case_decide as Hk; [|by apply IH]. subst k'.
  rewrite occurrences_absent; [lia|done].
Qed.

Lemma occurrences_elem_of {A} (k : string) (l : list (string * A)) :
  NoDup l.*1 -> k ∈ l.*1 -> occurrences k l = 1%nat.
Proof.
  induction l as [|[k' v] l IH]; [by intros _ []%elem_of_nil|].
  rewrite fmap_cons, occurrences_cons. intros [Hnin Hl]%NoDup_cons Hin.
  case_decide as Hk.
  - subst k'. rewrite occurrences_absent; [lia|done].
  - apply elem_of_cons in Hin as [->|Hin]; [done|]. by rewrite IH.
Qed.

(** ** The tools keep the machine well formed *)

Lemma hives_ok_insert (f : gmap string HostFile) p c :
  hives_ok f -> (forall h, c = HiveCopy h -> NoDup h.*1) -> hives_ok (<[p := c]> f).
Proof.
  intros Hf Hc q h. destruct (decide (p = q)) as [->|Hne].
  - rewrite lookup_insert_eq. intros [= ->]. by apply Hc.
  - rewrite lookup_insert_ne; [apply Hf|done].
Qed.

Lemma hives_ok_copy (f g : gmap string HostFile) src dst c :
  hives_ok g -> g !! src = Some c -> hives_ok f -> hives_ok (<[dst := c]> f).
Proof.
  intros Hg Hsrc Hf. apply hives_ok_insert; [done|].
  intros h ->. by apply (Hg src).
Qed.

Lemma hives_ok_delete (f : gmap string HostFile) p :
  hives_ok f -> hives_ok (delete p f).
Proof. intros Hf q h [_ Hq]%lookup_delete_Some. by apply (Hf q). Qed.

Lemma hives_ok_filter (f : gmap string HostFile) (P : string * HostFile -> Prop)
    `{!forall x, Decision (P x)} :
  hives_ok f -> hives_ok (filter P f).
Proof. intros Hf q h [Hq _]%map_lookup_filter_Some. by apply (Hf q). Qed.

Lemma hives_ok_mount dir (entries : list (string * string)) (f : gmap string HostFile) :
  hives_ok f ->
  hives_ok (foldl (fun f e => <[path_join dir e.1 := Text e.2]> f) f entries).
Proof.
  revert f. induction entries as [|e entries IH]; intros f Hf; simpl; [done|].
  apply IH, hives_ok_insert; [done|]. intros h [=].
Qed.

Lemma hives_ok_cp_dir (g : gmap string HostFile) dst srcs (f : gmap string HostFile) :
  hives_ok g -> hives_ok f ->
  hives_ok (foldl (fun f src =>
                     match g !! src with
                     | Some c => <[path_join dst (path_name src) := c]> f
                     | None => f
                     end) f srcs).
Proof.
  intros Hg. revert f. induction srcs as [|src srcs IH]; intros f Hf; simpl; [done|].
  apply IH. destruct (g !! src) as [c|] eqn:Hsrc; [|done].
  by apply (hives_ok_copy f g src).
Qed.

Lemma well_formed_hives m : well_formed m -> hives_ok (files m).
Proof. by intros (_ & _ & H). Qed.

Lemma perform_well_formed t m : well_formed m -> well_formed (perform t m).2.
Proof.
  intros Hwf. pose proof Hwf as (Hfiles & Hhive & Hcopies).
  destruct t; simpl; try done.
  - split_and!; [done|done|]. by apply hives_ok_mount.
  - split_and!; [done|done|]. by apply hives_ok_filter.
  - destruct (files m !! src) as [c|] eqn:Hsrc; simpl; [|done].
    split_and!; [done|done|]. by apply (hives_ok_copy _ (files m) src).
  - split_and!; [done|done|]. by apply hives_ok_cp_dir.
  - destruct (files m !! src) as [[content|h]|] eqn:Hsrc; [| |done].
    + case_decide; simpl; [done|]. split_and!; [|done|done].
      by apply upsert_NoDup.
    + case_decide; simpl; [|done]. split_and!; [done| |done].
      by apply (Hcopies src).
  - split_and!; [done|done|]. apply hives_ok_insert; [done|]. by intros h [= <-].
  - destruct (files m !! patch) as [[text|h]|] eqn:Hp; simpl; try done.
    split_and!; [done| |done]. by apply merge_patch_NoDup.
  - destruct (files m !! hive) as [[text|h]|] eqn:Hh; simpl; try done.
    destruct (files m !! patch) as [[text|h']|] eqn:Hp; simpl; try done.
    split_and!; [done|done|]. apply hives_ok_insert; [done|].
    intros h' [= <-]. apply merge_patch_NoDup. by apply (Hcopies hive).
  - destruct (files m !! hive) as [[text|h]|] eqn:Hh; simpl; done.
Qed.

Lemma run_process_well_formed cmd input m :
  well_formed m -> well_formed (run_process cmd input m).2.
Proof.
  intros Hwf. unfold run_process. destruct (fails m (started m)); [done|].
  by apply perform_well_formed.
Qed.

Lemma well_formed_stable : @stable machine_host well_formed (fun _ => True).
Proof.
  split_and!.
  - intros cmd input h _. apply run_process_well_formed.
  - intros p text h (? & ? & ?). split_and!; [done|done|].
    simpl. apply hives_ok_insert; [done|]. intros ? [=].
  - intros p h (? & ? & ?). split_and!; [done|done|]. by apply hives_ok_delete.
  - done.
  - done.
Qed.

(** ** What a process changes in the guest *)

Lemma decode_guestfish_upload args src dst :
  decode_guestfish args = Upload src dst ->
  uploads_to ("guestfish" :: args) = Some dst.
Proof.
  unfold decode_guestfish, uploads_to.
  destruct args as [|a1 [|a2 [|a3 [|a4 [|a5 [|a6 [|a7 [|a8 [|a9 rest]]]]]]]]];
    try done.
  - by case_decide.
  - destruct (decide (a1 = "-a" /\ a5 = "upload")) as [Hup|Hup].
    + intros [= -> ->]. destruct Hup as [-> ->]. by rewrite decide_True.
    + repeat case_decide; done.
  - by case_decide.
Qed.

Lemma decode_upload cmd src dst :
  decode cmd = Upload src dst -> uploads_to cmd = Some dst.
Proof.
  destruct cmd as [|prog args]; [done|]. unfold decode.
  destruct (decide (prog = "which")); [done|].
  destruct (decide (prog = "apt-get")); [done|].
  destruct (decide (prog = "guestfish")) as [->|_].
  { apply decode_guestfish_upload. }
  repeat (case_decide || case_match); done.
Qed.

Lemma perform_g_files t m :
  g_files (guest (perform t m).2) = g_files (guest m) \/
  exists src dst content,
    t = Upload src dst /\
    g_files (guest (perform t m).2) = upsert dst content (g_files (guest m)).
Proof.
  destruct t; simpl; try (by left); repeat (case_decide || case_match);
    simpl; try (by left).
  right. by eexists _, _, _.
Qed.

Lemma perform_g_hive t m :
  g_hive (guest (perform t m).2) = g_hive (guest m) \/
  (exists sections,
      g_hive (guest (perform t m).2) = merge_patch sections (g_hive (guest m))) \/
  (exists src, t = Upload src SYSTEM_HIVE).
Proof.
  destruct t; simpl; try (by left); repeat (case_decide || case_match);
    simpl; try (by left); subst.
  - right; right. by eexists.
  - right; left. by eexists.
Qed.

Lemma perform_fails t m : fails (perform t m).2 = fails m.
Proof.
  destruct t; simpl; try done; repeat (case_decide || case_match); done.
Qed.

Lemma never_fails_stable : @stable machine_host never_fails (fun _ => True).
Proof.
  split_and!; try done.
  intros cmd input m _ Hm n. simpl. unfold run_process.
  destruct (fails m (started m)); [apply Hm|]. rewrite perform_fails. apply Hm.
Qed.

Lemma has_firstboot_script_stable :
  @stable machine_host has_firstboot_script
          (fun dst => dst <> Some FIRSTBOOT_SCRIPT_PATH).
Proof.
  split_and!; try done.
  intros cmd input m Hcmd Hm. simpl. unfold run_process.
  destruct (fails m (started m)); [done|].
  unfold has_firstboot_script.
  destruct (perform_g_files (decode cmd)
              (mkMachine (guest m) (files m) (iso m) (S (started m)) (fails m)))
    as [->|(src & dst & content & Hdec & ->)]; [done|].
  apply upsert_other; [|done].
  intros <-. apply Hcmd. by apply decode_upload in Hdec.
Qed.

Lemma has_keys_stable K :
  @stable machine_host (has_keys K) (fun dst => dst <> Some SYSTEM_HIVE).
Proof.
  split_and!; try done.
  intros cmd input m Hcmd Hm. simpl. unfold run_process.
  destruct (fails m (started m)); [done|].
  unfold has_keys.
  destruct (perform_g_hive (decode cmd)
              (mkMachine (guest m) (files m) (iso m) (S (started m)) (fails m)))
    as [->|[[sections ->]|[src Hdec]]]; [done| |].
  - intros k Hk. apply merge_patch_mono. by apply Hm.
  - apply decode_upload in Hdec. by destruct Hcmd.
Qed.

(** ** Single steps on the machine *)

Lemma upload_succeeds qcow2 src dst (m : Machine) :
  dst <> SYSTEM_HIVE ->
  returncode (run_process ["guestfish"; "-a"; qcow2; "-i"; "--"; "upload"; src; dst]
                          None m).1 = 0 ->
  exists content,
    files m !! src = Some (Text content) /\
    g_files (guest (run_process ["guestfish"; "-a"; qcow2; "-i"; "--"; "upload"; src; dst]
                                None m).2)
    = upsert dst content (g_files (guest m)).
Proof.
  intros Hdst. unfold run_process.
  destruct (fails m (started m)); [done|].
  change (decode ["guestfish"; "-a"; qcow2; "-i"; "--"; "upload"; src; dst])
    with (Upload src dst).
  unfold perform. cbn [files guest].
  destruct (files m !! src) as [[content|h]|]; [| |done].
  - rewrite decide_False; [|done]. intros _. by exists content.
  - rewrite decide_False; [|done]. done.
Qed.

Lemma inject_firstboot_returns qcow2 work_dir (e e' : @Env machine_host) :
  _inject_pnputil_firstboot qcow2 work_dir e = (Ok tt, e') ->
  has_firstboot_script (host e').
Proof.
  unfold _inject_pnputil_firstboot. intros H.
  apply bind_ok_inv in H as ([] & e1 & H1 & H).
  rewrite on_host_runs in H1. injection H1 as <-.
  apply bind_ok_inv in H as (r & e2 & H2 & H).
  rewrite run_checked in H2.
  destruct (decide _) as [Hrc|]; [|done]. injection H2 as <- <-.
  rewrite logger_runs in H. injection H as <-.
  unfold proc in Hrc. cbn [host] in Hrc |- *.
  apply upload_succeeds in Hrc as (content & Hfile & Hfiles); [|done].
  unfold has_firstboot_script, after. cbn [host]. 
  change (@subprocess_run machine_host) with run_process. rewrite Hfiles.
  cbn in Hfile. rewrite lookup_insert_eq in Hfile. injection Hfile as <-.
  apply upsert_elem_of.
Qed.

Lemma merge_reg_file_nominal qcow2 reg_file work_dir (e : @Env machine_host) text :
  never_fails (host e) ->
  files (host e) !! reg_file = Some (Text text) ->
  exists e',
    _merge_reg_file qcow2 reg_file work_dir e = (Ok tt, e') /\
    g_hive (guest (host e'))
    = merge_patch (parse_reg text) (g_hive (guest (host e))).
Proof.
  intros Hnever Hfile. unfold _merge_reg_file.
  rewrite (ebind_ok _ _ _ _ _ (run_unchecked _ _)).
  assert (subprocess_run ["virt-win-reg"; "--merge"; qcow2; reg_file] None (host e)
          = exit_ok ""
              (with_guest (mkGuest (g_files (guest (host e)))
                                   (merge_patch (parse_reg text) (g_hive (guest (host e)))))
                 (mkMachine (guest (host e)) (files (host e)) (iso (host e))
                            (S (started (host e))) (fails (host e))))) as Hrun.
  { cbn [subprocess_run machine_host]. unfold run_process. rewrite Hnever.
    change (decode ["virt-win-reg"; "--merge"; qcow2; reg_file]) with (RegMerge reg_file).
    unfold perform. cbn [files]. by rewrite Hfile. }
  unfold proc, after. rewrite Hrun. cbn [exit_ok fst snd returncode].
  rewrite decide_True; [|done]. rewrite logger_runs. eexists. split; [done|]. done.
Qed.

(** ** Discovery and registration on the machine *)

Lemma has_file_stable p : @stable machine_host (has_file p) (fun _ => True).
Proof.
  split_and!; try done.
  intros cmd input m _ Hm. simpl. unfold run_process.
  destruct (fails m (started m)); [done|].
  unfold has_file.
  destruct (perform_g_files (decode cmd)
              (mkMachine (guest m) (files m) (iso m) (S (started m)) (fails m)))
    as [->|(src & dst & content & Hdec & ->)]; [done|].
  rewrite upsert_keys. by apply added_key_mono.
Qed.

Lemma stable_and (I1 I2 : Machine -> Prop) allowed :
  @stable machine_host I1 allowed -> @stable machine_host I2 allowed ->
  @stable machine_host (fun m => I1 m /\ I2 m) allowed.
Proof.
  intros (A1 & A2 & A3 & A4 & A5) (B1 & B2 & B3 & B4 & B5).
  split_and!.
  - intros cmd input h Hc [Ha Hb]. split; [by apply A1|by apply B1].
  - intros q text h [Ha Hb]. split; [by apply A2|by apply B2].
  - intros q h [Ha Hb]. split; [by apply A3|by apply B3].
  - intros q h [Ha Hb]. split; [by apply A4|by apply B4].
  - intros q h [Ha Hb]. split; [by apply A5|by apply B5].
Qed.

Lemma trivially_stable : @stable machine_host (fun _ => True) (fun _ => True).
Proof. by split_and!. Qed.

Lemma write_text_file p text (m : Machine) :
  files (@write_text machine_host p text m) !! p = Some (Text text).
Proof. cbn. apply lookup_insert_eq. Qed.

Lemma is_file_finds qcow2 drv (m : Machine) :
  never_fails m -> has_file (driver_path drv) m ->
  run_process ["guestfish"; "--ro"; "-a"; qcow2; "-i"; "--"; "is-file"; driver_path drv]
              None m
  = exit_ok "true" (mkMachine (guest m) (files m) (iso m) (S (started m)) (fails m)).
Proof.
  intros Hnever Hfile. unfold run_process. rewrite Hnever.
  change (decode _) with (IsFile (driver_path drv)).
  unfold perform. cbn [guest]. by rewrite decide_True.
Qed.

(** Step 1 finds every driver whose binary is in the guest. *)
Lemma check_existing_loop_finds qcow2 drv names present (e : @Env machine_host) found e' :
  never_fails (host e) -> has_file (driver_path drv) (host e) ->
  drv ∈ names ->
  check_existing_loop qcow2 names present e = (Ok found, e') ->
  drv ∈ found.
Proof.
  revert present e. induction names as [|n names IH]; intros present e Hnever Hfile.
  - by intros ?%elem_of_nil.
  - intros Hin. simpl. intros Hrun.
    apply bind_ok_inv in Hrun as (r & e1 & Hfirst & Hrun).
    assert (never_fails (host e1) /\ has_file (driver_path drv) (host e1)) as [Hn1 Hf1].
    { refine (keeps_run _ _ (stable_and _ _ _ never_fails_stable (has_file_stable _))
                _ _ I _ _ _ Hfirst (conj Hnever Hfile)). }
    apply elem_of_cons in Hin as [<-|Hin].
    + rewrite run_unchecked in Hfirst. injection Hfirst as <- <-.
      unfold proc in Hrun. cbn [host subprocess_run machine_host] in Hrun.
      fold (driver_path drv) in Hrun. rewrite is_file_finds in Hrun; [|done..].
      cbn [exit_ok fst returncode stdout] in Hrun.
      change (bool_decide (0 = 0) && contains "true" (lower "true")) with true in Hrun.
      cbn iota in Hrun.
      apply check_existing_loop_result in Hrun as [Hle _].
      apply Hle, elem_of_union. right. by apply elem_of_singleton.
    + destruct (_ && _); by eapply IH.
Qed.

(** The patch built for a set of catalogue drivers has the service key of
    each of them. *)
Lemma registered_keys (registered : gset string) text d :
  registered ⊆ list_to_set (DRIVER_DEFS.*1) ->
  _build_driver_reg registered = Some text ->
  d ∈ registered ->
  service_key d ∈ (parse_reg text).*1.
Proof.
  intros Hsub Hbuilt Hd.
  assert (registered
          = list_to_set (filter (fun x => x ∈ registered) (DRIVER_DEFS.*1))) as Heq.
  { apply set_eq. intros x. rewrite elem_of_list_to_set, list_elem_of_filter.
    split; [|by intros [? _]]. intros Hx. split; [done|].
    apply Hsub in Hx. by apply elem_of_list_to_set in Hx. }
  assert (d ∈ filter (fun x => x ∈ registered) (DRIVER_DEFS.*1)) as Hdl.
  { apply list_elem_of_filter. split; [done|].
    apply Hsub in Hd. by apply elem_of_list_to_set in Hd. }
  revert Hbuilt Hdl. rewrite Heq at 1. clear Heq Hsub Hd.
  change (DRIVER_DEFS.*1) with ["viostor"; "vioscsi"; "netkvm"].
  rewrite !filter_cons, filter_nil.
  destruct (decide ("viostor" ∈ registered)), (decide ("vioscsi" ∈ registered)),
    (decide ("netkvm" ∈ registered));
    intros Hbuilt Hdl; vm_compute in Hbuilt; injection Hbuilt as <-;
    repeat (apply elem_of_cons in Hdl as [->|Hdl]);
    try (by apply elem_of_nil in Hdl);
    apply (bool_decide_unpack _); vm_compute; exact I.
Qed.

(** ** One invocation, then a second *)

Section Twice.
Variables (qcow2_path virtio_iso : string) (work_dir : option string).

Lemma engine_keeps (Inv : Machine -> Prop) :
  @stable machine_host Inv (fun _ => True) ->
  @keeps machine_host Inv _
    (ensure_all_virtio_drivers qcow2_path virtio_iso work_dir).
Proof.
  intros Hstable.
  by apply (@keeps_ensure_all_virtio_drivers machine_host Inv (fun _ => True)).
Qed.

Lemma engine_leaves_firstboot_script (e e' : @Env machine_host) b :
  ensure_all_virtio_drivers qcow2_path virtio_iso work_dir e = (Ok b, e') ->
  has_firstboot_script (host e').
Proof.
  intros Hrun.
  apply (@ensure_all_virtio_drivers_returns machine_host (fun _ => True) (fun _ => True)
           trivially_stable I) in Hrun; [|done..].
  destruct Hrun as (dir & extracted & existing & registered & reg_content & guids
                    & eC & eC' & e3 & eW & e4 & e4a & e5 & e5a & e6 & e6a & e7
                    & _ & _ & _ & _ & _ & _ & _ & _ & _ & _ & _ & Hinject
                    & Heq6 & Hguids & Hdhcp).
  apply inject_firstboot_returns in Hinject. rewrite <- Heq6 in Hinject.
  assert (@None string <> Some FIRSTBOOT_SCRIPT_PATH) as Hnone by done.
  pose proof (@keeps_get_interface_guids machine_host _ _
                has_firstboot_script_stable Hnone _ _ _ _ Hguids Hinject) as H7.
  destruct guids as [|guid guids]; [by rewrite Hdhcp|].
  destruct Hdhcp as (dhcp_content & eD & e8 & _ & HeqD & Hmerge & ->).
  refine (@keeps_merge_reg_file machine_host _ _ has_firstboot_script_stable Hnone
            _ _ _ _ _ _ _ Hmerge _); [done|].
  rewrite HeqD. by apply has_firstboot_script_stable.
Qed.

Lemma staged_path_is_not_the_hive (drv name : string) :
  Some ("/Drivers/" +:+ drv +:+ "/" +:+ name) <> Some SYSTEM_HIVE.
Proof. by intros [=]. Qed.

(** When no process fails, an invocation that returns leaves the service
    key of every catalogue driver whose binary it found in the guest. *)
Lemma engine_registers_present_drivers (e e' : @Env machine_host) b d :
  never_fails (host e) ->
  d ∈ DRIVER_DEFS.*1 ->
  has_file (driver_path d) (host e) ->
  ensure_all_virtio_drivers qcow2_path virtio_iso work_dir e = (Ok b, e') ->
  service_key d ∈ (g_hive (guest (host e'))).*1.
Proof.
  intros Hnever Hd Hfile Hrun.
  apply (@ensure_all_virtio_drivers_returns machine_host
           (fun m => never_fails m /\ has_file (driver_path d) m) (fun _ => True)
           (stable_and _ _ _ never_fails_stable (has_file_stable _)) I) in Hrun;
    [|done..].
  destruct Hrun as (dir & extracted & existing & registered & reg_content & guids
                    & eC & eC' & e3 & eW & e4 & e4a & e5 & e5a & e6 & e6a & e7
                    & [HnC HfC] & Hcheck & Hsub & Hreg & Hbuilt & [Hn3 _] & HeqW
                    & Hmerge & Heq4 & Hstage & Heq5 & Hinject & Heq6 & Hguids & Hdhcp).
  set (K := fun k => k = service_key d).
  assert (@None string <> Some SYSTEM_HIVE) as Hnone by done.
  (* step 4 *)
  assert (never_fails (host eW)) as HnW.
  { rewrite HeqW. by apply never_fails_stable. }
  destruct (merge_reg_file_nominal qcow2_path (path_join dir "virtio-drivers.reg")
              dir eW reg_content HnW) as (e4' & Hmerge' & Hhive4).
  { rewrite HeqW. apply write_text_file. }
  rewrite Hmerge in Hmerge'. injection Hmerge' as <-.
  assert (has_keys K (host e4)) as Hk4.
  { intros k ->. rewrite Hhive4. apply merge_patch_adds.
    apply (registered_keys registered); [done|done|].
    apply Hsub. by apply (check_existing_loop_finds _ _ _ _ _ _ _ HnC HfC Hd Hcheck). }
  pose proof (@keeps_merge_reg_file machine_host _ _ never_fails_stable I _ _ _ I
                _ _ _ Hmerge HnW) as Hn4.
  (* steps 5 and 6 *)
  rewrite <- Heq4 in Hk4, Hn4.
  pose proof (@keeps_stage_driver_dirs machine_host _ _ (has_keys_stable K) Hnone
                _ _ staged_path_is_not_the_hive _ _ _ Hstage Hk4) as Hk5.
  pose proof (@keeps_stage_driver_dirs machine_host _ _ never_fails_stable I
                _ _ (fun _ _ => I) _ _ _ Hstage Hn4) as Hn5.
  rewrite <- Heq5 in Hk5, Hn5.
  assert (Some FIRSTBOOT_SCRIPT_PATH <> Some SYSTEM_HIVE) as Hfirst by done.
  pose proof (@keeps_inject_pnputil_firstboot machine_host _ _ (has_keys_stable K)
                _ _ Hfirst _ _ _ Hinject Hk5) as Hk6.
  pose proof (@keeps_inject_pnputil_firstboot machine_host _ _ never_fails_stable
                _ _ I _ _ _ Hinject Hn5) as Hn6.
  rewrite <- Heq6 in Hk6, Hn6.
  (* step 7 *)
  pose proof (@keeps_get_interface_guids machine_host _ _ (has_keys_stable K) Hnone
                _ _ _ _ Hguids Hk6) as Hk7.
  pose proof (@keeps_get_interface_guids machine_host _ _ never_fails_stable I
                _ _ _ _ Hguids Hn6) as Hn7.
  destruct guids as [|guid guids]; [rewrite Hdhcp; by apply Hk7|].
  destruct Hdhcp as (dhcp_content & eD & e8 & _ & HeqD & Hdmerge & ->).
  assert (never_fails (host eD)) as HnD.
  { rewrite HeqD. by apply never_fails_stable. }
  destruct (merge_reg_file_nominal qcow2_path (path_join dir "dhcp-fix.reg")
              dir eD dhcp_content HnD) as (e8' & Hdmerge' & Hhive8).
  { rewrite HeqD. apply write_text_file. }
  rewrite Hdmerge in Hdmerge'. injection Hdmerge' as <-.
  rewrite Hhive8. apply merge_patch_mono.
  rewrite HeqD. by apply Hk7.
Qed.


End Twice.

Import GuestScenario.

Lemma conversion_host_well_formed (virtio : list (string * string)) :
  well_formed (mkMachine windows_guest ∅ virtio 0 (fun _ => false)).
Proof.
  split; [|split].
  - apply (bool_decide_unpack _). vm_compute. exact I.
  - apply (bool_decide_unpack _). vm_compute. exact I.
  - intros p h Hp. change ((∅ : gmap string HostFile) !! p = Some (HiveCopy h)) in Hp.
    rewrite lookup_empty in Hp. discriminate Hp.
Qed.



End GuestModelFacts.

(** * More of [windows_virtio.py] *)

Module EngineFacts.
Import Py WindowsVirtio PyFacts WindowsVirtioFacts.

(** ** The encoders, the process runner and the lookups *)

Definition has_surrogate (s : list Z) : Prop := Exists (fun c => is_surrogate c = true) s.

Lemma utf16_units_None c : utf16_units c = None <-> is_surrogate c = true.
Proof.
  unfold utf16_units. destruct (is_surrogate c); [done|].
  destruct (c <? 65536); split; intros; discriminate.
Qed.

Lemma utf16_code_units_None s : utf16_code_units s = None <-> has_surrogate s.
Proof.
  unfold has_surrogate. induction s as [|c s IH]; simpl.
  - split; [done|]. by intros ?%Exists_nil.
  - rewrite Exists_cons, <- IH, <- utf16_units_None.
    destruct (utf16_units c) as [us|]; simpl; [|by split; [left|]].
    destruct (utf16_code_units s) as [more|]; simpl.
    + split; [done|]. by intros [|].
    + split; [by right|done].
Qed.

Lemma encode_utf16_le_None s : encode_utf16_le s = None <-> has_surrogate s.
Proof.
  rewrite <- utf16_code_units_None. unfold encode_utf16_le.
  by destruct (utf16_code_units s).
Qed.

(** X1: [_str_to_reg_expand_sz] fails to encode exactly the strings that
    hold a surrogate code point; every other string gets a value. *)
Theorem expand_sz_raises_exactly_on_surrogates (s : list Z) :
  _str_to_reg_expand_sz s = None <-> Exists (fun c => is_surrogate c = true) s.
Proof.
  fold (has_surrogate s). rewrite <- encode_utf16_le_None.
  unfold _str_to_reg_expand_sz. by destruct (encode_utf16_le s).
Qed.

Lemma multi_sz_raw_spec strings raw :
  (exists raws,
      Forall2 (fun s r => encode_utf16_le s = Some r) strings raws /\
      multi_sz_raw strings raw
      = Some (raw ++ concat (map (fun r => r ++ [0; 0]) raws))) \/
  (Exists has_surrogate strings /\ multi_sz_raw strings raw = None).
Proof.
  revert raw. induction strings as [|s strings IH]; intros raw; simpl.
  - left. exists []. split; [constructor|]. by rewrite app_nil_r.
  - destruct (encode_utf16_le s) as [enc|] eqn:Henc; simpl.
    + destruct (IH (raw ++ enc ++ [0; 0])) as [(raws & Hall & ->)|[Hex ->]].
      * left. exists (enc :: raws). split; [by constructor|].
        simpl. by rewrite <- !(assoc_L (++)).
      * right. split; [by apply Exists_cons_tl|done].
    + right. split; [|done]. apply Exists_cons_hd. by apply encode_utf16_le_None.
Qed.

(** X2: [_str_to_reg_multi_sz] gives [hex(7):] followed by the bytes of
    each string in UTF-16LE, each ended by a two-byte terminator, and one
    more two-byte terminator at the end (alone, for an empty list); it
    fails exactly when one of the strings holds a surrogate code point. *)
Theorem multi_sz_is_each_string_terminated_then_a_terminator (strings : list (list Z)) :
  (exists raws,
      Forall2 (fun s r => encode_utf16_le s = Some r) strings raws /\
      _str_to_reg_multi_sz strings
      = Some ("hex(7):" +:+ hex_bytes (concat (map (fun r => r ++ [0; 0]) raws) ++ [0; 0]))) \/
  (Exists (Exists (fun c => is_surrogate c = true)) strings /\
   _str_to_reg_multi_sz strings = None).
Proof.
  unfold _str_to_reg_multi_sz.
  destruct (multi_sz_raw_spec strings []) as [(raws & Hall & ->)|[Hex ->]].
  - left. by exists raws.
  - by right.
Qed.

Lemma string_of_list_ascii_app (l1 l2 : list ascii) :
  string_of_list_ascii (l1 ++ l2) = string_of_list_ascii l1 +:+ string_of_list_ascii l2.
Proof. induction l1 as [|c l1 IH]; simpl; [done|]. by rewrite IH. Qed.

Lemma length_string_of_list_ascii (l : list ascii) :
  String.length (string_of_list_ascii l) = length l.
Proof. induction l as [|c l IH]; simpl; [done|]. by rewrite IH. Qed.

Lemma length_list_ascii_of_string (s : string) :
  length (list_ascii_of_string s) = String.length s.
Proof. induction s as [|c s IH]; simpl; [done|]. by rewrite IH. Qed.

(** [len(s)]: the number of characters. *)
Definition py_len (s : string) : nat := length (characters (list_ascii_of_string s)).

(** A character as [characters] makes it: a byte, then continuation bytes
    only; all but the first of a text start with a byte that is not one. *)
Definition whole (ch : list ascii) : Prop :=
  exists c conts,
    ch = c :: conts /\ Forall (fun d => is_continuation d = true) conts.

Definition led (ch : list ascii) : Prop := starts_with_continuation ch = false.

Lemma concat_characters (l : list ascii) : concat (characters l) = l.
Proof.
  induction l as [|c l IH]; simpl; [done|].
  destruct (characters l) as [|ch more]; simpl in *.
  - by rewrite <- IH.
  - destruct (starts_with_continuation ch); simpl; by rewrite IH.
Qed.

Lemma characters_whole (l : list ascii) :
  Forall whole (characters l) /\ Forall led (tail (characters l)).
Proof.
  induction l as [|c l [Hw Hl]]; simpl; [by split|].
  destruct (characters l) as [|ch more]; simpl in *.
  - split; [|done]. constructor; [|done]. by exists c, [].
  - apply Forall_cons in Hw as [(d & conts & -> & Hconts) Hw].
    destruct (starts_with_continuation (d :: conts)) eqn:Hs; simpl in *.
    + split; [|done]. constructor; [|done].
      exists c, (d :: conts). split; [done|]. by constructor.
    + split.
      * constructor; [by exists c, []|]. constructor; [|done]. by exists d, conts.
      * by constructor.
Qed.

Lemma characters_continued (conts : list ascii) (rest : list (list ascii)) :
  Forall (fun d => is_continuation d = true) conts ->
  Forall led rest ->
  characters (concat rest) = rest ->
  characters (conts ++ concat rest)
  = match conts with
    | [] => rest
    | _ :: _ => conts :: rest
    end.
Proof.
  intros Hconts Hled Hrest. induction Hconts as [|d conts Hd Hconts IH]; [done|].
  simpl. rewrite IH. destruct conts as [|d' conts].
  - destruct Hled as [|ch more Hch Hmore]; [done|]. unfold led in Hch. by rewrite Hch.
  - apply Forall_cons in Hconts as [Hd' _]. simpl. by rewrite Hd'.
Qed.

Lemma characters_concat (chs : list (list ascii)) :
  Forall whole chs -> Forall led (tail chs) -> characters (concat chs) = chs.
Proof.
  induction chs as [|ch rest IH]; [done|]. intros Hw Hl. simpl in Hl.
  apply Forall_cons in Hw as [(c & conts & -> & Hconts) Hw].
  assert (characters (concat rest) = rest) as Hrest.
  { apply IH; [done|]. destruct Hl; [done|]. done. }
  simpl. rewrite (characters_continued conts rest Hconts Hl Hrest).
  destruct conts as [|d conts].
  - destruct Hl as [|ch more Hch Hmore]; [done|]. unfold led in Hch. by rewrite Hch.
  - apply Forall_cons in Hconts as [Hd _]. simpl. by rewrite Hd.
Qed.

Lemma tail_drop {A} (k : nat) (l : list A) : tail (drop k l) = drop k (tail l).
Proof.
  transitivity (drop (S k) l).
  - revert l. induction k as [|k IH]; intros l; [by destruct l|].
    destruct l as [|x l]; [done|]. apply IH.
  - destruct l as [|x l]; [simpl; by rewrite drop_nil|done].
Qed.

Lemma characters_drop (k : nat) (l : list ascii) :
  characters (concat (drop k (characters l))) = drop k (characters l).
Proof.
  destruct (characters_whole l) as [Hw Hl].
  apply characters_concat; [by apply Forall_drop|].
  rewrite tail_drop. by apply Forall_drop.
Qed.

Lemma last_chars_length n s : py_len (last_chars n s) = (n `min` py_len s)%nat.
Proof.
  unfold py_len, last_chars.
  rewrite list_ascii_of_string_of_list_ascii, characters_drop, length_drop. lia.
Qed.

Lemma last_chars_suffix n s :
  s = first_chars (py_len s - n) s +:+ last_chars n s.
Proof.
  unfold first_chars, last_chars, py_len.
  rewrite <- string_of_list_ascii_app, <- concat_app, take_drop, concat_characters.
  by rewrite string_of_list_ascii_of_string.
Qed.

(** Slicing counts characters, not bytes: the right single quotation mark
    takes three bytes. *)
Lemma last_chars_counts_characters :
  last_chars 2 "it’s" = "’s" /\ py_len "it’s" = 4%nat /\ String.length "it’s" = 6%nat /\
  py_strip (" mañana" +:+ nl) = "mañana" /\ first_chars 3 "mañana" = "mañ".
Proof. by vm_compute. Qed.

Section Run.
Context {T : Host}.

(** X3: [_run] logs the command and asks the host to run it.  When the
    host cannot start it, [_run] raises the exception of the host and no
    process has run.  Otherwise exactly one process runs: without [check],
    [_run] returns its result whatever the exit status; with [check] it
    raises [RuntimeError] exactly when the status is not 0.  The message is
    then the end of the stripped error output, cut where Python cuts it:
    the whole of it when it has 500 characters or fewer, its last 500
    characters otherwise, a character of several bytes counting once. *)
Theorem run_raises_only_on_a_checked_failure
    {R : HostFailures.Refusals T} (cmd : list string) (e : Env) :
  let r := (subprocess_run cmd None (host e)).1 in
  let message := last_chars 500 (py_strip (stderr r)) in
  (forall check,
      HostFailures._run cmd check e
      = match HostFailures.run_refused cmd (host e) with
        | Some x => (Raise x, mkEnv (host e) (log e ++ [debug_line cmd]) (calls e))
        | None => _run cmd check e
        end) /\
  (_run cmd false e).1 = Ok r /\
  (_run cmd true e).1
  = (if decide (returncode r = 0) then Ok r else Raise (RuntimeError message)) /\
  (if decide (py_len (py_strip (stderr r)) <= 500)%nat
   then message = py_strip (stderr r)
   else py_len message = 500%nat) /\
  (exists front, py_strip (stderr r) = front +:+ message) /\
  (forall check,
      new_calls e (_run cmd check e).2 = [(cmd, r)] /\
      host (_run cmd check e).2 = (subprocess_run cmd None (host e)).2).
Proof.
  intros r message. subst r message. split_and!.
  - intros check.
    unfold HostFailures._run, HostFailures.subprocess, HostFailures.unless_refused,
      _run, mbind, M_bind, logger, modify. simpl.
    by destruct (HostFailures.run_refused cmd (host e)).
  - by rewrite run_unchecked.
  - by rewrite run_checked.
  - case_decide as Hshort.
    + unfold last_chars. unfold py_len in Hshort.
      replace (_ - 500)%nat with 0%nat by lia.
      by rewrite drop_0, concat_characters, string_of_list_ascii_of_string.
    + rewrite last_chars_length. lia.
  - eexists. apply last_chars_suffix.
  - intros [|]; [rewrite run_checked|rewrite run_unchecked]; simpl;
      (split; [|done]); unfold new_calls; simpl; by rewrite drop_app_length.
Qed.

(** The packages [ensure_prerequisites] finds missing, from the results of
    the two [which] processes. *)
Definition missing_for (r1 r2 : CompletedProcess) : list string :=
  (if decide (returncode r1 <> 0) then ["libwin-hivex-perl"] else [])
  ++ (if decide (returncode r2 <> 0) then ["libguestfs-tools"] else []).

(** X4: [ensure_prerequisites] looks for the two host tools with [which],
    in order, then runs one [apt-get install] that names the package of
    each tool not found, or runs nothing more when both are there; it
    returns normally whatever the exit statuses. *)
Theorem ensure_prerequisites_installs_what_is_missing (e : Env) :
  let p1 := subprocess_run ["which"; "hivexregedit"] None (host e) in
  let p2 := subprocess_run ["which"; "guestfish"] None p1.2 in
  let missing := missing_for p1.1 p2.1 in
  (ensure_prerequisites e).1 = Ok tt /\
  (new_calls e (ensure_prerequisites e).2).*1
  = [["which"; "hivexregedit"]; ["which"; "guestfish"]]
    ++ match missing with
       | [] => []
       | _ :: _ => [["apt-get"; "install"; "-y"; "-qq"] ++ missing]
       end.
Proof.
  unfold ensure_prerequisites, missing_packages, missing_for.
  unfold mbind, M_bind, mret, M_ret, subprocess, logger, modify, new_calls. simpl.
  destruct (subprocess_run ["which"; "hivexregedit"] None (host e)) as [r1 h1]. simpl.
  destruct (decide (returncode r1 <> 0)); simpl;
    destruct (subprocess_run ["which"; "guestfish"] None h1) as [r2 h2]; simpl;
    destruct (decide (returncode r2 <> 0)); simpl;
    repeat match goal with
           | |- context [subprocess_run ?c None ?h] =>
               destruct (subprocess_run c None h); simpl
           end;
    (split; [done|]);
    rewrite <- ?(assoc_L (++)), drop_app_length; done.
Qed.

End Run.

Lemma driver_reg_lines_catalogue cs d :
  is_Some (driver_reg_lines cs d) <-> d ∈ DRIVER_DEFS.*1.
Proof.
  unfold driver_reg_lines, driver_def. split.
  - intros [lines Hl]. revert Hl.
    change (DRIVER_DEFS.*1) with ["viostor"; "vioscsi"; "netkvm"].
    unfold DRIVER_DEFS, dict_get.
    repeat (case_decide; [subst; intros _; by apply (bool_decide_unpack _)|]). done.
  - change (DRIVER_DEFS.*1) with ["viostor"; "vioscsi"; "netkvm"].
    intros Hd. repeat (apply elem_of_cons in Hd as [->|Hd]; [by eexists|]).
    by apply elem_of_nil in Hd.
Qed.

Lemma driver_reg_loop_catalogue cs names lines :
  is_Some (driver_reg_loop cs names lines) <-> Forall (fun d => d ∈ DRIVER_DEFS.*1) names.
Proof.
  revert lines. induction names as [|d names IH]; intros lines; simpl.
  - split; [by constructor|by eexists].
  - rewrite Forall_cons, <- (driver_reg_lines_catalogue cs d).
    destruct (driver_reg_lines cs d) as [more|]; simpl.
    + rewrite IH. split; [by split; [eexists|]|by intros [_ ?]].
    + split; [by intros []|by intros [[] _]].
Qed.

Lemma elem_of_sorted (S : gset string) d : d ∈ sorted S <-> d ∈ S.
Proof. unfold sorted. by rewrite merge_sort_Permutation, elem_of_elements. Qed.

Lemma build_driver_reg_is_Some (S : gset string) :
  is_Some (_build_driver_reg S) <-> Forall (fun d => d ∈ DRIVER_DEFS.*1) (sorted S).
Proof.
  unfold _build_driver_reg. rewrite <- (driver_reg_loop_catalogue "ControlSet001" (sorted S)
                 ["Windows Registry Editor Version 5.00"; ""]).
  destruct (driver_reg_loop _ _ _); simpl;
    [split; intros _; by eexists|split; intros [? ?]; done].
Qed.

Lemma build_driver_reg_in_catalogue (S : gset string) :
  S ⊆ list_to_set (DRIVER_DEFS.*1) -> is_Some (_build_driver_reg S).
Proof.
  intros H. apply build_driver_reg_is_Some, Forall_forall. intros d Hd.
  assert (d ∈ (list_to_set (DRIVER_DEFS.*1) : gset string)) as Hin.
  { apply H. by apply elem_of_sorted. }
  by apply elem_of_list_to_set in Hin.
Qed.

(** X8: [_build_driver_reg] builds a patch exactly for the sets of
    catalogue drivers: when it returns every name is in the catalogue, and
    when it fails the set holds a name that is not. *)
Theorem build_driver_reg_raises_exactly_outside_the_catalogue (S : gset string) :
  match _build_driver_reg S with
  | Some _ => S ⊆ list_to_set (DRIVER_DEFS.*1)
  | None => exists d, d ∈ S /\ d ∉ DRIVER_DEFS.*1
  end.
Proof.
  pose proof (build_driver_reg_is_Some S) as Hiff.
  destruct (_build_driver_reg S) as [text|].
  - intros d Hd. apply elem_of_list_to_set.
    assert (Forall (fun d => d ∈ DRIVER_DEFS.*1) (sorted S)) as Hall.
    { apply Hiff. by eexists. }
    rewrite Forall_forall in Hall. by apply Hall, elem_of_sorted.
  - assert (~ Forall (fun d => d ∈ DRIVER_DEFS.*1) (sorted S)) as Hnot.
    { intros Hall. apply Hiff in Hall. by destruct Hall. }
    apply not_Forall_Exists in Hnot; [|intros d; apply _].
    apply Exists_exists in Hnot as (d & Hd & Hout).
    exists d. split; [by apply elem_of_sorted|done].
Qed.

(** The first line of a piece of text. *)
Fixpoint first_line_of (cs : list ascii) : list ascii :=
  match cs with
  | [] => []
  | c :: rest => if decide (c = "010"%char) then [] else c :: first_line_of rest
  end.

Definition first_line (s : string) : string :=
  string_of_list_ascii (first_line_of (list_ascii_of_string s)).

(** The headers of the units the section-by-section merge of
    [_merge_reg_file] makes of a patch: the first line of each piece of the
    split that, stripped, starts with a bracket. *)
Definition unit_headers (reg_text : string) : list string :=
  map first_line
      (filter (fun s => startswith "[" s = true)
              (map py_strip (split_sections reg_text))).

Definition service_sections (drv_name : string) : list string :=
  let base := "[HKEY_LOCAL_MACHINE\SYSTEM\ControlSet001\Services\" +:+ drv_name in
  [ base +:+ "]";
    base +:+ "\Parameters]";
    base +:+ "\Parameters\PnpInterface]";
    base +:+ "\Enum]" ].

(** X9: in the patch [_build_driver_reg] builds, the registry keys come
    driver by driver in sorted name order, and for each driver the service
    key comes before its [Parameters], [Parameters\PnpInterface] and [Enum]
    subkeys: the units of the section-by-section merge of [_merge_reg_file]
    create parent keys first. *)
Theorem build_driver_reg_puts_parent_keys_first (S : gset string) (text : string) :
  _build_driver_reg S = Some text ->
  unit_headers text = flat_map service_sections (sorted S).
Proof.
  intros Hbuilt.
  assert (S ⊆ list_to_set (DRIVER_DEFS.*1)) as Hsub.
  { assert (Forall (fun d => d ∈ DRIVER_DEFS.*1) (sorted S)) as Hall.
    { apply build_driver_reg_is_Some. by eexists. }
    rewrite Forall_forall in Hall. intros d Hd.
    by apply elem_of_list_to_set, Hall, elem_of_sorted. }
  assert (S = list_to_set (filter (fun x => x ∈ S) (DRIVER_DEFS.*1))) as Heq.
  { apply set_eq. intros x. rewrite elem_of_list_to_set, list_elem_of_filter.
    split; [|by intros [? _]]. intros Hx. split; [done|].
    apply Hsub in Hx. by apply elem_of_list_to_set in Hx. }
  revert Hbuilt. rewrite Heq. clear Heq Hsub.
  change (DRIVER_DEFS.*1) with ["viostor"; "vioscsi"; "netkvm"].
  rewrite !filter_cons, filter_nil.
  destruct (decide ("viostor" ∈ S)), (decide ("vioscsi" ∈ S)),
    (decide ("netkvm" ∈ S));
    intros Hbuilt; vm_compute in Hbuilt; injection Hbuilt as <-;
    vm_compute; reflexivity.
Qed.

(** The section [_build_dhcp_reg] writes for one interface. *)
Definition dhcp_section (guid : string) : list string :=
  [ "[HKEY_LOCAL_MACHINE\SYSTEM\ControlSet001\Services\Tcpip\Parameters\Interfaces\"
      +:+ guid +:+ "]";
    dq +:+ "EnableDHCP" +:+ dq +:+ "=dword:00000001";
    dq +:+ "IPAddress" +:+ dq
      +:+ "=hex(7):30,00,2e,00,30,00,2e,00,30,00,2e,00,30,00,00,00,00,00";
    dq +:+ "SubnetMask" +:+ dq
      +:+ "=hex(7):30,00,2e,00,30,00,2e,00,30,00,2e,00,30,00,00,00,00,00";
    dq +:+ "DefaultGateway" +:+ dq +:+ "=hex(7):00,00";
    dq +:+ "NameServer" +:+ dq +:+ "=" +:+ dq +:+ dq;
    "" ].

Lemma dhcp_reg_lines_total guid : dhcp_reg_lines guid = Some (dhcp_section guid).
Proof. reflexivity. Qed.

Lemma dhcp_reg_loop_total guids lines :
  dhcp_reg_loop guids lines = Some (lines ++ flat_map dhcp_section guids).
Proof.
  revert lines. induction guids as [|g guids IH]; intros lines.
  - simpl. by rewrite app_nil_r.
  - cbn [dhcp_reg_loop]. rewrite dhcp_reg_lines_total.
    cbn [mbind option_bind]. rewrite IH.
    cbn [flat_map]. by rewrite <- (assoc_L (++)).
Qed.

(** X10: [_build_dhcp_reg] never fails: for any list of interface
    identifiers it gives the header followed by one section per
    identifier, in order, that enables DHCP and clears the static address,
    mask, gateway and name server. *)
Theorem build_dhcp_reg_never_raises (interface_guids : list string) :
  _build_dhcp_reg interface_guids
  = Some (String.concat nl
            (["Windows Registry Editor Version 5.00"; ""]
             ++ flat_map dhcp_section interface_guids)).
Proof. unfold _build_dhcp_reg. by rewrite dhcp_reg_loop_total. Qed.

Section Find.
Context {T : Host}.

(** Whether the ISO mounted at [mount_dir] has the driver's binary under a
    Windows-version directory. *)
Definition in_subdir (mount_dir drv_name iso_dir subdir : string) (e : Env) : bool :=
  host_exists (path_join (path_join (path_join mount_dir iso_dir) subdir)
                         (drv_name +:+ ".sys")) (host e).

Lemma find_in_subdirs_first mount_dir drv_name iso_dir subdirs (e : Env) :
  exists hit,
    find_in_subdirs mount_dir drv_name iso_dir subdirs e = (Ok hit, e) /\
    match hit with
    | Some (dir, subdir) =>
        exists before after,
          subdirs = before ++ subdir :: after /\
          dir = path_join (path_join mount_dir iso_dir) subdir /\
          in_subdir mount_dir drv_name iso_dir subdir e = true /\
          Forall (fun s => in_subdir mount_dir drv_name iso_dir s e = false) before
    | None => Forall (fun s => in_subdir mount_dir drv_name iso_dir s e = false) subdirs
    end.
Proof.
  induction subdirs as [|s subdirs IH]; simpl.
  - by exists None.
  - unfold mbind, M_bind, ask_host. simpl.
    destruct (host_exists _ (host e)) eqn:Hs.
    + exists (Some (path_join (path_join mount_dir iso_dir) s, s)).
      split; [done|]. by exists [], subdirs.
    + destruct IH as (hit & -> & Hhit). exists hit. split; [done|].
      destruct hit as [[dir subdir]|].
      * destruct Hhit as (before & after & -> & Hdir & Hin & Hbefore).
        exists (s :: before), after. split_and!; try done. by constructor.
      * by constructor.
Qed.

Lemma first_amd64_first mount_dir found :
  match first_amd64 mount_dir found with
  | Some (dir, rel) =>
      exists before f after,
        found = before ++ f :: after /\
        contains "amd64" (lower f) = true /\
        Forall (fun x => contains "amd64" (lower x) = false) before /\
        dir = path_parent f /\ rel = relative_to mount_dir (path_parent f)
  | None => Forall (fun x => contains "amd64" (lower x) = false) found
  end.
Proof.
  induction found as [|f found IH]; simpl; [done|].
  destruct (contains "amd64" (lower f)) eqn:Hf.
  - by exists [], f, found.
  - destruct (first_amd64 mount_dir found) as [[dir rel]|].
    + destruct IH as (before & f' & after & -> & Hc & Hb & Hd & Hr).
      exists (f :: before), f', after. split_and!; try done. by constructor.
    + by constructor.
Qed.

(** X5: [_find_driver_dir] returns the first directory of [OS_SUBDIRS], in
    the order of that list, that holds the driver's [.sys] file; only when
    none does, the parent of the first file of that name anywhere on the
    ISO whose path contains [amd64]; and nothing when there is no such
    file.  It changes nothing. *)
Theorem find_driver_dir_takes_the_first_subdir_that_has_the_driver
    (mount_dir drv_name iso_dir : string) (e : Env) :
  exists hit,
    _find_driver_dir mount_dir drv_name iso_dir e = (Ok hit, e) /\
    match hit with
    | Some (dir, subdir) =>
        (exists before after,
            OS_SUBDIRS = before ++ subdir :: after /\
            dir = path_join (path_join mount_dir iso_dir) subdir /\
            in_subdir mount_dir drv_name iso_dir subdir e = true /\
            Forall (fun s => in_subdir mount_dir drv_name iso_dir s e = false) before) \/
        (Forall (fun s => in_subdir mount_dir drv_name iso_dir s e = false) OS_SUBDIRS /\
         exists before f after,
           rglob mount_dir (drv_name +:+ ".sys") (host e) = before ++ f :: after /\
           contains "amd64" (lower f) = true /\
           Forall (fun x => contains "amd64" (lower x) = false) before /\
           dir = path_parent f /\ subdir = relative_to mount_dir (path_parent f))
    | None =>
        Forall (fun s => in_subdir mount_dir drv_name iso_dir s e = false) OS_SUBDIRS /\
        Forall (fun x => contains "amd64" (lower x) = false)
               (rglob mount_dir (drv_name +:+ ".sys") (host e))
    end.
Proof.
  unfold _find_driver_dir.
  destruct (find_in_subdirs_first mount_dir drv_name iso_dir OS_SUBDIRS e)
    as (hit & Hrun & Hhit).
  rewrite (bind_ok _ _ _ _ _ Hrun).
  destruct hit as [[dir subdir]|].
  - exists (Some (dir, subdir)). split; [done|]. by left.
  - unfold mbind, M_bind, ask_host. simpl.
    pose proof (first_amd64_first mount_dir
                  (rglob mount_dir (drv_name +:+ ".sys") (host e))) as Hf.
    destruct (first_amd64 _ _) as [[dir rel]|].
    + exists (Some (dir, rel)). split; [done|]. by right.
    + by exists None.
Qed.

End Find.

Section Check.
Context {T : Host}.

Definition is_file_cmd (qcow2_path drv_name : string) : list string :=
  ["guestfish"; "--ro"; "-a"; qcow2_path; "-i"; "--"; "is-file";
   "/Windows/System32/drivers/" +:+ drv_name +:+ ".sys"].

(** [r.returncode == 0 and "true" in r.stdout.lower()] *)
Definition says_present (r : CompletedProcess) : Prop :=
  returncode r = 0 /\ contains "true" (lower (stdout r)) = true.

Lemma check_existing_loop_exact qcow2_path names present (e : Env) :
  exists results found e',
    check_existing_loop qcow2_path names present e = (Ok found, e') /\
    length results = length names /\
    calls e' = calls e ++ zip (map (is_file_cmd qcow2_path) names) results /\
    forall d, d ∈ found <->
              d ∈ present \/ exists r, (d, r) ∈ zip names results /\ says_present r.
Proof.
  revert present e. induction names as [|n names IH]; intros present e.
  - exists [], present, e. simpl. rewrite app_nil_r. split_and!; try done.
    intros d. split; [by left|]. intros [?|(r & Hr & _)]; [done|].
    by apply elem_of_nil in Hr.
  - cbn [check_existing_loop].
    rewrite (ebind_ok _ _ _ _ _ (run_unchecked _ _)).
    set (r := proc _ e). set (e1 := after _ e).
    assert (bool_decide (returncode r = 0) && contains "true" (lower (stdout r)) = true
            <-> says_present r) as Hsays.
    { unfold says_present. rewrite andb_true_iff, bool_decide_eq_true. done. }
    destruct (bool_decide (returncode r = 0) && contains "true" (lower (stdout r)))
      eqn:Hok.
    + destruct (IH (present ∪ {[n]}) e1) as (results & found & e' & -> & Hlen & Hcalls & Hfound).
      exists (r :: results), found, e'. split_and!; [done|simpl; by rewrite Hlen| |].
      * rewrite Hcalls. unfold e1, after. simpl. by rewrite <- (assoc_L (++)).
      * intros d. rewrite Hfound, elem_of_union, elem_of_singleton. simpl. split.
        -- intros [[?| ->]|(r' & Hr & Hs)]; [by left| |].
           ++ right. exists r. split; [by left|by apply Hsays].
           ++ right. exists r'. split; [by right|done].
        -- intros [?|(r' & Hr & Hs)]; [by left; left|].
           apply elem_of_cons in Hr as [[= -> ->]|Hr]; [by left; right|].
           right. by exists r'.
    + destruct (IH present e1) as (results & found & e' & -> & Hlen & Hcalls & Hfound).
      exists (r :: results), found, e'. split_and!; [done|simpl; by rewrite Hlen| |].
      * rewrite Hcalls. unfold e1, after. simpl. by rewrite <- (assoc_L (++)).
      * intros d. rewrite Hfound. simpl. split.
        -- intros [?|(r' & Hr & Hs)]; [by left|].
           right. exists r'. split; [by right|done].
        -- intros [?|(r' & Hr & Hs)]; [by left|].
           apply elem_of_cons in Hr as [[= -> ->]|Hr].
           ++ apply Hsays in Hs. congruence.
           ++ right. by exists r'.
Qed.

(** X7: [_check_existing_drivers] asks guestfish once per driver of the
    catalogue, in catalogue order, whether its [.sys] is a file of the
    guest, and returns exactly the drivers for which the answer has status
    0 and says true: a query that fails counts as an absent driver and
    raises nothing. *)
Theorem check_existing_drivers_asks_once_per_catalogue_driver
    (qcow2_path : string) (e : Env) :
  exists results found e',
    _check_existing_drivers qcow2_path e = (Ok found, e') /\
    new_calls e e'
    = zip (map (is_file_cmd qcow2_path) ["viostor"; "vioscsi"; "netkvm"]) results /\
    length results = 3%nat /\
    forall d, d ∈ found <->
              exists r, (d, r) ∈ zip ["viostor"; "vioscsi"; "netkvm"] results /\
                        says_present r.
Proof.
  unfold _check_existing_drivers.
  destruct (check_existing_loop_exact qcow2_path (DRIVER_DEFS.*1) ∅ e)
    as (results & found & e' & Hrun & Hlen & Hcalls & Hfound).
  exists results, found, e'. split_and!; [done| |done|].
  - unfold new_calls. by rewrite Hcalls, drop_app_length.
  - intros d. rewrite Hfound. split; [|by right].
    intros [Hd|?]; [|done]. by apply elem_of_empty in Hd.
Qed.

End Check.

(** A match of [\{[0-9a-fA-F-]+\}]: braces around one or more hexadecimal
    digits or dashes. *)
Definition is_guid (g : string) : Prop :=
  exists body,
    g = string_of_list_ascii ("{"%char :: body ++ ["}"%char]) /\
    body <> [] /\ Forall (fun c => is_guid_char c = true) body.

Lemma findall_guids_matches cs cur :
  match cur with
  | Some acc => Forall (fun c => is_guid_char c = true) acc
  | None => True
  end ->
  Forall is_guid (findall_guids cs cur).
Proof.
  revert cur. induction cs as [|c cs IH]; intros cur Hcur; simpl; [constructor|].
  destruct cur as [acc|].
  - destruct (is_guid_char c) eqn:Hc.
    + apply IH. by constructor.
    + case_decide as Hclose.
      * constructor; [|by apply IH]. destruct Hclose as [-> Hacc].
        exists (rev acc). split; [done|]. split.
        -- intros Hr. apply Hacc. by rewrite <- (rev_involutive acc), Hr.
        -- by apply Forall_rev.
      * case_decide; by apply IH.
  - case_decide; by apply IH.
Qed.

Lemma guids_in_matches text : NoDup (guids_in text) /\ Forall is_guid (guids_in text).
Proof.
  unfold guids_in. split; [apply NoDup_remove_dups|].
  apply Forall_forall. intros g Hg. rewrite elem_of_remove_dups in Hg.
  pose proof (findall_guids_matches (list_ascii_of_string text) None I) as Hall.
  by apply (proj1 (Forall_forall _ _) Hall).
Qed.

Section Guids.
Context {T : Host}.

Definition query_cmd (qcow2_path : string) : list string :=
  ["virt-win-reg"; qcow2_path;
   "HKLM\SYSTEM\ControlSet001\Services\Tcpip\Parameters\Interfaces"].

(** X11: [_get_interface_guids] never raises, whatever the processes
    return: it gives a list of distinct identifiers, each of the shape of
    braces around hexadecimal digits and dashes; when [virt-win-reg]
    succeeds they are those of its output and nothing else is run. *)
Theorem get_interface_guids_returns_distinct_guids (qcow2_path : string) (e : Env) :
  exists guids,
    (_get_interface_guids qcow2_path e).1 = Ok guids /\
    NoDup guids /\
    Forall is_guid guids /\
    (returncode (subprocess_run (query_cmd qcow2_path) None (host e)).1 = 0 ->
     guids = guids_in (stdout (subprocess_run (query_cmd qcow2_path) None (host e)).1) /\
     new_calls e (_get_interface_guids qcow2_path e).2
     = [(query_cmd qcow2_path, (subprocess_run (query_cmd qcow2_path) None (host e)).1)]).
Proof.
  unfold _get_interface_guids, query_cmd, _run, new_calls.
  unfold mbind, M_bind, mret, M_ret, logger, subprocess, modify, try_except, raise.
  simpl.
  destruct (subprocess_run _ None (host e)) as [r h]. simpl.
  destruct (decide (returncode r = 0)) as [Hrc|Hrc]; simpl.
  - exists (guids_in (stdout r)). destruct (guids_in_matches (stdout r)) as [Hnd Hall].
    rewrite drop_app_length. done.
  - destruct (mkdtemp "guids-" h) as [dir h1]. simpl.
    destruct (subprocess_run _ None h1) as [r1 h2]. simpl.
    destruct (bool_decide (returncode r1 <> 0)); simpl.
    + exists []. split_and!; [done|constructor|constructor|done].
    + destruct (subprocess_run _ _ h2) as [r2 h3]. simpl.
      exists (guids_in (stdout r2)). destruct (guids_in_matches (stdout r2)) as [Hnd Hall].
      done.
Qed.

End Guids.

Section Obeys.
Context {T : Host}.
Variable P : list string -> Prop.

(** From [e], the computation [m] starts only processes whose command line
    satisfies [P], and raises only exceptions that satisfy [X]. *)
Definition obeys (X : PyExn -> Prop) {A} (m : E A) (e : Env) : Prop :=
  (exists tr, calls (m e).2 = calls e ++ tr /\ Forall (fun c => P c.1) tr) /\
  (forall x, (m e).1 = Raise x -> X x).

Lemma obeys_ret X {A} (a : A) e : obeys X (mret a) e.
Proof. split; [exists []; by rewrite app_nil_r|done]. Qed.

Lemma obeys_raise (X : PyExn -> Prop) {A} x e : X x -> obeys X (raise x : E A) e.
Proof.
  intros Hx. split; [exists []; by rewrite app_nil_r|]. by intros ? [= <-].
Qed.

Lemma obeys_logger X lvl msg e : obeys X (logger lvl msg) e.
Proof. split; [exists []; by rewrite app_nil_r|done]. Qed.

Lemma obeys_on_host X f e : obeys X (on_host f) e.
Proof. split; [exists []; by rewrite app_nil_r|done]. Qed.

Lemma obeys_ask_host X {A} (f : HostState -> A) e : obeys X (ask_host f) e.
Proof. split; [exists []; by rewrite app_nil_r|done]. Qed.

Lemma obeys_mkdtemp X prefix e :
  obeys X (fun e => let '(d, h) := mkdtemp prefix (host e) in
                    (Ok d, mkEnv h (log e) (calls e))) e.
Proof.
  unfold obeys. destruct (mkdtemp prefix (host e)). simpl.
  split; [exists []; by rewrite app_nil_r|done].
Qed.

Lemma obeys_subprocess X cmd input e : P cmd -> obeys X (subprocess cmd input) e.
Proof.
  intros Hc. unfold obeys, subprocess.
  destruct (subprocess_run cmd input (host e)). simpl.
  split; [|done]. eexists. split; [done|]. by repeat constructor.
Qed.

Lemma obeys_bind X {A B} (m : E A) (f : A -> E B) e :
  obeys X m e ->
  (forall a, (m e).1 = Ok a -> obeys X (f a) (m e).2) ->
  obeys X (m ≫= f) e.
Proof.
  intros [(tr & Htr & Hall) Hx] Hf. unfold obeys, mbind, M_bind.
  destruct (m e) as [[a|x] e1]; simpl in *.
  - destruct (Hf a eq_refl) as [(tr2 & Htr2 & Hall2) Hx2].
    split; [|exact Hx2]. exists (tr ++ tr2).
    split; [by rewrite Htr2, Htr, (assoc_L (++))|by apply Forall_app].
  - split; [by exists tr|]. intros ? [= <-]. by apply Hx.
Qed.

Lemma obeys_try_except X X' {A} (m : E A) (h : PyExn -> E A) e :
  obeys X' m e ->
  (forall x, (m e).1 = Raise x -> X' x -> obeys X (h x) (m e).2) ->
  obeys X (try_except m h) e.
Proof.
  intros [(tr & Htr & Hall) Hx] Hh. unfold obeys, try_except.
  destruct (m e) as [[a|x] e1]; simpl in *.
  - split; [by exists tr|by intros ? [=]].
  - destruct (Hh x eq_refl (Hx x eq_refl)) as [(tr2 & Htr2 & Hall2) Hx2].
    split; [|exact Hx2]. exists (tr ++ tr2).
    split; [by rewrite Htr2, Htr, (assoc_L (++))|by apply Forall_app].
Qed.

Lemma obeys_try_finally X {A} (m : E A) (f : E unit) e :
  obeys X m e -> obeys X f (m e).2 -> obeys X (try_finally m f) e.
Proof.
  intros [(tr & Htr & Hall) Hx] [(tr2 & Htr2 & Hall2) Hx2].
  unfold obeys, try_finally.
  destruct (m e) as [r e1]; simpl in *. destruct (f e1) as [[[]|x] e2]; simpl in *.
  - split; [|exact Hx]. exists (tr ++ tr2).
    split; [by rewrite Htr2, Htr, (assoc_L (++))|by apply Forall_app].
  - split; [|intros ? [= <-]; by apply Hx2]. exists (tr ++ tr2).
    split; [by rewrite Htr2, Htr, (assoc_L (++))|by apply Forall_app].
Qed.

Lemma obeys_for_each X {A} (l : list A) (body : A -> E unit) e :
  (forall a e, a ∈ l -> obeys X (body a) e) -> obeys X (for_each l body) e.
Proof.
  revert e. induction l as [|a l IH]; intros e Hb; simpl.
  - apply obeys_ret.
  - apply obeys_bind; [apply Hb; by left|]. intros _ _. apply IH.
    intros b e' Hin. apply Hb. by right.
Qed.

Lemma obeys_weaken (X X' : PyExn -> Prop) {A} (m : E A) e :
  (forall x, X x -> X' x) -> obeys X m e -> obeys X' m e.
Proof. intros HX [Htr Hx]. split; [done|]. intros x Hr. by apply HX, Hx. Qed.

Lemma obeys_subprocess_check (X : PyExn -> Prop) cmd e :
  P cmd -> X (Foreign "CalledProcessError") -> obeys X (subprocess_check cmd) e.
Proof.
  intros Hc Hx. unfold subprocess_check.
  apply obeys_bind; [by apply obeys_subprocess|]. intros r _.
  case_decide; [apply obeys_ret|by apply obeys_raise].
Qed.

Lemma obeys_run_unchecked X cmd e : P cmd -> obeys X (_run cmd false) e.
Proof.
  intros Hc. unfold _run.
  apply obeys_bind; [apply obeys_logger|]. intros _ _.
  apply obeys_bind; [by apply obeys_subprocess|]. intros r _. apply obeys_ret.
Qed.

Lemma obeys_run_checked (X : PyExn -> Prop) cmd e :
  P cmd -> (forall msg, X (RuntimeError msg)) -> obeys X (_run cmd true) e.
Proof.
  intros Hc Hx. unfold _run.
  apply obeys_bind; [apply obeys_logger|]. intros _ _.
  apply obeys_bind; [by apply obeys_subprocess|]. intros r _.
  destruct (_ && _); [by apply obeys_raise|apply obeys_ret].
Qed.

End Obeys.

(** ** What the engine runs and raises *)

Section Conduct.
Context {T : Host}.
Variable allowed : option string -> Prop.
Variable X : PyExn -> Prop.
Hypothesis Hnone : allowed None.
Hypothesis Hrt : forall msg, X (RuntimeError msg).
Hypothesis Hcp : X (Foreign "CalledProcessError").
Hypothesis Hfnf : X (Foreign "FileNotFoundError").

Local Abbreviation conduct := (obeys (fun cmd => allowed (uploads_to cmd)) X).

Lemma conduct_missing_packages tools missing e :
  conduct (missing_packages tools missing) e.
Proof.
  revert missing e. induction tools as [|[tool pkg] tools IH]; intros missing e; simpl.
  - apply obeys_ret.
  - apply obeys_bind; [by apply obeys_subprocess|].
    intros r _. case_decide; apply IH.
Qed.

Lemma conduct_ensure_prerequisites e : conduct ensure_prerequisites e.
Proof.
  unfold ensure_prerequisites.
  apply obeys_bind; [apply conduct_missing_packages|].
  intros [|pkg missing] _; [apply obeys_ret|].
  apply obeys_bind; [apply obeys_logger|]. intros _ _.
  apply obeys_bind; [|intros _ _; apply obeys_ret].
  apply obeys_subprocess.
  replace (uploads_to _) with (@None string); [done|].
  symmetry. by apply (uploads_to_other "apt-get").
Qed.

Lemma conduct_check_existing_loop qcow2 names present e :
  conduct (check_existing_loop qcow2 names present) e.
Proof.
  revert present e. induction names as [|n names IH]; intros present e; simpl.
  - apply obeys_ret.
  - apply obeys_bind; [by apply obeys_run_unchecked|].
    intros r _. destruct (_ && _); apply IH.
Qed.

Lemma conduct_find_in_subdirs mount_dir drv iso_dir subdirs e :
  conduct (find_in_subdirs mount_dir drv iso_dir subdirs) e.
Proof.
  revert e. induction subdirs as [|d subdirs IH]; intros e; simpl.
  - apply obeys_ret.
  - apply obeys_bind; [apply obeys_ask_host|].
    intros [] _; [apply obeys_ret|apply IH].
Qed.

Lemma conduct_find_driver_dir mount_dir drv iso_dir e :
  conduct (_find_driver_dir mount_dir drv iso_dir) e.
Proof.
  unfold _find_driver_dir.
  apply obeys_bind; [apply conduct_find_in_subdirs|].
  intros [hit|] _; [apply obeys_ret|].
  apply obeys_bind; [apply obeys_ask_host|]. intros found _. apply obeys_ret.
Qed.

Lemma conduct_extract_one mount_dir work_dir drv def e :
  conduct (extract_one mount_dir work_dir drv def) e.
Proof.
  unfold extract_one.
  apply obeys_bind; [apply conduct_find_driver_dir|].
  intros [[src_dir subdir]|] _.
  - apply obeys_bind; [by apply obeys_subprocess_check|]. intros _ _.
    apply obeys_bind; [apply obeys_on_host|]. intros _ _.
    apply obeys_bind; [apply obeys_ask_host|]. intros found _.
    apply obeys_bind.
    { apply obeys_subprocess_check; [|done].
      replace (uploads_to _) with (@None string); [done|].
      symmetry. by apply (uploads_to_other "cp"). }
    intros _ _. apply obeys_bind; [apply obeys_ask_host|]. intros copied _.
    apply obeys_bind; [apply obeys_logger|]. intros _ _. apply obeys_ret.
  - apply obeys_bind; [apply obeys_logger|]. intros _ _. apply obeys_ret.
Qed.

Lemma conduct_extract_loop mount_dir work_dir defs drivers e :
  conduct (extract_loop mount_dir work_dir defs drivers) e.
Proof.
  revert drivers e. induction defs as [|[drv def] defs IH]; intros drivers e; simpl.
  - apply obeys_ret.
  - apply obeys_bind; [apply conduct_extract_one|]. intros entry _. apply IH.
Qed.

Lemma conduct_extract_drivers_from_iso iso_path work_dir e :
  conduct (_extract_drivers_from_iso iso_path work_dir) e.
Proof.
  unfold _extract_drivers_from_iso.
  apply obeys_bind; [apply obeys_on_host|]. intros _ _.
  apply obeys_bind.
  { apply (obeys_try_except _ X X); [by apply obeys_run_checked|].
    intros [] _ Hx; by apply obeys_raise. }
  intros _ _. apply obeys_try_finally; [apply conduct_extract_loop|].
  apply obeys_bind; [by apply obeys_run_unchecked|]. intros _ _. apply obeys_ret.
Qed.

Lemma conduct_get_interface_guids qcow2 e : conduct (_get_interface_guids qcow2) e.
Proof.
  unfold _get_interface_guids.
  apply obeys_bind; [by apply obeys_run_unchecked|].
  intros r _. case_decide; [apply obeys_ret|].
  apply obeys_bind; [apply obeys_logger|]. intros _ _.
  apply obeys_bind; [apply obeys_mkdtemp|]. intros dir _.
  apply (obeys_try_except _ X X); [|intros x _ _; apply obeys_ret].
  apply obeys_bind; [by apply obeys_run_checked|]. intros _ _.
  apply obeys_bind; [by apply obeys_subprocess|]. intros r2 _. apply obeys_ret.
Qed.

Lemma conduct_merge_section hive work_dir i section e :
  conduct (merge_section hive work_dir i section) e.
Proof.
  unfold merge_section. destruct (_ || _); [apply obeys_ret|].
  apply obeys_bind; [apply obeys_on_host|]. intros _ _.
  apply obeys_bind; [by apply obeys_run_unchecked|].
  intros r _. case_decide; [apply obeys_logger|apply obeys_ret].
Qed.

Lemma conduct_merge_reg_file qcow2 reg_file work_dir e :
  allowed (Some "/Windows/System32/config/SYSTEM") ->
  conduct (_merge_reg_file qcow2 reg_file work_dir) e.
Proof.
  intros Hsys. unfold _merge_reg_file.
  apply obeys_bind; [by apply obeys_run_unchecked|].
  intros r _. case_decide; [apply obeys_logger|].
  apply obeys_bind; [apply obeys_logger|]. intros _ _.
  apply obeys_bind; [apply obeys_on_host|]. intros _ _.
  apply obeys_bind; [by apply obeys_run_checked|]. intros _ _.
  apply obeys_bind; [by apply obeys_run_unchecked|]. intros r2 _.
  apply obeys_bind.
  { case_decide; [|apply obeys_ret].
    apply obeys_bind; [apply obeys_logger|]. intros _ _.
    apply obeys_bind; [apply obeys_ask_host|].
    intros [text|] _; [|by apply obeys_raise].
    apply obeys_for_each. intros [i section] e' _. apply conduct_merge_section. }
  intros _ _. apply obeys_bind; [by apply obeys_run_checked|]. intros _ _.
  apply obeys_logger.
Qed.

Lemma conduct_stage_file qcow2 guest_dir f e :
  allowed (Some (guest_dir +:+ "/" +:+ path_name f)) ->
  conduct (stage_file qcow2 guest_dir f) e.
Proof.
  intros Hd. unfold stage_file.
  apply obeys_bind; [apply obeys_ask_host|].
  intros [] _; [|apply obeys_ret].
  apply obeys_bind; [by apply obeys_run_checked|]. intros _ _. apply obeys_ret.
Qed.

Lemma conduct_stage_driver_dirs qcow2 extracted e :
  (forall drv name, drv ∈ extracted.*1 ->
                    allowed (Some ("/Drivers/" +:+ drv +:+ "/" +:+ name))) ->
  conduct (_stage_driver_dirs qcow2 extracted) e.
Proof.
  intros Hd. unfold _stage_driver_dirs.
  apply obeys_for_each. intros [drv [sys dir]] e' Hin.
  apply obeys_bind; [by apply obeys_run_checked|]. intros _ _.
  apply obeys_bind; [apply obeys_ask_host|]. intros found _.
  apply obeys_bind; [|intros _ _; apply obeys_logger].
  apply obeys_for_each. intros f e'' _. apply conduct_stage_file, Hd.
  apply list_elem_of_fmap. by exists (drv, (sys, dir)).
Qed.

Lemma conduct_inject_pnputil_firstboot qcow2 work_dir e :
  allowed (Some FIRSTBOOT_SCRIPT_PATH) ->
  conduct (_inject_pnputil_firstboot qcow2 work_dir) e.
Proof.
  intros Hf. unfold _inject_pnputil_firstboot.
  apply obeys_bind; [apply obeys_on_host|]. intros _ _.
  apply obeys_bind; [by apply obeys_run_checked|]. intros _ _. apply obeys_logger.
Qed.

Lemma conduct_upload_missing qcow2 missing extracted existing e :
  (forall drv, drv ∈ missing ->
               allowed (Some ("/Windows/System32/drivers/" +:+ drv +:+ ".sys"))) ->
  conduct (upload_missing qcow2 missing extracted existing) e.
Proof.
  revert existing e.
  induction missing as [|drv missing IH]; intros existing e Hs; simpl.
  - apply obeys_ret.
  - assert (forall d, d ∈ missing ->
              allowed (Some ("/Windows/System32/drivers/" +:+ d +:+ ".sys"))) as Hrest.
    { intros d Hd. apply Hs. by right. }
    destruct (dict_get drv extracted) as [[sys dir]|]; [|by apply IH].
    apply obeys_bind; [apply obeys_run_checked; [apply Hs; by left|done]|]. intros _ _.
    apply obeys_bind; [apply obeys_logger|]. intros _ _. by apply IH.
Qed.

End Conduct.

(** The entries the extraction loop adds are entries of the catalogue it
    walks. *)
Lemma extract_loop_names {T : Host} mount_dir work_dir defs drivers (e : Env)
    extracted e' :
  extract_loop mount_dir work_dir defs drivers e = (Ok extracted, e') ->
  forall d, d ∈ extracted.*1 -> d ∈ drivers.*1 \/ d ∈ defs.*1.
Proof.
  revert drivers e. induction defs as [|[drv def] defs IH]; intros drivers e; simpl.
  - intros [= <- <-] d Hd. by left.
  - intros Hrun. apply bind_ok_inv in Hrun as (entry & e1 & Hone & Hrun).
    intros d Hd. destruct (IH _ _ Hrun d Hd) as [Hin|Hin]; [|right; by right].
    destruct entry as [[name paths]|]; [|by left].
    rewrite fmap_app in Hin. apply elem_of_app in Hin as [Hin|Hin]; [by left|].
    right. apply list_elem_of_singleton in Hin. subst d. simpl.
    unfold extract_one in Hone.
    apply bind_ok_inv in Hone as (hit & e2 & _ & Hone).
    destruct hit as [[src_dir subdir]|].
    + apply bind_ok_inv in Hone as (? & ? & _ & Hone).
      apply bind_ok_inv in Hone as (? & ? & _ & Hone).
      apply bind_ok_inv in Hone as (? & ? & _ & Hone).
      apply bind_ok_inv in Hone as (? & ? & _ & Hone).
      apply bind_ok_inv in Hone as (? & ? & _ & Hone).
      apply bind_ok_inv in Hone as (? & ? & _ & Hone).
      injection Hone as <- _ _. by left.
    + apply bind_ok_inv in Hone as (? & ? & _ & Hone). done.
Qed.

Lemma extract_drivers_from_iso_names {T : Host} iso_path work_dir (e : Env) extracted :
  (_extract_drivers_from_iso iso_path work_dir e).1 = Ok extracted ->
  forall d, d ∈ extracted.*1 -> d ∈ DRIVER_DEFS.*1.
Proof.
  intros Hok. destruct (_extract_drivers_from_iso iso_path work_dir e) as [r e'] eqn:Hrun.
  simpl in Hok. subst r. unfold _extract_drivers_from_iso in Hrun.
  apply bind_ok_inv in Hrun as ([] & e1 & _ & Hrun).
  apply bind_ok_inv in Hrun as (mounted & e2 & _ & Hrun).
  unfold try_finally in Hrun.
  destruct (extract_loop _ _ _ _ e2) as [[res|x] e3] eqn:Hloop.
  - intros d Hd.
    assert (res = extracted) as ->.
    { revert Hrun. match goal with |- context [?f e3] => destruct (f e3) as [[[]|?] ?] end;
        [by intros [= <- _]|done]. }
    destruct (extract_loop_names _ _ _ _ _ _ _ Hloop d Hd) as [Hin|Hin]; [|done].
    by apply elem_of_nil in Hin.
  - revert Hrun. match goal with |- context [?f e3] => destruct (f e3) as [[[]|?] ?] end; done.
Qed.

(** ** The extraction from the ISO *)

Section Extract.
Context {T : Host}.

Definition mount_cmd (iso_path work_dir : string) : list string :=
  ["mount"; "-o"; "loop,ro"; iso_path; path_join work_dir "virtio-iso"].

Definition umount_cmd (work_dir : string) : list string :=
  ["umount"; path_join work_dir "virtio-iso"].

Definition is_cp (cmd : list string) : Prop := exists args, cmd = "cp" :: args.

Lemma copies_find_driver_dir mount_dir drv iso_dir e :
  obeys is_cp (fun _ => True) (_find_driver_dir mount_dir drv iso_dir) e.
Proof.
  unfold _find_driver_dir. apply obeys_bind.
  - generalize OS_SUBDIRS as subdirs. intros subdirs. revert e.
    induction subdirs as [|d subdirs IH]; intros e; simpl; [apply obeys_ret|].
    apply obeys_bind; [apply obeys_ask_host|].
    intros [] _; [apply obeys_ret|apply IH].
  - intros [hit|] _; [apply obeys_ret|].
    apply obeys_bind; [apply obeys_ask_host|]. intros found _. apply obeys_ret.
Qed.

Lemma copies_extract_loop mount_dir work_dir defs drivers e :
  obeys is_cp (fun _ => True) (extract_loop mount_dir work_dir defs drivers) e.
Proof.
  revert drivers e. induction defs as [|[drv def] defs IH]; intros drivers e; simpl.
  - apply obeys_ret.
  - apply obeys_bind; [|intros entry _; apply IH].
    unfold extract_one.
    apply obeys_bind; [apply copies_find_driver_dir|].
    intros [[src_dir subdir]|] _.
    + apply obeys_bind; [apply obeys_subprocess_check; [by eexists|done]|]. intros _ _.
      apply obeys_bind; [apply obeys_on_host|]. intros _ _.
      apply obeys_bind; [apply obeys_ask_host|]. intros found _.
      apply obeys_bind; [apply obeys_subprocess_check; [by eexists|done]|]. intros _ _.
      apply obeys_bind; [apply obeys_ask_host|]. intros copied _.
      apply obeys_bind; [apply obeys_logger|]. intros _ _. apply obeys_ret.
    + apply obeys_bind; [apply obeys_logger|]. intros _ _. apply obeys_ret.
Qed.

(** X6: [_extract_drivers_from_iso] first mounts the ISO.  If the mount
    fails it raises [RuntimeError] with the message [Cannot mount virtio-win
    ISO <iso>: <stderr tail>] and has run nothing else.  If the mount
    succeeds, the processes it runs are the mount, then copies only, then
    the unmount, which is run last whether the copies succeeded or not. *)
Theorem extract_drivers_from_iso_unmounts_whenever_it_mounted
    (iso_path work_dir : string) (e : Env) :
  let run := _extract_drivers_from_iso iso_path work_dir e in
  let mounted :=
    (subprocess_run (mount_cmd iso_path work_dir) None
       (mkdir_parents (path_join work_dir "virtio-iso") (host e))).1 in
  if decide (returncode mounted = 0)
  then exists copies unmounted,
         new_calls e run.2
         = (mount_cmd iso_path work_dir, mounted) :: copies
           ++ [(umount_cmd work_dir, unmounted)] /\
         Forall (fun c => is_cp c.1) copies
  else run.1 = Raise (RuntimeError ("Cannot mount virtio-win ISO " +:+ iso_path +:+ ": "
                                    +:+ last_chars 500 (py_strip (stderr mounted)))) /\
       new_calls e run.2 = [(mount_cmd iso_path work_dir, mounted)].
Proof.
  intros run mounted. subst run. unfold _extract_drivers_from_iso, new_calls.
  fold (mount_cmd iso_path work_dir). fold (umount_cmd work_dir).
  set (mount_dir := path_join work_dir "virtio-iso").
  rewrite (ebind_ok _ _ _ _ _ (on_host_runs _ e)).
  set (e1 := mkEnv (mkdir_parents mount_dir (host e)) (log e) (calls e)).
  change mounted with (proc (mount_cmd iso_path work_dir) e1).
  set (guarded := try_except _ _).
  assert (guarded e1
          = (if decide (returncode (proc (mount_cmd iso_path work_dir) e1) = 0)
             then Ok (proc (mount_cmd iso_path work_dir) e1)
             else Raise (RuntimeError
                           ("Cannot mount virtio-win ISO " +:+ iso_path +:+ ": "
                            +:+ last_chars 500
                                  (py_strip (stderr (proc (mount_cmd iso_path work_dir) e1))))),
             after (mount_cmd iso_path work_dir) e1)) as Hmount.
  { unfold guarded, try_except. rewrite run_checked. by destruct (decide _). }
  destruct (decide (returncode (proc (mount_cmd iso_path work_dir) e1) = 0)) as [Hrc|Hrc].
  - rewrite (ebind_ok _ _ _ _ _ Hmount). unfold try_finally.
    destruct (copies_extract_loop mount_dir work_dir DRIVER_DEFS []
                (after (mount_cmd iso_path work_dir) e1)) as [(tr & Htr & Hall) _].
    destruct (extract_loop mount_dir work_dir DRIVER_DEFS []
                (after (mount_cmd iso_path work_dir) e1)) as [res e3].
    simpl in Htr.
    rewrite (ebind_ok _ _ _ _ _ (run_unchecked _ e3)).
    exists tr, (proc (umount_cmd work_dir) e3). split; [|done].
    assert (calls (after (umount_cmd work_dir) e3)
            = calls e ++ (mount_cmd iso_path work_dir, proc (mount_cmd iso_path work_dir) e1)
                :: tr ++ [(umount_cmd work_dir, proc (umount_cmd work_dir) e3)]) as Hcalls.
    { simpl. rewrite Htr. by rewrite <- !(assoc_L (++)). }
    simpl in Hcalls. destruct res; simpl; rewrite Hcalls; by rewrite drop_app_length.
  - rewrite (ebind_raise _ _ _ _ _ Hmount). simpl. split; [done|].
    by rewrite drop_app_length.
Qed.

End Extract.

(** ** The whole engine *)

Lemma run_pair {T : Host} {A} (m : E A) (e : Env) (r : Res A) :
  (m e).1 = r -> m e = (r, (m e).2).
Proof. intros <-. apply surjective_pairing. Qed.

Section ConductAll.
Context {T : Host}.
Variable allowed : option string -> Prop.
Variable X : PyExn -> Prop.
Hypothesis Hnone : allowed None.
Hypothesis Hrt : forall msg, X (RuntimeError msg).
Hypothesis Hcp : X (Foreign "CalledProcessError").
Hypothesis Hfnf : X (Foreign "FileNotFoundError").
Hypothesis Hsys : allowed (Some "/Windows/System32/config/SYSTEM").
Hypothesis Hfirst : allowed (Some FIRSTBOOT_SCRIPT_PATH).
Hypothesis Hdriver :
  forall drv, drv ∈ DRIVER_DEFS.*1 ->
              allowed (Some ("/Windows/System32/drivers/" +:+ drv +:+ ".sys")).
Hypothesis Hstaged :
  forall drv name, drv ∈ DRIVER_DEFS.*1 ->
                   allowed (Some ("/Drivers/" +:+ drv +:+ "/" +:+ name)).

Lemma conduct_ensure_all_virtio_drivers qcow2 virtio_iso work_dir e :
  obeys (fun cmd => allowed (uploads_to cmd)) X
        (ensure_all_virtio_drivers qcow2 virtio_iso work_dir) e.
Proof.
  unfold ensure_all_virtio_drivers.
  apply obeys_bind; [destruct work_dir; [apply obeys_ret|apply obeys_mkdtemp]|].
  intros wd _. apply obeys_bind; [apply obeys_on_host|]. intros _ _.
  apply obeys_bind; [by apply conduct_ensure_prerequisites|]. intros _ _.
  do 2 (apply obeys_bind; [apply obeys_logger|]; intros _ _).
  apply obeys_bind; [by apply conduct_check_existing_loop|].
  intros existing Hexisting.
  apply run_pair, check_existing_loop_result in Hexisting as [_ Hfound].
  assert (existing ⊆ list_to_set (DRIVER_DEFS.*1)) as Hcat.
  { intros x Hx. apply Hfound in Hx. apply elem_of_union in Hx as [Hx|Hx]; [|done].
    by apply elem_of_empty in Hx. }
  clear Hfound.
  apply obeys_bind; [destruct (decide (existing <> ∅)); [apply obeys_logger|apply obeys_ret]|].
  intros _ _.
  apply obeys_bind;
    [destruct (decide (_ ∖ existing <> ∅)); [apply obeys_logger|apply obeys_ret]|].
  intros _ _.
  apply obeys_bind; [apply obeys_logger|]. intros _ _.
  apply obeys_bind; [by apply conduct_extract_drivers_from_iso|].
  intros extracted Hextracted.
  pose proof (extract_drivers_from_iso_names _ _ _ _ Hextracted) as Hnames.
  clear Hextracted.
  apply obeys_bind.
  { destruct (decide (_ ∖ existing <> ∅));
      (apply obeys_bind; [apply obeys_logger|]; intros _ _); [|apply obeys_ret].
    apply conduct_upload_missing; [done|]. intros drv Hdrv. apply Hdriver.
    apply elem_of_elements, elem_of_difference in Hdrv as [Hdrv _].
    by apply elem_of_list_to_set in Hdrv. }
  intros registered Hregistered.
  assert (registered ⊆ list_to_set (DRIVER_DEFS.*1)) as Hreg.
  { revert Hregistered. destruct (decide (_ ∖ existing <> ∅)); intros Hregistered.
    - apply run_pair, bind_ok_inv in Hregistered as ([] & e1 & _ & Hup).
      apply upload_missing_result in Hup as [_ Hge].
      intros x Hx. apply Hge in Hx. apply elem_of_union in Hx as [Hx|Hx]; [by apply Hcat|].
      apply elem_of_list_to_set, elem_of_elements in Hx.
      by apply elem_of_difference in Hx as [Hx _].
    - apply run_pair, bind_ok_inv in Hregistered as ([] & e1 & _ & Hret).
      by injection Hret as <- _. }
  clear Hregistered.
  apply obeys_bind; [apply obeys_logger|]. intros _ _.
  apply obeys_bind.
  { destruct (build_driver_reg_in_catalogue registered Hreg) as [text ->].
    apply obeys_ret. }
  intros reg_content _.
  apply obeys_bind; [apply obeys_on_host|]. intros _ _.
  apply obeys_bind; [by apply conduct_merge_reg_file|]. intros _ _.
  do 2 (apply obeys_bind; [apply obeys_logger|]; intros _ _).
  apply obeys_bind.
  { apply conduct_stage_driver_dirs; [done|done|].
    intros drv name Hin. by apply Hstaged, Hnames. }
  intros _ _.
  apply obeys_bind; [apply obeys_logger|]. intros _ _.
  apply obeys_bind; [by apply conduct_inject_pnputil_firstboot|]. intros _ _.
  apply obeys_bind; [apply obeys_logger|]. intros _ _.
  apply obeys_bind; [by apply conduct_get_interface_guids|]. intros guids _.
  apply obeys_bind.
  { destruct guids as [|guid guids]; [apply obeys_logger|].
    apply obeys_bind; [apply obeys_logger|]. intros _ _.
    apply obeys_bind.
    { unfold _build_dhcp_reg. rewrite dhcp_reg_loop_total. apply obeys_ret. }
    intros dhcp_content _.
    apply obeys_bind; [apply obeys_on_host|]. intros _ _.
    apply obeys_bind; [by apply conduct_merge_reg_file|]. intros _ _.
    apply obeys_logger. }
  intros _ _. do 2 (apply obeys_bind; [apply obeys_logger|]; intros _ _).
  apply obeys_ret.
Qed.

End ConductAll.

Section EngineConduct.
Context {T : Host}.

(** The exceptions an invocation of the engine ends with: the failure of a
    checked command, of a copy out of the ISO, or of reading a patch file
    back. *)
Definition engine_error (x : PyExn) : Prop :=
  (exists msg, x = RuntimeError msg) \/
  x = Foreign "CalledProcessError" \/ x = Foreign "FileNotFoundError".

(** The guest paths the engine writes to. *)
Definition engine_destination (dst : string) : Prop :=
  dst = "/Windows/System32/config/SYSTEM" \/
  dst = FIRSTBOOT_SCRIPT_PATH \/
  exists drv, drv ∈ DRIVER_DEFS.*1 /\
    (dst = "/Windows/System32/drivers/" +:+ drv +:+ ".sys" \/
     exists name, dst = "/Drivers/" +:+ drv +:+ "/" +:+ name).

Definition engine_upload (dst : option string) : Prop :=
  match dst with
  | None => True
  | Some dst => engine_destination dst
  end.

Lemma engine_conduct qcow2 virtio_iso work_dir (e : Env) :
  obeys (fun cmd => engine_upload (uploads_to cmd)) engine_error
        (ensure_all_virtio_drivers qcow2 virtio_iso work_dir) e.
Proof.
  apply conduct_ensure_all_virtio_drivers.
  - exact I.
  - intros msg. left. by exists msg.
  - right. by left.
  - right. by right.
  - by left.
  - right. by left.
  - intros drv Hdrv. right. right. exists drv. split; [done|by left].
  - intros drv name Hdrv. right. right. exists drv. split; [done|].
    right. by exists name.
Qed.

Lemma ensure_all_virtio_drivers_result qcow2 virtio_iso work_dir (e : Env) b e' :
  ensure_all_virtio_drivers qcow2 virtio_iso work_dir e = (Ok b, e') -> b = true.
Proof.
  unfold ensure_all_virtio_drivers. intros H.
  do 24 (apply bind_ok_inv in H as (? & ? & _ & H)).
  by injection H as <- _.
Qed.

(** X12: whatever the processes return, an invocation of
    [ensure_all_virtio_drivers] either returns [True] or ends with the
    [RuntimeError] of a checked command, the [CalledProcessError] of a copy
    or the error of reading a patch file back: it never returns [False],
    and neither patch builder fails inside it. *)
Theorem ensure_all_virtio_drivers_returns_true_or_raises_a_command_failure
    (qcow2_path virtio_iso : string) (work_dir : option string) (e : Env) :
  match (ensure_all_virtio_drivers qcow2_path virtio_iso work_dir e).1 with
  | Ok b => b = true
  | Raise x => engine_error x
  end.
Proof.
  destruct (engine_conduct qcow2_path virtio_iso work_dir e) as [_ Hx].
  destruct (ensure_all_virtio_drivers qcow2_path virtio_iso work_dir e)
    as [[b|x] e'] eqn:Hrun; simpl in *.
  - by apply ensure_all_virtio_drivers_result in Hrun.
  - by apply Hx.
Qed.

(** X13: every upload into the guest that an invocation of
    [ensure_all_virtio_drivers] makes, finished or not, goes to the SYSTEM
    hive, to the firstboot script, to the [.sys] path of a catalogue driver
    or below [/Drivers/<catalogue driver>/]. *)
Theorem ensure_all_virtio_drivers_uploads_only_to_its_own_guest_paths
    (qcow2_path virtio_iso : string) (work_dir : option string) (e : Env) :
  Forall (fun c => engine_upload (uploads_to c.1))
         (new_calls e (ensure_all_virtio_drivers qcow2_path virtio_iso work_dir e).2).
Proof.
  destruct (engine_conduct qcow2_path virtio_iso work_dir e) as [(tr & Htr & Hall) _].
  unfold new_calls. rewrite Htr. by rewrite drop_app_length.
Qed.

End EngineConduct.

Definition netkvm_patch : string :=
  default "" (_build_driver_reg {[ "netkvm" ]}).

Lemma build_driver_reg_puts_parent_keys_first_witness :
  _build_driver_reg {[ "netkvm" ]} = Some netkvm_patch /\
  unit_headers netkvm_patch = flat_map service_sections (sorted {[ "netkvm" ]}).
Proof.
  assert (_build_driver_reg {[ "netkvm" ]} = Some netkvm_patch) as Hbuilt
    by (vm_compute; reflexivity).
  split; [exact Hbuilt|].
  exact (build_driver_reg_puts_parent_keys_first {[ "netkvm" ]} netkvm_patch Hbuilt).
Defined.

End EngineFacts.

(** * More of the orchestrator *)

Module OrchestratorFacts.
Import Py Pipeline Simulation PyFacts PipelineFacts.

Section Loops.
Context {C : Collaborators}.

(** [stages_to_run] of [run] *)
Definition stages_to_run (plan : VMMigrationPlan) : list string :=
  if plan_skip_validation plan
  then filter (fun s => s ≠ "validate") STAGES
  else STAGES.

Lemma stages_to_run_registered plan s :
  s ∈ stages_to_run plan -> s ∈ STAGES.
Proof.
  unfold stages_to_run. destruct (plan_skip_validation plan); [|done].
  rewrite list_elem_of_filter. by intros [_ ?].
Qed.

Lemma stages_to_run_have_handlers plan s :
  s ∈ stages_to_run plan -> is_Some (getattr_stage s handler_table).
Proof. intros Hs. by apply handler_of_registered_stage, (stages_to_run_registered plan). Qed.

(** The fields a stage loop never writes. *)
Definition same_identity (st st' : MigrationState) : Prop :=
  migration_id st' = migration_id st /\ vm_name st' = vm_name st /\
  target_type st' = target_type st /\ zone st' = zone st /\
  started_at st' = started_at st.

(** What a stage loop leaves in the store and in the state, next to
    [loop_outcome]: one entry written, that of the migration, holding the
    final state. *)
Definition loop_record (l : list string) (st : MigrationState) (w : World)
    (r : option MigrationResult) (st' : MigrationState) (w' : World) : Prop :=
  same_identity st st' /\
  match l with
  | [] => st' = st /\ store w' = store w
  | _ :: _ => store w' = <[migration_id st := st']> (store w)
  end /\
  match r with
  | None => error st' = error st
  | Some res =>
      result_error res = error st' /\ is_Some (error st') /\
      failed_stage res = Some (current_stage st')
  end.

Lemma insert_twice (k : string) (a b : MigrationState) (m : gmap string MigrationState) :
  <[k := b]> (<[k := a]> m) = <[k := b]> m.
Proof.
  apply map_eq. intros i. destruct (decide (k = i)) as [->|Hne].
  - by rewrite !lookup_insert_eq.
  - by rewrite !lookup_insert_ne.
Qed.

Lemma loop_record_step s l st w st2 w2 r st' w' :
  same_identity st st2 ->
  error st2 = error st ->
  store w2 = <[migration_id st := st2]> (store w) ->
  loop_record l st2 w2 r st' w' ->
  loop_record (s :: l) st w r st' w'.
Proof.
  intros (Hid & Hvm & Htt & Hz & Hsa) He Hstore
         ((Hid' & Hvm' & Htt' & Hz' & Hsa') & Hst & Hr).
  split; [|split].
  - unfold same_identity. by rewrite Hid', Hvm', Htt', Hz', Hsa'.
  - destruct l as [|s' l].
    + destruct Hst as [-> ->]. exact Hstore.
    + rewrite Hst, Hid, Hstore. apply insert_twice.
  - destruct r as [res|]; [exact Hr|]. by rewrite Hr.
Qed.

Lemma run_stages_record l plan t st w r st' w' :
  (forall s, s ∈ l -> is_Some (getattr_stage s handler_table)) ->
  run_stages l plan t st w = (r, st', w') ->
  loop_record l st w r st' w'.
Proof.
  revert st w. induction l as [|s l IH]; intros st w Hl; simpl.
  - intros [= <- <- <-]. by repeat split.
  - destruct (_execute_stage _ _ _ _) as [[[[]|e] st1] w1] eqn:E;
      apply execute_stage_spec in E as (_ & Hs & Hst);
      try (apply Hl; left).
    + intros E2. apply IH in E2; [|intros; apply Hl; by right].
      eapply loop_record_step; [| | |exact E2].
      * rewrite Hst. by repeat split.
      * by rewrite Hst.
      * simpl. rewrite Hs. simpl. rewrite Hst. simpl. apply insert_twice.
    + destruct (on_remote time_time _) as [now w2] eqn:E3.
      pose proof (on_remote_frame time_time w1) as (Hstore & _).
      rewrite E3 in Hstore. simpl in Hstore.
      intros [= <- <- <-]. split; [|split].
      * rewrite Hst. by repeat split.
      * simpl. rewrite Hstore, Hs. simpl. rewrite Hst. simpl. apply insert_twice.
      * simpl. rewrite Hst. simpl. by repeat split.
Qed.

Lemma resume_stages_record l id plan t st w r st' w' :
  (forall s, s ∈ l -> is_Some (getattr_stage s handler_table)) ->
  resume_stages l id plan t st w = (r, st', w') ->
  loop_record l st w r st' w'.
Proof.
  revert st w. induction l as [|s l IH]; intros st w Hl; simpl.
  - intros [= <- <- <-]. by repeat split.
  - destruct (_execute_stage _ _ _ _) as [[[[]|e] st1] w1] eqn:E;
      apply execute_stage_spec in E as (_ & Hs & Hst);
      try (apply Hl; left).
    + intros E2. apply IH in E2; [|intros; apply Hl; by right].
      eapply loop_record_step; [| | |exact E2].
      * rewrite Hst. by repeat split.
      * by rewrite Hst.
      * simpl. rewrite Hs. simpl. rewrite Hst. simpl. apply insert_twice.
    + destruct (on_remote time_time _) as [now w2] eqn:E3.
      pose proof (on_remote_frame time_time
        (state_store_save (set_error (Some (str_exn e)) st1) w1)) as (Hstore & _).
      rewrite E3 in Hstore. simpl in Hstore.
      intros [= <- <- <-]. split; [|split].
      * rewrite Hst. by repeat split.
      * rewrite Hstore, Hs. simpl. rewrite Hst. simpl. apply insert_twice.
      * simpl. rewrite Hst. simpl. by repeat split.
Qed.

Lemma run_stages_failure_identity l plan t st w res st' w' :
  run_stages l plan t st w = (Some res, st', w') ->
  result_migration_id res = migration_id st' /\
  result_vm_name res = plan_vm_name plan.
Proof.
  revert st w. induction l as [|s l IH]; intros st w; simpl; [done|].
  destruct (_execute_stage _ _ _ _) as [[[[]|e] st1] w1].
  - apply IH.
  - destruct (on_remote time_time w1). by intros [= <- <- _].
Qed.

Lemma resume_stages_failure_identity l (id : string) plan t st w res st' w' :
  resume_stages l id plan t st w = (Some res, st', w') ->
  result_migration_id res = id /\ result_vm_name res = vm_name st'.
Proof.
  revert st w. induction l as [|s l IH]; intros st w; simpl; [done|].
  destruct (_execute_stage _ _ _ _) as [[[[]|e] st1] w1].
  - apply IH.
  - destruct (on_remote time_time _). by intros [= <- <- _].
Qed.

(** [run], split at its loop. *)
Lemma run_unfolded plan w :
  exists id t0 started w0 r st' w',
    id = (uuid8 (remote (site w))).1 /\
    store w0 = <[id := mkState id (plan_vm_name plan) (plan_target_type plan)
                         (plan_zone plan) "" [] ∅ started None]> (store w) /\
    invoked w0 = invoked w /\
    run_stages (stages_to_run plan) plan t0
      (mkState id (plan_vm_name plan) (plan_target_type plan) (plan_zone plan)
               "" [] ∅ started None) w0 = (r, st', w') /\
    store (run plan w).2 = store w' /\
    invoked (run plan w).2 = invoked w' /\
    match r with
    | Some failure => (run plan w).1 = failure
    | None =>
        success (run plan w).1 = true /\
        result_migration_id (run plan w).1 = id /\
        result_vm_name (run plan w).1 = plan_vm_name plan /\
        failed_stage (run plan w).1 = None /\
        result_error (run plan w).1 = None /\
        result_completed_stages (run plan w).1 = completed_stages st'
    end.
Proof.
  unfold run. fold (stages_to_run plan).
  pose proof (on_remote_frame uuid8 w) as (Hs1 & _ & _ & Hi1).
  assert ((on_remote uuid8 w).1 = (uuid8 (remote (site w))).1) as Hid.
  { unfold on_remote. by destruct (uuid8 (remote (site w))). }
  destruct (on_remote uuid8 w) as [id w1]. simpl in *. subst id.
  pose proof (on_remote_frame time_time w1) as (Hs2 & _ & _ & Hi2).
  destruct (on_remote time_time w1) as [t0 w2]. simpl in *.
  pose proof (on_remote_frame datetime_now w2) as (Hs3 & _ & _ & Hi3).
  destruct (on_remote datetime_now w2) as [started w3]. simpl in *.
  set (id := (uuid8 (remote (site w))).1).
  set (state := mkState id _ _ _ _ _ _ _ _).
  set (w0 := logger_info _ _).
  destruct (run_stages (stages_to_run plan) plan t0 state w0) as [[r st'] w'] eqn:E.
  exists id, t0, started, w0, r, st', w'.
  split; [done|]. split; [simpl; by rewrite Hs3, Hs2, Hs1|].
  split; [simpl; by rewrite Hi3, Hi2, Hi1|]. split; [done|].
  destruct r as [failure|]; [done|].
  pose proof (on_remote_frame time_time w') as (Hs4 & _ & _ & Hi4).
  destruct (on_remote time_time w') as [t1 w4]. simpl in *. done.
Qed.

(** X14: [run] dispatches the stages of the registry in order, without
    [validate] when the plan skips validation, and stops after the first
    handler that raises.  It always returns a result: a success with all
    the stages completed, or a failure naming the stage that raised, with
    the stages before it as completed. *)
Theorem run_dispatches_the_planned_stages_until_failure
    (plan : VMMigrationPlan) (w : World) :
  let res := (run plan w).1 in
  let ran := newly_invoked w (run plan w).2 in
  result_vm_name res = plan_vm_name plan /\
  (plan_skip_validation plan = true -> "validate" ∉ ran) /\
  if success res
  then ran = stages_to_run plan /\
       result_completed_stages res = stages_to_run plan /\
       failed_stage res = None /\ result_error res = None
  else exists before f after,
         stages_to_run plan = before ++ f :: after /\
         ran = before ++ [f] /\
         result_completed_stages res = before /\
         failed_stage res = Some f /\
         is_Some (result_error res).
Proof.
  intros res ran. subst res ran.
  destruct (run_unfolded plan w)
    as (id & t0 & started & w0 & r & st' & w' & _ & _ & Hi0 & Hloop & _ & Hi & Hres).
  pose proof (run_stages_spec _ _ _ _ _ _ _ _ (stages_to_run_have_handlers plan) Hloop)
    as Hout.
  pose proof (run_stages_record _ _ _ _ _ _ _ _ (stages_to_run_have_handlers plan) Hloop)
    as (_ & _ & Hrec).
  assert (forall l : list string, (forall s, s ∈ l -> s ∈ stages_to_run plan) ->
                    plan_skip_validation plan = true -> "validate" ∉ l) as Hskip.
  { intros l Hl Hsk Hin. apply Hl in Hin. unfold stages_to_run in Hin.
    rewrite Hsk in Hin. apply list_elem_of_filter in Hin as [Hne _]. done. }
  destruct r as [failure|]; simpl in Hout.
  - destruct Hout as (before & f & after & Hl & Hinv & _ & Hs & Hf & Hc).
    destruct Hrec as (He & Hsome & _).
    rewrite Hi0 in Hinv. rewrite <- Hi in Hinv.
    apply newly_invoked_app in Hinv. rewrite Hres in *. rewrite Hinv.
    split; [by apply run_stages_failure_identity in Hloop as [_ ?]|].
    split.
    { apply Hskip. intros s Hs'. rewrite Hl.
      apply elem_of_app in Hs' as [Hs'|Hs'].
      - apply elem_of_app. by left.
      - apply list_elem_of_singleton in Hs' as ->. apply elem_of_app. right. by left. }
    rewrite Hs. exists before, f, after.
    split; [done|]. split; [done|]. split; [done|]. split; [done|]. by rewrite He.
  - destruct Hout as [Hinv Hc]. destruct Hres as (Hs & _ & Hvm & Hf & He & Hcs).
    rewrite Hi0 in Hinv. rewrite <- Hi in Hinv.
    apply newly_invoked_app in Hinv. rewrite Hinv.
    split; [done|]. split; [by apply Hskip|].
    rewrite Hs. split; [done|]. split; [by rewrite Hcs, Hc|done].
Qed.

(** X15: [run] writes one entry of the state store, the one of the
    identifier it reports, and what it leaves there agrees with the result
    it returns: the same completed stages and error, and, after a failure,
    the failed stage as current stage. *)
Theorem run_saves_one_entry_that_agrees_with_its_result
    (plan : VMMigrationPlan) (w : World) :
  let res := (run plan w).1 in
  exists final : MigrationState,
    store (run plan w).2 = <[result_migration_id res := final]> (store w) /\
    migration_id final = result_migration_id res /\
    vm_name final = plan_vm_name plan /\
    target_type final = plan_target_type plan /\
    zone final = plan_zone plan /\
    completed_stages final = result_completed_stages res /\
    error final = result_error res /\
    (success res = false -> failed_stage res = Some (current_stage final)).
Proof.
  intros res. subst res.
  destruct (run_unfolded plan w)
    as (id & t0 & started & w0 & r & st' & w' & _ & Hs0 & _ & Hloop & Hs & _ & Hres).
  pose proof (run_stages_spec _ _ _ _ _ _ _ _ (stages_to_run_have_handlers plan) Hloop)
    as Hout.
  pose proof (run_stages_record _ _ _ _ _ _ _ _ (stages_to_run_have_handlers plan) Hloop)
    as ((Hid & Hvm & Htt & Hz & _) & Hstore & Hrec).
  simpl in Hid, Hvm, Htt, Hz.
  assert (store (run plan w).2 = <[id := st']> (store w)) as Hfinal.
  { rewrite Hs. destruct (stages_to_run plan).
    - destruct Hstore as [-> ->]. exact Hs0.
    - rewrite Hstore, Hs0. apply insert_twice. }
  assert (result_migration_id (run plan w).1 = id /\
          result_completed_stages (run plan w).1 = completed_stages st' /\
          result_error (run plan w).1 = error st' /\
          (success (run plan w).1 = false ->
           failed_stage (run plan w).1 = Some (current_stage st')))
    as (Hrid & Hcs & He & Hf).
  { destruct r as [failure|].
    - rewrite Hres. simpl in Hout.
      destruct Hout as (before & f & after & _ & _ & Hc & _ & _ & Hrc).
      destruct Hrec as (Hre & _ & Hrf).
      apply run_stages_failure_identity in Hloop as [Hri _].
      split; [by rewrite Hri|]. split; [by rewrite Hrc, Hc|]. done.
    - destruct Hres as (Hsucc & Hri & _ & _ & Hre & Hrc). simpl in Hrec.
      split; [done|]. split; [done|]. split; [by rewrite Hre, Hrec|].
      by rewrite Hsucc. }
  exists st'. rewrite Hrid. by repeat split.
Qed.

(** X16: [resume] of an identifier the store does not know raises
    [ValueError] and changes nothing.  Otherwise, when stages remain, it
    writes one entry of the store, under the identifier of the state it
    loaded, and what it leaves there agrees with the result it returns; in
    particular the error of the earlier attempt is cleared after a
    success, and replaced by the new one after a failure. *)
Theorem resume_saves_the_state_it_reports (id : string) (w : World) :
  match state_store_load id w with
  | None =>
      resume id w = (Raise (ValueError ("Migration '" +:+ id +:+ "' not found")), w)
  | Some state =>
      exists res : MigrationResult,
        (resume id w).1 = Ok res /\
        result_migration_id res = id /\
        result_vm_name res = vm_name state /\
        match remaining_stages state with
        | [] => store (resume id w).2 = store w
        | _ :: _ =>
            exists final : MigrationState,
              store (resume id w).2 = <[migration_id state := final]> (store w) /\
              same_identity state final /\
              completed_stages final = result_completed_stages res /\
              error final = result_error res /\
              if success res then result_error res = None
              else is_Some (result_error res) /\
                   failed_stage res = Some (current_stage final)
        end
  end.
Proof.
  unfold resume. destruct (state_store_load id w) as [state|]; [|done].
  pose proof (remaining_have_handlers state) as Hh.
  destruct (remaining_stages state) as [|s0 rem] eqn:Erem.
  { eexists. by repeat split. }
  set (w0 := logger_info _ (logger_info _ w)).
  pose proof (on_remote_frame time_time w0) as (Hs1 & _).
  destruct (on_remote time_time w0) as [t0 w1]. simpl in Hs1.
  destruct (resume_stages _ _ _ _ _ _) as [[r st'] w'] eqn:Hloop.
  pose proof (resume_stages_spec _ _ _ _ _ _ _ _ _ Hh Hloop) as Hout.
  pose proof (resume_stages_record _ _ _ _ _ _ _ _ _ Hh Hloop)
    as (Hsame & Hstore & Hrec).
  simpl in Hstore. rewrite Hs1 in Hstore.
  destruct Hsame as (Hid & Hvm & Htt & Hz & Hsa). simpl in Hid, Hvm, Htt, Hz, Hsa, Hout, Hrec.
  destruct r as [failure|].
  - destruct Hout as (before & f & after & _ & _ & Hc & Hs & _ & Hrc).
    destruct Hrec as (Hre & Hsome & Hrf).
    apply resume_stages_failure_identity in Hloop as [Hri Hrv].
    exists failure. split; [done|]. split; [done|]. split; [by rewrite Hrv|].
    exists st'. split; [done|]. split; [by repeat split|].
    split; [by rewrite Hrc, Hc|]. split; [done|]. rewrite Hs, Hre. done.
  - pose proof (on_remote_frame time_time w') as (Hs2 & _).
    destruct (on_remote time_time w') as [t1 w2]. simpl in Hs2.
    eexists. split; [done|]. simpl. split; [done|]. split; [done|].
    exists st'. split; [by rewrite Hs2|]. split; [by repeat split|].
    split; [done|]. split; [done|]. done.
Qed.

Lemma handler_only_for_registered_stage (stage : string) :
  stage ∉ STAGES -> getattr_stage stage handler_table = None.
Proof.
  intros Hout. unfold handler_table. simpl.
  repeat (case_decide as Hs;
          [exfalso; apply Hout; rewrite <- Hs; by apply (bool_decide_unpack _)|clear Hs]).
  done.
Qed.

(** X17: [_execute_stage] calls a handler exactly for the names of the
    registry; for any other name it raises [NotImplementedError] and leaves
    the state, the store, the site and the log as they were. *)
Theorem execute_stage_dispatches_the_registry_only
    (stage : string) (plan : VMMigrationPlan) (state : MigrationState) (w : World) :
  if decide (stage ∈ STAGES)
  then invoked (_execute_stage stage plan state w).2 = invoked w ++ [stage] /\
       store (_execute_stage stage plan state w).2 = store w
  else _execute_stage stage plan state w
       = (Raise (NotImplementedError ("Stage '" +:+ stage +:+ "' not implemented yet")),
          state, w).
Proof.
  case_decide as Hs.
  - destruct (_execute_stage stage plan state w) as [[r st'] w'] eqn:E.
    apply execute_stage_spec in E as (Hi & Hst & _); [done|].
    by apply handler_of_registered_stage.
  - unfold _execute_stage. by rewrite (handler_only_for_registered_stage _ Hs).
Qed.

(** The line [dry_run] logs for a stage: marked when [run] would leave the
    stage out. *)
Definition announced (plan : VMMigrationPlan) (i : nat) (stage : string) : LogLine :=
  (INFO, if decide (stage ∈ stages_to_run plan)
         then "  " +:+ pretty (S i) +:+ ". " +:+ stage
         else "  " +:+ pretty (S i) +:+ ". " +:+ stage +:+ " [dim](skipped)[/dim]").

Lemma dry_run_stages_logs plan i stages w :
  (forall s, s ∈ stages -> s ∈ STAGES) ->
  store (dry_run_stages plan (S i) stages w) = store w /\
  site (dry_run_stages plan (S i) stages w) = site w /\
  invoked (dry_run_stages plan (S i) stages w) = invoked w /\
  log (dry_run_stages plan (S i) stages w)
  = log w ++ imap (fun j => announced plan (i + j)) stages.
Proof.
  revert i w. induction stages as [|stage stages IH]; intros i w Hreg.
  - simpl. by rewrite app_nil_r.
  - assert (forall s, s ∈ stages -> s ∈ STAGES) as Hrest
      by (intros s Hs; apply Hreg; by right).
    assert (stage ∈ stages_to_run plan
            <-> ~ (plan_skip_validation plan = true /\ stage = "validate")) as Hrun.
    { unfold stages_to_run. destruct (plan_skip_validation plan).
      - rewrite list_elem_of_filter. split; [intros [Hne _] [_ Heq]; done|].
        intros Hn. split; [intros Heq; by apply Hn|]. apply Hreg. by left.
      - split; [by intros _ [? _]|]. intros _. apply Hreg. by left. }
    cbn [dry_run_stages imap].
    set (w1 := if plan_skip_validation plan && bool_decide (stage = "validate")
               then logger_info ("  " +:+ pretty (S i) +:+ ". " +:+ stage
                                 +:+ " [dim](skipped)[/dim]") w
               else logger_info ("  " +:+ pretty (S i) +:+ ". " +:+ stage) w).
    destruct (IH (S i) w1 Hrest) as (Hs & Hsi & Hi & Hlog).
    assert (store w1 = store w /\ site w1 = site w /\ invoked w1 = invoked w /\
            log w1 = log w ++ [announced plan (i + 0) stage]) as (Hs1 & Hsi1 & Hi1 & Hl1).
    { rewrite Nat.add_0_r. unfold w1, announced.
      destruct (decide (stage ∈ stages_to_run plan)) as [Hin|Hout].
      - apply Hrun in Hin.
        destruct (plan_skip_validation plan) eqn:Hskip; [|done].
        case_bool_decide as Heq; [|done]. by destruct Hin.
      - destruct (plan_skip_validation plan) eqn:Hskip.
        + case_bool_decide as Heq; [done|]. exfalso. apply Hout, Hrun. by intros [_ ?].
        + exfalso. apply Hout, Hrun. by intros [? _]. }
    split; [by rewrite Hs|]. split; [by rewrite Hsi|]. split; [by rewrite Hi|].
    rewrite Hlog, Hl1, <- (assoc_L (++)). f_equal. simpl. f_equal.
    apply imap_ext. intros j s _. simpl. by rewrite Nat.add_succ_r.
Qed.

(** X18: [dry_run] only logs: three header lines, then one numbered line
    per stage of the registry, in order, carrying the skipped mark
    exactly for the stages [run] would leave out for the same plan.  It
    calls no handler, saves nothing and leaves the site alone. *)
Theorem dry_run_announces_what_run_would_dispatch
    (plan : VMMigrationPlan) (w : World) :
  store (dry_run plan w) = store w /\
  site (dry_run plan w) = site w /\
  invoked (dry_run plan w) = invoked w /\
  log (dry_run plan w)
  = log w
    ++ [ (INFO, "[yellow]DRY RUN for VM '" +:+ plan_vm_name plan +:+ "'[/yellow]");
         (INFO, "Target: " +:+ plan_target_type plan +:+ " in " +:+ plan_zone plan);
         (INFO, "Stages that would execute:") ]
    ++ imap (announced plan) STAGES.
Proof.
  unfold dry_run.
  destruct (dry_run_stages_logs plan 0 STAGES
              (logger_info "Stages that would execute:"
                 (logger_info ("Target: " +:+ plan_target_type plan +:+ " in "
                               +:+ plan_zone plan)
                    (logger_info ("[yellow]DRY RUN for VM '" +:+ plan_vm_name plan
                                  +:+ "'[/yellow]") w))))
    as (Hs & Hsi & Hi & Hlog); [done|].
  split; [by rewrite Hs|]. split; [by rewrite Hsi|]. split; [by rewrite Hi|].
  rewrite Hlog. simpl. by rewrite <- !(assoc_L (++)).
Qed.

(** ** Handlers that leave the state alone *)

Lemma ks_artifacts_get k : keeps_state (artifacts_get k).
Proof. by intros h r h' [= <- <-]. Qed.

Lemma ks_artifacts_get_list k : keeps_state (artifacts_get_list k).
Proof.
  unfold artifacts_get_list. apply ks_bind; [apply ks_artifacts_get|].
  intros a. apply ks_ret.
Qed.

Lemma ks_artifacts_get_dict k : keeps_state (artifacts_get_dict k).
Proof.
  unfold artifacts_get_dict. apply ks_bind; [apply ks_artifacts_get|].
  intros a. apply ks_ret.
Qed.

Ltac keeps_state_tac :=
  repeat first
    [ apply ks_ret | apply ks_raise | apply ks_logger | apply ks_call
    | apply ks_artifacts_get_list | apply ks_artifacts_get_dict
    | apply ks_artifacts_get
    | apply ks_bind; [|intros]
    | case_match | case_decide ].

Lemma reading_handlers_keep_state stage handler plan :
  stage ∈ ["clean_tools"; "fix_bootloader"; "ensure_uefi"; "fix_network";
           "verify"] ->
  getattr_stage stage handler_table = Some handler ->
  keeps_state (handler plan).
Proof.
  intros Hstage Hh.
  repeat (apply elem_of_cons in Hstage as [->|Hstage]);
    [| | | | |by apply elem_of_nil in Hstage].
  all: injection Hh as <-.
  all: unfold _stage_clean_tools, _stage_fix_bootloader, _stage_ensure_uefi,
      _stage_fix_network, _stage_verify.
  all: keeps_state_tac.
Qed.

(** X19: the handlers of [clean_tools], [fix_bootloader], [ensure_uefi],
    [fix_network] and [verify] never write to the migration state:
    whatever their collaborators do, and whether they return or raise, the
    state object and the state store are as before. *)
Theorem disk_preparation_and_verify_never_write_the_state
    (stage : string) (plan : VMMigrationPlan) (state : MigrationState) (w : World) :
  stage ∈ ["clean_tools"; "fix_bootloader"; "ensure_uefi"; "fix_network";
           "verify"] ->
  (_execute_stage stage plan state w).1.2 = state /\
  store (_execute_stage stage plan state w).2 = store w.
Proof.
  intros Hstage.
  assert (stage ∈ STAGES) as Hreg.
  { repeat (apply elem_of_cons in Hstage as [->|Hstage]);
      [| | | | |by apply elem_of_nil in Hstage];
      by apply (bool_decide_unpack _). }
  destruct (handler_of_registered_stage stage Hreg) as [handler Hh].
  pose proof (reading_handlers_keep_state stage handler plan Hstage Hh) as Hks.
  unfold _execute_stage. rewrite Hh.
  destruct (handler plan (mkH state (site w) (log w))) as [r h'] eqn:E.
  apply Hks in E. simpl in *. by rewrite E.
Qed.

(** ** [_stage_import_scw] *)

(** X20: given a bucket and at least one key, [_stage_import_scw] makes
    three cloud calls at most, each on the site the one before left, and
    nothing else touches the site: it imports the first key, and no other,
    from the bucket under the name [vmware2scw-<vm>-<id>], waits for the
    snapshot this returned, and creates the image [migrated-<vm>] from that
    snapshot.  Each resource is recorded as soon as it exists: when the
    import raises, the state is unchanged; once it has returned, the
    identifier it returned is in the bag under [scaleway_snapshot_id], also
    when waiting or the image creation then raises; after a normal return
    the bag holds in addition, under [scaleway_image_id], the identifier
    that the image creation returned, and is otherwise as before. *)
Theorem import_scw_records_each_resource_as_soon_as_it_exists
    (plan : VMMigrationPlan) (h : HState) (b : Artifact) (boot_key : string)
    (other_keys : list string) :
  artifacts (h_state h) !! "s3_bucket" = Some b ->
  artifacts (h_state h) !! "s3_keys" = Some (AList (boot_key :: other_keys)) ->
  let bucket := match b with AStr s => s | _ => "" end in
  let created :=
    create_snapshot_from_s3 (plan_zone plan)
      ("vmware2scw-" +:+ plan_vm_name plan +:+ "-" +:+ migration_id (h_state h))
      bucket boot_key (h_site h) in
  let run := _stage_import_scw plan h in
  match created.1 with
  | Raise e =>
      run.1 = Raise e /\ h_state run.2 = h_state h /\ h_site run.2 = created.2
  | Ok snapshot_id =>
      let recorded :=
        <["scaleway_snapshot_id" := AStr snapshot_id]> (artifacts (h_state h)) in
      let waited := wait_for_snapshot (plan_zone plan) snapshot_id created.2 in
      match waited.1 with
      | Raise e =>
          run.1 = Raise e /\
          h_state run.2 = set_artifacts recorded (h_state h) /\
          h_site run.2 = waited.2
      | Ok _ =>
          let made :=
            create_image (plan_zone plan) ("migrated-" +:+ plan_vm_name plan)
                         snapshot_id waited.2 in
          h_site run.2 = made.2 /\
          match made.1 with
          | Raise e =>
              run.1 = Raise e /\ h_state run.2 = set_artifacts recorded (h_state h)
          | Ok image =>
              run.1 = Ok tt /\
              h_state run.2
              = set_artifacts (<["scaleway_image_id" := AStr image]> recorded)
                              (h_state h)
          end
      end
  end.
Proof.
  intros Hb Hk bucket created run. subst run created.
  unfold _stage_import_scw.
  rewrite (bind_ok _ _ _ _ _ (eq_refl : get_st h = (Ok h, h))).
  assert (artifacts_getitem "s3_bucket" h = (Ok b, h)) as Hget.
  { unfold artifacts_getitem, artifacts_get, mbind, M_bind. simpl. by rewrite Hb. }
  rewrite (bind_ok _ _ _ _ _ Hget).
  assert (artifacts_get_list "s3_keys" h = (Ok (boot_key :: other_keys), h)) as Hkeys.
  { unfold artifacts_get_list, artifacts_get, mbind, M_bind. simpl. by rewrite Hk. }
  rewrite (bind_ok _ _ _ _ _ Hkeys). fold bucket.
  unfold mbind, M_bind, logger, modify, call, artifacts_set. simpl.
  destruct (create_snapshot_from_s3 _ _ _ _ _) as [[sid|e] s1]; simpl; [|done].
  destruct (wait_for_snapshot _ _ _) as [[[]|e] s2]; simpl; [|done].
  destruct (create_image _ _ _ _) as [[image|e] s3]; simpl; done.
Qed.

(** ** Windows guests, and disks that already boot in UEFI mode *)

(** [os_family] as the handlers compute it, with their default for a
    missing [guest_os]. *)
Definition os_family_of (default_os : string) (state : MigrationState) : string :=
  let vm_info_dict := match artifacts state !! "vm_info" with
                      | Some (ADict d) => d
                      | _ => ∅
                      end in
  (get_os_family (default default_os (vm_info_dict !! "guest_os"))).1.

(** X21: for a Windows guest [_stage_fix_bootloader] runs nothing: it
    returns normally with the state and the site as they were, whatever
    disks are listed. *)
Theorem fix_bootloader_runs_nothing_for_windows
    (plan : VMMigrationPlan) (h : HState) :
  os_family_of "" (h_state h) = "windows" ->
  (_stage_fix_bootloader plan h).1 = Ok tt /\
  h_state (_stage_fix_bootloader plan h).2 = h_state h /\
  h_site (_stage_fix_bootloader plan h).2 = h_site h.
Proof.
  unfold os_family_of. intros Hwin. unfold _stage_fix_bootloader.
  rewrite (bind_ok _ _ _ _ _ (artifacts_get_dict_eq "vm_info" h)).
  unfold artifacts_get_list, artifacts_get, mbind, M_bind, mret, M_ret. simpl.
  destruct (match artifacts (h_state h) !! "qcow2_paths" with
            | Some (AList l) => l
            | _ => []
            end) as [|boot_disk rest]; [done|].
  by rewrite decide_True.
Qed.

(** X22: [_stage_ensure_uefi] converts nothing when the boot disk is
    detected as UEFI, and nothing for a Windows guest: all it runs then is
    the detection on the first disk, and it returns normally with the
    state unchanged. *)
Theorem ensure_uefi_converts_neither_uefi_disks_nor_windows_guests
    (plan : VMMigrationPlan) (h : HState) (boot_disk boot_type : string)
    (data_disks : list string) :
  artifacts (h_state h) !! "qcow2_paths" = Some (AList (boot_disk :: data_disks)) ->
  (detect_boot_type boot_disk (h_site h)).1 = Ok boot_type ->
  boot_type = "uefi" \/ os_family_of "" (h_state h) = "windows" ->
  (_stage_ensure_uefi plan h).1 = Ok tt /\
  h_state (_stage_ensure_uefi plan h).2 = h_state h /\
  h_site (_stage_ensure_uefi plan h).2 = (detect_boot_type boot_disk (h_site h)).2.
Proof.
  unfold os_family_of. intros Hq Hdetect Hcase. unfold _stage_ensure_uefi.
  rewrite (bind_ok _ _ _ _ _ (artifacts_get_dict_eq "vm_info" h)).
  unfold artifacts_get_list, artifacts_get, mbind, M_bind, mret, M_ret, call. simpl.
  rewrite Hq.
  destruct (detect_boot_type boot_disk (h_site h)) as [r s1]. simpl in *. subst r.
  simpl. destruct (decide (boot_type = "uefi")) as [|Hbios]; [done|].
  destruct Hcase as [|Hwin]; [done|]. by rewrite decide_True.
Qed.

End Loops.

(** ** The handlers on concrete sites *)

Import Scenario.

(** A site like [flaky 0] for guests whose [guest_os] starts with
    [windows], with disks that boot in BIOS mode. *)
Definition windows_shop : Collaborators := {|
  Remote := list string;
  uuid8 := @uuid8 (flaky 0);
  time_time := @time_time (flaky 0);
  datetime_now := @datetime_now (flaky 0);
  fmt_elapsed := @fmt_elapsed (flaky 0);
  fmt_mb := @fmt_mb (flaky 0);
  path_name := @path_name (flaky 0);
  path_with_suffix := @path_with_suffix (flaky 0);
  compress_qcow2 := true;
  default_skip_validation := false;
  get_os_family := fun g =>
    if String.prefix "windows" g then ("windows", g) else ("linux", g);
  cleaner_clean := @cleaner_clean (flaky 0);
  converter_check := @converter_check (flaky 0);
  converter_convert := @converter_convert (flaky 0);
  run_command_direct_nocheck := @run_command_direct_nocheck (flaky 0);
  detect_boot_type := fun d => note ("detect " +:+ d) (Ok "bios");
  convert_bios_to_uefi := @convert_bios_to_uefi (flaky 0);
  create_snapshot_from_s3 := @create_snapshot_from_s3 (flaky 0);
  wait_for_snapshot := @wait_for_snapshot (flaky 0);
  create_image := @create_image (flaky 0);
  inject_virtio_body := @inject_virtio_body (flaky 0);
  validate_body := @validate_body (flaky 0);
  snapshot_body := @snapshot_body (flaky 0);
  export_body := @export_body (flaky 0);
  upload_s3_body := @upload_s3_body (flaky 0);
  cleanup_body := @cleanup_body (flaky 0)
|}.

Definition linux_plan : VMMigrationPlan := mkPlan "linux_plan" "PRO2-S" "fr-par-1" false.

(** A Linux migration with one converted disk, and one whose disk is
    uploaded. *)
Definition linux_converted : MigrationState :=
  mkState "a1b2c3d4" "linux_plan" "PRO2-S" "fr-par-1" "clean_tools"
          ["validate"; "snapshot"; "export"; "convert"]
          {[ "vm_info" := ADict {[ "guest_os" := "ubuntu64Guest" ]};
             "qcow2_paths" := AList ["/work/disk0.qcow2"] ]} 0 None.

Definition linux_uploaded : MigrationState :=
  mkState "a1b2c3d4" "linux_plan" "PRO2-S" "fr-par-1" "import_scw"
          ["validate"; "snapshot"; "export"; "convert"]
          {[ "s3_bucket" := AStr "transit";
             "s3_keys" := AList ["migrations/a1b2c3d4/disk0.qcow2";
                                 "migrations/a1b2c3d4/disk1.qcow2"] ]} 0 None.

(** A Windows migration with a boot disk and a data disk. *)
Definition windows_converted : MigrationState :=
  mkState "a1b2c3d4" "win01" "PRO2-S" "fr-par-1" "fix_bootloader"
          ["validate"; "snapshot"; "export"; "convert"]
          {[ "vm_info" := ADict {[ "guest_os" := "windows2019srv_64Guest" ]};
             "qcow2_paths" := AList ["/work/disk0.qcow2"; "/work/disk1.qcow2"] ]}
          0 None.

Definition on_linux_site (st : MigrationState) : @HState (flaky 0) :=
  @mkH (flaky 0) st empty_site [].

Definition on_windows_site (st : MigrationState) : @HState windows_shop :=
  @mkH windows_shop st empty_site [].

Lemma disk_preparation_and_verify_witness :
  "clean_tools" ∈ ["clean_tools"; "fix_bootloader"; "ensure_uefi"; "fix_network";
                   "verify"] /\
  (_execute_stage "clean_tools" linux_plan linux_converted
     (world_with (flaky 0) empty_site linux_converted)).1.2 = linux_converted /\
  store (_execute_stage "clean_tools" linux_plan linux_converted
           (world_with (flaky 0) empty_site linux_converted)).2
  = store (world_with (flaky 0) empty_site linux_converted).
Proof.
  assert ("clean_tools" ∈ ["clean_tools"; "fix_bootloader"; "ensure_uefi";
                           "fix_network"; "verify"]) as Hin
    by (by apply (bool_decide_unpack _)).
  split; [exact Hin|].
  exact (@disk_preparation_and_verify_never_write_the_state (flaky 0)
           "clean_tools" linux_plan linux_converted
           (world_with (flaky 0) empty_site linux_converted) Hin).
Defined.

Lemma import_scw_records_witness :
  artifacts (h_state (on_linux_site linux_uploaded)) !! "s3_bucket"
  = Some (AStr "transit") /\
  artifacts (h_state (on_linux_site linux_uploaded)) !! "s3_keys"
  = Some (AList ("migrations/a1b2c3d4/disk0.qcow2"
                 :: ["migrations/a1b2c3d4/disk1.qcow2"])) /\
  let bucket := match AStr "transit" with AStr s => s | _ => "" end in
  let created :=
    @create_snapshot_from_s3 (flaky 0) (plan_zone linux_plan)
      ("vmware2scw-" +:+ plan_vm_name linux_plan +:+ "-"
       +:+ migration_id (h_state (on_linux_site linux_uploaded)))
      bucket "migrations/a1b2c3d4/disk0.qcow2"
      (h_site (on_linux_site linux_uploaded)) in
  let run := @_stage_import_scw (flaky 0) linux_plan (on_linux_site linux_uploaded) in
  match created.1 with
  | Raise e =>
      run.1 = Raise e /\ h_state run.2 = h_state (on_linux_site linux_uploaded) /\
      h_site run.2 = created.2
  | Ok snapshot_id =>
      let recorded :=
        <["scaleway_snapshot_id" := AStr snapshot_id]>
          (artifacts (h_state (on_linux_site linux_uploaded))) in
      let waited :=
        @wait_for_snapshot (flaky 0) (plan_zone linux_plan) snapshot_id created.2 in
      match waited.1 with
      | Raise e =>
          run.1 = Raise e /\
          h_state run.2
          = set_artifacts recorded (h_state (on_linux_site linux_uploaded)) /\
          h_site run.2 = waited.2
      | Ok _ =>
          let made :=
            @create_image (flaky 0) (plan_zone linux_plan)
                          ("migrated-" +:+ plan_vm_name linux_plan)
                          snapshot_id waited.2 in
          h_site run.2 = made.2 /\
          match made.1 with
          | Raise e =>
              run.1 = Raise e /\
              h_state run.2
              = set_artifacts recorded (h_state (on_linux_site linux_uploaded))
          | Ok image =>
              run.1 = Ok tt /\
              h_state run.2
              = set_artifacts (<["scaleway_image_id" := AStr image]> recorded)
                              (h_state (on_linux_site linux_uploaded))
          end
      end
  end.
Proof.
  split; [reflexivity|]. split; [reflexivity|].
  apply (@import_scw_records_each_resource_as_soon_as_it_exists (flaky 0) linux_plan
           (on_linux_site linux_uploaded) (AStr "transit")
           "migrations/a1b2c3d4/disk0.qcow2" ["migrations/a1b2c3d4/disk1.qcow2"]);
    reflexivity.
Defined.

Lemma fix_bootloader_windows_witness :
  @os_family_of windows_shop "" (h_state (on_windows_site windows_converted))
  = "windows" /\
  (@_stage_fix_bootloader windows_shop linux_plan (on_windows_site windows_converted)).1
  = Ok tt /\
  h_state (@_stage_fix_bootloader windows_shop linux_plan
             (on_windows_site windows_converted)).2
  = h_state (on_windows_site windows_converted) /\
  h_site (@_stage_fix_bootloader windows_shop linux_plan
            (on_windows_site windows_converted)).2
  = h_site (on_windows_site windows_converted).
Proof.
  assert (@os_family_of windows_shop ""
            (h_state (on_windows_site windows_converted)) = "windows") as Hwin
    by (vm_compute; reflexivity).
  split; [exact Hwin|].
  exact (@fix_bootloader_runs_nothing_for_windows windows_shop linux_plan
           (on_windows_site windows_converted) Hwin).
Defined.

Lemma ensure_uefi_windows_witness :
  artifacts (h_state (on_windows_site windows_converted)) !! "qcow2_paths"
  = Some (AList ("/work/disk0.qcow2" :: ["/work/disk1.qcow2"])) /\
  (@detect_boot_type windows_shop "/work/disk0.qcow2"
     (h_site (on_windows_site windows_converted))).1 = Ok "bios" /\
  ("bios" = "uefi" \/
   @os_family_of windows_shop "" (h_state (on_windows_site windows_converted))
   = "windows") /\
  (@_stage_ensure_uefi windows_shop linux_plan (on_windows_site windows_converted)).1
  = Ok tt /\
  h_state (@_stage_ensure_uefi windows_shop linux_plan
             (on_windows_site windows_converted)).2
  = h_state (on_windows_site windows_converted) /\
  h_site (@_stage_ensure_uefi windows_shop linux_plan
            (on_windows_site windows_converted)).2
  = (@detect_boot_type windows_shop "/work/disk0.qcow2"
       (h_site (on_windows_site windows_converted))).2.
Proof.
  assert (artifacts (h_state (on_windows_site windows_converted)) !! "qcow2_paths"
          = Some (AList ("/work/disk0.qcow2" :: ["/work/disk1.qcow2"]))) as Hq
    by (vm_compute; reflexivity).
  assert ("bios" = "uefi" \/
          @os_family_of windows_shop ""
            (h_state (on_windows_site windows_converted)) = "windows") as Hcase
    by (right; vm_compute; reflexivity).
  split; [exact Hq|]. split; [reflexivity|]. split; [exact Hcase|].
  exact (@ensure_uefi_converts_neither_uefi_disks_nor_windows_guests windows_shop linux_plan
           (on_windows_site windows_converted) "/work/disk0.qcow2" "bios"
           ["/work/disk1.qcow2"] Hq eq_refl Hcase).
Defined.

End OrchestratorFacts.

(** * The handlers that only talk to services *)

Module StageServicesFacts.
Import Py Pipeline StageServices PyFacts.

Section Journal.
Context {V : Services}.

(** [m] leaves the state object as it found it, whether it returns or
    raises. *)
Definition steady {A} (m : S A) : Prop :=
  forall s r s', m s = (r, s') -> s_state s' = s_state s.

Lemma steady_ret {A} (a : A) : steady (mret a).
Proof. by intros s r s' [= <- <-]. Qed.

Lemma steady_raise {A} (e : PyExn) : steady (raise e : S A).
Proof. by intros s r s' [= <- <-]. Qed.

Lemma steady_bind {A B} (m : S A) (f : A -> S B) :
  steady m -> (forall a, steady (f a)) -> steady (m ≫= f).
Proof.
  intros Hm Hf s r s'. unfold mbind, M_bind.
  destruct (m s) as [[a|e] s1] eqn:E1.
  - intros E2. by rewrite (Hf _ _ _ _ E2), (Hm _ _ _ E1).
  - intros [= <- <-]. by apply (Hm _ _ _ E1).
Qed.

Lemma steady_logger lvl msg : steady (logger lvl msg).
Proof. by intros s r s' [= <- <-]. Qed.

Lemma steady_ask {A} (event : Res A -> Event) (c : Ext -> Res A * Ext) :
  steady (ask event c).
Proof. intros s r s'. unfold ask. destruct (c (s_ext s)). by intros [= <- <-]. Qed.

Lemma steady_get_st : steady (get_st : S SState).
Proof. by intros s r s' [= <- <-]. Qed.

Lemma steady_artifacts_get k : steady (artifacts_get k).
Proof. by intros s r s' [= <- <-]. Qed.

Lemma steady_artifacts_get_list k : steady (artifacts_get_list k).
Proof.
  unfold artifacts_get_list. apply steady_bind; [apply steady_artifacts_get|].
  intros a. apply steady_ret.
Qed.

Lemma steady_try_except {A} (m : S A) (h : PyExn -> S A) :
  steady m -> (forall e, steady (h e)) -> steady (try_except m h).
Proof.
  intros Hm Hh s r s'. unfold try_except.
  destruct (m s) as [[a|e] s1] eqn:E1.
  - intros [= <- <-]. by apply (Hm _ _ _ E1).
  - intros E2. by rewrite (Hh _ _ _ _ E2), (Hm _ _ _ E1).
Qed.

Lemma steady_for_each {A} (l : list A) (body : A -> S unit) :
  (forall a, steady (body a)) -> steady (for_each l body).
Proof.
  intros Hb. induction l as [|a l IH]; simpl.
  - apply steady_ret.
  - apply steady_bind; [apply Hb|intros _; apply IH].
Qed.

(** [m] never raises. *)
Definition safe {A} (m : S A) : Prop :=
  forall s, exists a, (m s).1 = Ok a.

Lemma safe_ret {A} (a : A) : safe (mret a : S A).
Proof. intros s. by exists a. Qed.

Lemma safe_logger lvl msg : safe (logger lvl msg).
Proof. intros s. by exists tt. Qed.

Lemma safe_bind {A B} (m : S A) (f : A -> S B) :
  safe m -> (forall a, safe (f a)) -> safe (m ≫= f).
Proof.
  intros Hm Hf s. unfold mbind, M_bind. destruct (Hm s) as [a Ha].
  destruct (m s) as [[a'|e] s1]; simpl in Ha; [|done]. apply Hf.
Qed.

Lemma safe_try_except {A} (m : S A) (h : PyExn -> S A) :
  (forall e, safe (h e)) -> safe (try_except m h).
Proof.
  intros Hh s. unfold try_except. destruct (m s) as [[a|e] s1]; [by exists a|].
  apply Hh.
Qed.

Lemma safe_for_each {A} (l : list A) (body : A -> S unit) :
  (forall a, safe (body a)) -> safe (for_each l body).
Proof.
  intros Hb. induction l as [|a l IH]; simpl.
  - apply safe_ret.
  - apply safe_bind; [apply Hb|intros _; apply IH].
Qed.

Lemma safe_artifacts_get k : safe (artifacts_get k).
Proof. intros s. by eexists. Qed.

Lemma safe_artifacts_get_list k : safe (artifacts_get_list k).
Proof. intros s. by eexists. Qed.

(** From [s], [m] adds to the journal a list of events that satisfies
    [Q], a property closed under concatenation. *)
Definition emits (Q : list Event -> Prop) {A} (m : S A) (s : SState) : Prop :=
  exists tr, s_journal (m s).2 = s_journal s ++ tr /\ Q tr.

Section Emits.
Variable Q : list Event -> Prop.
Hypothesis Qnil : Q [].
Hypothesis Qapp : forall t1 t2, Q t1 -> Q t2 -> Q (t1 ++ t2).

Lemma emits_silent {A} (m : S A) s :
  s_journal (m s).2 = s_journal s -> emits Q m s.
Proof. intros H. exists []. by rewrite app_nil_r. Qed.

Lemma emits_ask {A} (event : Res A -> Event) (c : Ext -> Res A * Ext) s :
  Q [event (c (s_ext s)).1] -> emits Q (ask event c) s.
Proof.
  intros H. unfold emits, ask. destruct (c (s_ext s)) as [r x]. simpl in *.
  by eexists.
Qed.

Lemma emits_bind {A B} (m : S A) (f : A -> S B) s :
  emits Q m s ->
  (forall a, (m s).1 = Ok a -> emits Q (f a) (m s).2) ->
  emits Q (m ≫= f) s.
Proof.
  intros (tr & Htr & Hq) Hf. unfold emits, mbind, M_bind.
  destruct (m s) as [[a|e] s1]; simpl in *.
  - destruct (Hf a eq_refl) as (tr2 & Htr2 & Hq2).
    exists (tr ++ tr2). split; [by rewrite Htr2, Htr, (assoc_L (++))|by apply Qapp].
  - by exists tr.
Qed.

Lemma emits_try_except {A} (m : S A) (h : PyExn -> S A) s :
  emits Q m s ->
  (forall e, (m s).1 = Raise e -> emits Q (h e) (m s).2) ->
  emits Q (try_except m h) s.
Proof.
  intros (tr & Htr & Hq) Hh. unfold emits, try_except.
  destruct (m s) as [[a|e] s1]; simpl in *.
  - by exists tr.
  - destruct (Hh e eq_refl) as (tr2 & Htr2 & Hq2).
    exists (tr ++ tr2). split; [by rewrite Htr2, Htr, (assoc_L (++))|by apply Qapp].
Qed.

Lemma emits_for_each {A} (l : list A) (body : A -> S unit) s :
  (forall a s, a ∈ l -> emits Q (body a) s) -> emits Q (for_each l body) s.
Proof.
  revert s. induction l as [|a l IH]; intros s Hb; simpl.
  - by apply emits_silent.
  - apply emits_bind; [apply Hb; by left|]. intros _ _. apply IH.
    intros b s' Hin. apply Hb. by right.
Qed.

End Emits.

Lemma emits_new_events Q {A} (m : S A) s :
  emits Q m s -> Q (new_events s (m s).2).
Proof.
  intros (tr & Htr & Hq). unfold new_events. by rewrite Htr, drop_app_length.
Qed.

Lemma ask_runs {A} (event : Res A -> Event) (c : Ext -> Res A * Ext) s :
  ask event c s
  = ((c (s_ext s)).1,
     mkS (s_state s) (c (s_ext s)).2 (s_log s) (s_journal s ++ [event (c (s_ext s)).1])).
Proof. unfold ask. by destruct (c (s_ext s)). Qed.

(** [state.artifacts.get(k, [])] *)
Definition listed (k : string) (state : MigrationState) : list string :=
  match artifacts state !! k with
  | Some (AList l) => l
  | _ => []
  end.

(** ** [_stage_upload_s3] *)

Lemma steady_upload_one bucket id q : steady (upload_one bucket id q).
Proof.
  unfold upload_one. apply steady_bind; [apply steady_ask|]. intros present.
  apply steady_bind.
  - destruct present; [|apply steady_ret].
    apply steady_bind; [apply steady_ask|]. intros n.
    apply steady_bind; [apply steady_ask|]. intros m.
    case_decide; [|apply steady_ret].
    apply steady_bind; [apply steady_logger|]. intros _. apply steady_ret.
  - intros []; [apply steady_ret|].
    apply steady_bind; [apply steady_ask|]. intros _. apply steady_ret.
Qed.

Lemma upload_one_key bucket id q s key s' :
  upload_one bucket id q s = (Ok key, s') -> key = object_key id q.
Proof.
  unfold upload_one. intros H.
  apply bind_ok_inv in H as (present & s1 & _ & H).
  apply bind_ok_inv in H as (skipped & s2 & _ & H).
  destruct skipped; [by injection H as <- _|].
  apply bind_ok_inv in H as ([] & s3 & _ & H). by injection H as <- _.
Qed.

Lemma upload_all_spec bucket id qs acc s r s' :
  upload_all bucket id qs acc s = (r, s') ->
  s_state s' = s_state s /\
  forall keys, r = Ok keys -> keys = acc ++ map (object_key id) qs.
Proof.
  revert acc s. induction qs as [|q qs IH]; intros acc s; simpl.
  - intros [= <- <-]. split; [done|]. intros keys [= <-]. by rewrite app_nil_r.
  - unfold mbind, M_bind.
    destruct (upload_one bucket id q s) as [[key|e] s1] eqn:E1.
    + pose proof (steady_upload_one _ _ _ _ _ _ E1) as Hst.
      apply upload_one_key in E1 as ->.
      intros E2. apply IH in E2 as [Hst2 Hkeys]. split; [congruence|].
      intros keys Hr. rewrite (Hkeys keys Hr). by rewrite <- (assoc_L (++)).
    + pose proof (steady_upload_one _ _ _ _ _ _ E1) as Hst.
      intros [= <- <-]. split; [done|]. by intros keys [=].
Qed.

(** X23: when [_stage_upload_s3] returns, the bag lists one key per disk
    of [qcow2_paths], in order, each [migrations/<id>/<file name>], whether
    the disk was uploaded or found in the bucket, and holds the configured
    bucket; nothing else changed.  When it raises, the state is exactly as
    it was: keys of disks already uploaded are not recorded. *)
Theorem upload_s3_records_one_key_per_disk_or_nothing
    (plan : VMMigrationPlan) (s : SState) :
  match (_stage_upload_s3 plan s).1 with
  | Ok _ =>
      s_state (_stage_upload_s3 plan s).2
      = set_artifacts
          (<["s3_bucket" := AStr config_s3_bucket]>
             (<["s3_keys" := AList (map (object_key (migration_id (s_state s)))
                                        (listed "qcow2_paths" (s_state s)))]>
                (artifacts (s_state s))))
          (s_state s)
  | Raise _ => s_state (_stage_upload_s3 plan s).2 = s_state s
  end.
Proof.
  unfold _stage_upload_s3, mbind, M_bind, ask. simpl.
  destruct (s3_open (s_ext s)) as [[[]|e] x1]; simpl; [|done].
  destruct (create_bucket_if_not_exists config_s3_bucket x1) as [[[]|e] x2];
    simpl; [|done].
  fold (listed "qcow2_paths" (s_state s)).
  destruct (upload_all _ _ _ _ _) as [[keys|e] s3] eqn:E;
    apply upload_all_spec in E as [Hst Hkeys]; simpl in *; [|done].
  rewrite (Hkeys keys eq_refl). simpl. by rewrite Hst.
Qed.

(** Every upload of [tr] is of a disk of [qs] to its key in [bucket], and
    is needed: [tr] has a check that found no object under the key, or
    sizes that differ. *)
Definition uploads_needed (bucket id : string) (qs : list string) (tr : list Event)
    : Prop :=
  forall q b k r,
    ImageUploaded q b k r ∈ tr ->
    (b = bucket /\ k = object_key id q /\ q ∈ qs) /\
    (ObjectChecked b k (Ok false) ∈ tr \/
     exists n m, n <> m /\ ObjectSized b k (Ok n) ∈ tr /\ FileSized q (Ok m) ∈ tr).

Lemma uploads_needed_nil bucket id qs : uploads_needed bucket id qs [].
Proof. intros q b k r H. by apply elem_of_nil in H. Qed.

Lemma uploads_needed_app bucket id qs t1 t2 :
  uploads_needed bucket id qs t1 -> uploads_needed bucket id qs t2 ->
  uploads_needed bucket id qs (t1 ++ t2).
Proof.
  intros H1 H2 q b k r Hin. apply elem_of_app in Hin as [Hin|Hin].
  - destruct (H1 _ _ _ _ Hin) as [Hshape [Hc|(n & m & Hne & Hs & Hf)]].
    + split; [done|]. left. apply elem_of_app. by left.
    + split; [done|]. right. exists n, m. split; [done|].
      split; apply elem_of_app; by left.
  - destruct (H2 _ _ _ _ Hin) as [Hshape [Hc|(n & m & Hne & Hs & Hf)]].
    + split; [done|]. left. apply elem_of_app. by right.
    + split; [done|]. right. exists n, m. split; [done|].
      split; apply elem_of_app; by right.
Qed.

Lemma uploads_needed_more bucket id qs qs' tr :
  (forall q, q ∈ qs -> q ∈ qs') ->
  uploads_needed bucket id qs tr -> uploads_needed bucket id qs' tr.
Proof.
  intros Hsub H q b k r Hin. destruct (H _ _ _ _ Hin) as [(Hb & Hk & Hq) Hn].
  split; [|done]. split; [done|]. split; [done|]. by apply Hsub.
Qed.

(** What the journal [tr] says of the disk [q] and the key [k]: an upload
    of [q] to [k] returned normally, or the size read for the object under
    [k] is the size read for the local file. *)
Definition sent_or_matched (tr : list Event) (q b k : string) : Prop :=
  ImageUploaded q b k (Ok tt) ∈ tr \/
  exists n, ObjectSized b k (Ok n) ∈ tr /\ FileSized q (Ok n) ∈ tr.

Lemma sent_or_matched_app_l t1 t2 q b k : sent_or_matched t1 q b k -> sent_or_matched (t1 ++ t2) q b k.
Proof.
  intros [H|(n & Hs & Hf)]; [left|right; exists n; split]; apply elem_of_app; by left.
Qed.

Lemma sent_or_matched_app_r t1 t2 q b k : sent_or_matched t2 q b k -> sent_or_matched (t1 ++ t2) q b k.
Proof.
  intros [H|(n & Hs & Hf)]; [left|right; exists n; split]; apply elem_of_app; by right.
Qed.

Ltac event_cases H :=
  repeat (apply elem_of_cons in H as [H|H]; [try discriminate H|]);
  try (by apply elem_of_nil in H).

(** The events of one iteration. *)
Lemma upload_one_events bucket id q s :
  exists tr,
    s_journal (upload_one bucket id q s).2 = s_journal s ++ tr /\
    uploads_needed bucket id [q] tr /\
    (forall key, (upload_one bucket id q s).1 = Ok key ->
                 sent_or_matched tr q bucket (object_key id q)).
Proof.
  unfold upload_one, mbind, M_bind, ask, logger, modify, mret, M_ret. simpl.
  destruct (check_object_exists bucket (object_key id q) (s_ext s))
    as [[[]|e] x1]; simpl.
  - destruct (get_object_size bucket (object_key id q) x1) as [[n|e] x2]; simpl.
    + destruct (stat_size q x2) as [[m|e] x3]; simpl.
      * destruct (decide (n = m)) as [->|Hne]; simpl.
        -- eexists. split; [by rewrite <- !(assoc_L (++))|]. split.
           ++ intros q' b k r Hin. simpl in Hin. event_cases Hin.
           ++ intros key _. right. exists m. simpl.
              split; [apply list_elem_of_further, list_elem_of_here|].
              do 2 apply list_elem_of_further. apply list_elem_of_here.
        -- destruct (upload_image q bucket (object_key id q) x3) as [[[]|e] x4]; simpl.
           ++ eexists. split; [by rewrite <- !(assoc_L (++))|]. split.
              ** intros q' b k r Hin. simpl in Hin. event_cases Hin.
                 injection Hin as -> -> -> ->. split; [by repeat split; left|].
                 right. exists n, m. split; [done|].
                 split; [apply list_elem_of_further, list_elem_of_here|].
                 do 2 apply list_elem_of_further. apply list_elem_of_here.
              ** intros key _. left. simpl.
                 do 3 apply list_elem_of_further. apply list_elem_of_here.
           ++ eexists. split; [by rewrite <- !(assoc_L (++))|]. split; [|done].
              intros q' b k r Hin. simpl in Hin. event_cases Hin.
              injection Hin as -> -> -> ->. split; [by repeat split; left|].
              right. exists n, m. split; [done|].
              split; [apply list_elem_of_further, list_elem_of_here|].
              do 2 apply list_elem_of_further. apply list_elem_of_here.
      * eexists. split; [by rewrite <- !(assoc_L (++))|]. split; [|done].
        intros q' b k r Hin. simpl in Hin. event_cases Hin.
    + eexists. split; [by rewrite <- !(assoc_L (++))|]. split; [|done].
      intros q' b k r Hin. simpl in Hin. event_cases Hin.
  - destruct (upload_image q bucket (object_key id q) x1) as [[[]|e] x4]; simpl.
    + eexists. split; [by rewrite <- !(assoc_L (++))|]. split.
      * intros q' b k r Hin. simpl in Hin. event_cases Hin.
        injection Hin as -> -> -> ->. split; [by repeat split; left|].
        left. apply list_elem_of_here.
      * intros key _. left. simpl. apply list_elem_of_further, list_elem_of_here.
    + eexists. split; [by rewrite <- !(assoc_L (++))|]. split; [|done].
      intros q' b k r Hin. simpl in Hin. event_cases Hin.
      injection Hin as -> -> -> ->. split; [by repeat split; left|].
      left. apply list_elem_of_here.
  - eexists. split; [done|]. split; [|done].
    intros q' b k r Hin. simpl in Hin. event_cases Hin.
Qed.

Lemma upload_all_events bucket id qs acc s :
  exists tr,
    s_journal (upload_all bucket id qs acc s).2 = s_journal s ++ tr /\
    uploads_needed bucket id qs tr /\
    (forall keys, (upload_all bucket id qs acc s).1 = Ok keys ->
                  forall q, q ∈ qs -> sent_or_matched tr q bucket (object_key id q)).
Proof.
  revert acc s. induction qs as [|q qs IH]; intros acc s; simpl.
  - exists []. split; [by rewrite app_nil_r|]. split; [apply uploads_needed_nil|].
    intros keys _ q Hq. by apply elem_of_nil in Hq.
  - destruct (upload_one_events bucket id q s) as (t1 & Ht1 & Hn1 & Hb1).
    unfold mbind, M_bind.
    destruct (upload_one bucket id q s) as [[key|e] s1]; simpl in *.
    + destruct (IH (acc ++ [key]) s1) as (t2 & Ht2 & Hn2 & Hb2).
      exists (t1 ++ t2). split; [by rewrite Ht2, Ht1, (assoc_L (++))|]. split.
      * apply uploads_needed_app.
        -- apply (uploads_needed_more _ _ [q]); [|done].
           intros q' Hq'. apply list_elem_of_singleton in Hq' as ->. by left.
        -- apply (uploads_needed_more _ _ qs); [|done]. intros q' Hq'. by right.
      * intros keys Hok q' Hq'. apply elem_of_cons in Hq' as [->|Hq'].
        -- apply sent_or_matched_app_l. by apply (Hb1 key).
        -- apply sent_or_matched_app_r. by apply (Hb2 keys).
    + exists t1. split; [done|]. split; [|done].
      apply (uploads_needed_more _ _ [q]); [|done].
      intros q' Hq'. apply list_elem_of_singleton in Hq' as ->. by left.
Qed.

(** The events of [_stage_upload_s3]. *)
Lemma upload_s3_events plan s :
  let qs := listed "qcow2_paths" (s_state s) in
  let id := migration_id (s_state s) in
  exists tr,
    new_events s (_stage_upload_s3 plan s).2 = tr /\
    uploads_needed config_s3_bucket id qs tr /\
    ((_stage_upload_s3 plan s).1 = Ok tt ->
     forall q, q ∈ qs -> sent_or_matched tr q config_s3_bucket (object_key id q)).
Proof.
  intros qs id. subst qs id. unfold new_events.
  unfold _stage_upload_s3, mbind, M_bind, ask. simpl.
  destruct (s3_open (s_ext s)) as [[[]|e] x1]; simpl.
  2:{ eexists. split; [by rewrite drop_app_length|]. split; [|done].
      intros q b k r Hin. event_cases Hin. }
  destruct (create_bucket_if_not_exists config_s3_bucket x1) as [[[]|e] x2]; simpl.
  2:{ eexists. split; [by rewrite <- (assoc_L (++)), drop_app_length|].
      split; [|done]. intros q b k r Hin. simpl in Hin. event_cases Hin. }
  fold (listed "qcow2_paths" (s_state s)).
  set (s2 := mkS _ _ _ _).
  destruct (upload_all_events config_s3_bucket (migration_id (s_state s))
              (listed "qcow2_paths" (s_state s)) [] s2) as (tr & Htr & Hn & Hb).
  destruct (upload_all _ _ _ _ s2) as [[keys|e] s3]; simpl in *.
  - exists ([S3Opened (Ok tt); BucketEnsured config_s3_bucket (Ok tt)] ++ tr).
    split; [by rewrite Htr, <- !(assoc_L (++)), drop_app_length|]. split.
    + apply uploads_needed_app; [|done]. intros q b k r Hin. event_cases Hin.
    + intros _ q Hq. apply sent_or_matched_app_r. by apply (Hb keys).
  - exists ([S3Opened (Ok tt); BucketEnsured config_s3_bucket (Ok tt)] ++ tr).
    split; [by rewrite Htr, <- !(assoc_L (++)), drop_app_length|]. split; [|done].
    apply uploads_needed_app; [|done]. intros q b k r Hin. event_cases Hin.
Qed.

(** X24: [_stage_upload_s3] uploads only what the bucket lacks: every
    upload it starts, in a run that returns or raises, is of a disk of
    [qcow2_paths] to its key [migrations/<id>/<file name>] in the configured
    bucket, after a check that found no object under that key or after
    reading a remote size that differs from the size of the local file. *)
Theorem upload_s3_uploads_only_missing_or_changed_objects
    (plan : VMMigrationPlan) (s : SState) (q b k : string) (r : Res unit) :
  ImageUploaded q b k r ∈ new_events s (_stage_upload_s3 plan s).2 ->
  (b = config_s3_bucket /\ k = object_key (migration_id (s_state s)) q /\
   q ∈ listed "qcow2_paths" (s_state s)) /\
  (ObjectChecked b k (Ok false) ∈ new_events s (_stage_upload_s3 plan s).2 \/
   exists n m, n <> m /\
     ObjectSized b k (Ok n) ∈ new_events s (_stage_upload_s3 plan s).2 /\
     FileSized q (Ok m) ∈ new_events s (_stage_upload_s3 plan s).2).
Proof.
  destruct (upload_s3_events plan s) as (tr & -> & Hn & _). apply Hn.
Qed.

Lemma object_key_name (id q q' : string) :
  object_key id q' = object_key id q <-> path_name q' = path_name q.
Proof.
  unfold object_key. split; [|by intros ->].
  by intros ?%(inj (String.app _))%(inj (String.app _))%(inj (String.app _)).
Qed.

(** X25: when [_stage_upload_s3] returns, every disk of [qcow2_paths] has
    been dealt with in this run: the journal holds an upload of that disk
    to its key that returned normally, or a remote size read under its key
    together with the same size read for the local file.  This is a fact
    about the calls made, not about what the bucket holds afterwards: the
    key is [migrations/<id>/<file name>], so another disk has the same key
    exactly when it has the same file name, and an upload to a shared key
    replaces what an earlier one put there. *)
Theorem upload_s3_sends_or_matches_every_disk
    (plan : VMMigrationPlan) (s : SState) (q : string) :
  (_stage_upload_s3 plan s).1 = Ok tt ->
  q ∈ listed "qcow2_paths" (s_state s) ->
  sent_or_matched (new_events s (_stage_upload_s3 plan s).2) q config_s3_bucket
                  (object_key (migration_id (s_state s)) q) /\
  (forall q' : string,
      object_key (migration_id (s_state s)) q' = object_key (migration_id (s_state s)) q
      <-> path_name q' = path_name q).
Proof.
  intros Hok Hq. split; [|intros q'; apply object_key_name].
  destruct (upload_s3_events plan s) as (tr & -> & _ & Hb).
  by apply Hb.
Qed.

(** ** [_stage_cleanup] *)

(** The second and third part of [_stage_cleanup]: the VMware snapshot and
    the transit objects. *)
Definition clean_snapshot (plan : VMMigrationPlan) : S unit :=
  snap_name ← artifacts_get "snapshot_name";
  if truthy snap_name
  then
    try_except
      (ask Connected vsphere_connect;;
       ask (SnapshotDeleted (plan_vm_name plan) (text_of snap_name))
           (delete_migration_snapshot (plan_vm_name plan) (text_of snap_name));;
       ask Disconnected vsphere_disconnect;;
       logger INFO ("Deleted VMware snapshot: " +:+ text_of snap_name))
      (fun e => logger WARNING ("Failed to clean VMware snapshot: " +:+ str_exn e))
  else mret tt.

Definition clean_transit : S unit :=
  image_id ← artifacts_get "scaleway_image_id";
  s3_keys ← artifacts_get_list "s3_keys";
  bucket ← artifacts_get "s3_bucket";
  (if truthy image_id && negb (bool_decide (s3_keys = [])) && truthy bucket
   then
     try_except
       (ask S3ClientOpened s3client_open;;
        for_each s3_keys (delete_transit (text_of bucket)))
       (fun e => logger WARNING ("S3 cleanup failed: " +:+ str_exn e))
   else logger INFO "S3 transit files retained (image not confirmed or no keys)");;
  logger INFO "Cleanup complete.".

Definition clean_work_dir : S unit :=
  s ← get_st;
  let work_dir := work_dir_for (migration_id (s_state s)) in
  present ← ask (DirChecked work_dir) (dir_exists work_dir);
  if present : bool
  then
    size ← ask (fun r => TreeSized work_dir (outcome r)) (tree_size work_dir);
    logger INFO ("Cleaning work directory: " +:+ work_dir +:+ " ("
                 +:+ fmt_gb size +:+ " GB)");;
    modify (fun s => mkS (s_state s) (rmtree_ignore_errors work_dir (s_ext s))
                         (s_log s) (s_journal s ++ [TreeRemoved work_dir]))
  else mret tt.

Lemma cleanup_in_parts plan s :
  _stage_cleanup plan s = (clean_work_dir ;; clean_snapshot plan ;; clean_transit) s.
Proof.
  unfold _stage_cleanup, clean_work_dir, clean_snapshot, clean_transit.
  unfold mbind, M_bind, get_st, artifacts_get, artifacts_get_list, mret, M_ret. simpl.
  destruct (ask _ _ s) as [[[]|e] s1]; [|done..].
  destruct (ask _ _ s1) as [[size|e] s2]; [|done]. simpl.
  destruct (truthy _); [|done].
  by destruct (try_except _ _ _) as [[[]|e] s3].
Qed.

Lemma safe_delete_transit bucket key : safe (delete_transit bucket key).
Proof. apply safe_try_except. intros e. apply safe_logger. Qed.

Lemma safe_clean_snapshot plan : safe (clean_snapshot plan).
Proof.
  unfold clean_snapshot. apply safe_bind; [apply safe_artifacts_get|].
  intros snap. destruct (truthy snap); [|apply safe_ret].
  apply safe_try_except. intros e. apply safe_logger.
Qed.

Lemma safe_clean_transit : safe clean_transit.
Proof.
  unfold clean_transit. apply safe_bind; [apply safe_artifacts_get|]. intros image.
  apply safe_bind; [apply safe_artifacts_get_list|]. intros keys.
  apply safe_bind; [apply safe_artifacts_get|]. intros bucket.
  apply safe_bind; [|intros _; apply safe_logger].
  destruct (_ && _); [|apply safe_logger].
  apply safe_try_except. intros e. apply safe_logger.
Qed.

Lemma steady_clean_work_dir : steady clean_work_dir.
Proof.
  unfold clean_work_dir. apply steady_bind; [apply steady_get_st|]. intros s0.
  apply steady_bind; [apply steady_ask|]. intros [] ; [|apply steady_ret].
  apply steady_bind; [apply steady_ask|]. intros size.
  apply steady_bind; [apply steady_logger|]. intros _.
  by intros s r s' [= <- <-].
Qed.

Lemma steady_clean_snapshot plan : steady (clean_snapshot plan).
Proof.
  unfold clean_snapshot. apply steady_bind; [apply steady_artifacts_get|].
  intros snap. destruct (truthy snap); [|apply steady_ret].
  apply steady_try_except; [|intros e; apply steady_logger].
  apply steady_bind; [apply steady_ask|]. intros _.
  apply steady_bind; [apply steady_ask|]. intros _.
  apply steady_bind; [apply steady_ask|]. intros _. apply steady_logger.
Qed.

Lemma steady_clean_transit : steady clean_transit.
Proof.
  unfold clean_transit. apply steady_bind; [apply steady_artifacts_get|]. intros image.
  apply steady_bind; [apply steady_artifacts_get_list|]. intros keys.
  apply steady_bind; [apply steady_artifacts_get|]. intros bucket.
  apply steady_bind; [|intros _; apply steady_logger].
  destruct (_ && _); [|apply steady_logger].
  apply steady_try_except; [|intros e; apply steady_logger].
  apply steady_bind; [apply steady_ask|]. intros _.
  apply steady_for_each. intros key. unfold delete_transit.
  apply steady_try_except; [|intros e; apply steady_logger].
  apply steady_bind; [apply steady_ask|]. intros _. apply steady_logger.
Qed.

Lemma cleanup_result plan s :
  (_stage_cleanup plan s).1
  = match (clean_work_dir s).1 with
    | Ok _ => Ok tt
    | Raise e => Raise e
    end.
Proof.
  rewrite cleanup_in_parts. unfold mbind at 1, M_bind at 1.
  destruct (clean_work_dir s) as [[[]|e] s1]; simpl; [|done].
  destruct (safe_bind (clean_snapshot plan) (fun _ => clean_transit)
              (safe_clean_snapshot plan) (fun _ => safe_clean_transit) s1) as [[] H].
  exact H.
Qed.

Lemma cleanup_steady plan : steady (_stage_cleanup plan).
Proof.
  intros s r s'. rewrite cleanup_in_parts.
  apply steady_bind; [apply steady_clean_work_dir|]. intros _.
  apply steady_bind; [apply steady_clean_snapshot|]. intros _.
  apply steady_clean_transit.
Qed.

Lemma clean_work_dir_runs s :
  let work_dir := work_dir_for (migration_id (s_state s)) in
  clean_work_dir s
  = match dir_exists work_dir (s_ext s) with
    | (Raise e, x1) =>
        (Raise e, mkS (s_state s) x1 (s_log s)
                      (s_journal s ++ [DirChecked work_dir (Raise e)]))
    | (Ok false, x1) =>
        (Ok tt, mkS (s_state s) x1 (s_log s)
                    (s_journal s ++ [DirChecked work_dir (Ok false)]))
    | (Ok true, x1) =>
        match tree_size work_dir x1 with
        | (Raise e, x2) =>
            (Raise e, mkS (s_state s) x2 (s_log s)
                          (s_journal s ++ [DirChecked work_dir (Ok true);
                                           TreeSized work_dir (Raise e)]))
        | (Ok size, x2) =>
            (Ok tt, mkS (s_state s) (rmtree_ignore_errors work_dir x2)
                        (s_log s ++ [(INFO, "Cleaning work directory: "
                                       +:+ work_dir +:+ " (" +:+ fmt_gb size
                                       +:+ " GB)")])
                        (s_journal s ++ [DirChecked work_dir (Ok true);
                                         TreeSized work_dir (Ok tt);
                                         TreeRemoved work_dir]))
        end
    end.
Proof.
  intros work_dir.
  unfold clean_work_dir, mbind, M_bind, get_st, ask, logger, modify. simpl.
  fold work_dir.
  destruct (dir_exists work_dir (s_ext s)) as [[[]|e] x1]; simpl; [|done..].
  destruct (tree_size work_dir x1) as [[size|e] x2]; simpl;
    by rewrite <- !(assoc_L (++)).
Qed.

(** X26: [_stage_cleanup] never writes to the migration state, and the
    only failures it lets through are those of looking at the local work
    directory: when the existence test raises, or the directory exists and
    measuring it raises, it raises that exception; in every other case it
    returns normally, whatever vCenter and object storage answer. *)
Theorem cleanup_fails_only_on_the_work_directory
    (plan : VMMigrationPlan) (s : SState) :
  let work_dir := work_dir_for (migration_id (s_state s)) in
  s_state (_stage_cleanup plan s).2 = s_state s /\
  match dir_exists work_dir (s_ext s) with
  | (Raise e, _) => (_stage_cleanup plan s).1 = Raise e
  | (Ok false, _) => (_stage_cleanup plan s).1 = Ok tt
  | (Ok true, x1) =>
      match (tree_size work_dir x1).1 with
      | Raise e => (_stage_cleanup plan s).1 = Raise e
      | Ok _ => (_stage_cleanup plan s).1 = Ok tt
      end
  end.
Proof.
  intros work_dir. split.
  { destruct (_stage_cleanup plan s) as [r s'] eqn:E. by apply cleanup_steady in E. }
  rewrite !cleanup_result, clean_work_dir_runs. fold work_dir.
  destruct (dir_exists work_dir (s_ext s)) as [[[]|e] x1]; [|done..].
  by destruct (tree_size work_dir x1) as [[size|e] x2].
Qed.

(** The objects [tr] asks to delete, in order. *)
Definition deletions (tr : list Event) : list (string * string) :=
  omap (fun ev => match ev with
                  | ObjectDeleted b k _ => Some (b, k)
                  | _ => None
                  end) tr.

(** No call to object storage in [tr]. *)
Definition quiet (tr : list Event) : Prop :=
  deletions tr = [] /\ forall r, S3ClientOpened r ∉ tr.

Lemma deletions_app t1 t2 : deletions (t1 ++ t2) = deletions t1 ++ deletions t2.
Proof. apply omap_app. Qed.

Lemma quiet_nil : quiet [].
Proof. split; [done|]. intros r H. by apply elem_of_nil in H. Qed.

Lemma quiet_app t1 t2 : quiet t1 -> quiet t2 -> quiet (t1 ++ t2).
Proof.
  intros [Hd1 Ho1] [Hd2 Ho2]. split; [by rewrite deletions_app, Hd1, Hd2|].
  intros r Hin. apply elem_of_app in Hin as [Hin|Hin]; [by apply Ho1 in Hin|].
  by apply Ho2 in Hin.
Qed.

Lemma emits_quiet_logger lvl msg s : emits quiet (logger lvl msg) s.
Proof. by apply emits_silent; [apply quiet_nil|]. Qed.

Lemma clean_work_dir_quiet s : emits quiet clean_work_dir s.
Proof.
  unfold emits. rewrite clean_work_dir_runs.
  destruct (dir_exists _ _) as [[[]|e] x1]; simpl.
  - destruct (tree_size _ _) as [[size|e] x2]; simpl;
      (eexists; split; [done|]); (split; [done|]);
      intros r Hin; event_cases Hin.
  - eexists. split; [done|]. split; [done|]. intros r Hin. event_cases Hin.
  - eexists. split; [done|]. split; [done|]. intros r Hin. event_cases Hin.
Qed.

Lemma clean_snapshot_quiet plan s : emits quiet (clean_snapshot plan) s.
Proof.
  assert (forall ev : Event,
            (forall b k r, ev <> ObjectDeleted b k r) ->
            (forall r, ev <> S3ClientOpened r) -> quiet [ev]) as Hone.
  { intros ev Hd Ho. split.
    - unfold deletions. simpl. destruct ev; try done. by destruct (Hd bucket key r).
    - intros r Hin. apply list_elem_of_singleton in Hin. symmetry in Hin. by apply Ho in Hin. }
  unfold clean_snapshot.
  apply (emits_bind _ quiet_app); [by apply emits_silent; [apply quiet_nil|]|].
  intros snap _. destruct (truthy snap);
    [|by apply emits_silent; [apply quiet_nil|]].
  apply (emits_try_except _ quiet_app); [|intros e _; apply emits_quiet_logger].
  apply (emits_bind _ quiet_app); [by apply emits_ask, Hone|]. intros _ _.
  apply (emits_bind _ quiet_app); [by apply emits_ask, Hone|]. intros _ _.
  apply (emits_bind _ quiet_app); [by apply emits_ask, Hone|]. intros _ _.
  apply emits_quiet_logger.
Qed.

Lemma delete_loop_events bucket keys s :
  exists tc,
    s_journal (for_each keys (delete_transit bucket) s).2 = s_journal s ++ tc /\
    deletions tc = map (fun k => (bucket, k)) keys /\
    (forall r, S3ClientOpened r ∉ tc) /\
    (for_each keys (delete_transit bucket) s).1 = Ok tt.
Proof.
  revert s. induction keys as [|key keys IH]; intros s; simpl.
  - exists []. split; [by rewrite app_nil_r|]. split; [done|]. split; [|done].
    intros r H. by apply elem_of_nil in H.
  - unfold mbind, M_bind.
    assert (exists r s1, delete_transit bucket key s = (Ok tt, s1) /\
              s_journal s1 = s_journal s ++ [ObjectDeleted bucket key r])
      as (r & s1 & -> & Hj).
    { unfold delete_transit, try_except, mbind, M_bind, ask, logger, modify.
      destruct (delete_object bucket key (s_ext s)) as [[[]|e] x1]; simpl;
        by eexists _, _. }
    destruct (IH s1) as (tc & Htc & Hd & Ho & Hok).
    exists (ObjectDeleted bucket key r :: tc).
    split; [by rewrite Htc, Hj, <- (assoc_L (++))|].
    split.
    { change (deletions (ObjectDeleted bucket key r :: tc))
        with ((bucket, key) :: deletions tc). by rewrite Hd. }
    split; [|done].
    intros r' Hin. apply elem_of_cons in Hin as [Hin|Hin]; [done|]. by apply Ho in Hin.
Qed.

(** The condition under which [_stage_cleanup] turns to object storage. *)
Definition transit_gate (state : MigrationState) : bool :=
  truthy (artifacts state !! "scaleway_image_id")
  && negb (bool_decide (listed "s3_keys" state = []))
  && truthy (artifacts state !! "s3_bucket").

(** What a list of events says of the transit objects of [state]: storage
    is opened only when the gate holds, and once it is open every key is
    asked to be deleted, in order. *)
Definition transit_rule (state : MigrationState) (tr : list Event) : Prop :=
  ((exists r, S3ClientOpened r ∈ tr) -> transit_gate state = true) /\
  (S3ClientOpened (Ok tt) ∈ tr ->
   deletions tr = map (fun k => (text_of (artifacts state !! "s3_bucket"), k))
                      (listed "s3_keys" state)) /\
  (S3ClientOpened (Ok tt) ∉ tr -> deletions tr = []).

Lemma transit_rule_quiet state tr : quiet tr -> transit_rule state tr.
Proof.
  intros [Hd Ho]. split; [|split].
  - intros [r Hr]. by apply Ho in Hr.
  - intros Hr. by apply Ho in Hr.
  - done.
Qed.

Lemma transit_rule_after_quiet state t1 t2 :
  quiet t1 -> transit_rule state t2 -> transit_rule state (t1 ++ t2).
Proof.
  intros [Hd Ho] (Hg & Hall & Hnone). split; [|split].
  - intros [r Hr]. apply elem_of_app in Hr as [Hr|Hr]; [by apply Ho in Hr|].
    apply Hg. by exists r.
  - intros Hr. apply elem_of_app in Hr as [Hr|Hr]; [by apply Ho in Hr|].
    by rewrite deletions_app, Hd, (Hall Hr).
  - intros Hr. rewrite deletions_app, Hd. apply Hnone.
    intros Hin. apply Hr, elem_of_app. by right.
Qed.

Lemma clean_transit_events s :
  emits (transit_rule (s_state s)) clean_transit s.
Proof.
  unfold emits, clean_transit, mbind, M_bind, artifacts_get, artifacts_get_list,
    mret, M_ret. simpl.
  fold (listed "s3_keys" (s_state s)). fold (transit_gate (s_state s)).
  destruct (transit_gate (s_state s)) eqn:Hgate.
  - unfold try_except, ask.
    destruct (s3client_open (s_ext s)) as [[[]|e] x1]; simpl.
    + set (s1 := mkS _ _ _ _).
      destruct (delete_loop_events (text_of (artifacts (s_state s) !! "s3_bucket"))
                  (listed "s3_keys" (s_state s)) s1) as (tc & Htc & Hd & Ho & Hok).
      destruct (for_each _ _ s1) as [[[]|e] s2]; simpl in *; [|done].
      exists (S3ClientOpened (Ok tt) :: tc).
      split; [by rewrite Htc, <- (assoc_L (++))|]. split; [done|]. split.
      * intros _. exact Hd.
      * intros Hno. exfalso. apply Hno. by left.
    + exists [S3ClientOpened (Raise e)]. split; [done|]. split; [done|]. split.
      * intros Hin. apply list_elem_of_singleton in Hin. done.
      * done.
  - exists []. split; [by rewrite app_nil_r|]. apply transit_rule_quiet, quiet_nil.
Qed.

Lemma cleanup_events plan s :
  transit_rule (s_state s) (new_events s (_stage_cleanup plan s).2).
Proof.
  unfold new_events. rewrite cleanup_in_parts. unfold mbind, M_bind.
  destruct (clean_work_dir_quiet s) as (t1 & Ht1 & Hq1).
  pose proof (steady_clean_work_dir s) as Hst1.
  destruct (clean_work_dir s) as [[[]|e] s1]; simpl in *.
  2:{ rewrite Ht1, drop_app_length. by apply transit_rule_quiet. }
  specialize (Hst1 _ _ eq_refl).
  destruct (clean_snapshot_quiet plan s1) as (t2 & Ht2 & Hq2).
  pose proof (steady_clean_snapshot plan s1) as Hst2.
  destruct (clean_snapshot plan s1) as [[[]|e] s2]; simpl in *.
  2:{ rewrite Ht2, Ht1, <- (assoc_L (++)), drop_app_length.
      by apply transit_rule_quiet, quiet_app. }
  specialize (Hst2 _ _ eq_refl).
  destruct (clean_transit_events s2) as (t3 & Ht3 & Hq3).
  rewrite Ht3, Ht2, Ht1, <- !(assoc_L (++)), drop_app_length.
  rewrite Hst2, Hst1 in Hq3.
  apply transit_rule_after_quiet; [done|]. by apply transit_rule_after_quiet.
Qed.

(** X27: [_stage_cleanup] turns to object storage only when the bag holds
    an image identifier, at least one key and a bucket; once the storage
    client is open it asks to delete every key of [s3_keys] in the recorded
    bucket, in order, going on after a deletion that fails; otherwise it
    asks to delete nothing. *)
Theorem cleanup_deletes_transit_objects_only_once_the_image_exists
    (plan : VMMigrationPlan) (s : SState) :
  let state := s_state s in
  let tr := new_events s (_stage_cleanup plan s).2 in
  ((exists r, S3ClientOpened r ∈ tr) ->
   truthy (artifacts state !! "scaleway_image_id") = true /\
   listed "s3_keys" state <> [] /\
   truthy (artifacts state !! "s3_bucket") = true) /\
  (S3ClientOpened (Ok tt) ∈ tr ->
   deletions tr = map (fun k => (text_of (artifacts state !! "s3_bucket"), k))
                      (listed "s3_keys" state)) /\
  (S3ClientOpened (Ok tt) ∉ tr -> deletions tr = []).
Proof.
  intros state tr. destruct (cleanup_events plan s) as (Hg & Hall & Hnone).
  split; [|by split]. intros Hopen. apply Hg in Hopen. unfold transit_gate in Hopen.
  apply andb_prop in Hopen as [Hopen Hb]. apply andb_prop in Hopen as [Hi Hk].
  split; [done|]. split; [|done].
  apply negb_true_iff, bool_decide_eq_false in Hk. done.
Qed.

(** ** [_stage_snapshot] and [_stage_cleanup] *)

(** What a list of events says of the snapshot [snap] of the VM [vm]:
    nothing else is asked to be deleted, and a session that opens is used
    to ask for its deletion. *)
Definition snapshot_rule (vm snap : string) (tr : list Event) : Prop :=
  (Connected (Ok tt) ∈ tr -> exists r, SnapshotDeleted vm snap r ∈ tr) /\
  (forall v name r, SnapshotDeleted v name r ∈ tr -> v = vm /\ name = snap).

(** No call to vCenter in [tr]. *)
Definition offline (tr : list Event) : Prop :=
  (forall r, Connected r ∉ tr) /\ (forall v name r, SnapshotDeleted v name r ∉ tr).

Lemma offline_nil : offline [].
Proof. split; intros; apply not_elem_of_nil. Qed.

Lemma offline_app t1 t2 : offline t1 -> offline t2 -> offline (t1 ++ t2).
Proof.
  intros [Hc1 Hd1] [Hc2 Hd2]. split.
  - intros r Hin. apply elem_of_app in Hin as [Hin|Hin];
      [by apply Hc1 in Hin|by apply Hc2 in Hin].
  - intros v name r Hin. apply elem_of_app in Hin as [Hin|Hin];
      [by apply Hd1 in Hin|by apply Hd2 in Hin].
Qed.

Lemma offline_one (ev : Event) :
  (forall r, ev <> Connected r) -> (forall v name r, ev <> SnapshotDeleted v name r) ->
  offline [ev].
Proof.
  intros Hc Hd. split.
  - intros r Hin. apply list_elem_of_singleton in Hin. symmetry in Hin.
    by apply Hc in Hin.
  - intros v name r Hin. apply list_elem_of_singleton in Hin. symmetry in Hin.
    by apply Hd in Hin.
Qed.

Lemma snapshot_rule_offline vm snap tr : offline tr -> snapshot_rule vm snap tr.
Proof.
  intros [Hc Hd]. split.
  - intros Hin. by apply Hc in Hin.
  - intros v name r Hin. by apply Hd in Hin.
Qed.

Lemma snapshot_rule_between vm snap t1 t2 t3 :
  offline t1 -> snapshot_rule vm snap t2 -> offline t3 ->
  snapshot_rule vm snap (t1 ++ t2 ++ t3).
Proof.
  intros [Hc1 Hd1] [Hopen Honly] [Hc3 Hd3]. split.
  - intros Hin. apply elem_of_app in Hin as [Hin|Hin]; [by apply Hc1 in Hin|].
    apply elem_of_app in Hin as [Hin|Hin]; [|by apply Hc3 in Hin].
    destruct (Hopen Hin) as [r Hr]. exists r.
    apply elem_of_app. right. apply elem_of_app. by left.
  - intros v name r Hin. apply elem_of_app in Hin as [Hin|Hin]; [by apply Hd1 in Hin|].
    apply elem_of_app in Hin as [Hin|Hin]; [|by apply Hd3 in Hin].
    by apply (Honly _ _ r).
Qed.

Lemma clean_work_dir_offline s : emits offline clean_work_dir s.
Proof.
  unfold emits. rewrite clean_work_dir_runs.
  destruct (dir_exists _ _) as [[[]|e] x1]; simpl.
  - destruct (tree_size _ _) as [[size|e] x2]; simpl;
      (eexists; split; [done|]); split; intros; intros Hin; event_cases Hin.
  - eexists. split; [done|]. split; intros; intros Hin; event_cases Hin.
  - eexists. split; [done|]. split; intros; intros Hin; event_cases Hin.
Qed.

Lemma clean_transit_offline s : emits offline clean_transit s.
Proof.
  unfold clean_transit.
  apply (emits_bind _ offline_app); [by apply emits_silent; [apply offline_nil|]|].
  intros image _.
  apply (emits_bind _ offline_app); [by apply emits_silent; [apply offline_nil|]|].
  intros keys _.
  apply (emits_bind _ offline_app); [by apply emits_silent; [apply offline_nil|]|].
  intros bucket _.
  apply (emits_bind _ offline_app);
    [|intros _ _; by apply emits_silent; [apply offline_nil|]].
  destruct (_ && _); [|by apply emits_silent; [apply offline_nil|]].
  apply (emits_try_except _ offline_app);
    [|intros e _; by apply emits_silent; [apply offline_nil|]].
  apply (emits_bind _ offline_app); [by apply emits_ask, offline_one|]. intros _ _.
  apply (emits_for_each _ offline_nil offline_app). intros key s' _.
  unfold delete_transit.
  apply (emits_try_except _ offline_app);
    [|intros e _; by apply emits_silent; [apply offline_nil|]].
  apply (emits_bind _ offline_app); [by apply emits_ask, offline_one|]. intros _ _.
  by apply emits_silent; [apply offline_nil|].
Qed.

Lemma clean_snapshot_events plan s :
  truthy (artifacts (s_state s) !! "snapshot_name") = true ->
  emits (snapshot_rule (plan_vm_name plan)
           (text_of (artifacts (s_state s) !! "snapshot_name")))
        (clean_snapshot plan) s.
Proof.
  intros Htruthy.
  unfold emits, clean_snapshot, mbind, M_bind, artifacts_get, try_except, ask,
    logger, modify. simpl. rewrite Htruthy.
  destruct (vsphere_connect (s_ext s)) as [[[]|e] x1]; simpl.
  - destruct (delete_migration_snapshot _ _ x1) as [[[]|e] x2]; simpl.
    + destruct (vsphere_disconnect x2) as [[[]|e] x3]; simpl.
      * eexists. split; [by rewrite <- !(assoc_L (++))|]. split.
        -- intros _. eexists. apply list_elem_of_further, list_elem_of_here.
        -- intros v name r Hin. simpl in Hin. event_cases Hin.
           by injection Hin as -> -> _.
      * eexists. split; [by rewrite <- !(assoc_L (++))|]. split.
        -- intros _. eexists. apply list_elem_of_further, list_elem_of_here.
        -- intros v name r Hin. simpl in Hin. event_cases Hin.
           by injection Hin as -> -> _.
    + eexists. split; [by rewrite <- !(assoc_L (++))|]. split.
      * intros _. eexists. apply list_elem_of_further, list_elem_of_here.
      * intros v name r Hin. simpl in Hin. event_cases Hin.
        by injection Hin as -> -> _.
  - eexists. split; [done|]. split.
    + intros Hin. event_cases Hin.
    + intros v name r Hin. event_cases Hin.
Qed.

Lemma cleanup_snapshot_events plan s :
  truthy (artifacts (s_state s) !! "snapshot_name") = true ->
  snapshot_rule (plan_vm_name plan)
    (text_of (artifacts (s_state s) !! "snapshot_name"))
    (new_events s (_stage_cleanup plan s).2).
Proof.
  intros Htruthy. unfold new_events. rewrite cleanup_in_parts. unfold mbind, M_bind.
  destruct (clean_work_dir_offline s) as (t1 & Ht1 & Hq1).
  pose proof (steady_clean_work_dir s) as Hst1.
  destruct (clean_work_dir s) as [[[]|e] s1]; simpl in *.
  2:{ rewrite Ht1, drop_app_length. by apply snapshot_rule_offline. }
  specialize (Hst1 _ _ eq_refl). rewrite <- Hst1 in Htruthy |- *.
  destruct (clean_snapshot_events plan s1 Htruthy) as (t2 & Ht2 & Hq2).
  destruct (clean_snapshot plan s1) as [[[]|e] s2]; simpl in *.
  2:{ rewrite Ht2, Ht1, <- (assoc_L (++)), drop_app_length.
      rewrite <- (app_nil_r t2). apply snapshot_rule_between; [done|done|].
      apply offline_nil. }
  destruct (clean_transit_offline s2) as (t3 & Ht3 & Hq3).
  rewrite Ht3, Ht2, Ht1, <- !(assoc_L (++)), drop_app_length.
  by apply snapshot_rule_between.
Qed.

Lemma snapshot_returns plan s :
  (_stage_snapshot plan s).1 = Ok tt ->
  artifacts (s_state (_stage_snapshot plan s).2) !! "snapshot_name"
  = Some (AStr ("vmware2scw-" +:+ migration_id (s_state s))) /\
  SnapshotCreated (plan_vm_name plan) ("vmware2scw-" +:+ migration_id (s_state s))
                  (Ok tt)
  ∈ new_events s (_stage_snapshot plan s).2.
Proof.
  unfold new_events, _stage_snapshot, mbind, M_bind, ask, get_st, artifacts_set, modify.
  simpl.
  destruct (vsphere_connect (s_ext s)) as [[[]|e] x1]; simpl; [|done].
  destruct (create_migration_snapshot _ _ x1) as [[[]|e] x2]; simpl; [|done].
  destruct (vsphere_disconnect x2) as [[[]|e] x3]; simpl; [|done].
  intros _. split; [by rewrite lookup_insert_eq|].
  rewrite <- !(assoc_L (++)), drop_app_length.
  apply list_elem_of_further, list_elem_of_here.
Qed.

(** X28: when [_stage_snapshot] returns, it has created the snapshot
    [vmware2scw-<id>] of the plan's VM and recorded that name.  A
    [_stage_cleanup] run on a state that still holds this entry asks for no
    other snapshot to be deleted, and asks for this one whenever its
    vCenter session opens. *)
Theorem cleanup_deletes_the_snapshot_the_snapshot_stage_created
    (plan : VMMigrationPlan) (s later : SState) :
  (_stage_snapshot plan s).1 = Ok tt ->
  artifacts (s_state later) !! "snapshot_name"
  = artifacts (s_state (_stage_snapshot plan s).2) !! "snapshot_name" ->
  let snap := "vmware2scw-" +:+ migration_id (s_state s) in
  SnapshotCreated (plan_vm_name plan) snap (Ok tt)
  ∈ new_events s (_stage_snapshot plan s).2 /\
  (Connected (Ok tt) ∈ new_events later (_stage_cleanup plan later).2 ->
   exists r, SnapshotDeleted (plan_vm_name plan) snap r
             ∈ new_events later (_stage_cleanup plan later).2) /\
  (forall vm name r,
      SnapshotDeleted vm name r ∈ new_events later (_stage_cleanup plan later).2 ->
      vm = plan_vm_name plan /\ name = snap).
Proof.
  intros Hok Hkept snap. destruct (snapshot_returns plan s Hok) as [Hname Hcreated].
  split; [done|]. rewrite Hname in Hkept.
  assert (truthy (artifacts (s_state later) !! "snapshot_name") = true) as Htruthy.
  { rewrite Hkept. unfold truthy. apply negb_true_iff, bool_decide_eq_false.
    intros Hempty. simpl in Hempty. discriminate Hempty. }
  pose proof (cleanup_snapshot_events plan later Htruthy) as Hrule.
  rewrite Hkept in Hrule. exact Hrule.
Qed.

(** ** [_stage_validate] *)

(** The message of a failed validation: the failed blocking checks. *)
Definition failure_message (report : Report) : string :=
  "Pre-validation failed: "
  +:+ String.concat "; "
        (map (fun c => check_name c +:+ ": " +:+ check_message c)
             (filter (fun c => negb (check_passed c) && check_blocking c)
                     (report_checks report))).

(** X29: once vCenter has described the VM, its description is in the
    bag whatever happens next: also when the validator or the disconnection
    then raises.  When the validator raises, [_stage_validate] raises the
    same exception and leaves the session open.  When the validator returns
    a report, [_stage_validate] closes the session before it judges the
    report; it then raises [RuntimeError] exactly when the report did not
    pass, with a message that lists the failed blocking checks only. *)
Theorem validate_records_the_vm_and_reports_after_disconnecting
    (plan : VMMigrationPlan) (s : SState) (x1 x2 : Ext) (info : VmInfo) :
  vsphere_connect (s_ext s) = (Ok tt, x1) ->
  get_vm_info (plan_vm_name plan) x1 = (Ok info, x2) ->
  let run := _stage_validate plan s in
  let judged := validator_validate info (plan_target_type plan) x2 in
  s_state run.2
  = set_artifacts (<["vm_info" := ADict (model_dump info)]> (artifacts (s_state s)))
                  (s_state s) /\
  match judged.1 with
  | Raise e =>
      run.1 = Raise e /\
      new_events s run.2
      = [Connected (Ok tt); VmInfoRead (plan_vm_name plan) (Ok tt);
         Validated (plan_target_type plan) (Raise e)] /\
      s_ext run.2 = judged.2
  | Ok report =>
      let closed := vsphere_disconnect judged.2 in
      new_events s run.2
      = [Connected (Ok tt); VmInfoRead (plan_vm_name plan) (Ok tt);
         Validated (plan_target_type plan) (Ok tt); Disconnected closed.1] /\
      s_ext run.2 = closed.2 /\
      run.1
      = match closed.1 with
        | Raise e => Raise e
        | Ok _ => if report_passed report then Ok tt
                  else Raise (RuntimeError (failure_message report))
        end
  end.
Proof.
  intros Hc Hi run judged. subst run judged.
  unfold new_events, _stage_validate, failure_message, mbind, M_bind, ask,
    artifacts_set, modify. simpl.
  rewrite Hc. simpl. rewrite Hi. simpl.
  destruct (validator_validate info (plan_target_type plan) x2) as [[report|e] x3]; simpl.
  - destruct (vsphere_disconnect x3) as [[[]|e] x4]; simpl.
    + destruct (report_passed report); simpl;
        (split; [done|]); (split; [|done]);
        by rewrite <- !(assoc_L (++)), drop_app_length.
    + split; [done|]. split; [|done]. by rewrite <- !(assoc_L (++)), drop_app_length.
  - split; [done|]. split; [done|]. split; [|done].
    by rewrite <- !(assoc_L (++)), drop_app_length.
Qed.

(** ** [_stage_export] *)

(** X30: [_stage_export] makes the work directory of the migration, then
    opens a vCenter session, exports the disks of the VM into that
    directory, records under [vmdk_paths] exactly the paths the export
    returned, and only then closes the session; its result is then the
    result of closing the session.  When the directory, the connection or
    the export fails, it raises that exception with the state unchanged,
    without making the calls that follow and without closing the session.
    Every call is made on what the call before it left. *)
Theorem export_records_the_disks_and_disconnects_only_after_the_export
    (plan : VMMigrationPlan) (s : SState) :
  let work_dir := work_dir_for (migration_id (s_state s)) in
  let made := mkdir_parents work_dir (s_ext s) in
  let connected := vsphere_connect made.2 in
  let exported := export_vm_disks (plan_vm_name plan) work_dir connected.2 in
  let closed := vsphere_disconnect exported.2 in
  let run := _stage_export plan s in
  let tr := new_events s run.2 in
  match made.1 with
  | Raise e =>
      run.1 = Raise e /\ tr = [DirMade work_dir (Raise e)] /\
      s_state run.2 = s_state s /\ s_ext run.2 = made.2
  | Ok _ =>
      match connected.1 with
      | Raise e =>
          run.1 = Raise e /\
          tr = [DirMade work_dir (Ok tt); Connected (Raise e)] /\
          s_state run.2 = s_state s /\ s_ext run.2 = connected.2
      | Ok _ =>
          match exported.1 with
          | Raise e =>
              run.1 = Raise e /\
              tr = [DirMade work_dir (Ok tt); Connected (Ok tt);
                    DisksExported (plan_vm_name plan) work_dir (Raise e)] /\
              s_state run.2 = s_state s /\ s_ext run.2 = exported.2
          | Ok vmdk_paths =>
              run.1 = closed.1 /\
              tr = [DirMade work_dir (Ok tt); Connected (Ok tt);
                    DisksExported (plan_vm_name plan) work_dir (Ok tt);
                    Disconnected closed.1] /\
              s_state run.2
              = set_artifacts (<["vmdk_paths" := AList vmdk_paths]>
                                 (artifacts (s_state s)))
                              (s_state s) /\
              s_ext run.2 = closed.2
          end
      end
  end.
Proof.
  intros work_dir made connected exported closed run tr.
  subst run tr closed exported connected made.
  unfold new_events, _stage_export, mbind, M_bind, get_st, ask, artifacts_set, modify.
  simpl. fold work_dir.
  destruct (mkdir_parents work_dir (s_ext s)) as [[[]|e] x1]; simpl.
  2:{ split; [done|]. split; [|done]. by rewrite drop_app_length. }
  destruct (vsphere_connect x1) as [[[]|e] x2]; simpl.
  2:{ split; [done|]. split; [|done].
      by rewrite <- !(assoc_L (++)), drop_app_length. }
  destruct (export_vm_disks (plan_vm_name plan) work_dir x2) as [[paths|e] x3]; simpl.
  2:{ split; [done|]. split; [|done].
      by rewrite <- !(assoc_L (++)), drop_app_length. }
  destruct (vsphere_disconnect x3) as [[[]|e] x4]; simpl;
    (split; [done|]); (split; [|done]);
    by rewrite <- !(assoc_L (++)), drop_app_length.
Qed.

(** ** Artifacts the service handlers find missing *)

(** [_stage_upload_s3] when no disk is listed: it opens the storage and
    makes sure of the bucket, uploads nothing, and records an empty list
    of keys. *)
Lemma upload_s3_without_disks plan s :
  listed "qcow2_paths" (s_state s) = [] ->
  let opened := s3_open (s_ext s) in
  let ensured := create_bucket_if_not_exists config_s3_bucket opened.2 in
  let run := _stage_upload_s3 plan s in
  match opened.1 with
  | Raise e =>
      run.1 = Raise e /\ new_events s run.2 = [S3Opened (Raise e)] /\
      s_state run.2 = s_state s
  | Ok _ =>
      match ensured.1 with
      | Raise e =>
          run.1 = Raise e /\
          new_events s run.2
          = [S3Opened (Ok tt); BucketEnsured config_s3_bucket (Raise e)] /\
          s_state run.2 = s_state s
      | Ok _ =>
          run.1 = Ok tt /\
          new_events s run.2
          = [S3Opened (Ok tt); BucketEnsured config_s3_bucket (Ok tt)] /\
          s_state run.2
          = set_artifacts
              (<["s3_bucket" := AStr config_s3_bucket]>
                 (<["s3_keys" := AList []]> (artifacts (s_state s))))
              (s_state s)
      end
  end.
Proof.
  intros Hnone opened ensured run. subst run ensured opened.
  unfold new_events, _stage_upload_s3, mbind, M_bind, ask, get_st, artifacts_get_list,
    artifacts_get, artifacts_set, modify, mret, M_ret. simpl.
  destruct (s3_open (s_ext s)) as [[[]|e] x1]; simpl.
  2:{ split; [done|]. split; [|done]. by rewrite drop_app_length. }
  destruct (create_bucket_if_not_exists config_s3_bucket x1) as [[[]|e] x2]; simpl.
  2:{ split; [done|]. split; [|done]. by rewrite <- (assoc_L (++)), drop_app_length. }
  fold (listed "qcow2_paths" (s_state s)). rewrite Hnone. simpl.
  split; [done|]. split; [|done]. by rewrite <- (assoc_L (++)), drop_app_length.
Qed.

Lemma clean_snapshot_skipped plan s :
  truthy (artifacts (s_state s) !! "snapshot_name") = false ->
  emits offline (clean_snapshot plan) s.
Proof.
  intros Hfalsy. apply emits_silent; [apply offline_nil|].
  unfold clean_snapshot, mbind, M_bind, artifacts_get. simpl. by rewrite Hfalsy.
Qed.

(** [_stage_cleanup] without a snapshot name: no vCenter session, no
    snapshot deletion. *)
Lemma cleanup_without_snapshot_name plan s :
  truthy (artifacts (s_state s) !! "snapshot_name") = false ->
  offline (new_events s (_stage_cleanup plan s).2).
Proof.
  intros Hfalsy.
  assert (emits offline (clean_work_dir ;; clean_snapshot plan ;; clean_transit) s)
    as Hparts.
  { apply (emits_bind _ offline_app); [apply clean_work_dir_offline|].
    intros [] Hok.
    apply (emits_bind _ offline_app); [|intros _ _; apply clean_transit_offline].
    apply clean_snapshot_skipped.
    destruct (clean_work_dir s) as [r s1] eqn:E. simpl.
    by rewrite (steady_clean_work_dir _ _ _ E). }
  apply emits_new_events. unfold emits in *. by rewrite cleanup_in_parts.
Qed.

(** [_stage_cleanup] when the gate of the transit objects is closed: no
    call to object storage. *)
Lemma cleanup_without_transit plan s :
  transit_gate (s_state s) = false ->
  quiet (new_events s (_stage_cleanup plan s).2).
Proof.
  intros Hgate. destruct (cleanup_events plan s) as (Hg & _ & Hnone).
  assert (forall r, S3ClientOpened r ∉ new_events s (_stage_cleanup plan s).2) as Hno.
  { intros r Hin. assert (transit_gate (s_state s) = true) as Ht by (apply Hg; by exists r).
    by rewrite Hgate in Ht. }
  split; [|exact Hno]. apply Hnone, Hno.
Qed.

(** [_stage_cleanup] removes the work directory whenever it exists and can
    be measured, whatever the bag holds. *)
Lemma cleanup_removes_the_work_dir plan s x1 size x2 :
  let work_dir := work_dir_for (migration_id (s_state s)) in
  dir_exists work_dir (s_ext s) = (Ok true, x1) ->
  tree_size work_dir x1 = (Ok size, x2) ->
  TreeRemoved work_dir ∈ new_events s (_stage_cleanup plan s).2.
Proof.
  intros work_dir Hdir Hsize.
  pose proof (clean_work_dir_runs s) as Hruns. simpl in Hruns. fold work_dir in Hruns.
  rewrite Hdir, Hsize in Hruns.
  unfold new_events. rewrite cleanup_in_parts. unfold mbind at 1, M_bind at 1.
  rewrite Hruns. set (s1 := mkS _ _ _ _).
  assert (emits (fun _ => True) (clean_snapshot plan ;; clean_transit) s1) as (t2 & Ht2 & _).
  { apply (emits_bind (fun _ => True) (fun _ _ _ _ => I)).
    - destruct (clean_snapshot_quiet plan s1) as (t & Ht & _). by exists t.
    - intros _ _. destruct (clean_transit_offline (clean_snapshot plan s1).2)
        as (t & Ht & _). by exists t. }
  rewrite Ht2. subst s1. simpl. rewrite <- (assoc_L (++)), drop_app_length.
  do 2 apply list_elem_of_further. apply list_elem_of_here.
Qed.

End Journal.

(** ** The service handlers on a concrete site *)

Import ServiceScenario.

Lemma upload_s3_uploads_only_missing_witness :
  ImageUploaded "/work/disk0.qcow2" "transit" "migrations/a1b2c3d4/disk0.qcow2" (Ok tt)
  ∈ new_events before_upload (@_stage_upload_s3 small_site web01 before_upload).2 /\
  ("transit" = @config_s3_bucket small_site /\
   "migrations/a1b2c3d4/disk0.qcow2"
   = @object_key small_site (migration_id (s_state before_upload)) "/work/disk0.qcow2" /\
   "/work/disk0.qcow2" ∈ listed "qcow2_paths" (s_state before_upload)) /\
  (ObjectChecked "transit" "migrations/a1b2c3d4/disk0.qcow2" (Ok false)
   ∈ new_events before_upload (@_stage_upload_s3 small_site web01 before_upload).2 \/
   exists n m, n <> m /\
     ObjectSized "transit" "migrations/a1b2c3d4/disk0.qcow2" (Ok n)
     ∈ new_events before_upload (@_stage_upload_s3 small_site web01 before_upload).2 /\
     FileSized "/work/disk0.qcow2" (Ok m)
     ∈ new_events before_upload (@_stage_upload_s3 small_site web01 before_upload).2).
Proof.
  assert (new_events before_upload (@_stage_upload_s3 small_site web01 before_upload).2
          = [S3Opened (Ok tt); BucketEnsured "transit" (Ok tt);
             ObjectChecked "transit" "migrations/a1b2c3d4/disk0.qcow2" (Ok false);
             ImageUploaded "/work/disk0.qcow2" "transit"
                           "migrations/a1b2c3d4/disk0.qcow2" (Ok tt)]) as Hrun
    by (vm_compute; reflexivity).
  assert (ImageUploaded "/work/disk0.qcow2" "transit"
                        "migrations/a1b2c3d4/disk0.qcow2" (Ok tt)
          ∈ new_events before_upload
              (@_stage_upload_s3 small_site web01 before_upload).2) as Hin.
  { rewrite Hrun. do 3 apply list_elem_of_further. apply list_elem_of_here. }
  split; [exact Hin|].
  exact (@upload_s3_uploads_only_missing_or_changed_objects small_site web01
           before_upload "/work/disk0.qcow2" "transit"
           "migrations/a1b2c3d4/disk0.qcow2" (Ok tt) Hin).
Defined.

Lemma upload_s3_sends_or_matches_witness :
  (@_stage_upload_s3 small_site web01 before_upload).1 = Ok tt /\
  "/work/disk0.qcow2" ∈ listed "qcow2_paths" (s_state before_upload) /\
  sent_or_matched (new_events before_upload
                     (@_stage_upload_s3 small_site web01 before_upload).2)
                  "/work/disk0.qcow2" (@config_s3_bucket small_site)
                  (@object_key small_site (migration_id (s_state before_upload))
                               "/work/disk0.qcow2") /\
  (forall q' : string,
      @object_key small_site (migration_id (s_state before_upload)) q'
      = @object_key small_site (migration_id (s_state before_upload))
                    "/work/disk0.qcow2"
      <-> @StageServices.path_name small_site q'
          = @StageServices.path_name small_site "/work/disk0.qcow2").
Proof.
  assert ((@_stage_upload_s3 small_site web01 before_upload).1 = Ok tt) as Hok
    by (vm_compute; reflexivity).
  assert ("/work/disk0.qcow2" ∈ listed "qcow2_paths" (s_state before_upload)) as Hq.
  { replace (listed "qcow2_paths" (s_state before_upload))
      with ["/work/disk0.qcow2"] by (vm_compute; reflexivity).
    apply list_elem_of_here. }
  split; [exact Hok|]. split; [exact Hq|].
  exact (@upload_s3_sends_or_matches_every_disk small_site web01 before_upload
           "/work/disk0.qcow2" Hok Hq).
Defined.

Lemma cleanup_deletes_the_snapshot_witness :
  (@_stage_snapshot small_site web01 at_start).1 = Ok tt /\
  artifacts (s_state before_cleanup) !! "snapshot_name"
  = artifacts (s_state (@_stage_snapshot small_site web01 at_start).2)
      !! "snapshot_name" /\
  SnapshotCreated (plan_vm_name web01)
                  ("vmware2scw-" +:+ migration_id (s_state at_start)) (Ok tt)
  ∈ new_events at_start (@_stage_snapshot small_site web01 at_start).2 /\
  (Connected (Ok tt)
   ∈ new_events before_cleanup (@_stage_cleanup small_site web01 before_cleanup).2 ->
   exists r, SnapshotDeleted (plan_vm_name web01)
                             ("vmware2scw-" +:+ migration_id (s_state at_start)) r
             ∈ new_events before_cleanup
                 (@_stage_cleanup small_site web01 before_cleanup).2) /\
  (forall vm name r,
      SnapshotDeleted vm name r
      ∈ new_events before_cleanup (@_stage_cleanup small_site web01 before_cleanup).2 ->
      vm = plan_vm_name web01 /\
      name = "vmware2scw-" +:+ migration_id (s_state at_start)).
Proof.
  assert ((@_stage_snapshot small_site web01 at_start).1 = Ok tt) as Hok
    by (vm_compute; reflexivity).
  assert (artifacts (s_state before_cleanup) !! "snapshot_name"
          = artifacts (s_state (@_stage_snapshot small_site web01 at_start).2)
              !! "snapshot_name") as Hkept
    by (vm_compute; reflexivity).
  split; [exact Hok|]. split; [exact Hkept|].
  exact (@cleanup_deletes_the_snapshot_the_snapshot_stage_created small_site web01
           at_start before_cleanup Hok Hkept).
Defined.

Lemma validate_records_the_vm_witness :
  @vsphere_connect small_site (s_ext at_start) = (Ok tt, s_ext at_start) /\
  (@_stage_validate small_site web01 at_start).1
  = Raise (RuntimeError "Pre-validation failed: cpu: too many cores") /\
  s_state (@_stage_validate small_site web01 at_start).2
  = set_artifacts (<["vm_info" := ADict {[ "guest_os" := "ubuntu64Guest" ]}]>
                     (artifacts (s_state at_start)))
                  (s_state at_start).
Proof.
  destruct (@validate_records_the_vm_and_reports_after_disconnecting small_site web01
              at_start (s_ext at_start) (s_ext at_start)
              ({[ "guest_os" := "ubuntu64Guest" ]} : gmap string string)
              eq_refl eq_refl) as (Hstate & _ & _ & Hresult).
  split; [reflexivity|]. split; [exact Hresult|exact Hstate].
Defined.

End StageServicesFacts.

(** * Handlers and the artifacts they find missing *)

Module OptionalArtifactFacts.
Import Py Pipeline PyFacts PipelineFacts Scenario.

(** ** A record of the destructive calls

    The collaborators that change a disk image in place are the VMware
    tools cleaner, [virt-customize], the BIOS to UEFI conversion and
    virt-v2v.  [recording C] is [C] with a list beside its remote part, to
    which each of them adds a line when it is called; every other
    collaborator works as in [C] and leaves the list alone.  Files the
    handlers delete themselves are seen on the disk of the site. *)

Section Recording.
Variable C : Collaborators.

Definition unrecorded (s : Site (@Remote C * list string)) : Site (@Remote C) :=
  mkSite (disk s) (remote s).1.

Definition recorded (record : list string) (s : Site (@Remote C))
    : Site (@Remote C * list string) :=
  mkSite (disk s) (remote s, record).

Definition passing {A} (c : Site (@Remote C) -> A * Site (@Remote C))
    (s : Site (@Remote C * list string)) : A * Site (@Remote C * list string) :=
  let '(r, s') := c (unrecorded s) in (r, recorded (remote s).2 s').

Definition noting {A} (what : string) (c : Site (@Remote C) -> A * Site (@Remote C))
    (s : Site (@Remote C * list string)) : A * Site (@Remote C * list string) :=
  let '(r, s') := c (unrecorded s) in (r, recorded ((remote s).2 ++ [what]) s').

Definition beside {A} (f : @Remote C -> A * @Remote C)
    (r : @Remote C * list string) : A * (@Remote C * list string) :=
  let '(a, r') := f r.1 in (a, (r', r.2)).

Definition passing_body
    (body : VMMigrationPlan -> MigrationState -> Site (@Remote C) ->
            Res unit * gmap string Artifact * Site (@Remote C))
    (plan : VMMigrationPlan) (state : MigrationState)
    (s : Site (@Remote C * list string))
    : Res unit * gmap string Artifact * Site (@Remote C * list string) :=
  let '(r, a, s') := body plan state (unrecorded s) in
  (r, a, recorded (remote s).2 s').

Definition recording : Collaborators := {|
  Remote := @Remote C * list string;
  uuid8 := beside (@uuid8 C);
  time_time := beside (@time_time C);
  datetime_now := beside (@datetime_now C);
  fmt_elapsed := @fmt_elapsed C;
  fmt_mb := @fmt_mb C;
  path_name := @path_name C;
  path_with_suffix := @path_with_suffix C;
  compress_qcow2 := @compress_qcow2 C;
  default_skip_validation := @default_skip_validation C;
  get_os_family := @get_os_family C;
  cleaner_clean := fun d os => noting ("clean " +:+ d) (@cleaner_clean C d os);
  converter_check := fun d => passing (@converter_check C d);
  converter_convert := fun src dst z => passing (@converter_convert C src dst z);
  run_command_direct_nocheck := fun cmd =>
    noting (String.concat " " (take 3 cmd)) (@run_command_direct_nocheck C cmd);
  detect_boot_type := fun d => passing (@detect_boot_type C d);
  convert_bios_to_uefi := fun d os =>
    noting ("bios2uefi " +:+ d) (@convert_bios_to_uefi C d os);
  create_snapshot_from_s3 := fun z n b k => passing (@create_snapshot_from_s3 C z n b k);
  wait_for_snapshot := fun z i => passing (@wait_for_snapshot C z i);
  create_image := fun z n i => passing (@create_image C z n i);
  inject_virtio_body := fun d os => noting ("virt-v2v " +:+ d) (@inject_virtio_body C d os);
  validate_body := passing_body (@validate_body C);
  snapshot_body := passing_body (@snapshot_body C);
  export_body := passing_body (@export_body C);
  upload_s3_body := passing_body (@upload_s3_body C);
  cleanup_body := passing_body (@cleanup_body C)
|}.

(** The destructive calls made so far. *)
Definition changes_made (w : @World recording) : list string := (remote (site w)).2.

End Recording.

(** The words of the specification for one handler and one of its
    optional inputs: called with the key absent from the bag, whatever
    else the bag holds and whatever the collaborators do, the handler
    returns normally, leaves the key absent, makes no destructive call and
    removes no file. *)
Definition skips_when_absent (stage k : string) : Prop :=
  forall (C : Collaborators) (plan : VMMigrationPlan) (state : MigrationState)
         (w : @World (recording C)),
    artifacts state !! k = None ->
    let run := @_execute_stage (recording C) stage plan state w in
    run.1.1 = Ok tt /\
    artifacts run.1.2 !! k = None /\
    changes_made C run.2 = changes_made C w /\
    (forall p, is_Some (disk (site w) !! p) -> is_Some (disk (site run.2) !! p)).

Lemma untouched_site_skips (C : Collaborators) (stage k : string)
    (plan : VMMigrationPlan) (state : MigrationState) (w : @World (recording C)) :
  (@_execute_stage (recording C) stage plan state w).1.1 = Ok tt ->
  artifacts (@_execute_stage (recording C) stage plan state w).1.2 !! k = None ->
  site (@_execute_stage (recording C) stage plan state w).2 = site w ->
  let run := @_execute_stage (recording C) stage plan state w in
  run.1.1 = Ok tt /\
  artifacts run.1.2 !! k = None /\
  changes_made C run.2 = changes_made C w /\
  (forall p, is_Some (disk (site w) !! p) -> is_Some (disk (site run.2) !! p)).
Proof.
  intros Hok Hk Hsite run. subst run. unfold changes_made. rewrite Hsite. done.
Qed.

Section Dispatch.
Context {C : Collaborators}.

(** [_execute_stage] on a registered stage. *)
Lemma execute_stage_runs stage handler plan state (w : World) :
  getattr_stage stage handler_table = Some handler ->
  _execute_stage stage plan state w
  = ((handler plan (mkH state (site w) (log w))).1,
     h_state (handler plan (mkH state (site w) (log w))).2,
     mkWorld (store w) (h_site (handler plan (mkH state (site w) (log w))).2)
             (h_log (handler plan (mkH state (site w) (log w))).2)
             (invoked w ++ [stage])).
Proof.
  intros Hh. unfold _execute_stage. rewrite Hh.
  by destruct (handler plan (mkH state (site w) (log w))).
Qed.

Lemma guarded_stage_registered stage :
  stage ∈ ["clean_tools"; "inject_virtio"; "fix_bootloader"; "ensure_uefi"] ->
  is_Some (getattr_stage stage handler_table).
Proof.
  intros Hstage. apply handler_of_registered_stage.
  repeat (apply elem_of_cons in Hstage as [->|Hstage]);
    [| | | |by apply elem_of_nil in Hstage];
    by apply (bool_decide_unpack _).
Qed.

Lemma guarded_stage_without_disks stage plan state (w : World) :
  stage ∈ ["clean_tools"; "inject_virtio"; "fix_bootloader"; "ensure_uefi"] ->
  absent_or_empty "qcow2_paths" state ->
  (_execute_stage stage plan state w).1 = (Ok tt, state) /\
  site (_execute_stage stage plan state w).2 = site w /\
  store (_execute_stage stage plan state w).2 = store w.
Proof.
  intros Hstage Habs. destruct (guarded_stage_registered stage Hstage) as [handler Hh].
  destruct (guarded_handlers_return_at_guard stage handler plan
              (mkH state (site w) (log w)) Hstage Hh Habs)
    as (h' & Hl & Hst & Hsite).
  rewrite (execute_stage_runs _ _ _ _ _ Hh), Hl. simpl in *. by rewrite Hst, Hsite.
Qed.

Lemma guarded_stage_without_vm_info stage plan state (w : World) :
  stage ∈ ["clean_tools"; "inject_virtio"; "fix_bootloader"; "ensure_uefi"] ->
  artifacts state !! "vm_info" = None ->
  (_execute_stage stage plan state w).1.1
  = (_execute_stage stage plan (with_empty_vm_info state) w).1.1 /\
  (_execute_stage stage plan state w).2
  = (_execute_stage stage plan (with_empty_vm_info state) w).2.
Proof.
  intros Hstage Hnone. destruct (guarded_stage_registered stage Hstage) as [handler Hh].
  destruct (guarded_handlers_default_vm_info stage handler plan
              (mkH state (site w) (log w)) Hstage Hh Hnone) as (Hr & Hs & Hl).
  rewrite !(execute_stage_runs _ _ _ _ _ Hh). simpl in *.
  split; [exact Hr|]. by rewrite Hs, Hl.
Qed.

Lemma clean_tools_stage_without_vm_info plan state (w : World) boot_disk data_disks :
  artifacts state !! "vm_info" = None ->
  artifacts state !! "qcow2_paths" = Some (AList (boot_disk :: data_disks)) ->
  (_execute_stage "clean_tools" plan state w).1
  = ((cleaner_clean boot_disk (get_os_family "otherLinux64Guest").1 (site w)).1, state) /\
  site (_execute_stage "clean_tools" plan state w).2
  = (cleaner_clean boot_disk (get_os_family "otherLinux64Guest").1 (site w)).2.
Proof.
  intros Hnone Hq.
  destruct (clean_tools_without_vm_info plan (mkH state (site w) (log w))
              boot_disk data_disks Hnone Hq) as (Hr & Hs & Hst).
  rewrite (execute_stage_runs "clean_tools" _stage_clean_tools _ _ _ eq_refl).
  simpl in *. by rewrite Hr, Hs, Hst.
Qed.

Lemma convert_stage_without_sources plan state (w : World) :
  absent_or_empty "vmdk_paths" state ->
  (_execute_stage "convert" plan state w).1
  = (Ok tt, set_artifacts (<["qcow2_paths" := AList []]> (artifacts state)) state) /\
  site (_execute_stage "convert" plan state w).2 = site w /\
  store (_execute_stage "convert" plan state w).2 = store w.
Proof.
  intros Habs.
  rewrite (execute_stage_runs "convert" _stage_convert _ _ _ eq_refl).
  by rewrite (convert_without_sources plan (mkH state (site w) (log w)) Habs).
Qed.

Lemma verify_stage_without_image plan state (w : World) :
  absent_or_blank "scaleway_image_id" state ->
  (_execute_stage "verify" plan state w).1 = (Ok tt, state) /\
  site (_execute_stage "verify" plan state w).2 = site w /\
  store (_execute_stage "verify" plan state w).2 = store w.
Proof.
  intros Habs.
  rewrite (execute_stage_runs "verify" _stage_verify _ _ _ eq_refl).
  by rewrite (verify_without_image plan (mkH state (site w) (log w)) Habs).
Qed.

Lemma import_scw_stage_without_keys plan state (w : World) :
  absent_or_empty "s3_keys" state ->
  (_execute_stage "import_scw" plan state w).1
  = (Raise (match artifacts state !! "s3_bucket" with
            | None => KeyError "s3_bucket"
            | Some _ => RuntimeError "No S3 keys found — upload stage may have failed"
            end),
     state) /\
  site (_execute_stage "import_scw" plan state w).2 = site w /\
  store (_execute_stage "import_scw" plan state w).2 = store w.
Proof.
  intros Habs.
  rewrite (execute_stage_runs "import_scw" _stage_import_scw _ _ _ eq_refl).
  by rewrite (import_scw_without_keys plan (mkH state (site w) (log w)) Habs).
Qed.

End Dispatch.

(** The pairs of a handler and an optional input for which the words of
    the specification hold. *)
Definition skipping_pairs : list (string * string) :=
  [ ("clean_tools", "qcow2_paths"); ("inject_virtio", "qcow2_paths");
    ("fix_bootloader", "qcow2_paths"); ("ensure_uefi", "qcow2_paths");
    ("convert", "vmdk_paths"); ("verify", "scaleway_image_id") ].

Lemma guarded_pair_skips stage :
  stage ∈ ["clean_tools"; "inject_virtio"; "fix_bootloader"; "ensure_uefi"] ->
  skips_when_absent stage "qcow2_paths".
Proof.
  intros Hstage C plan state w Hnone.
  destruct (@guarded_stage_without_disks (recording C) stage plan state w Hstage
              (or_introl Hnone)) as (Hrun & Hsite & _).
  apply untouched_site_skips; [by rewrite Hrun|by rewrite Hrun|exact Hsite].
Qed.

Lemma skipping_pairs_skip stage k :
  (stage, k) ∈ skipping_pairs -> k ∈ optional_inputs stage /\ skips_when_absent stage k.
Proof.
  unfold skipping_pairs. intros Hin.
  repeat (apply elem_of_cons in Hin as [[= -> ->]|Hin]);
    [| | | | | |by apply elem_of_nil in Hin].
  1-4: split; [by apply (bool_decide_unpack _)|];
       apply guarded_pair_skips; by apply (bool_decide_unpack _).
  - split; [by apply (bool_decide_unpack _)|]. intros C plan state w Hnone.
    destruct (@convert_stage_without_sources (recording C) plan state w
                (or_introl Hnone)) as (Hrun & Hsite & _).
    apply untouched_site_skips; [by rewrite Hrun| |exact Hsite].
    rewrite Hrun. simpl. by rewrite lookup_insert_ne.
  - split; [by apply (bool_decide_unpack _)|]. intros C plan state w Hnone.
    destruct (@verify_stage_without_image (recording C) plan state w
                (or_introl Hnone)) as (Hrun & Hsite & _).
    apply untouched_site_skips; [by rewrite Hrun|by rewrite Hrun|exact Hsite].
Qed.

Lemma absent_is_falsy k state :
  absent_or_blank k state -> StageServices.truthy (artifacts state !! k) = false.
Proof. by intros [-> | ->]. Qed.

Lemma absent_closes_the_gate k state :
  k ∈ ["scaleway_image_id"; "s3_keys"; "s3_bucket"] ->
  artifacts state !! k = None ->
  StageServicesFacts.transit_gate state = false.
Proof.
  intros Hk Hnone. unfold StageServicesFacts.transit_gate, StageServicesFacts.listed.
  repeat (apply elem_of_cons in Hk as [->|Hk]); [| | |by apply elem_of_nil in Hk];
    rewrite Hnone; simpl.
  - done.
  - by rewrite andb_false_r.
  - by rewrite andb_false_r.
Qed.

(** C7, as amended.  Among the optional inputs of the handlers, the list
    of disks a handler works on is the one whose absence makes it skip its
    work.  The words of the specification (return normally, no destructive
    action, key still absent) hold for [clean_tools], [inject_virtio],
    [fix_bootloader] and [ensure_uefi] without [qcow2_paths], for [convert]
    without [vmdk_paths] and for [verify] without [scaleway_image_id].
    More precisely, for any collaborators: the first four, with
    [qcow2_paths] absent or empty, return normally and leave the state, the
    site and the store as they were; [convert], with [vmdk_paths] absent or
    empty, converts and deletes nothing and records an empty [qcow2_paths];
    [verify], with [scaleway_image_id] absent or empty, leaves everything
    but the log as it was.  An absent [vm_info] does not make a handler
    skip anything: the four handlers that read it act exactly as with an
    empty description recorded, so [clean_tools], given a disk, cleans the
    boot disk for the OS family of [otherLinux64Guest], and its result is
    the cleaner's.  [import_scw] raises when [s3_keys] is absent or empty,
    before any cloud call: [KeyError] when [s3_bucket] is missing, the "No
    S3 keys found" [RuntimeError] otherwise.  Of the two handlers that talk
    to the services: [upload_s3], with [qcow2_paths] absent or empty, opens
    the storage and makes sure of the bucket, uploads nothing, and, when
    both calls succeed, returns normally and records an empty [s3_keys]
    and the bucket; [cleanup] never writes to the bag, opens no vCenter
    session and deletes no snapshot when [snapshot_name] is absent or
    empty, makes no call to object storage when [scaleway_image_id],
    [s3_keys] or [s3_bucket] is absent, and removes the work directory
    whenever it exists and can be measured, whatever the bag holds. *)
Theorem absent_disk_lists_skip_the_work_and_absent_vm_info_does_not :
  (forall stage k,
      (stage, k) ∈ skipping_pairs ->
      k ∈ optional_inputs stage /\ skips_when_absent stage k) /\
  (forall (C : Collaborators) (plan : VMMigrationPlan) (state : MigrationState)
          (w : @World C),
      (forall stage,
          stage ∈ ["clean_tools"; "inject_virtio"; "fix_bootloader"; "ensure_uefi"] ->
          (absent_or_empty "qcow2_paths" state ->
           (_execute_stage stage plan state w).1 = (Ok tt, state) /\
           site (_execute_stage stage plan state w).2 = site w /\
           store (_execute_stage stage plan state w).2 = store w) /\
          (artifacts state !! "vm_info" = None ->
           (_execute_stage stage plan state w).1.1
           = (_execute_stage stage plan (with_empty_vm_info state) w).1.1 /\
           (_execute_stage stage plan state w).2
           = (_execute_stage stage plan (with_empty_vm_info state) w).2)) /\
      (forall boot_disk data_disks,
          artifacts state !! "vm_info" = None ->
          artifacts state !! "qcow2_paths" = Some (AList (boot_disk :: data_disks)) ->
          (_execute_stage "clean_tools" plan state w).1
          = ((cleaner_clean boot_disk (get_os_family "otherLinux64Guest").1 (site w)).1,
             state) /\
          site (_execute_stage "clean_tools" plan state w).2
          = (cleaner_clean boot_disk (get_os_family "otherLinux64Guest").1 (site w)).2) /\
      (absent_or_empty "vmdk_paths" state ->
       (_execute_stage "convert" plan state w).1
       = (Ok tt, set_artifacts (<["qcow2_paths" := AList []]> (artifacts state)) state) /\
       site (_execute_stage "convert" plan state w).2 = site w /\
       store (_execute_stage "convert" plan state w).2 = store w) /\
      (absent_or_blank "scaleway_image_id" state ->
       (_execute_stage "verify" plan state w).1 = (Ok tt, state) /\
       site (_execute_stage "verify" plan state w).2 = site w /\
       store (_execute_stage "verify" plan state w).2 = store w) /\
      (absent_or_empty "s3_keys" state ->
       (_execute_stage "import_scw" plan state w).1
       = (Raise (match artifacts state !! "s3_bucket" with
                 | None => KeyError "s3_bucket"
                 | Some _ =>
                     RuntimeError "No S3 keys found — upload stage may have failed"
                 end),
          state) /\
       site (_execute_stage "import_scw" plan state w).2 = site w /\
       store (_execute_stage "import_scw" plan state w).2 = store w)) /\
  (forall (V : StageServices.Services) (plan : VMMigrationPlan)
          (s : @StageServices.SState V),
      let uploaded := StageServices._stage_upload_s3 plan s in
      let cleaned := StageServices._stage_cleanup plan s in
      let bucket := StageServices.config_s3_bucket in
      let work_dir :=
        StageServices.work_dir_for (migration_id (StageServices.s_state s)) in
      (absent_or_empty "qcow2_paths" (StageServices.s_state s) ->
       match (StageServices.s3_open (StageServices.s_ext s)).1 with
       | Raise e =>
           uploaded.1 = Raise e /\
           StageServices.new_events s uploaded.2 = [StageServices.S3Opened (Raise e)] /\
           StageServices.s_state uploaded.2 = StageServices.s_state s
       | Ok _ =>
           match (StageServices.create_bucket_if_not_exists bucket
                    (StageServices.s3_open (StageServices.s_ext s)).2).1 with
           | Raise e =>
               uploaded.1 = Raise e /\
               StageServices.new_events s uploaded.2
               = [StageServices.S3Opened (Ok tt);
                  StageServices.BucketEnsured bucket (Raise e)] /\
               StageServices.s_state uploaded.2 = StageServices.s_state s
           | Ok _ =>
               uploaded.1 = Ok tt /\
               StageServices.new_events s uploaded.2
               = [StageServices.S3Opened (Ok tt);
                  StageServices.BucketEnsured bucket (Ok tt)] /\
               StageServices.s_state uploaded.2
               = set_artifacts
                   (<["s3_bucket" := AStr bucket]>
                      (<["s3_keys" := AList []]>
                         (artifacts (StageServices.s_state s))))
                   (StageServices.s_state s)
           end
       end) /\
      StageServices.s_state cleaned.2 = StageServices.s_state s /\
      (absent_or_blank "snapshot_name" (StageServices.s_state s) ->
       StageServicesFacts.offline (StageServices.new_events s cleaned.2)) /\
      (forall k,
          k ∈ ["scaleway_image_id"; "s3_keys"; "s3_bucket"] ->
          artifacts (StageServices.s_state s) !! k = None ->
          StageServicesFacts.quiet (StageServices.new_events s cleaned.2)) /\
      (forall x1 size x2,
          StageServices.dir_exists work_dir (StageServices.s_ext s) = (Ok true, x1) ->
          StageServices.tree_size work_dir x1 = (Ok size, x2) ->
          StageServices.TreeRemoved work_dir ∈ StageServices.new_events s cleaned.2)).
Proof.
  split; [exact skipping_pairs_skip|]. split.
  - intros C plan state w. split_and!.
    + intros stage Hstage. split.
      * by apply guarded_stage_without_disks.
      * by apply guarded_stage_without_vm_info.
    + apply clean_tools_stage_without_vm_info.
    + apply convert_stage_without_sources.
    + apply verify_stage_without_image.
    + apply import_scw_stage_without_keys.
  - intros V plan s uploaded cleaned bucket work_dir. split_and!.
    + intros Habs. apply StageServicesFacts.upload_s3_without_disks.
      unfold StageServicesFacts.listed. by destruct Habs as [-> | ->].
    + destruct (StageServices._stage_cleanup plan s) as [r s'] eqn:E.
      by apply StageServicesFacts.cleanup_steady in E.
    + intros Habs. apply StageServicesFacts.cleanup_without_snapshot_name.
      by apply absent_is_falsy.
    + intros k Hk Hnone. apply StageServicesFacts.cleanup_without_transit.
      by apply (absent_closes_the_gate k).
    + apply StageServicesFacts.cleanup_removes_the_work_dir.
Qed.

(** ** On the example site *)

Definition nothing_converted : MigrationState := stopped ["snapshot"].

(** A migration that skipped validation, with one converted disk, on a
    site that records the destructive calls. *)
Definition disk_without_vm_info : MigrationState :=
  mkState "a1b2c3d4" "web01" "PRO2-S" "fr-par-1" "clean_tools"
          ["snapshot"; "export"; "convert"]
          {[ "qcow2_paths" := AList ["/work/disk0.qcow2"] ]} 0 None.

Definition recorded_world : @World (recording (flaky 0)) :=
  @mkWorld (recording (flaky 0))
           {[ migration_id disk_without_vm_info := disk_without_vm_info ]}
           (mkSite {[ "/work/disk0.qcow2" := File 1 ]} (([] : list string), []))
           [] [].

Lemma absent_disk_lists_witness :
  ("clean_tools", "qcow2_paths") ∈ skipping_pairs /\
  artifacts nothing_converted !! "qcow2_paths" = None /\
  (@_execute_stage (recording (flaky 0)) "clean_tools" skipping_plan nothing_converted
     recorded_world).1 = (Ok tt, nothing_converted) /\
  changes_made (flaky 0)
    (@_execute_stage (recording (flaky 0)) "clean_tools" skipping_plan
       nothing_converted recorded_world).2 = [] /\
  (@_execute_stage (flaky 0) "import_scw" skipping_plan nothing_converted
     (world_with (flaky 0) empty_site nothing_converted)).1
  = (Raise (KeyError "s3_bucket"), nothing_converted).
Proof.
  destruct absent_disk_lists_skip_the_work_and_absent_vm_info_does_not
    as (Hpairs & Hhandlers & _).
  assert (("clean_tools", "qcow2_paths") ∈ skipping_pairs) as Hin
    by (by apply (bool_decide_unpack _)).
  destruct (Hpairs "clean_tools" "qcow2_paths" Hin) as [_ Hskip].
  destruct (Hskip (flaky 0) skipping_plan nothing_converted recorded_world eq_refl)
    as (_ & _ & Hchanges & _).
  destruct (Hhandlers (recording (flaky 0)) skipping_plan nothing_converted
              recorded_world) as (Hguarded & _).
  destruct (Hguarded "clean_tools") as [Hdisks _];
    [by apply (bool_decide_unpack _)|].
  destruct (Hdisks (or_introl eq_refl)) as (Hrun & _ & _).
  destruct (Hhandlers (flaky 0) skipping_plan nothing_converted
              (world_with (flaky 0) empty_site nothing_converted))
    as (_ & _ & _ & _ & Himport).
  destruct (Himport (or_introl eq_refl)) as (Hraise & _ & _).
  split; [exact Hin|]. split; [reflexivity|]. split; [exact Hrun|].
  split; [exact Hchanges|exact Hraise].
Defined.

(** C7 as stated fails for [vm_info], an optional input whose absence
    means "use a default": [clean_tools] reads it with
    [state.artifacts.get("vm_info", {})]; when it is absent (validation was
    skipped) and a converted disk is listed, the handler returns normally
    and leaves the key absent, but it has cleaned the boot disk. *)
Lemma clean_tools_without_vm_info_cleans_the_disk :
  "vm_info" ∈ optional_inputs "clean_tools" /\
  artifacts disk_without_vm_info !! "vm_info" = None /\
  remote (site (@_execute_stage (flaky 0) "clean_tools" skipping_plan
                  disk_without_vm_info
                  (world_with (flaky 0)
                     (mkSite {[ "/work/disk0.qcow2" := File 1 ]} ([] : list string))
                     disk_without_vm_info)).2)
  = ["clean /work/disk0.qcow2"] /\
  (@_execute_stage (recording (flaky 0)) "clean_tools" skipping_plan
     disk_without_vm_info recorded_world).1 = (Ok tt, disk_without_vm_info) /\
  changes_made (flaky 0) recorded_world = [] /\
  changes_made (flaky 0)
    (@_execute_stage (recording (flaky 0)) "clean_tools" skipping_plan
       disk_without_vm_info recorded_world).2 = ["clean /work/disk0.qcow2"] /\
  ~ skips_when_absent "clean_tools" "vm_info".
Proof.
  assert ("vm_info" ∈ optional_inputs "clean_tools") as Hin
    by (by apply (bool_decide_unpack _)).
  assert (changes_made (flaky 0)
            (@_execute_stage (recording (flaky 0)) "clean_tools" skipping_plan
               disk_without_vm_info recorded_world).2 = ["clean /work/disk0.qcow2"])
    as Hcleaned by (vm_compute; reflexivity).
  split_and!; [exact Hin|reflexivity|reflexivity|vm_compute; reflexivity|reflexivity
              |exact Hcleaned|].
  intros Hclaim.
  destruct (Hclaim (flaky 0) skipping_plan disk_without_vm_info recorded_world eq_refl)
    as (_ & _ & Hchanges & _).
  rewrite Hcleaned in Hchanges. discriminate Hchanges.
Qed.

End OptionalArtifactFacts.
